(* ===== verification/_CoqProject ===== *)
-Q . S2P
Prelude.v
GoStd.v
Float.v
Rounding.v
GoJson.v
Lang.v
Flags.v
K8sLib.v
JsonDecode.v
JsonTotal.v
Template.v
TemplateTotal.v
Api.v
Copies.v
Reporter.v
State.v
Defaults.v
Utils.v
Config.v
Hashes.v
Effects.v
Database.v
Connect.v
Rendering.v
Iteration.v
Validate.v
Pipeline.v
Validation.v
Sim.v
Manager.v
StatusUpdate.v
Stale.v
Deviation.v
Reconcile.v
ReconcileProps.v
ValidationProps.v
Accuracy.v
Routing.v
Typing.v
Converged.v
Connections.v
Interface.v
Setup.v
Termination.v
Writes.v
System.v
View.v
Progress.v
Lifecycle.v
