(* ===== verification/Prelude.v ===== *)
(** * The Cyndi operator: a verification library

    Cyndi is a Kubernetes operator. A CyndiPipeline resource asks for a copy of
    (a part of) the host inventory in the database of an application. For each
    version of a pipeline the operator creates a table and a Kafka connector
    that fills it; the application reads through the view inventory.hosts. When
    the configuration changes the pipeline is refreshed: a new version is filled
    next to the old one, and the view moves once the new table is valid.

    Two controllers work on the same resource, each in a loop of its own:

    - the pipeline controller (cyndipipeline_controller.go) creates versions,
      switches the view and removes what no version needs any more;
    - the validation controller (validation_controller.go) compares the table
      with the inventory and records the outcome in the status.

    They communicate through the status of the resource only.

    ** From code to library

    Paths are relative to src/. A Go function is a definition of the same name;
    a method that changes its receiver returns the new receiver; a function
    that calls the cluster or a database is a program [prog] (Effects.v), and a
    run-time panic is its leaf [Panic]. A Go pair (value, err) is a [result];
    int64 is Z with its wrap-around written out (GoStd.v, [Int64]), float64 is
    the standard library's specification of binary64 (Float.v), a Go string is
    a string of bytes, a map with string keys is a gmap.

    The language and the libraries:

    - Prelude.v: strings, generic lemmas, tactics.
    - GoStd.v, Float.v, GoJson.v, Flags.v: what the code uses of Go's standard
      library: strings, strconv, fmt's verbs for numbers, encoding/json of
      strings, maps and structs, FNV-1a, package flag; [gvalue] is an
      interface{} value. Rounding.v bounds the errors of float64 operations.
    - JsonDecode.v, JsonTotal.v: json.Unmarshal into an interface{}; its fuel is
      enough for every text.
    - Template.v, TemplateTotal.v: the part of text/template that the default
      templates use; its fuel is enough for every text.
    - K8sLib.v: the third-party packages, each as a class of operations with a
      class of laws: status conditions, finalizers, cmp.Equal and cmp.Diff,
      text/template, unstructured objects. [Ref] holds concrete instances, which
      the witnesses and the simulation use. No theorem depends on an instance.

    The parts of the program:

    - Lang.v (controllers/utils/lang.go), Utils.v (controllers/utils/misc.go and
      the hashes of k8s.go).
    - Api.v (api/v1alpha1/cyndipipeline_types.go); State.v (state.go, utils.go):
      the state of a pipeline is computed from its status; Copies.v
      (zz_generated.deepcopy.go, on a store with addresses).
    - Defaults.v, Config.v (controllers/config): the configuration resolved from
      resource, config maps and defaults; database secrets.
    - Effects.v: the calls that leave the process, programs, their runs, and the
      predicate transformer and program logic used in all later files.
    - Database.v, Interface.v (controllers/database; Interface.v has the Go
      interface Database with its contract and the two databases as instances),
      Connect.v (controllers/connect).
    - Iteration.v: the state both controllers share (controllers/iteration.go),
      with controllers/config.go, probes.go, diff.go (NumberNormalizer),
      metrics/metrics.go and the fetching functions of utils/k8s.go. [Libs]
      bundles the classes of K8sLib.v. Reporter.v: the DiffReporter of diff.go.
    - Validate.v (controllers/validate.go), Pipeline.v
      (cyndipipeline_controller.go), Validation.v (validation_controller.go).
      The long method Reconcile is cut at its states: [reconcile_body] is
      everything between setup and Close, [reconcile_new], [reconcile_running],
      [reconcile_valid], [reconcile_invalid] the branches, [start_version],
      [start_table], [start_connector] the steps of the first.
    - Manager.v (main.go, api/v1alpha1/groupversion_info.go, the constructors and
      SetupWithManager of both controllers, registration in metrics.go): the
      start of the process is a program of calls to controller-runtime.

    Models of the surroundings:

    - Sim.v: a small world of resources, connectors, tables and a view, in which
      both controllers run; scenarios evaluated by computation.
    - System.v: any number of runs of both controllers, interleaved call by call
      with each other and with users, over an API server with optimistic locking
      and stale reads.
    - View.v: what the commands of the operator do to the view; Routing.v: how
      controller-runtime delivers events to the two controllers.

    All other files hold theorems: Hashes.v, Rendering.v, StatusUpdate.v,
    Stale.v, Deviation.v, Reconcile.v, ReconcileProps.v, ValidationProps.v,
    Accuracy.v, Typing.v, Converged.v, Connections.v, Setup.v, Termination.v, Writes.v,
    Progress.v and Lifecycle.v.

    ** What the theorems show

    A theorem about [runs p t r] holds for every behaviour of the cluster and
    the databases: [t] is any sequence of calls with any answers, failures
    included, and [r] the outcome. No answer is assumed unless the theorem says
    so.

    - The state machine (State.v, ValidationProps.v): the states in terms of the
      fields; the operations on the status refine the project's state diagram;
      everything either controller writes for a well-formed pipeline stays on
      it; UNKNOWN is unreachable.
    - Concurrency (Writes.v, System.v): every update is made from the version the
      run fetched, and the histories of the resource under any interleaving
      keep the invariants of the state machine.
    - Safety of data (Stale.v, ReconcileProps.v, View.v): while a pipeline lives,
      what its status or a complete answer about the view names is not removed,
      what nothing names is removed; the view moves only to the pipeline's own
      table and only when it is valid or gives up for the first time; the view
      is lost only with the resource, through a failed question about it, or by
      the configured script; new versions are created in a safe order, the
      finalizer goes last.
    - Liveness (Progress.v, Lifecycle.v, Termination.v, Converged.v, Routing.v):
      every run ends after a bounded number of calls; when the calls of an
      iteration succeed, the pipeline moves on towards VALID or to its removal;
      three such iterations take a new pipeline to a served view; nothing is
      written for a converged pipeline; the statuses written wake the controller
      that has to act on them, and so does whatever happens to a connector.
    - Preparation (Setup.v): the outcome of setup on every branch, and the
      configuration in force against its reference definition.
    - Validation (ValidationProps.v, Accuracy.v): where a verdict comes from, and
      that the float64 comparisons decide like exact ones except on equality;
      tables with the same hosts pass. Of the cluster a run of the validation
      controller writes the status only (Writes.v).
    - Deviation (Deviation.v, Connect.v): what the absence of a problem means,
      down to the values of the configuration; when a connector the operator
      created passes; no credentials in connectors; pausing converges.
    - Connectors (Connect.v, Rendering.v): what CreateConnector sends, and what a
      connector of the default template is configured with, from the text of
      the template over its rendering to the decoded JSON.
    - Configuration (Config.v, Hashes.v): errors, where every setting comes
      from, which changes refresh; equal hashes mean equal sources up to a collision of FNV-1a.
    - Queries (Database.v): text of the queries, rotation of the password.
    - Resources, types and errors (Connections.v, Interface.v, Typing.v,
      ReconcileProps.v, StatusUpdate.v, Copies.v): connections are closed, both
      databases meet the contract of their interface, the causes of panics,
      integers fit 64 bits and metrics get the labels they were declared with,
      the status is written when it changed, bounds of the requeue delay, deep
      copies share nothing with their originals.
    - Start of the process (Manager.v, Routing.v): the calls made for every
      spelling of the command line; which events reach which controller.

    Some theorems state what the code does where that is not what it means to
    do: AppConnect_spec, view_stays_up (a failed question about the view),
    no_deviation_sound (an unreadable configuration), config_map_routing,
    requeue_delay_bounds, and the lemmas
    unknown_view_loses_connectors, truncated_results_accepted and
    threshold_rounding.

    ** What is assumed

    A theorem about code that calls a package outside of the repository is
    stated for every instance of its class of operations that satisfies the
    class of laws: [LibsOk] (meta conditions, finalizers, unstructured, go-cmp:
    an empty difference means equality as package cmp documents it, [structural],
    under the options given),
    [TemplateEngineOk] (on the part of the language in Template.v the engine
    renders as documented), [ControllerRuntimeOk] (delivery of events),
    [MetaCopyOk] (deep copies of metadata), [PgViewOk] (the view after create or
    replace view and drop). Each has an instance, in which the witnesses
    evaluate. default_connector_config asks for contents that JSON shows as they
    are, and versions_determine_settings for contents in UTF-8.

    ** Bounds and fuel

    The loops of the program are structural recursions on their lists. Fuel is
    used in the models of Go's libraries only: [Float64.shortest] and
    [Float64.strip], which print a float64 (20 digits, and 17 always suffice);
    the JSON decoder (twice the length of the text, [JsonTotal.value_fuel]); the
    lexer and the parser of templates (lengths of their input, TemplateTotal.v).

    ** Not modelled

    Log messages; the set-up of the test environment (test/, which is no part of
    the operator) and the manifests; the transition times of conditions; the
    field Now of an iteration, which nothing reads. The partly filled values
    that Go returns next to an error are left out where no caller reads them:
    the configuration, the database parameters, the connector next to a failed
    Create. Closing after a panic (defer) is not modelled. A nil map and an
    empty map of settings are the same, as are a nil slice and an empty one; the
    code does not tell them apart. Generated deep copies are modelled on their
    own (Copies.v); elsewhere a copy of a value is the value, which
    deep_copies_independent justifies.

    ** Continuation

    Progress of whole histories in System.v under a fair environment. *)

From Stdlib Require Import ZArith Lia Ascii String.
From stdpp Require Export base tactics list gmap strings option.

#[export] Set Default Goal Selector "!".

(** ** Notations *)

Declare Scope cyndi_scope.
Delimit Scope cyndi_scope with cyndi.

(** Go strings are byte sequences: Rocq strings, whose characters are bytes. *)
Notation "s1 +s+ s2" := (String.append s1 s2)
  (at level 60, right associativity) : cyndi_scope.
#[export] Set Warnings "-notation-overridden,-clear-no-such-hyp".
Open Scope cyndi_scope.

(** ** Tactics *)

(** Case analysis on the scrutinee of a [match] or [if] in the goal. *)
Ltac case_goal :=
  match goal with
  | |- context [match ?x with _ => _ end] => destruct x eqn:?
  end.

(** The same in a hypothesis. *)
Ltac case_hyp H :=
  match type of H with
  | context [match ?x with _ => _ end] => destruct x eqn:?
  end.

(** Boolean equalities of the standard library turned into propositions. *)
Ltac breflect :=
  repeat match goal with
  | H : String.eqb _ _ = true |- _ => apply String.eqb_eq in H
  | H : String.eqb _ _ = false |- _ => apply String.eqb_neq in H
  | H : Z.eqb _ _ = true |- _ => apply Z.eqb_eq in H
  | H : Z.eqb _ _ = false |- _ => apply Z.eqb_neq in H
  | H : Z.ltb _ _ = true |- _ => apply Z.ltb_lt in H
  | H : Z.ltb _ _ = false |- _ => apply Z.ltb_ge in H
  | H : Z.leb _ _ = true |- _ => apply Z.leb_le in H
  | H : Z.leb _ _ = false |- _ => apply Z.leb_gt in H
  | H : (_ && _)%bool = true |- _ => apply Bool.andb_true_iff in H as [? ?]
  | H : (_ || _)%bool = false |- _ => apply Bool.orb_false_iff in H as [? ?]
  | H : negb _ = true |- _ => apply Bool.negb_true_iff in H
  | H : negb _ = false |- _ => apply Bool.negb_false_iff in H
  end.

(** ** Strings *)

Create HintDb cyndi_str discriminated.

#[global] Arguments String.append !_ _ / : simpl nomatch.

Lemma append_nil_r (s : string) : s +s+ EmptyString = s.
Proof. induction s as [|c s IH]; simpl; congruence. Qed.

Lemma append_nil_l (s : string) : EmptyString +s+ s = s.
Proof. done. Qed.

Lemma append_assoc (a b c : string) : (a +s+ b) +s+ c = a +s+ (b +s+ c).
Proof. induction a as [|x a IH]; simpl; congruence. Qed.

Lemma append_inj_l (a b c : string) : a +s+ b = a +s+ c -> b = c.
Proof. induction a as [|x a IH]; simpl; [done|]. intros [= ?]; auto. Qed.

Lemma append_length (a b : string) :
  String.length (a +s+ b) = String.length a + String.length b.
Proof. induction a as [|x a IH]; simpl; congruence. Qed.

Lemma append_inj_r (a b c : string) : a +s+ c = b +s+ c -> a = b.
Proof.
  revert b; induction a as [|x a IH]; intros [|y b]; simpl; intros E; try done.
  - apply (f_equal String.length) in E; simpl in E.
    rewrite append_length in E; lia.
  - apply (f_equal String.length) in E; simpl in E.
    rewrite append_length in E; lia.
  - injection E as -> E. f_equal; auto.
Qed.

Lemma append_eq_nil (a b : string) :
  a +s+ b = EmptyString -> a = EmptyString /\ b = EmptyString.
Proof. destruct a; simpl; [done | discriminate]. Qed.

Create Rewrite HintDb cyndi_strw.
#[export] Hint Rewrite append_nil_l append_nil_r append_assoc append_length : cyndi_strw.
#[export] Hint Resolve append_inj_l append_inj_r : cyndi_str.

(** The pieces of a text one after the other *)
Fixpoint cat (l : list string) : string :=
  match l with [] => EmptyString | s :: l => s +s+ cat l end.

Lemma cat_app (a b : list string) : cat (a ++ b) = cat a +s+ cat b.
Proof. induction a as [|s a IH]; [done|]. cbn [cat app]. by rewrite IH, append_assoc. Qed.

(** The pieces before a text *)
Fixpoint cat_then (l : list string) (k : string) : string :=
  match l with [] => k | s :: l => s +s+ cat_then l k end.

Lemma cat_then_eq (l : list string) (k : string) : cat_then l k = cat l +s+ k.
Proof. induction l as [|s l IH]; [done|]. cbn [cat cat_then]. by rewrite IH, append_assoc. Qed.

(** Bytes of a string, as numbers. *)
Definition byte_of (c : ascii) : Z := Z.of_N (N_of_ascii c).

Lemma byte_of_range (c : ascii) : (0 <= byte_of c < 256)%Z.
Proof. unfold byte_of. pose proof (N_ascii_bounded c). lia. Qed.

(** ** Lists *)

Lemma Forall_filter_bool {A} (f : A -> bool) (P : A -> Prop) (l : list A) :
  Forall P l -> Forall P (List.filter f l).
Proof. induction 1; simpl; [constructor|]. destruct (f x); auto. Qed.

Lemma existsb_eqb_In (l : list string) (s : string) :
  List.existsb (String.eqb s) l = true <-> In s l.
Proof.
  rewrite existsb_exists. split.
  - intros (x & Hx & ->%String.eqb_eq). done.
  - intros H. exists s. by rewrite String.eqb_refl.
Qed.
