(* ===== verification/GoStd.v ===== *)
(** * The part of the Go language and standard library the operator uses

    [Int64]: 64-bit two's complement arithmetic. [Strings]: package strings
    on byte strings. [Strconv]: package strconv for base-10 integers and
    booleans, with the round trip between [FormatInt] and [ParseInt]. *)

From Stdlib Require Import ZArith Lia Ascii String DecimalString DecimalZ DecimalFacts.
From S2P Require Import Prelude.

(** ** Machine integers *)

Module Int64.
Local Open Scope Z_scope.

Definition min_value : Z := - 2 ^ 63.
Definition max_value : Z := 2 ^ 63 - 1.

Definition in_range (z : Z) : Prop := min_value <= z <= max_value.

(** The value an int64 operation leaves when its exact result is [z]. *)
Definition wrap (z : Z) : Z := (z + 2 ^ 63) mod 2 ^ 64 - 2 ^ 63.

Definition add (x y : Z) : Z := wrap (x + y).
Definition sub (x y : Z) : Z := wrap (x - y).
Definition mul (x y : Z) : Z := wrap (x * y).
Definition neg (x : Z) : Z := wrap (- x).

Lemma wrap_in_range (z : Z) : in_range (wrap z).
Proof.
  unfold in_range, wrap, min_value, max_value.
  pose proof (Z.mod_pos_bound (z + 2 ^ 63) (2 ^ 64) ltac:(lia)). lia.
Qed.

Lemma wrap_id (z : Z) : in_range z -> wrap z = z.
Proof.
  unfold in_range, wrap, min_value, max_value. intros H.
  rewrite Z.mod_small; lia.
Qed.

Lemma in_range_b (z : Z) :
  in_range z <-> (min_value <=? z) && (z <=? max_value) = true.
Proof.
  unfold in_range. rewrite Bool.andb_true_iff, !Z.leb_le. done.
Qed.
End Int64.

#[export] Hint Resolve Int64.wrap_in_range : cyndi_str.

(** ** Package strings *)

Module Strings.

(** strings.Join *)
Definition Join (elems : list string) (sep : string) : string :=
  String.concat sep elems.

(** strings.Contains *)
Fixpoint Contains (s substr : string) : bool :=
  String.prefix substr s ||
  match s with
  | EmptyString => false
  | String _ s' => Contains s' substr
  end.

(** strings.Replace for a non-empty [old]: leftmost matches, no overlap, at
    most [n] of them ([n < 0]: all). [skip] counts the bytes of a match that
    are still to be dropped. *)
Fixpoint replace_from (old new : string) (s : string) (skip : nat) (n : Z)
  : string :=
  match s with
  | EmptyString => EmptyString
  | String c s' =>
      match skip with
      | S k => replace_from old new s' k n
      | O =>
          if negb (Z.eqb n 0) && String.prefix old s
          then new +s+ replace_from old new s' (String.length old - 1) (n - 1)
          else String c (replace_from old new s' 0 n)
      end
  end.

Definition Replace (s old new : string) (n : Z) : string :=
  replace_from old new s 0 n.

Definition ReplaceAll (s old new : string) : string :=
  replace_from old new s 0 (-1).

(** strings.ToUpper on the ASCII range; bytes from 128 up are kept, the
    Unicode case tables are not modelled. *)
Definition upper_byte (c : ascii) : ascii :=
  let n := N_of_ascii c in
  if (N.leb 97 n && N.leb n 122)%bool then ascii_of_N (n - 32) else c.

Fixpoint ToUpper (s : string) : string :=
  match s with
  | EmptyString => EmptyString
  | String c s' => String (upper_byte c) (ToUpper s')
  end.

Lemma Contains_app (a b c : string) : Contains (a +s+ b +s+ c) b = true.
Proof.
  induction a as [|x a IH]; simpl.
  - assert (P : String.prefix b (b +s+ c) = true).
    { induction b as [|y b IHb]; simpl; [by destruct c|].
      by destruct (ascii_dec y y). }
    destruct (b +s+ c) eqn:E; cbn [Contains]; by rewrite P.
  - rewrite IH. apply Bool.orb_true_r.
Qed.

Lemma prefix_app (p s : string) : String.prefix p s = true <-> exists r, s = p +s+ r.
Proof.
  revert s. induction p as [|x p IH]; intros s; simpl.
  - split; intros _; [by exists s|by destruct s].
  - destruct s as [|y s]; [split; [intros E; discriminate E|intros [r E]; discriminate E]|].
    simpl. destruct (ascii_dec x y) as [->|N]; [|split; [done|intros [r E]; simpl in E; congruence]].
    rewrite IH. split; intros [r E]; exists r; simpl in *; congruence.
Qed.

Lemma Contains_true (s b : string) :
  Contains s b = true <-> exists a c, s = a +s+ b +s+ c.
Proof.
  split; [|intros (a & c & ->); apply Contains_app].
  induction s as [|x s IH]; cbn [Contains]; intros [P|C]%orb_true_iff.
  1, 3: apply prefix_app in P as [c ->]; by exists EmptyString, c.
  - done.
  - destruct (IH C) as (a & c & ->). by exists (String x a), c.
Qed.

End Strings.

(** ** Package strconv *)

Module Strconv.
Local Open Scope Z_scope.

(** strconv.FormatInt(z, 10) *)
Definition FormatInt (z : Z) : string := NilZero.string_of_int (Z.to_int z).

(** strconv.FormatBool *)
Definition FormatBool (b : bool) : string := if b then "true" else "false".

(** strconv.ParseBool: [None] is a syntax error *)
Definition ParseBool (s : string) : option bool :=
  if existsb (String.eqb s) ["1"; "t"; "T"; "TRUE"; "true"; "True"]%string
  then Some true
  else if existsb (String.eqb s) ["0"; "f"; "F"; "FALSE"; "false"; "False"]%string
  then Some false
  else None.

Definition digit (c : ascii) : option Z :=
  let n := byte_of c in
  if (48 <=? n) && (n <=? 57) then Some (n - 48) else None.

(** The digits of [s] read after the value [acc]; [None] when a byte is not
    a decimal digit. *)
Fixpoint parse_digits (s : string) (acc : Z) : option Z :=
  match s with
  | EmptyString => Some acc
  | String c s' =>
      match digit c with
      | Some d => parse_digits s' (10 * acc + d)
      | None => None
      end
  end.

(** strconv.ParseInt(s, 10, 64): an optional sign, then at least one digit;
    [None] is a syntax error or a value outside int64. *)
Definition ParseInt (s : string) : option Z :=
  let '(neg, rest) :=
    match s with
    | String c s' =>
        if Ascii.eqb c "-" then (true, s')
        else if Ascii.eqb c "+" then (false, s') else (false, s)
    | EmptyString => (false, s)
    end in
  match rest with
  | EmptyString => None
  | _ =>
      match parse_digits rest 0 with
      | Some n =>
          let z := if neg then - n else n in
          if (Int64.min_value <=? z) && (z <=? Int64.max_value) then Some z else None
      | None => None
      end
  end.

Lemma ParseInt_in_range (s : string) (z : Z) :
  ParseInt s = Some z -> Int64.in_range z.
Proof.
  unfold ParseInt. destruct (match s with String _ _ => _ | _ => _ end) as [neg rest].
  destruct rest; [done|]. destruct (parse_digits _ _) as [n|]; [|done].
  destruct (_ && _) eqn:E; [|done]. intros [= <-]. by apply Int64.in_range_b.
Qed.

(** Reading back the digits that [FormatInt] writes. *)
Lemma parse_digits_uint (d : Decimal.uint) (p : positive) :
  parse_digits (NilEmpty.string_of_uint d) (Zpos p) = Some (Zpos (Pos.of_uint_acc d p)).
Proof.
  revert p. induction d; intros p; [done|..];
    cbn [NilEmpty.string_of_uint parse_digits Pos.of_uint_acc];
    match goal with |- context [digit ?c] =>
      let v := eval vm_compute in (digit c) in change (digit c) with v end;
    cbn iota beta; rewrite <- IHd; f_equal; lia.
Qed.

Lemma parse_digits_uint0 (d : Decimal.uint) :
  parse_digits (NilEmpty.string_of_uint d) 0 = Some (Z.of_N (Pos.of_uint d)).
Proof.
  induction d; [done|..];
    cbn [NilEmpty.string_of_uint parse_digits Pos.of_uint];
    match goal with |- context [digit ?c] =>
      let v := eval vm_compute in (digit c) in change (digit c) with v end;
    cbn iota beta; [exact IHd|..]; apply parse_digits_uint.
Qed.

Lemma string_of_uint_not_sign (d : Decimal.uint) :
  match NilEmpty.string_of_uint d with
  | String c _ => Ascii.eqb c "-" = false /\ Ascii.eqb c "+" = false
  | EmptyString => d = Decimal.Nil
  end.
Proof. by destruct d. Qed.

Lemma to_uint_not_nil (p : positive) : Pos.to_uint p <> Decimal.Nil.
Proof. apply DecimalPos.Unsigned.to_uint_nonnil. Qed.

Lemma nilzero_nonnil (d : Decimal.uint) :
  d <> Decimal.Nil -> NilZero.string_of_uint d = NilEmpty.string_of_uint d.
Proof. by destruct d. Qed.

(** strconv.ParseInt reads back what strconv.FormatInt writes. *)
Lemma ParseInt_FormatInt (z : Z) : Int64.in_range z -> ParseInt (FormatInt z) = Some z.
Proof.
  intros R. unfold FormatInt. destruct z as [|p|p]; [done|..]; simpl Z.to_int.
  - cbn [NilZero.string_of_int]. rewrite (nilzero_nonnil _ (to_uint_not_nil p)).
    unfold ParseInt. pose proof (string_of_uint_not_sign (Pos.to_uint p)) as NS.
    pose proof (parse_digits_uint0 (Pos.to_uint p)) as P.
    rewrite DecimalPos.Unsigned.of_to in P.
    destruct (NilEmpty.string_of_uint _) as [|c s]; [by destruct (to_uint_not_nil p)|].
    destruct NS as [-> ->]. rewrite P. simpl Z.of_N.
    apply Int64.in_range_b in R. by rewrite R.
  - cbn [NilZero.string_of_int]. rewrite (nilzero_nonnil _ (to_uint_not_nil p)).
    unfold ParseInt. pose proof (parse_digits_uint0 (Pos.to_uint p)) as P.
    rewrite DecimalPos.Unsigned.of_to in P.
    pose proof (string_of_uint_not_sign (Pos.to_uint p)) as NS.
    cbn -[Int64.min_value Int64.max_value Z.leb parse_digits NilEmpty.string_of_uint].
    destruct (NilEmpty.string_of_uint _) as [|c s];
      [by destruct (to_uint_not_nil p)|].
    rewrite P. change (- Z.of_N (N.pos p)) with (Z.neg p).
    apply Int64.in_range_b in R. by rewrite R.
Qed.

Lemma FormatInt_inj (x y : Z) :
  Int64.in_range x -> Int64.in_range y -> FormatInt x = FormatInt y -> x = y.
Proof.
  intros Hx Hy E. apply ParseInt_FormatInt in Hx, Hy. congruence.
Qed.

Lemma ParseBool_FormatBool (b : bool) : ParseBool (FormatBool b) = Some b.
Proof. by destruct b. Qed.

End Strconv.
