(* ===== verification/Float.v ===== *)
(** * float64 arithmetic and formatting

    Binary64 numbers are the specification floats of the Standard Library with
    a precision of 53 bits and a maximal exponent of 1024; every operation
    rounds to nearest, ties to even, as Go's do. [Float64] holds the operations
    the operator uses, and the conversions of package fmt: the verb %.2f
    (exact decimal value rounded half to even) and %v (the shortest decimal
    that reads back as the same number). *)

From Stdlib Require Import ZArith Lia String SpecFloat.
From S2P Require Import Prelude GoStd.

Abbreviation float64 := spec_float.

#[export] Instance float64_eq_dec : EqDecision float64.
Proof. solve_decision. Defined.

Module Float64.
Local Open Scope Z_scope.

Definition prec : Z := 53.
Definition emax : Z := 1024.

(** The conversion float64(x) of an integer *)
Definition of_int (x : Z) : float64 := binary_normalize prec emax x 0 false.

Definition mul (x y : float64) : float64 := SFmul prec emax x y.
Definition div (x y : float64) : float64 := SFdiv prec emax x y.
Definition leb (x y : float64) : bool := SFleb x y.
Definition ltb (x y : float64) : bool := SFltb x y.

(** math.Max, on the operands that occur: no NaN, no zeros of opposite signs *)
Definition max (x y : float64) : float64 := if ltb y x then x else y.

Definition half : float64 := S754_finite false 4503599627370496 (-53).
Definition one : float64 := of_int 1.
Definition hundred : float64 := of_int 100.

(** ** Formatting *)

Definition sign_string (s : bool) : string := if s then "-" else EmptyString.

(** The integer nearest to n / d (0 <= n, 0 < d), ties to even. *)
Definition round_div (n d : Z) : Z :=
  let q := n / d in
  let r := n mod d in
  if 2 * r <? d then q
  else if d <? 2 * r then q + 1
  else if Z.even q then q else q + 1.

(** m * 2^e as a fraction *)
Definition frac (m : positive) (e : Z) : Z * Z :=
  if 0 <=? e then (Zpos m * 2 ^ e, 1) else (Zpos m, 2 ^ (- e)).

Definition digits2 (z : Z) : string :=
  if z <? 10 then "0" +s+ Strconv.FormatInt z else Strconv.FormatInt z.

(** fmt.Sprintf of the verb %.2f *)
Definition Format2 (x : float64) : string :=
  match x with
  | S754_nan => "NaN"
  | S754_infinity s => if s then "-Inf" else "+Inf"
  | S754_zero s => sign_string s +s+ "0.00"
  | S754_finite s m e =>
      let '(n, d) := frac m e in
      let c := round_div (n * 100) d in
      sign_string s +s+ Strconv.FormatInt (c / 100) +s+ "." +s+ digits2 (c mod 100)
  end.

(** Is the decimal k * 10^p inside the rounding interval of m * 2^e? With
    everything scaled to integers: the interval reaches half a unit in the last
    place to both sides (a quarter below a power of two), and contains its ends
    when m is even. *)
Definition reads_back (m : positive) (e k p : Z) : bool :=
  let lower := if (Zpos m =? 2 ^ 52) && (-1074 <? e) then 4 * Zpos m - 1 else 4 * Zpos m - 2 in
  let upper := 4 * Zpos m + 2 in
  (* compare k * 10^p with lower * 2^(e-2) and upper * 2^(e-2) *)
  let e' := e - 2 in
  let scale10 := if 0 <=? p then 10 ^ p else 1 in
  let unscale10 := if 0 <=? p then 1 else 10 ^ (- p) in
  let scale2 := if 0 <=? e' then 2 ^ e' else 1 in
  let unscale2 := if 0 <=? e' then 1 else 2 ^ (- e') in
  let v := k * scale10 * unscale2 in
  let lo := lower * scale2 * unscale10 in
  let hi := upper * scale2 * unscale10 in
  if Z.even (Zpos m) then (lo <=? v) && (v <=? hi) else (lo <? v) && (v <? hi).

(** The nearest integer to m * 2^e / 10^p *)
Definition nearest_at (m : positive) (e p : Z) : Z :=
  let '(n, d) := frac m e in
  if 0 <=? p then round_div n (d * 10 ^ p) else round_div (n * 10 ^ (- p)) d.

(** The shortest decimal k * 10^p that reads back, searched from the coarsest
    power of ten down. *)
Fixpoint shortest (fuel : nat) (m : positive) (e p : Z) : Z * Z :=
  let k := nearest_at m e p in
  match fuel with
  | O => (k, p)
  | S fuel' => if negb (k =? 0) && reads_back m e k p then (k, p) else shortest fuel' m e (p - 1)
  end.

(** Remove trailing zeros of the digits. *)
Fixpoint strip (fuel : nat) (k p : Z) : Z * Z :=
  match fuel with
  | O => (k, p)
  | S fuel' => if (k mod 10 =? 0) && (0 <? k) then strip fuel' (k / 10) (p + 1) else (k, p)
  end.

Fixpoint zeros (n : nat) : string :=
  match n with O => EmptyString | S n' => "0" +s+ zeros n' end.

(** The verb %v: %g with the shortest digits; scientific notation when the
    decimal exponent is below -4 or at least 6. *)
Definition FormatV (x : float64) : string :=
  match x with
  | S754_nan => "NaN"
  | S754_infinity s => if s then "-Inf" else "+Inf"
  | S754_zero s => sign_string s +s+ "0"
  | S754_finite s m e =>
      (* 17 digits always read back *)
      let log10 := ((e + Z.log2 (Zpos m)) * 30103) / 100000 in
      let '(k, p) := shortest 20 m e (log10 + 1) in
      let '(k, p) := strip 20 k p in
      let ds := Strconv.FormatInt k in
      let nd := Z.of_nat (String.length ds) in
      let exp := nd + p - 1 in
      sign_string s +s+
      (if (exp <? -4) || (6 <=? exp) then
         String.substring 0 1 ds +s+
         (if nd =? 1 then EmptyString else "." +s+ String.substring 1 (Z.to_nat nd - 1) ds) +s+
         "e" +s+ (if exp <? 0 then "-" else "+") +s+ digits2 (Z.abs exp)
       else if exp <? 0 then "0." +s+ zeros (Z.to_nat (- exp - 1)) +s+ ds
       else if 0 <=? p then ds +s+ zeros (Z.to_nat p)
       else String.substring 0 (Z.to_nat (exp + 1)) ds +s+ "." +s+
            String.substring (Z.to_nat (exp + 1)) (Z.to_nat (- p)) ds)
  end.
(** ** Signs *)

Definition nonneg (x : float64) : bool :=
  match x with
  | S754_zero _ | S754_infinity false | S754_finite false _ _ => true
  | _ => false
  end.

Lemma shr_1_nonneg r : 0 <= shr_m r -> 0 <= shr_m (shr_1 r).
Proof. destruct r as [[|[p|p|]|p] b c]; simpl; lia. Qed.

Lemma iter_shr_nonneg (p : positive) r :
  0 <= shr_m r -> 0 <= shr_m (SpecFloat.iter_pos shr_1 p r).
Proof.
  revert r. induction p as [p IH|p IH|]; intros r H; simpl; auto using shr_1_nonneg.
Qed.

Lemma shr_fexp_nonneg m e l : 0 <= m -> 0 <= shr_m (shr_fexp prec emax m e l).1.
Proof.
  intros H. unfold shr_fexp, shr.
  assert (0 <= shr_m (shr_record_of_loc m l)) by (destruct l as [|[]]; simpl; lia).
  destruct (_ - e); simpl; [done| |done]. by apply iter_shr_nonneg.
Qed.

Lemma round_nearest_even_nonneg m l : 0 <= m -> 0 <= round_nearest_even m l.
Proof. destruct l as [|[]]; simpl; [lia| |lia..]. destruct (Z.even m); lia. Qed.

Lemma round_aux_nonneg m e l : 0 <= m -> nonneg (binary_round_aux prec emax false m e l) = true.
Proof.
  intros H. unfold binary_round_aux.
  pose proof (shr_fexp_nonneg m e l H) as H1.
  destruct (shr_fexp prec emax m e l) as [mrs' e']. simpl in H1.
  pose proof (shr_fexp_nonneg _ e' loc_Exact
    (round_nearest_even_nonneg _ (loc_of_shr_record mrs') H1)) as H2.
  destruct (shr_fexp prec emax (round_nearest_even _ _) e' loc_Exact) as [mrs'' e'']. simpl in H2.
  destruct (shr_m mrs''); simpl; [done|by destruct (_ <=? _)|lia].
Qed.

Lemma of_int_nonneg n : 0 <= n -> nonneg (of_int n) = true.
Proof.
  unfold of_int, binary_normalize. destruct n as [|p|p]; intros H; [done| |lia].
  unfold binary_round. destruct (shl_align _ _ _). by apply round_aux_nonneg.
Qed.

Lemma leb_zero s x : nonneg x = true -> leb (S754_zero s) x = true.
Proof. by destruct x as [|[]| |[] ? ?]. Qed.

(** Zero divided by a number that is at least one *)
Lemma div_zero_max y : exists s, div (of_int 0) (max y one) = S754_zero s.
Proof.
  unfold max. destruct (ltb one y) eqn:E.
  - destruct y as [[]|[]| |s m e]; try done; by eexists.
  - by exists false.
Qed.

(** ** Integers of 64 bits are in range *)

Lemma shr_1_le r : 0 <= shr_m r -> 0 <= shr_m (shr_1 r) <= shr_m r.
Proof. destruct r as [[|[p|p|]|p] b c]; simpl; lia. Qed.

Lemma iter_shr_le (p : positive) r :
  0 <= shr_m r -> 0 <= shr_m (SpecFloat.iter_pos shr_1 p r) <= shr_m r.
Proof.
  revert r. induction p as [p IH|p IH|]; intros r H; simpl; [| |by apply shr_1_le].
  - pose proof (shr_1_le r H). pose proof (IH (shr_1 r) ltac:(lia)).
    pose proof (IH (SpecFloat.iter_pos shr_1 p (shr_1 r)) ltac:(lia)). lia.
  - pose proof (IH r H). pose proof (IH (SpecFloat.iter_pos shr_1 p r) ltac:(lia)). lia.
Qed.

(** Rounding shifts to the exponent that fits, and does not enlarge. *)
Lemma shr_fexp_bounds m e l : 0 <= m ->
  0 <= shr_m (shr_fexp prec emax m e l).1 <= m /\
  (shr_fexp prec emax m e l).2 = Z.max e (fexp prec emax (Zdigits2 m + e)).
Proof.
  intros H. unfold shr_fexp, shr.
  assert (E : shr_m (shr_record_of_loc m l) = m) by (destruct l as [|[]]; done).
  destruct (_ - e) eqn:D; cbn [fst snd]; rewrite ?E; [lia| |lia].
  split; [|lia]. rewrite <- E at 3. apply iter_shr_le. by rewrite E.
Qed.

Lemma digits2_pos_pow p : 2 ^ (Zpos (digits2_pos p) - 1) <= Zpos p < 2 ^ Zpos (digits2_pos p).
Proof.
  induction p as [p IH|p IH|]; simpl digits2_pos; [| |done];
    rewrite Pos2Z.inj_succ;
    replace (Z.succ (Zpos (digits2_pos p)) - 1) with (Z.succ (Zpos (digits2_pos p) - 1)) by lia;
    rewrite !Z.pow_succ_r by lia; lia.
Qed.

Lemma Zdigits2_le m n : 0 <= n -> 0 <= m < 2 ^ n -> Zdigits2 m <= n.
Proof.
  intros Hn [H0 H]. destruct m as [|p|p]; simpl; [lia| |lia].
  pose proof (digits2_pos_pow p) as [D _]. apply Z.nlt_ge. intros L.
  assert (2 ^ n <= 2 ^ (Zpos (digits2_pos p) - 1)) by (apply Z.pow_le_mono_r; lia). lia.
Qed.

Lemma round_nearest_even_le m l : 0 <= m -> 0 <= round_nearest_even m l <= m + 1.
Proof. destruct l as [|[]]; simpl; [lia| |lia..]. destruct (Z.even m); lia. Qed.

Definition finite (x : float64) : bool :=
  match x with S754_zero _ | S754_finite _ _ _ => true | _ => false end.

Lemma round_aux_finite s m e : 0 <= m < 2 ^ 100 -> e <= 100 ->
  finite (binary_round_aux prec emax s m e loc_Exact) = true.
Proof.
  intros H He. unfold binary_round_aux.
  pose proof (shr_fexp_bounds m e loc_Exact ltac:(lia)) as [B1 E1].
  destruct (shr_fexp prec emax m e loc_Exact) as [mrs' e']. cbn [fst snd] in *.
  pose proof (round_nearest_even_le (shr_m mrs') (loc_of_shr_record mrs') ltac:(lia)) as R.
  pose proof (shr_fexp_bounds _ e' loc_Exact (proj1 R)) as [B2 E2].
  destruct (shr_fexp prec emax (round_nearest_even _ _) e' loc_Exact) as [mrs'' e'']. cbn [fst snd] in *.
  assert (e' <= 200 /\ e'' <= 400) as [_ L].
  { pose proof (Zdigits2_le m 100 ltac:(lia) ltac:(lia)).
    pose proof (Zdigits2_le (round_nearest_even (shr_m mrs') (loc_of_shr_record mrs')) 101
      ltac:(lia) ltac:(change (2 ^ 101) with (2 * 2 ^ 100); lia)).
    unfold fexp, emin, prec, emax in *. lia. }
  destruct (shr_m mrs'') as [|p|p] eqn:M; [done| |lia].
  cbn. destruct (Z.leb_spec e'' (emax - prec)); [done|]. unfold emax, prec in *. lia.
Qed.

Lemma iter_xO p d : Zpos (Pos.iter xO p d) = Zpos p * 2 ^ Zpos d.
Proof.
  induction d as [|d IH] using Pos.peano_ind; [simpl; lia|].
  rewrite Pos.iter_succ, Pos2Z.inj_succ, Z.pow_succ_r by lia.
  change (Zpos (xO (Pos.iter xO p d))) with (2 * Zpos (Pos.iter xO p d)). lia.
Qed.

Lemma of_int_finite z : Z.abs z < 2 ^ 64 -> finite (of_int z) = true.
Proof.
  intros H. unfold of_int, binary_normalize.
  assert (P : forall s p, Zpos p < 2 ^ 64 -> finite (binary_round prec emax s p 0) = true).
  { intros s p Hp. unfold binary_round, shl_align.
    pose proof (digits2_pos_pow p) as [_ D].
    destruct (_ - 0) as [|d|d] eqn:E; [apply round_aux_finite; lia|apply round_aux_finite; lia|].
    unfold fexp, emin, prec, emax in *.
    apply round_aux_finite; [|lia]. split; [lia|].
    rewrite iter_xO.
    assert (S : 2 ^ Zpos (digits2_pos p) * 2 ^ Zpos d = 2 ^ 53).
    { rewrite <- Z.pow_add_r by lia. f_equal. lia. }
    pose proof (Z.pow_pos_nonneg 2 (Zpos d) ltac:(lia) ltac:(lia)). nia. }
  destruct z as [|p|p]; [done|apply P; lia|apply P; lia].
Qed.

Lemma mul_zero_hundred s : exists s', mul (S754_zero s) hundred = S754_zero s'.
Proof. vm_compute. by eexists. Qed.

End Float64.

(** Known answers of fmt. *)
Example format2_seven : Float64.Format2 (Float64.mul (Float64.div (Float64.of_int 7)
    (Float64.of_int 100)) Float64.hundred) = "7.00".
Proof. vm_compute. reflexivity. Qed.

Example formatV_examples :
  Float64.FormatV <$> [Float64.of_int 0; Float64.of_int 100; Float64.of_int 999999;
    Float64.of_int 1000000; Float64.of_int 123456789; Float64.of_int (-45);
    Float64.div (Float64.of_int 1) (Float64.of_int 10);
    Float64.div (Float64.of_int 1) (Float64.of_int 3);
    Float64.div (Float64.of_int 45) (Float64.of_int 1000000);
    Float64.div (Float64.of_int 5) (Float64.of_int 2)]
  = ["0"; "100"; "999999"; "1e+06"; "1.23456789e+08"; "-45"; "0.1"; "0.3333333333333333";
     "4.5e-05"; "2.5"].
Proof. vm_compute. reflexivity. Qed.

(** The rounding of 7 / 100 * 100 exceeds 7. *)
Example seven_percent :
  Float64.leb (Float64.mul (Float64.div (Float64.of_int 7) (Float64.of_int 100))
                 Float64.hundred) (Float64.of_int 7) = false.
Proof. vm_compute. reflexivity. Qed.
