(* ===== verification/Rounding.v ===== *)
(** * How exact float64 arithmetic is

    Division and multiplication of the specification floats (Float.v) return the
    nearest representable number, integers below 2^53 are represented exactly,
    and comparison is comparison of the values. Values are measured in units of
    2^-1074, the distance of the smallest floats, so that all of them are
    integers ([val]). Only positive normal numbers of moderate size are
    considered ([float]): that is where the proportions of a validation are. *)

From Stdlib Require Import ZArith Lia SpecFloat.
From S2P Require Import Prelude GoStd Float.

Module Rounding.
Import Float64.
Local Open Scope Z_scope.

(** ** Shifting right with sticky bits *)

(** [r] stands for a / b: its integral part, and where the rest lies. *)
Definition inside (a b : Z) (r : shr_record) : Prop :=
  0 < b /\ 0 <= shr_m r /\ exists k, a = shr_m r * b + k /\ 0 <= k < b /\
    match shr_r r, shr_s r with
    | false, false => k = 0
    | false, true => 0 < 2 * k < b
    | true, false => 2 * k = b
    | true, true => b < 2 * k
    end.

Lemma inside_shr_1 a b r : inside a b r -> inside a (2 * b) (shr_1 r).
Proof.
  intros (B & N & k & E & K & C). destruct r as [m d s]. cbn in *.
  destruct m as [|[m|m|]|m]; try lia; (split; [lia|]); cbn; (split; [lia|]).
  - exists k. destruct d, s; cbn; lia.
  - exists (b + k). destruct d, s; cbn; lia.
  - exists k. destruct d, s; cbn; lia.
  - exists (b + k). destruct d, s; cbn; lia.
Qed.

Lemma inside_iter (p : positive) : forall a b r,
  inside a b r -> inside a (2 ^ Zpos p * b) (@SpecFloat.iter_pos _ shr_1 p r).
Proof.
  induction p as [p IH|p IH|]; intros a b r I; cbn [SpecFloat.iter_pos].
  - replace (2 ^ Zpos (xI p) * b) with (2 ^ Zpos p * (2 ^ Zpos p * (2 * b))); [by apply IH, IH, inside_shr_1|].
    replace (Zpos (xI p)) with (Zpos p + Zpos p + 1) by lia.
    rewrite !Z.pow_add_r by lia. ring.
  - replace (2 ^ Zpos (xO p) * b) with (2 ^ Zpos p * (2 ^ Zpos p * b)); [by apply IH, IH|].
    replace (Zpos (xO p)) with (Zpos p + Zpos p) by lia.
    rewrite !Z.pow_add_r by lia. ring.
  - by apply inside_shr_1.
Qed.

(** A positive number and its digits *)
Lemma digits_pow m : 0 < m -> 2 ^ (Zdigits2 m - 1) <= m < 2 ^ Zdigits2 m.
Proof. destruct m as [|p|p]; try lia. intros _. apply digits2_pos_pow. Qed.

Lemma digits_unique m n : 0 < n -> 2 ^ (n - 1) <= m < 2 ^ n -> Zdigits2 m = n.
Proof.
  intros N [L U]. assert (0 < m) by (pose proof (Z.pow_pos_nonneg 2 (n - 1)); lia).
  destruct (digits_pow m) as [L' U']; [done|].
  destruct (Z.lt_trichotomy (Zdigits2 m) n) as [D|[D|D]]; [|done|].
  - pose proof (Z.pow_le_mono_r 2 (Zdigits2 m) (n - 1)). lia.
  - pose proof (Z.pow_le_mono_r 2 n (Zdigits2 m - 1)). lia.
Qed.

(** ** Rounding *)

Lemma inside_exact m : 0 <= m -> inside m 1 (shr_record_of_loc m loc_Exact).
Proof. intros. split; [lia|]. split; [done|]. exists 0. cbn. lia. Qed.

(** Shifting leaves 53 digits. *)
Lemma shr_fexp_fits a b m e l (n := Zdigits2 m - prec) :
  inside a b (shr_record_of_loc m l) -> 0 < m -> 0 <= n -> -1074 <= e + n ->
  exists r, shr_fexp prec emax m e l = (r, e + n) /\ inside a (2 ^ n * b) r /\ 2 ^ 52 <= shr_m r < 2 ^ 53.
Proof.
  intros I M N E. assert (F : fexp prec emax (Zdigits2 m + e) - e = n)
    by (unfold fexp, emin, n, prec, emax in *; lia).
  unfold shr_fexp. rewrite F. destruct (digits_pow m M) as [L U].
  assert (Pn : 0 < 2 ^ n) by (by apply Z.pow_pos_nonneg).
  assert (U2 : 2 ^ Zdigits2 m = 2 ^ 53 * 2 ^ n)
    by (rewrite <- Z.pow_add_r by lia; f_equal; unfold n, prec; lia).
  assert (L2 : 2 ^ (Zdigits2 m - 1) = 2 ^ 52 * 2 ^ n)
    by (rewrite <- Z.pow_add_r by lia; f_equal; unfold n, prec; lia).
  assert (S : shr_m (shr_record_of_loc m l) = m) by (destruct l as [|[]]; done).
  assert (G : exists r, shr (shr_record_of_loc m l) e n = (r, e + n) /\ inside a (2 ^ n * b) r).
  { unfold shr. destruct n as [|p|p]; [|by eexists; split; [done|apply inside_iter]|lia].
    eexists. split; [by rewrite Z.add_0_r|]. by rewrite Z.mul_1_l. }
  destruct G as (r & -> & J). exists r. split; [done|]. split; [done|].
  destruct I as (B & _ & k & Ea & Hk & _). rewrite S in Ea. destruct J as (B' & P & k' & Ea' & Hk' & _).
  rewrite U2 in U. rewrite L2 in L. set (c := 2 ^ n) in *. nia.
Qed.

(** The nearest integer *)
Lemma nearest_int a b r (R := round_nearest_even (shr_m r) (loc_of_shr_record r)) :
  inside a b r -> Z.abs (2 * (R * b - a)) <= b /\ shr_m r <= R <= shr_m r + 1.
Proof.
  intros (B & N & k & E & K & C). subst R. destruct r as [m d s]. cbn in *.
  destruct d, s; cbn; [| |lia|lia]; [split; lia|]. destruct (Z.even m); split; lia.
Qed.

(** ** Floats and their values *)

(** One unit in the last place of a float with the exponent [e] *)
Definition ulp (e : Z) : Z := 2 ^ (e + 1074).

(** [x] is the positive normal number m * 2^e, of moderate size. *)
Definition float (x : float64) (m e : Z) : Prop :=
  x = S754_finite false (Z.to_pos m) e /\ 2 ^ 52 <= m < 2 ^ 53 /\ -500 <= e <= 500.

Lemma ulp_pos e : -1074 <= e -> 0 < ulp e.
Proof. intros. apply Z.pow_pos_nonneg; lia. Qed.

Lemma ulp_add e n : -1074 <= e -> 0 <= n -> ulp (e + n) = 2 ^ n * ulp e.
Proof. intros. unfold ulp. rewrite <- Z.pow_add_r by lia. f_equal. lia. Qed.

(** The result of rounding (a / b) * 2^e is off by half a unit at most. *)
Lemma round_near a b m e l (n := Zdigits2 m - prec) :
  inside a b (shr_record_of_loc m l) -> 0 < m -> 0 <= n -> -1074 <= e -> -500 <= e + n <= 499 ->
  exists M E, float (binary_round_aux prec emax false m e l) M E /\
    e + n <= E <= e + n + 1 /\ Z.abs (2 * (M * ulp E * b - a * ulp e)) <= ulp (e + n) * b.
Proof.
  intros I P N Le B. unfold binary_round_aux.
  destruct (shr_fexp_fits a b m e l I P N) as (r & -> & J & Lr); [fold n; lia|]. fold n in J |- *.
  destruct (nearest_int _ _ _ J) as [A R]. set (x := round_nearest_even _ _) in *.
  assert (C : inside x 1 (shr_record_of_loc x loc_Exact)) by (apply inside_exact; lia).
  assert (B0 : 0 < b) by (by destruct I).
  pose proof (ulp_pos e Le) as U0. pose proof (ulp_add e n Le N) as Un.
  assert (H : Z.abs (2 * (x * ulp (e + n) * b - a * ulp e)) <= ulp (e + n) * b).
  { rewrite Un. replace (2 * _) with (2 * (x * (2 ^ n * b) - a) * ulp e) by ring.
    rewrite Z.abs_mul, (Z.abs_eq (ulp e)) by lia. nia. }
  destruct (Z.eq_dec x (2 ^ 53)) as [Ex|Nx].
  - assert (D : Zdigits2 x = 54) by (by rewrite Ex).
    destruct (shr_fexp_fits x 1 x (e + n) loc_Exact C) as (r' & Er & J' & Lr'); [unfold prec; lia..|].
    rewrite D in *. rewrite Er. change (54 - prec) with 1 in *. destruct r' as [m' d s]. cbn [shr_m] in *.
    assert (m' = 2 ^ 52) as -> by (destruct J' as (_ & _ & k & Ek & Hk & _); cbn in *; lia).
    exists (2 ^ 52), (e + n + 1). split.
    + rewrite (proj2 (Z.leb_le (e + n + 1) (emax - prec))) by (unfold emax, prec; lia).
      split; [done|]. lia.
    + split; [lia|]. rewrite (ulp_add (e + n) 1) by lia. rewrite Ex in H.
      pose proof (ulp_pos (e + n) ltac:(lia)). change (2 ^ 53) with (2 ^ 52 * 2) in H. nia.
  - assert (D : Zdigits2 x = 53) by (apply digits_unique; lia).
    destruct (shr_fexp_fits x 1 x (e + n) loc_Exact C) as (r' & Er & J' & Lr'); [unfold prec; lia..|].
    rewrite D in *. rewrite Er. change (53 - prec) with 0 in *. destruct r' as [m' d s]. cbn [shr_m] in *.
    assert (m' = x) as -> by (destruct J' as (_ & _ & k & Ek & Hk & _); cbn in *; lia).
    rewrite Z.add_0_r. exists x, (e + n). split; [|by split; [lia|]].
    rewrite (proj2 (Z.leb_le (e + n) (emax - prec))) by (unfold emax, prec; lia).
    split; [|lia]. by destruct x as [|p|p]; try lia.
Qed.

(** ** Operations *)

(** The value of a float, in units of 2^-1074 *)
Definition val (x : float64) : Z :=
  match x with
  | S754_finite s m e => (if s then -1 else 1) * (Zpos m * ulp e)
  | _ => 0
  end.

Lemma val_float x m e : float x m e -> val x = m * ulp e.
Proof. intros (-> & ? & ?). cbn [val]. rewrite Z2Pos.id by lia. ring. Qed.

Lemma digits_float m : 2 ^ 52 <= m < 2 ^ 53 -> Zdigits2 m = 53.
Proof. intros. apply digits_unique; lia. Qed.

Lemma half_unit d u : 0 < u -> Z.abs (2 * (d * u)) <= u -> d = 0.
Proof. nia. Qed.

(** An integral multiple of a power of two of moderate size is a float. *)
Lemma of_int_float z : 0 < z < 2 ^ 53 ->
  exists m e, float (of_int z) m e /\ -52 <= e <= 0 /\ m * ulp e = z * ulp 0.
Proof.
  intros B. destruct (digits_pow z) as [L U]; [lia|].
  assert (D : 0 < Zdigits2 z <= 53).
  { split; [destruct z; cbn [Zdigits2]; lia|]. apply Z.nlt_ge. intros G.
    pose proof (Z.pow_le_mono_r 2 53 (Zdigits2 z - 1)). lia. }
  set (n := 53 - Zdigits2 z) in *.
  assert (S : 2 ^ 52 <= z * 2 ^ n < 2 ^ 53).
  { replace (2 ^ 53) with (2 ^ Zdigits2 z * 2 ^ n) by (rewrite <- Z.pow_add_r by lia; f_equal; lia).
    replace (2 ^ 52) with (2 ^ (Zdigits2 z - 1) * 2 ^ n) by (rewrite <- Z.pow_add_r by lia; f_equal; lia).
    pose proof (Z.pow_pos_nonneg 2 n ltac:(lia) ltac:(lia)). nia. }
  assert (E : of_int z = binary_round_aux prec emax false (z * 2 ^ n) (- n) loc_Exact).
  { destruct z as [|p|p]; try lia. unfold of_int, binary_normalize, binary_round, shl_align.
    change (Zpos (digits2_pos p)) with (Zdigits2 (Zpos p)).
    assert (F : fexp prec emax (Zdigits2 (Zpos p) + 0) - 0 = - n)
      by (unfold fexp, emin, n, prec, emax in *; lia). rewrite F.
    assert (F' : fexp prec emax (Zdigits2 (Zpos p) + 0) = - n) by lia. rewrite F'.
    clear F F' S. destruct n as [|q|q] eqn:En; [by rewrite Z.mul_1_r|..|lia].
    exact (f_equal (fun m => binary_round_aux prec emax false m (Zneg q) loc_Exact) (iter_xO p q)). }
  pose proof (digits_float _ S) as D'.
  destruct (round_near (z * 2 ^ n) 1 (z * 2 ^ n) (- n) loc_Exact) as (m & e & Fl & Ee & H);
    rewrite ?D'; change (53 - prec) with 0; try lia.
  { apply inside_exact. lia. }
  rewrite D' in *. change (53 - prec) with 0 in *. rewrite Z.add_0_r in *.
  assert (U0 : ulp 0 = 2 ^ n * ulp (- n)) by (rewrite <- ulp_add by lia; f_equal; lia).
  pose proof (ulp_pos (- n) ltac:(lia)) as Up.
  destruct (Z.eq_dec e (- n)) as [->|].
  - exists m, (- n). rewrite E. split; [done|]. split; [lia|].
    replace (2 * _) with (2 * ((m - z * 2 ^ n) * ulp (- n))) in H by ring. rewrite Z.mul_1_r in H.
    apply half_unit in H; [|done]. rewrite U0, Z.mul_assoc. f_equal. lia.
  - exfalso. replace e with (- n + 1) in * by lia. destruct Fl as (_ & Bm & _).
    rewrite (ulp_add (- n) 1) in H by lia. change (2 ^ 1) with 2 in H.
    replace (2 * _) with (2 * ((2 * m - z * 2 ^ n) * ulp (- n))) in H by ring. rewrite Z.mul_1_r in H.
    apply half_unit in H; [|done]. lia.
Qed.

(** Comparison is comparison of values. *)
Lemma compare_float x y m e m' e' :
  float x m e -> float y m' e' -> SFcompare x y = Some (val x ?= val y).
Proof.
  intros Fx Fy. rewrite (val_float _ _ _ Fx), (val_float _ _ _ Fy).
  destruct Fx as (-> & Bx & Ex), Fy as (-> & By & Ey). cbn [SFcompare]. f_equal.
  assert (L : forall e e' m m', -500 <= e < e' -> 2 ^ 52 <= m < 2 ^ 53 -> 2 ^ 52 <= m' -> m * ulp e < m' * ulp e').
  { intros a b p q Ha Hp Hq. replace b with (a + (1 + (b - a - 1))) by lia. rewrite ulp_add by lia.
    rewrite Z.pow_add_r by lia. pose proof (ulp_pos a ltac:(lia)).
    pose proof (Z.pow_pos_nonneg 2 (b - a - 1) ltac:(lia) ltac:(lia)).
    rewrite Z.mul_assoc. apply Z.mul_lt_mono_pos_r; [done|]. change (2 ^ 1) with 2.
    change (2 ^ 53) with (2 ^ 52 * 2) in Hp. nia. }
  destruct (Z.compare_spec e e') as [->|Lt|Gt].
  - change (Pos.compare_cont Eq (Z.to_pos m) (Z.to_pos m')) with (Zpos (Z.to_pos m) ?= Zpos (Z.to_pos m')).
    rewrite !Z2Pos.id by lia. pose proof (ulp_pos e' ltac:(lia)).
    destruct (Z.compare_spec m m'); symmetry; [apply Z.compare_eq_iff|apply Z.compare_lt_iff|apply Z.compare_gt_iff]; nia.
  - symmetry. apply Z.compare_lt_iff. apply L; lia.
  - symmetry. apply Z.compare_gt_iff. apply L; lia.
Qed.

Lemma digits_between m n : 0 < n -> 2 ^ (n - 1) <= m < 2 ^ (n + 1) -> n <= Zdigits2 m <= n + 1.
Proof.
  intros N [L U]. destruct (Z.lt_ge_cases m (2 ^ n)).
  - rewrite (digits_unique m n) by lia. lia.
  - rewrite (digits_unique m (n + 1)); [lia|lia|]. replace (n + 1 - 1) with n by lia. lia.
Qed.

(** A product is off by half a unit at most. *)
Lemma mul_near x y m e m' e' :
  float x m e -> float y m' e' -> -200 <= e <= 200 -> -200 <= e' <= 200 ->
  exists M E, float (mul x y) M E /\ e + e' + 52 <= E <= e + e' + 54 /\
    Z.abs (2 * (val (mul x y) * ulp 0 - val x * val y)) <= ulp E * ulp 0.
Proof.
  intros Fx Fy Be Be'. rewrite (val_float _ _ _ Fx), (val_float _ _ _ Fy).
  destruct Fx as (-> & Bx & _), Fy as (-> & By & _).
  assert (P : mul (S754_finite false (Z.to_pos m) e) (S754_finite false (Z.to_pos m') e') =
    binary_round_aux prec emax false (m * m') (e + e') loc_Exact).
  { unfold mul, SFmul. cbn [xorb]. f_equal. rewrite Pos2Z.inj_mul, !Z2Pos.id by lia. done. }
  pose proof (digits_between (m * m') 105 ltac:(lia)) as D.
  change (2 ^ (105 - 1)) with (2 ^ 52 * 2 ^ 52) in D. change (2 ^ (105 + 1)) with (2 ^ 53 * 2 ^ 53) in D.
  specialize (D ltac:(nia)).
  destruct (round_near (m * m') 1 (m * m') (e + e') loc_Exact) as (M & E & F & Ee & H);
    [apply inside_exact; nia|nia|unfold prec; lia..|].
  rewrite <- P in F. exists M, E. split; [done|]. unfold prec in *. split; [lia|].
  rewrite (val_float _ _ _ F), !Z.mul_1_r in *.
  assert (U : m * ulp e * (m' * ulp e') = m * m' * ulp (e + e') * ulp 0).
  { replace (m * ulp e * (m' * ulp e')) with (m * m' * (ulp e * ulp e')) by ring.
    rewrite <- (Z.mul_assoc (m * m')). f_equal. unfold ulp. rewrite <- !Z.pow_add_r by lia. f_equal. lia. }
  rewrite U.
  replace (2 * _) with (2 * (M * ulp E - m * m' * ulp (e + e')) * ulp 0) by ring.
  pose proof (ulp_pos 0 ltac:(lia)). rewrite Z.abs_mul, (Z.abs_eq (ulp 0)) by lia.
  apply Z.mul_le_mono_nonneg_r; [lia|]. etransitivity; [exact H|].
  unfold ulp. apply Z.pow_le_mono_r; lia.
Qed.

(** Where the remainder of a division lies *)
Lemma inside_div a b : 0 <= a -> 0 < b ->
  inside a b (shr_record_of_loc (a / b) (new_location b (a mod b))).
Proof.
  intros A B. pose proof (Z.div_mod a b ltac:(lia)) as E. pose proof (Z.mod_pos_bound a b B) as R.
  pose proof (Z.div_pos a b A B) as Q.
  assert (C : shr_m (shr_record_of_loc (a / b) (new_location b (a mod b))) = a / b)
    by (by destruct (new_location b (a mod b)) as [|[]]).
  split; [done|]. rewrite C. split; [done|]. exists (a mod b). split; [lia|]. split; [done|].
  unfold new_location, new_location_even, new_location_odd.
  destruct (Z.even b) eqn:Ev; destruct (Z.eqb_spec (a mod b) 0) as [Z0|Z0]; try exact Z0.
  - destruct (Z.compare_spec (2 * (a mod b)) b); cbn; lia.
  - assert (Od : exists c, b = 2 * c + 1) by (apply Z.odd_spec; by rewrite <- Z.negb_even, Ev).
    destruct Od as [c Od]. destruct (Z.compare_spec (2 * (a mod b) + 1) b); cbn; lia.
Qed.

(** A quotient is off by half a unit at most. *)
Lemma div_near x y m e m' e' :
  float x m e -> float y m' e' -> -200 <= e <= 200 -> -200 <= e' <= 200 ->
  exists M E, float (div x y) M E /\ e - e' - 53 <= E <= e - e' - 51 /\
    Z.abs (2 * (val (div x y) * val y - val x * ulp 0)) <= ulp E * val y.
Proof.
  intros Fx Fy Be Be'. rewrite (val_float _ _ _ Fx), (val_float _ _ _ Fy).
  destruct Fx as (-> & Bx & _), Fy as (-> & By & _).
  set (a := m * 2 ^ 53). assert (A : 0 <= a) by (unfold a; lia).
  assert (P : div (S754_finite false (Z.to_pos m) e) (S754_finite false (Z.to_pos m') e') =
    binary_round_aux prec emax false (a / m') (e - e' - 53) (new_location m' (a mod m'))).
  { unfold div, SFdiv, SFdiv_core_binary. rewrite !Z2Pos.id by lia. rewrite !digits_float by done.
    replace (Z.min _ _) with (e - e' - 53) by (unfold fexp, emin, prec, emax; lia).
    replace (e - e' - (e - e' - 53)) with 53 by lia. rewrite Z.shiftl_mul_pow2 by lia. fold a.
    unfold Z.div, Z.modulo. by destruct (Z.div_eucl a m'). }
  assert (Q : 2 ^ 52 <= a / m' < 2 ^ 54).
  { split; [apply Z.div_le_lower_bound|apply Z.div_lt_upper_bound]; unfold a;
      change (2 ^ 54) with (2 * 2 ^ 53); lia. }
  pose proof (digits_between (a / m') 53 ltac:(lia) Q) as D.
  destruct (round_near a m' (a / m') (e - e' - 53) (new_location m' (a mod m'))) as (M & E & F & Ee & H);
    [apply inside_div; lia|unfold prec; lia..|].
  rewrite <- P in F. exists M, E. split; [done|]. unfold prec in *. split; [lia|].
  rewrite (val_float _ _ _ F) in *.
  assert (U : m * ulp e * ulp 0 = a * ulp (e - e' - 53) * ulp e').
  { unfold a. replace (m * 2 ^ 53 * ulp (e - e' - 53) * ulp e') with (m * (2 ^ 53 * ulp (e - e' - 53) * ulp e')) by ring.
    rewrite <- Z.mul_assoc. f_equal. unfold ulp. rewrite <- !Z.pow_add_r by lia. f_equal. lia. }
  rewrite U.
  replace (2 * _) with (2 * (M * ulp E * m' - a * ulp (e - e' - 53)) * ulp e') by ring.
  pose proof (ulp_pos e' ltac:(lia)). rewrite Z.abs_mul, (Z.abs_eq (ulp e')), Z.mul_assoc by lia.
  apply Z.mul_le_mono_nonneg_r; [lia|]. etransitivity; [exact H|].
  apply Z.mul_le_mono_nonneg_r; [lia|]. unfold ulp. apply Z.pow_le_mono_r; lia.
Qed.

End Rounding.
