(* ===== verification/GoJson.v ===== *)
(** * JSON encoding and FNV-1a hashing as the standard library does them

    [Json]: encoding/json on strings, booleans, integers, slices and string
    maps (sorted keys, HTML-safe escapes, invalid UTF-8 replaced).
    [Fnv]: hash/fnv's 32-bit FNV-1a.
    [gvalue]: the dynamic values (interface{}) of unstructured objects. *)

From Stdlib Require Import ZArith Lia Ascii String.
From stdpp Require Import sorting.
From S2P Require Import Prelude GoStd Float.

(** ** Dynamic values

    The contents of an unstructured.Unstructured: nil, bool, string, int64,
    float64, []interface{} and map[string]interface{}. *)
Inductive gvalue : Type :=
| GNil
| GBool (b : bool)
| GString (s : string)
| GInt64 (z : Z)
| GFloat64 (x : float64)
| GSlice (l : list gvalue)
| GMap (m : list (string * gvalue)).

Module Json.
Local Open Scope Z_scope.

Definition dquote : string := String "034"%char EmptyString.
Definition backslash : string := String "092"%char EmptyString.

Definition in_bytes (c : ascii) (lo hi : Z) : bool :=
  (lo <=? byte_of c) && (byte_of c <=? hi).

(** UTF-8 sequences of two, three and four bytes (utf8.DecodeRune). *)
Definition cont (c : ascii) : bool := in_bytes c 128 191.

Definition valid2 (c1 c2 : ascii) : bool := in_bytes c1 194 223 && cont c2.

Definition valid3 (c1 c2 c3 : ascii) : bool :=
  (in_bytes c1 224 224 && in_bytes c2 160 191
   || in_bytes c1 225 236 && cont c2
   || in_bytes c1 237 237 && in_bytes c2 128 159
   || in_bytes c1 238 239 && cont c2) && cont c3.

Definition valid4 (c1 c2 c3 c4 : ascii) : bool :=
  (in_bytes c1 240 240 && in_bytes c2 144 191
   || in_bytes c1 241 243 && cont c2
   || in_bytes c1 244 244 && in_bytes c2 128 143) && cont c3 && cont c4.

(** U+2028 and U+2029 *)
Definition line_sep (c1 c2 c3 : ascii) : bool :=
  in_bytes c1 226 226 && in_bytes c2 128 128 && in_bytes c3 168 169.

Definition hex_digit (n : Z) : ascii :=
  ascii_of_N (Z.to_N (if n <? 10 then 48 + n else 87 + n)).

Definition unicode_escape (n : Z) : string :=
  backslash +s+ "u00" +s+ String (hex_digit (Z.shiftr n 4))
    (String (hex_digit (Z.land n 15)) EmptyString).

(** One ASCII byte inside a JSON string (escapeHTML is on). *)
Definition escape_ascii (c : ascii) : string :=
  let n := byte_of c in
  if (n =? 34) || (n =? 92) then backslash +s+ String c EmptyString
  else if n =? 8 then backslash +s+ "b"
  else if n =? 12 then backslash +s+ "f"
  else if n =? 10 then backslash +s+ "n"
  else if n =? 13 then backslash +s+ "r"
  else if n =? 9 then backslash +s+ "t"
  else if (n <? 32) || (n =? 60) || (n =? 62) || (n =? 38) then unicode_escape n
  else String c EmptyString.

Definition replacement : string := backslash +s+ "ufffd".

Fixpoint escape (s : string) : string :=
  match s with
  | EmptyString => EmptyString
  | String c1 s1 =>
      if byte_of c1 <? 128 then escape_ascii c1 +s+ escape s1
      else
        match s1 with
        | String c2 s2 =>
            if valid2 c1 c2 then String c1 (String c2 (escape s2))
            else
              match s2 with
              | String c3 s3 =>
                  if valid3 c1 c2 c3 then
                    if line_sep c1 c2 c3
                    then backslash +s+ "u202" +s+
                         String (hex_digit (Z.land (byte_of c3) 15)) (escape s3)
                    else String c1 (String c2 (String c3 (escape s3)))
                  else
                    match s3 with
                    | String c4 s4 =>
                        if valid4 c1 c2 c3 c4
                        then String c1 (String c2 (String c3 (String c4 (escape s4))))
                        else replacement +s+ escape s1
                    | EmptyString => replacement +s+ escape s1
                    end
              | EmptyString => replacement +s+ escape s1
              end
        | EmptyString => replacement +s+ escape s1
        end
  end.

(** json.Marshal of a string *)
Definition MarshalString (s : string) : string := dquote +s+ escape s +s+ dquote.

Definition MarshalBool (b : bool) : string := if b then "true" else "false".
Definition MarshalInt (z : Z) : string := Strconv.FormatInt z.

Definition pair_le (x y : string * string) : Prop := String.leb x.1 y.1 = true.

#[export] Instance pair_le_dec : RelDecision pair_le.
Proof. intros x y. unfold pair_le. apply _. Defined.

Definition member (kv : string * string) : string :=
  MarshalString kv.1 +s+ ":" +s+ MarshalString kv.2.

(** json.Marshal of a map[string]string: the members in the order of their keys *)
Definition MarshalStringMap (m : gmap string string) : string :=
  "{" +s+ Strings.Join (member <$> merge_sort pair_le (map_to_list m)) "," +s+ "}".

(** json.Marshal of a []map[string]string *)
Definition MarshalMaps (l : list (gmap string string)) : string :=
  "[" +s+ Strings.Join (MarshalStringMap <$> l) "," +s+ "]".

(** json.Marshal of a struct whose present fields are the given ones *)
Definition MarshalFields (fs : list (string * string)) : string :=
  "{" +s+ Strings.Join ((fun kv => MarshalString kv.1 +s+ ":" +s+ kv.2) <$> fs) "," +s+ "}".

End Json.

Module Fnv.
Local Open Scope Z_scope.

Definition offset32 : Z := 2166136261.
Definition prime32 : Z := 16777619.

Definition step (h : Z) (c : ascii) : Z := (Z.lxor h (byte_of c) * prime32) mod 2 ^ 32.

Fixpoint write (h : Z) (s : string) : Z :=
  match s with
  | EmptyString => h
  | String c s' => write (step h c) s'
  end.

(** fnv.New32a(), Write(s), Sum32() *)
Definition Sum32a (s : string) : Z := write offset32 s.

Lemma write_range (s : string) (h : Z) : 0 <= h < 2 ^ 32 -> 0 <= write h s < 2 ^ 32.
Proof.
  revert h; induction s as [|c s IH]; intros h H; simpl; [done|].
  apply IH. unfold step. apply Z.mod_pos_bound. lia.
Qed.

Lemma Sum32a_range (s : string) : 0 <= Sum32a s < 2 ^ 32.
Proof. apply write_range. unfold offset32. lia. Qed.

Lemma write_app (a b : string) (h : Z) : write h (a +s+ b) = write (write h a) b.
Proof. revert h; induction a as [|c a IH]; intros h; simpl; auto. Qed.

End Fnv.

(** Known answer of FNV-1a. *)
Example fnv_foobar : Fnv.Sum32a "foobar" = 3214735720%Z.
Proof. vm_compute. reflexivity. Qed.
