(* ===== verification/Lang.v ===== *)
(** * controllers/utils/lang.go: helpers on lists, maps and numbers

    The loops of the Go functions are the folds and recursions below; the
    order in which Go ranges over a map is not specified, and the lemmas show
    that no result depends on it (each is given by its lookups). *)

From Stdlib Require Import ZArith Lia String.
From S2P Require Import Prelude GoStd GoJson.

Module Lang.

(** ContainsString *)
Fixpoint ContainsString (l : list string) (s : string) : bool :=
  match l with
  | [] => false
  | v :: l' => if String.eqb v s then true else ContainsString l' s
  end.

(** Abs on int64 *)
Definition Abs (x : Z) : Z := if Z.ltb x 0 then Int64.neg x else x.

(** Difference: the entries of [a] that are not entries of [b] *)
Definition key_set (b : list string) : gset string :=
  fold_left (fun bMap key => {[ key ]} ∪ bMap) b ∅.

Fixpoint not_in (a : list string) (bMap : gset string) (diff : list string)
  : list string :=
  match a with
  | [] => diff
  | key :: a' =>
      if decide (key ∈ bMap) then not_in a' bMap diff
      else not_in a' bMap (diff ++ [key])
  end.

Definition Difference (a b : list string) : list string := not_in a (key_set b) [].

(** Omit *)
Fixpoint is_ignored (k : string) (ignoredKeys : list string) (ignored : bool) : bool :=
  match ignoredKeys with
  | [] => ignored
  | ik :: rest => is_ignored k rest (if String.eqb k ik then true else ignored)
  end.

Definition Omit (value : gmap string string) (ignoredKeys : list string)
  : gmap string string :=
  map_fold (fun k v copy => if is_ignored k ignoredKeys false then copy else <[k := v]> copy)
    ∅ value.

(** Min on int *)
Definition Min (x y : Z) : Z := if Z.ltb x y then x else y.

(** reflect.TypeOf(x).Kind(), in the numbering of package reflect; [None]:
    TypeOf(nil) is a nil interface, whose method call panics. *)
Definition kind (x : gvalue) : option Z :=
  match x with
  | GNil => None
  | GBool _ => Some 1%Z
  | GInt64 _ => Some 6%Z
  | GFloat64 _ => Some 14%Z
  | GMap _ => Some 21%Z
  | GSlice _ => Some 23%Z
  | GString _ => Some 24%Z
  end.

(** IsNumber; [None] is a panic *)
Definition IsNumber (x : gvalue) : option bool :=
  match kind x with
  | Some k => Some (Z.leb 2 k && Z.leb k 16)
  | None => None
  end.

(** Merge: later maps override earlier ones *)
Definition merge_into (result inst : gmap string string) : gmap string string :=
  map_fold (fun k v r => <[k := v]> r) result inst.

Definition Merge (maps : list (gmap string string)) : gmap string string :=
  fold_left merge_into maps ∅.

(** ** Lemmas *)

Lemma ContainsString_spec (l : list string) (s : string) :
  ContainsString l s = true <-> s ∈ l.
Proof.
  induction l as [|v l IH]; simpl; [by rewrite elem_of_nil|].
  rewrite elem_of_cons. destruct (String.eqb_spec v s) as [->|N]; [naive_solver|].
  rewrite IH. naive_solver.
Qed.

Lemma ContainsString_false (l : list string) (s : string) :
  ContainsString l s = false <-> s ∉ l.
Proof. rewrite <- Bool.not_true_iff_false, ContainsString_spec. done. Qed.

Lemma Abs_nonneg (x : Z) :
  Int64.in_range x -> x <> Int64.min_value -> Abs x = Z.abs x.
Proof.
  intros R N. unfold Abs, Int64.neg. destruct (Z.ltb_spec x 0); [|lia].
  rewrite Int64.wrap_id; [lia|].
  unfold Int64.in_range, Int64.min_value, Int64.max_value in *. lia.
Qed.

Lemma elem_of_key_set (b : list string) (s : string) : s ∈ key_set b <-> s ∈ b.
Proof.
  unfold key_set. enough (H : forall acc : gset string,
    s ∈ fold_left (fun bMap key => {[ key ]} ∪ bMap) b acc <-> s ∈ b \/ s ∈ acc).
  { rewrite H. set_solver. }
  induction b as [|k b IH]; intros acc; simpl; [set_solver|].
  rewrite IH. set_solver.
Qed.

Lemma not_in_filter (a : list string) (bm : gset string) (d : list string) :
  not_in a bm d = d ++ filter (fun k => k ∉ bm) a.
Proof.
  revert d; induction a as [|k a IH]; intros d; simpl; [by rewrite app_nil_r|].
  rewrite filter_cons. destruct (decide (k ∈ bm)) as [H|H].
  - rewrite IH, decide_False; [done | by intros ?].
  - rewrite IH, <- app_assoc, decide_True; done.
Qed.

(** [Difference] as a filter, with multiplicities and order kept. *)
Lemma Difference_filter (a b : list string) :
  Difference a b = filter (fun k => k ∉ b) a.
Proof.
  unfold Difference. rewrite not_in_filter. simpl. apply list_filter_iff.
  intros k. by rewrite elem_of_key_set.
Qed.

Lemma elem_of_Difference (a b : list string) (k : string) :
  k ∈ Difference a b <-> k ∈ a /\ k ∉ b.
Proof. rewrite Difference_filter, list_elem_of_filter. naive_solver. Qed.

Lemma is_ignored_spec (k : string) (ks : list string) (i : bool) :
  is_ignored k ks i = true <-> i = true \/ k ∈ ks.
Proof.
  revert i; induction ks as [|x ks IH]; intros i; simpl; [set_solver|].
  rewrite IH, elem_of_cons.
  destruct (String.eqb_spec k x); destruct i; naive_solver.
Qed.

Lemma lookup_Omit (m : gmap string string) (ks : list string) (k : string) :
  Omit m ks !! k = if decide (k ∈ ks) then None else m !! k.
Proof.
  unfold Omit. induction m as [|x v m Hx Hf IH] using map_first_key_ind; simpl.
  { rewrite map_fold_empty, lookup_empty. by case_decide. }
  rewrite map_fold_insert_first_key by done.
  destruct (is_ignored x ks false) eqn:I.
  - rewrite IH. case_decide; [done|].
    apply is_ignored_spec in I as [?|I]; [done|].
    rewrite lookup_insert_ne; [done | by intros ->].
  - destruct (decide (x = k)) as [->|N].
    + rewrite !lookup_insert_eq. case_decide as D; [|done].
      assert (is_ignored k ks false = true) by (apply is_ignored_spec; auto). congruence.
    + rewrite !lookup_insert_ne by done. done.
Qed.

(** [Omit] only looks at the keys that are kept. *)
Lemma Omit_insert_ignored (m : gmap string string) (ks : list string) (k v : string) :
  k ∈ ks -> Omit (<[k := v]> m) ks = Omit m ks.
Proof.
  intros H. apply map_eq. intros j. rewrite !lookup_Omit. case_decide; [done|].
  rewrite lookup_insert_ne; [done | by intros ->].
Qed.

Lemma merge_into_union (r i : gmap string string) : merge_into r i = i ∪ r.
Proof.
  unfold merge_into. induction i as [|k v m Hk Hf IH] using map_first_key_ind.
  - by rewrite map_fold_empty, (left_id_L ∅ (∪)).
  - rewrite map_fold_insert_first_key by done. rewrite IH. by rewrite insert_union_l.
Qed.

(** A key of the result of [Merge] has the value of the last map that has it. *)
Lemma lookup_Merge_snoc (maps : list (gmap string string)) (m : gmap string string) (k : string) :
  Merge (maps ++ [m]) !! k = match m !! k with Some v => Some v | None => Merge maps !! k end.
Proof.
  unfold Merge. rewrite fold_left_app. simpl. rewrite merge_into_union, lookup_union.
  destruct (m !! k), (fold_left merge_into maps ∅ !! k); done.
Qed.

Lemma Merge_nil : Merge [] = ∅.
Proof. done. Qed.

End Lang.
