(* ===== verification/Flags.v ===== *)
(** * Command-line flags as package flag parses them

    [Flag]: what main.go uses of Go's package flag: string and boolean flags,
    and parsing that stops at the first argument that is not a flag. [FlagProps]
    relates parsing to the ways in which an assignment can be spelled. *)

From Stdlib Require Import ZArith Lia Ascii String.
From stdpp Require Import base gmap strings list.
From S2P Require Import Prelude GoStd.

Module Flag.

(** The value of a flag: StringVar, BoolVar, or the flag of an imported
    package, of which only its Set and IsBoolFlag matter here. *)
Inductive flag_value :=
| StringFlag (s : string)
| BoolFlag (b : bool)
| OtherFlag (is_bool : bool) (accepts : string -> bool).

Definition IsBoolFlag (v : flag_value) : bool :=
  match v with BoolFlag _ => true | OtherFlag b _ => b | StringFlag _ => false end.

(** strconv.ParseBool *)
Definition ParseBool (s : string) : option bool :=
  if bool_decide (s ∈ ["1"; "t"; "T"; "true"; "TRUE"; "True"]) then Some true
  else if bool_decide (s ∈ ["0"; "f"; "F"; "false"; "FALSE"; "False"]) then Some false
  else None.

(** Value.Set; [None] is an error *)
Definition SetValue (v : flag_value) (s : string) : option flag_value :=
  match v with
  | StringFlag _ => Some (StringFlag s)
  | BoolFlag _ => BoolFlag <$> ParseBool s
  | OtherFlag _ accepts => if accepts s then Some v else None
  end.

Notation FlagSet := (gmap string flag_value).

(** FlagSet.Var; [None]: defining a flag twice panics *)
Definition Var (name : string) (v : flag_value) (f : FlagSet) : option FlagSet :=
  match f !! name with Some _ => None | None => Some (<[name := v]> f) end.

(** A name up to the first = sign, and what follows it *)
Fixpoint cut (s : string) : string * option string :=
  match s with
  | EmptyString => (EmptyString, None)
  | String c s' =>
      if Ascii.eqb c "=" then (EmptyString, Some s')
      else let '(name, value) := cut s' in (String c name, value)
  end.

(** How parseOne reads an argument *)
Inductive argument := Positional | Terminator | BadSyntax | AFlag (name : string) (value : option string).

Definition read_name (name : string) : argument :=
  match name with
  | EmptyString => BadSyntax
  | String c rest =>
      if Ascii.eqb c "-" || Ascii.eqb c "=" then BadSyntax
      else let '(n, value) := cut rest in AFlag (String c n) value
  end.

Definition read_argument (s : string) : argument :=
  match s with
  | String c1 (String c2 rest) =>
      if negb (Ascii.eqb c1 "-") then Positional
      else if Ascii.eqb c2 "-" then
        match rest with EmptyString => Terminator | _ => read_name rest end
      else read_name (String c2 rest)
  | _ => Positional
  end.

(** Parse: the flags and the remaining arguments, the request for help, or an
    error. *)
Inductive outcome := Parsed (f : FlagSet) (args : list string) | Help | Invalid.

Fixpoint Parse (f : FlagSet) (args : list string) : outcome :=
  match args with
  | [] => Parsed f []
  | s :: rest =>
      match read_argument s with
      | Positional => Parsed f args
      | Terminator => Parsed f rest
      | BadSyntax => Invalid
      | AFlag name value =>
          match f !! name with
          | None => if String.eqb name "help" || String.eqb name "h" then Help else Invalid
          | Some v =>
              if IsBoolFlag v then
                match SetValue v (default "true" value) with
                | Some v' => Parse (<[name := v']> f) rest
                | None => Invalid
                end
              else
                match value, rest with
                | Some x, _ =>
                    match SetValue v x with
                    | Some v' => Parse (<[name := v']> f) rest
                    | None => Invalid
                    end
                | None, x :: rest' =>
                    match SetValue v x with
                    | Some v' => Parse (<[name := v']> f) rest'
                    | None => Invalid
                    end
                | None, [] => Invalid
                end
          end
      end
  end.

(** ** Assignments *)

(** The meaning of an assignment to a flag *)
Definition assign (f : FlagSet) (a : string * string) : option FlagSet :=
  match f !! a.1 with
  | Some v => match SetValue v a.2 with Some v' => Some (<[a.1 := v']> f) | None => None end
  | None => None
  end.

Fixpoint assigns (f : FlagSet) (l : list (string * string)) : option FlagSet :=
  match l with
  | [] => Some f
  | a :: l => match assign f a with Some f' => assigns f' l | None => None end
  end.

(** The name of a flag that can be spelled *)
Fixpoint no_equals (s : string) : bool :=
  match s with EmptyString => true | String c s' => negb (Ascii.eqb c "=") && no_equals s' end.

Definition nameable (s : string) : bool :=
  match s with
  | EmptyString => false
  | String c _ => negb (Ascii.eqb c "-") && no_equals s
  end.

(** The ways to spell name = value *)
Inductive spells (is_bool : bool) : string * string -> list string -> Prop :=
| spell_equals dash n v : dash ∈ ["-"; "--"] -> spells is_bool (n, v) [dash +s+ n +s+ "=" +s+ v]
| spell_next dash n v : dash ∈ ["-"; "--"] -> is_bool = false -> spells is_bool (n, v) [dash +s+ n; v]
| spell_alone dash n : dash ∈ ["-"; "--"] -> is_bool = true -> spells is_bool (n, "true") [dash +s+ n].

Definition is_bool_flag (f : FlagSet) (n : string) : bool :=
  match f !! n with Some v => IsBoolFlag v | None => false end.

(** ** Lemmas *)

Lemma cut_name (n rest : string) : no_equals n = true ->
  cut (n +s+ "=" +s+ rest) = (n, Some rest) /\ cut n = (n, None).
Proof.
  induction n as [|c n IH]; cbn [String.append cut no_equals]; [done|].
  intros [C%negb_true_iff N]%andb_prop. rewrite C. destruct (IH N) as [E1 E2].
  cbn [String.append] in E1. by rewrite E1, E2.
Qed.

Lemma read_dashed (dash n : string) (v : option string) : dash ∈ ["-"; "--"] -> nameable n = true ->
  read_argument (dash +s+ n +s+ match v with Some v => "=" +s+ v | None => EmptyString end) = AFlag n v.
Proof.
  intros D N. destruct n as [|c n]; [done|]. cbn [nameable no_equals] in N.
  apply andb_prop in N as [Nd [Ne No]%andb_prop]. apply negb_true_iff in Nd, Ne.
  set (tail := match v with Some v => "=" +s+ v | None => EmptyString end).
  assert (C : cut (n +s+ tail) = (n, v)).
  { subst tail. destruct v as [v|]; [apply (cut_name n v No)|].
    rewrite append_nil_r. apply (cut_name n EmptyString No). }
  assert (R : read_name (String c (n +s+ tail)) = AFlag (String c n) v).
  { cbn [read_name]. by rewrite Nd, Ne, C. }
  clearbody tail. repeat setoid_rewrite elem_of_cons in D.
  destruct D as [->|[->|D%elem_of_nil]]; [| |done]; cbn [String.append read_argument].
  - change (Ascii.eqb "-" "-") with true. cbn [negb]. by rewrite Nd.
  - change (Ascii.eqb "-" "-") with true. cbn [negb]. exact R.
Qed.

Lemma SetValue_kind v s v' : SetValue v s = Some v' -> IsBoolFlag v' = IsBoolFlag v.
Proof.
  destruct v as [|b|b acc]; simpl.
  - by intros [= <-].
  - destruct (ParseBool s); by intros [= <-].
  - destruct (acc s); by intros [= <-].
Qed.

Lemma assign_kind f a f' n : assign f a = Some f' -> is_bool_flag f' n = is_bool_flag f n.
Proof.
  unfold assign, is_bool_flag. destruct (f !! a.1) as [v|] eqn:E; [|done].
  destruct (SetValue v a.2) as [v'|] eqn:S; [|done]. intros [= <-].
  destruct (decide (a.1 = n)) as [<-|N].
  - by rewrite lookup_insert_eq, E, (SetValue_kind _ _ _ S).
  - by rewrite lookup_insert_ne.
Qed.

(** Parsing one spelled assignment *)
Lemma Parse_assign f a f' c rest :
  spells (is_bool_flag f a.1) a c -> nameable a.1 = true -> assign f a = Some f' ->
  Parse f (c ++ rest) = Parse f' rest.
Proof.
  intros S N A. unfold assign, is_bool_flag in *.
  destruct (f !! a.1) as [v|] eqn:E; [|done].
  destruct (SetValue v a.2) as [v'|] eqn:V; [|done]. injection A as <-.
  destruct S as [dash n x D|dash n x D B|dash n D B]; cbn [fst snd app] in *.
  - pose proof (read_dashed dash n (Some x) D N) as R. cbn [Parse]. rewrite R, E.
    destruct (IsBoolFlag v); cbn [from_option id]; by rewrite V.
  - pose proof (read_dashed dash n None D N) as R. rewrite append_nil_r in R. cbn [Parse].
    by rewrite R, E, B, V.
  - pose proof (read_dashed dash n None D N) as R. rewrite append_nil_r in R. cbn [Parse].
    rewrite R, E, B. cbn [from_option id]. by rewrite V.
Qed.

Lemma Parse_assigns l f f' cs rest :
  Forall2 (fun a c => spells (is_bool_flag f a.1) a c /\ nameable a.1 = true) l cs ->
  assigns f l = Some f' -> Parse f (List.concat cs ++ rest) = Parse f' rest.
Proof.
  intros F. revert f F. revert cs. induction l as [|a l IH]; intros cs f F A.
  { inversion F; subst. by injection A as ->. }
  inversion F as [|? c ? cs' [S N] F']; subst. cbn [assigns] in A.
  destruct (assign f a) as [g|] eqn:G; [|done]. cbn [List.concat]. rewrite <- app_assoc.
  rewrite (Parse_assign f a g c _ S N G). apply (IH cs' g); [|done].
  eapply Forall2_impl; [|exact F']. intros b d [Sb Nb]. split; [|done].
  by rewrite (assign_kind f a g b.1 G).
Qed.

(** The last assignment to a flag decides its value. *)
Fixpoint last_value (n : string) (l : list (string * string)) : option string :=
  match l with
  | [] => None
  | a :: l =>
      match last_value n l with
      | Some v => Some v
      | None => if String.eqb a.1 n then Some a.2 else None
      end
  end.

Lemma assigns_lookup l f f' n v : assigns f l = Some f' -> f !! n = Some v ->
  match last_value n l with
  | Some x => exists w, f' !! n = SetValue w x /\ IsBoolFlag w = IsBoolFlag v /\
                (forall s, v = StringFlag s -> exists s', w = StringFlag s') /\
                (forall b, v = BoolFlag b -> exists b', w = BoolFlag b')
  | None => f' !! n = Some v
  end.
Proof.
  revert f v. induction l as [|a l IH]; intros f v A E; cbn [assigns last_value] in *.
  { by injection A as <-. }
  destruct (assign f a) as [g|] eqn:G; [|done]. unfold assign in G.
  destruct (f !! a.1) as [u|] eqn:U; [|done].
  destruct (SetValue u a.2) as [u'|] eqn:V; [|done]. injection G as <-.
  destruct (String.eqb_spec a.1 n) as [<-|N].
  - rewrite E in U. injection U as <-.
    specialize (IH _ u' A (lookup_insert_eq _ _ _)).
    destruct (last_value a.1 l) as [x|].
    + destruct IH as (w & F & K & S & B). exists w. rewrite (SetValue_kind _ _ _ V) in K.
      split_and!; [done..| |]; intros y ->; simpl in V.
      * injection V as <-. by eapply S.
      * destruct (ParseBool a.2); [|done]. injection V as <-. by eapply B.
    + exists v. split_and!; [by rewrite V|done|by eauto|by eauto].
  - specialize (IH _ v A). rewrite lookup_insert_ne in IH by done. specialize (IH E).
    destruct (last_value n l); done.
Qed.

End Flag.
