(* ===== verification/K8sLib.v ===== *)
(** * What the operator takes from the Kubernetes and comparison libraries

    These packages are not part of the repository. Their types that the
    operator stores are records here; their functions are the fields of the
    classes below, and what their documentation promises is the law class
    that goes with each. [Ref] holds one implementation of every class, used
    to instantiate the theorems on concrete inputs.

    - k8s.io/apimachinery api/meta: status conditions ([StatusConditions])
    - controllerutil: finalizers ([Finalizers])
    - go-cmp: deep equality of the status and diffs ([GoCmp])
    - unstructured: objects without a Go type, Kafka connectors here
      ([Unstructured])
    - text/template: an engine for the connector and table templates
      ([TemplateEngine]; the part of the language that the default templates
      use is Template.v, decoding of JSON is JsonDecode.v)
    - errors: [gerror], an error value with the reason that the helpers
      IsNotFound and IsConflict read and the text Error() returns. *)

From Stdlib Require Import ZArith Lia String SpecFloat.
From S2P Require Import Prelude GoStd Float GoJson.

(** ** Errors *)

Inductive err_reason := RNotFound | RConflict | ROther.

Record gerror := GError { err_reason_of : err_reason; Error : string }.

#[export] Instance err_reason_eq_dec : EqDecision err_reason.
Proof. solve_decision. Defined.

(** errors.New and fmt.Errorf without a wrapped error *)
Definition Errorf (msg : string) : gerror := GError ROther msg.

(** fmt.Errorf(prefix + "%w", err): the reason stays visible through the wrapping *)
Definition Errorf_wrap (prefix : string) (err : gerror) : gerror :=
  GError (err_reason_of err) (prefix +s+ Error err).

Definition IsNotFound (e : gerror) : bool := bool_decide (err_reason_of e = RNotFound).
Definition IsConflict (e : gerror) : bool := bool_decide (err_reason_of e = RConflict).

(** A Go result (value, error) whose value is only used when the error is nil. *)
Abbreviation result A := (gerror + A)%type.
Notation "'OK' x" := (inr x) (at level 10, x at level 9, only parsing) : cyndi_scope.
Notation "'ERR' e" := (inl e) (at level 10, e at level 9, only parsing) : cyndi_scope.

(** if x, err := e; err != nil { return err } *)
Notation "'let?' x := e 'in' k" :=
  (match e with inl err => inl err | inr x => k end)
  (at level 200, x name, e at level 100, k at level 200, right associativity) : cyndi_scope.

(** ** Object metadata *)

Record ObjectMeta := {
  Name : string;
  Namespace : string;
  UID : string;
  ResourceVersion : string;
  Generation : Z;
  DeletionTimestamp : option Z;
  Finalizers_of : list string
}.

(** ** Status conditions *)

Inductive ConditionStatus := ConditionTrue | ConditionFalse | ConditionUnknown.

#[export] Instance ConditionStatus_eq_dec : EqDecision ConditionStatus.
Proof. solve_decision. Defined.

(** metav1.Condition without its transition time, which the library maintains
    and the operator never reads. *)
Record Condition := {
  cType : string;
  cStatus : ConditionStatus;
  cReason : string;
  cMessage : string
}.

Class StatusConditions := {
  SetStatusCondition : list Condition -> Condition -> list Condition;
  FindStatusCondition : list Condition -> string -> option Condition;
  IsStatusConditionPresentAndEqual : list Condition -> string -> ConditionStatus -> bool
}.

Class StatusConditionsOk `{StatusConditions} : Prop := {
  find_nil t : FindStatusCondition [] t = None;
  find_set_eq cs c : FindStatusCondition (SetStatusCondition cs c) (cType c) = Some c;
  find_set_ne cs c t : t <> cType c ->
    FindStatusCondition (SetStatusCondition cs c) t = FindStatusCondition cs t;
  present_and_equal cs t s :
    IsStatusConditionPresentAndEqual cs t s =
      match FindStatusCondition cs t with
      | Some c => bool_decide (cStatus c = s)
      | None => false
      end
}.

(** ** Finalizers *)

Class Finalizers := {
  AddFinalizer : list string -> string -> list string;
  RemoveFinalizer : list string -> string -> list string
}.

Class FinalizersOk `{Finalizers} : Prop := {
  elem_of_AddFinalizer fs f x : x ∈ AddFinalizer fs f <-> x ∈ fs \/ x = f;
  elem_of_RemoveFinalizer fs f x : x ∈ RemoveFinalizer fs f <-> x ∈ fs /\ x <> f
}.

(** ** Comparison

    [cmp_Equal] is cmp.Equal at a type [T] of plain data. [cmp_Diff] is cmp.Diff
    of two map[string]interface{} (a nil map is [None]) under the option
    FilterValues(filter, Transformer(f)): [filter] may panic ([None]). The
    result is the report, empty when the values are equal; [None] is a panic
    raised by the filter. *)
Class GoCmp (T : Type) := { cmp_Equal : T -> T -> bool }.

Class GoCmpOk (T : Type) `{GoCmp T} : Prop := {
  cmp_Equal_iff (x y : T) : cmp_Equal x y = true <-> x = y
}.

Class GoDiff := {
  cmp_Diff : (gvalue -> gvalue -> option bool) -> (gvalue -> string) ->
    option (list (string * gvalue)) -> option (list (string * gvalue)) -> option string
}.

(** The value at a key of a map *)
Fixpoint massoc (k : string) (m : list (string * gvalue)) : option gvalue :=
  match m with
  | [] => None
  | (k', v) :: m' => if String.eqb k' k then Some v else massoc k m'
  end.

(** Equality of dynamic values as package cmp documents it: unless an option
    decides the pair, values of one type are compared by ==, slices element by
    element, maps key by key. *)
Section Structural.
Variable decided : gvalue -> gvalue -> option bool.

Fixpoint structural (v w : gvalue) {struct v} : bool :=
  match decided v w with
  | Some b => b
  | None =>
      match v, w with
      | GNil, GNil => true
      | GBool a, GBool b => Bool.eqb a b
      | GString a, GString b => String.eqb a b
      | GInt64 a, GInt64 b => Z.eqb a b
      | GFloat64 a, GFloat64 b => SFeqb a b
      | GSlice l, GSlice l' =>
          (fix items (l l' : list gvalue) : bool :=
             match l, l' with
             | [], [] => true
             | x :: l, y :: l' => structural x y && items l l'
             | _, _ => false
             end) l l'
      | GMap m, GMap m' =>
          (fix entries (m : list (string * gvalue)) : bool :=
             match m with
             | [] => true
             | (k, x) :: rest =>
                 match massoc k m' with Some y => structural x y | None => false end &&
                 entries rest
             end) m &&
          forallb (fun kv => existsb (String.eqb kv.1) m.*1) m'
      | _, _ => false
      end
  end.

End Structural.

(** The option FilterValues(filter, Transformer(f)): the pairs the filter selects
    are compared by their images. *)
Definition transformed (filter : gvalue -> gvalue -> option bool) (f : gvalue -> string)
    (v w : gvalue) : option bool :=
  match filter v w with
  | None => Some false
  | Some true => Some (String.eqb (f v) (f w))
  | Some false => None
  end.

Definition agree (filter : gvalue -> gvalue -> option bool) (f : gvalue -> string)
  : gvalue -> gvalue -> bool := structural (transformed filter f).

(** A value with neither nil nor a NaN inside, and no key twice *)
Fixpoint plain (v : gvalue) : bool :=
  match v with
  | GNil => false
  | GFloat64 S754_nan => false
  | GSlice l => forallb plain l
  | GMap m => bool_decide (NoDup m.*1) && forallb (fun kv => plain kv.2) m
  | _ => true
  end.

(** A comparison that returns reports nothing exactly when the values are
    equal; it returns when the filter accepts all values inside; a nil map
    differs from another when the filter leaves maps alone. *)
Class GoDiffOk `{GoDiff} : Prop := {
  cmp_Diff_empty filter f m m' r :
    cmp_Diff filter f (Some m) (Some m') = Some r ->
    (r = EmptyString <-> agree filter f (GMap m) (GMap m') = true);
  cmp_Diff_returns filter f m m' :
    (forall v w, plain v = true -> plain w = true -> filter v w <> None) ->
    plain (GMap m) = true -> plain (GMap m') = true ->
    cmp_Diff filter f (Some m) (Some m') <> None;
  cmp_Diff_nil filter f x y r :
    (forall m m', filter (GMap m) (GMap m') = Some false) ->
    x = None \/ y = None -> cmp_Diff filter f x y = Some r ->
    (r = EmptyString <-> x = None /\ y = None)
}.

(** *** Reasoning about values inside values *)

Lemma massoc_elem k v m : NoDup m.*1 -> (k, v) ∈ m -> massoc k m = Some v.
Proof.
  induction m as [|[k' v'] m IH]; simpl; intros N I; [by apply elem_of_nil in I|].
  inversion N as [|? ? Nk Nm]; subst. apply elem_of_cons in I as [[= -> ->]|I].
  - by rewrite String.eqb_refl.
  - destruct (String.eqb_spec k' k) as [->|]; [|by apply IH].
    destruct Nk. apply list_elem_of_fmap. by exists (k, v).
Qed.

Lemma gvalue_nested_ind (P : gvalue -> Prop) :
  P GNil -> (forall b, P (GBool b)) -> (forall s, P (GString s)) -> (forall z, P (GInt64 z)) ->
  (forall x, P (GFloat64 x)) -> (forall l, Forall P l -> P (GSlice l)) ->
  (forall m, Forall (fun kv => P kv.2) m -> P (GMap m)) -> forall v, P v.
Proof.
  intros Hn Hb Hs Hi Hf Hl Hm. fix IH 1. intros [|b|s|z|x|l|m];
    [exact Hn|apply Hb|apply Hs|apply Hi|apply Hf|apply Hl|apply Hm].
  - induction l as [|v l IHl]; constructor; [apply IH|exact IHl].
  - induction m as [|[k v] m IHm]; constructor; [apply IH|exact IHm].
Qed.

Lemma SFeqb_refl (x : spec_float) : x <> S754_nan -> SFeqb x x = true.
Proof.
  unfold SFeqb. destruct x as [[]|[]| |[] m e]; try done; intros _; cbn [SFcompare];
    by rewrite Z.compare_refl, Pos.compare_cont_refl.
Qed.

(** A comparison decided otherwise only towards inequality finds less equal. *)
Lemma structural_mono d d' v w :
  (forall x y, d x y = d' x y \/ d x y = Some false) ->
  structural d v w = true -> structural d' v w = true.
Proof.
  intros D. revert w. induction v as [|b|s|z|x|l IH|m IH] using gvalue_nested_ind; intros w;
    cbn [structural];
    (match goal with |- context [d ?v w] => destruct (D v w) as [E|E]; rewrite E; [|done];
       destruct (d' v w) as [|]; try done end); destruct w as [| | | | |l'|m']; try done; clear E.
  - revert l'. induction IH as [|x l Hx Hl IHl]; intros [|y l']; try done.
    intros [A B]%andb_true_iff. apply andb_true_iff. split; [by apply Hx|by apply IHl].
  - intros [A B]%andb_true_iff. apply andb_true_iff. split; [|done]. clear B. revert A.
    induction IH as [|[k x] m Hx Hm IHm]; [done|].
    intros [A B]%andb_true_iff. apply andb_true_iff. split; [|by apply IHm].
    destruct (massoc k m') as [y|]; [by apply Hx|done].
Qed.

Lemma plain_massoc k m v : plain (GMap m) = true -> massoc k m = Some v -> plain v = true.
Proof.
  cbn [plain]. intros [_ P]%andb_true_iff. revert P.
  induction m as [|[k' x] m IH]; cbn [forallb massoc]; [done|].
  intros [Px Pm]%andb_true_iff. destruct (String.eqb k' k); [by intros [= <-]|by apply IH].
Qed.

(** On plain values only the decisions on plain values count. *)
Lemma structural_plain d d' v w :
  (forall x y, plain x = true -> plain y = true -> d x y = d' x y) ->
  plain v = true -> plain w = true -> structural d v w = structural d' v w.
Proof.
  intros D. revert w. induction v as [|b|s|z|x|l IH|m IH] using gvalue_nested_ind; intros w Pv Pw;
    cbn [structural]; rewrite (D _ _ Pv Pw);
    match goal with |- context [d' ?v w] => destruct (d' v w) as [|]; try done end; destruct w as [| | | | |l'|m']; try done.
  - cbn [plain] in Pv, Pw. revert l' Pw. induction IH as [|x l Hx Hl IHl]; intros [|y l'] Pw; try done.
    cbn [forallb] in *. apply andb_true_iff in Pv as [Pv1 Pv2], Pw as [Pw1 Pw2].
    f_equal; [by apply Hx|by apply IHl].
  - f_equal. cbn [plain] in Pv. apply andb_true_iff in Pv as [_ Pv].
    induction IH as [|[k x] m Hx Hm IHm]; [done|].
    cbn [forallb] in Pv. apply andb_true_iff in Pv as [Pv1 Pv2].
    f_equal; [|by apply IHm]. destruct (massoc k m') as [y|] eqn:Y; [|done].
    apply Hx; [done|by eapply plain_massoc].
Qed.

(** A plain value equals itself. *)
Lemma structural_refl d v :
  (forall x, plain x = true -> d x x = None \/ d x x = Some true) ->
  plain v = true -> structural d v v = true.
Proof.
  intros D. induction v as [|b|s|z|x|l IH|m IH] using gvalue_nested_ind; intros P;
    cbn [structural]; (destruct (D _ P) as [E|E]; rewrite E; [|done]); clear E.
  - done.
  - apply Bool.eqb_reflx.
  - apply String.eqb_refl.
  - apply Z.eqb_refl.
  - apply SFeqb_refl. by intros ->.
  - cbn [plain] in P. induction IH as [|x l Hx Hl IHl]; [done|].
    cbn [forallb] in P. apply andb_true_iff in P as [P1 P2].
    apply andb_true_iff. split; [by apply Hx|by apply IHl].
  - cbn [plain] in P. apply andb_true_iff in P as [N P]. apply bool_decide_eq_true in N.
    apply andb_true_iff. split.
    + assert (S : forall k x, (k, x) ∈ m -> massoc k m = Some x) by (intros; by apply massoc_elem).
      revert S. generalize m at 2 3 as m'. intros m' S.
      induction IH as [|[k x] m Hx Hm IHm]; [done|].
      cbn [forallb] in P. apply andb_true_iff in P as [P1 P2].
      rewrite (S k x) by left. apply andb_true_iff. split; [by apply Hx|].
      apply IHm; [by inversion N|done|]. intros k' x' I. apply S. by right.
    + apply forallb_forall. intros [k x] I. apply existsb_exists. exists k.
      split; [|apply String.eqb_refl]. apply list_elem_of_In, list_elem_of_fmap.
      exists (k, x). split; [done|by apply list_elem_of_In].
Qed.

(** Nothing is reported for a plain map and itself. *)
Lemma cmp_Diff_refl `{GoDiffOk} filter f m :
  (forall v w, plain v = true -> plain w = true -> filter v w <> None) ->
  plain (GMap m) = true -> cmp_Diff filter f (Some m) (Some m) = Some EmptyString.
Proof.
  intros F P. destruct (cmp_Diff filter f (Some m) (Some m)) as [r|] eqn:E.
  - f_equal. apply (cmp_Diff_empty _ _ _ _ _ E). apply structural_refl; [|done].
    intros x Px. unfold transformed. specialize (F x x Px Px).
    destruct (filter x x) as [[]|]; [right; by rewrite String.eqb_refl|by left|done].
  - by destruct (cmp_Diff_returns filter f m m F P P).
Qed.

(** ** Templates

    Package text/template: [template_Parse] is New(name).Parse(text) and
    [template_Execute] executes the template on a map, into a buffer. *)
Class TemplateEngine := {
  tmpl : Type;
  template_Parse : string -> result tmpl;
  template_Execute : tmpl -> gvalue -> result string
}.

(** ** Unstructured objects

    Package unstructured: an object is the dynamic value of its content. A
    Go triple (value, found, err) is [inr (Some value)], [inr None] or [inl err]. *)
Class Unstructured := {
  NestedString : gvalue -> list string -> result (option string);
  NestedSlice : gvalue -> list string -> result (option (list gvalue));
  NestedMap : gvalue -> list string -> result (option (list (string * gvalue)));
  SetNestedField : gvalue -> gvalue -> list string -> result gvalue;
  GetName : gvalue -> string;
  GetLabels : gvalue -> gmap string string;
  SetLabels : gvalue -> gmap string string -> gvalue;
  SetGroupVersionKind : gvalue -> string * string * string -> gvalue;
  SetControllerReference : ObjectMeta -> gvalue -> result gvalue
}.

(** The field of an object at a path of keys. *)
Fixpoint field (o : gvalue) (path : list string) : option gvalue :=
  match path with
  | [] => Some o
  | k :: path' =>
      match o with
      | GMap m => match massoc k m with Some v => field v path' | None => None end
      | _ => None
      end
  end.

(** The controller among the owner references of an object (metav1.GetControllerOf):
    its API version, kind and name *)
Fixpoint controller_in (refs : list gvalue) : option (string * string * string) :=
  match refs with
  | [] => None
  | r :: refs =>
      match field r ["controller"], field r ["apiVersion"], field r ["kind"], field r ["name"] with
      | Some (GBool true), Some (GString a), Some (GString k), Some (GString n) => Some (a, k, n)
      | _, _, _, _ => controller_in refs
      end
  end.

Definition GetControllerOf (o : gvalue) : option (string * string * string) :=
  match field o ["metadata"; "ownerReferences"] with
  | Some (GSlice refs) => controller_in refs
  | _ => None
  end.

Definition string_map (m : gmap string string) : gvalue :=
  GMap (prod_map id GString <$> map_to_list m).

Lemma massoc_not_elem k (m : list (string * gvalue)) : k ∉ m.*1 -> massoc k m = None.
Proof.
  induction m as [|[k' v'] m IH]; [done|]. cbn [massoc fmap list_fmap fst].
  intros N. destruct (String.eqb_spec k' k) as [->|]; [by destruct N; left|].
  apply IH. intros I. by apply N; right.
Qed.

Lemma massoc_string_map k (m : gmap string string) :
  massoc k (prod_map id GString <$> map_to_list m) = GString <$> m !! k.
Proof.
  assert (F : (prod_map id GString <$> map_to_list m).*1 = (map_to_list m).*1)
    by (rewrite <- list_fmap_compose; by apply list_fmap_ext).
  destruct (m !! k) as [v|] eqn:E; simpl.
  - apply massoc_elem; [rewrite F; apply NoDup_fst_map_to_list|].
    apply list_elem_of_fmap. exists (k, v). split; [done|]. by apply elem_of_map_to_list.
  - apply massoc_not_elem. rewrite F. intros ([k' v] & -> & I)%list_elem_of_fmap.
    apply elem_of_map_to_list in I. simpl in E. congruence.
Qed.

(** What the documentation of the package promises. Every owner in this program
    is a CyndiPipeline, whose API version and kind the scheme knows. *)
Class UnstructuredOk `{Unstructured} : Prop := {
  NestedString_field o p s :
    field o p = Some (GString s) <-> NestedString o p = inr (Some s);
  NestedSlice_field o p l :
    field o p = Some (GSlice l) <-> NestedSlice o p = inr (Some l);
  NestedMap_field o p m :
    field o p = Some (GMap m) <-> NestedMap o p = inr (Some m);
  SetNestedField_same o v p o' : SetNestedField o v p = inr o' -> field o' p = Some v;
  GetLabels_field o (l : list (string * string)) :
    field o ["metadata"; "labels"] = Some (GMap (prod_map id GString <$> l)) ->
    GetLabels o = list_to_map l;
  GetLabels_SetLabels o m :
    (exists mm, field o ["metadata"] = Some (GMap mm)) -> GetLabels (SetLabels o m) = m;
  GetName_field o s : field o ["metadata"; "name"] = Some (GString s) -> GetName o = s;
  (* the setters change the metadata and the type only *)
  SetLabels_spec o m path : field (SetLabels o m) ("spec" :: path) = field o ("spec" :: path);
  SetLabels_map o m :
    (exists mm, field o ["metadata"] = Some (GMap mm)) ->
    exists mm, field (SetLabels o m) ["metadata"] = Some (GMap mm);
  SetLabels_metadata o m k path :
    k <> "labels" -> field (SetLabels o m) ("metadata" :: k :: path) = field o ("metadata" :: k :: path);
  SetGroupVersionKind_frame o g k path :
    k <> "apiVersion" -> k <> "kind" ->
    field (SetGroupVersionKind o g) (k :: path) = field o (k :: path);
  SetControllerReference_spec owner o o' path :
    SetControllerReference owner o = inr o' ->
    field o' ("spec" :: path) = field o ("spec" :: path);
  SetControllerReference_labels owner o o' :
    SetControllerReference owner o = inr o' ->
    (exists mm, field o ["metadata"] = Some (GMap mm)) ->
    (exists mm, field o' ["metadata"] = Some (GMap mm)) /\ GetLabels o' = GetLabels o /\
    field o' ["metadata"; "name"] = field o ["metadata"; "name"];
  SetControllerReference_metadata owner o o' k path :
    SetControllerReference owner o = inr o' -> k <> "ownerReferences" ->
    field o' ("metadata" :: k :: path) = field o ("metadata" :: k :: path);
  SetControllerReference_owner owner o o' :
    SetControllerReference owner o = inr o' ->
    GetControllerOf o' = Some ("cyndi.cloud.redhat.com/v1alpha1", "CyndiPipeline", Name owner)
}.

(** ** A reference implementation *)

Module Ref.

Fixpoint set_condition (cs : list Condition) (c : Condition) : list Condition :=
  match cs with
  | [] => [c]
  | c' :: cs' => if String.eqb (cType c') (cType c) then c :: cs' else c' :: set_condition cs' c
  end.

Fixpoint find_condition (cs : list Condition) (t : string) : option Condition :=
  match cs with
  | [] => None
  | c :: cs' => if String.eqb (cType c) t then Some c else find_condition cs' t
  end.

Instance conditions : StatusConditions := {
  SetStatusCondition := set_condition;
  FindStatusCondition := find_condition;
  IsStatusConditionPresentAndEqual cs t s :=
    match find_condition cs t with
    | Some c => bool_decide (cStatus c = s)
    | None => false
    end
}.

Instance conditions_ok : StatusConditionsOk.
Proof.
  split; simpl; [done|..|done].
  - intros cs c. induction cs as [|c' cs IH]; simpl; [by rewrite String.eqb_refl|].
    destruct (String.eqb_spec (cType c') (cType c)); simpl; [by rewrite String.eqb_refl|].
    by destruct (String.eqb_spec (cType c') (cType c)).
  - intros cs c t N. induction cs as [|c' cs IH]; simpl.
    + by destruct (String.eqb_spec (cType c) t).
    + destruct (String.eqb_spec (cType c') (cType c)) as [E|]; simpl.
      * destruct (String.eqb_spec (cType c) t); [done|].
        destruct (String.eqb_spec (cType c') t); congruence.
      * by rewrite IH.
Qed.

Instance finalizers : Finalizers := {
  AddFinalizer fs f := if decide (f ∈ fs) then fs else fs ++ [f];
  RemoveFinalizer fs f := filter (fun x => x <> f) fs
}.

Instance finalizers_ok : FinalizersOk.
Proof.
  split; simpl.
  - intros fs f x. case_decide; [naive_solver|]. set_solver.
  - intros fs f x. rewrite list_elem_of_filter. naive_solver.
Qed.

(** *** Objects *)

Fixpoint mset (k : string) (v : gvalue) (m : list (string * gvalue)) : list (string * gvalue) :=
  match m with
  | [] => [(k, v)]
  | (k', v') :: m' => if String.eqb k' k then (k', v) :: m' else (k', v') :: mset k v m'
  end.

Lemma massoc_mset k v m j :
  massoc j (mset k v m) = if String.eqb k j then Some v else massoc j m.
Proof.
  induction m as [|[k' v'] m IH]; simpl; [done|].
  destruct (String.eqb_spec k' k) as [->|N]; simpl.
  - by destruct (String.eqb k j).
  - rewrite IH. destruct (String.eqb_spec k' j) as [->|]; [|done].
    destruct (String.eqb_spec k j); congruence.
Qed.

Definition not_a_map : gerror := Errorf "value cannot be set because a level is not a map".

Fixpoint set_path (o v : gvalue) (path : list string) : result gvalue :=
  match path with
  | [] => inr v
  | k :: path' =>
      match o with
      | GMap m =>
          match set_path (default (GMap []) (massoc k m)) v path' with
          | inl e => inl e
          | inr v' => inr (GMap (mset k v' m))
          end
      | _ => inl not_a_map
      end
  end.

Definition set_or_keep (o v : gvalue) (path : list string) : gvalue :=
  match set_path o v path with inr o' => o' | inl _ => o end.

Fixpoint strings_of (m : list (string * gvalue)) : gmap string string :=
  match m with
  | [] => ∅
  | (k, GString s) :: m' => <[k := s]> (strings_of m')
  | _ :: m' => strings_of m'
  end.

Definition wrong_type : gerror := Errorf "accessor error: wrong type".

Definition typed {A} (get : gvalue -> option A) (o : gvalue) (p : list string)
  : result (option A) :=
  match field o p with
  | None => inr None
  | Some v => match get v with Some a => inr (Some a) | None => inl wrong_type end
  end.

Instance unstructured : Unstructured := {
  NestedString := typed (fun v => match v with GString s => Some s | _ => None end);
  NestedSlice := typed (fun v => match v with GSlice l => Some l | _ => None end);
  NestedMap := typed (fun v => match v with GMap m => Some m | _ => None end);
  SetNestedField := set_path;
  GetName o := match field o ["metadata"; "name"] with Some (GString s) => s | _ => EmptyString end;
  GetLabels o :=
    match field o ["metadata"; "labels"] with Some (GMap m) => strings_of m | _ => ∅ end;
  SetLabels o m := set_or_keep o (string_map m) ["metadata"; "labels"];
  SetGroupVersionKind o gvk :=
    let '(g, k, v) := gvk in
    set_or_keep (set_or_keep o (GString (g +s+ "/" +s+ v)) ["apiVersion"]) (GString k) ["kind"];
  SetControllerReference owner o :=
    set_path o (GSlice [GMap [("apiVersion", GString "cyndi.cloud.redhat.com/v1alpha1");
                              ("kind", GString "CyndiPipeline"); ("name", GString (Name owner));
                              ("uid", GString (UID owner)); ("controller", GBool true);
                              ("blockOwnerDeletion", GBool true)]])
      ["metadata"; "ownerReferences"]
}.

Lemma strings_of_string_map (l : list (string * string)) :
  strings_of (prod_map id GString <$> l) = list_to_map l.
Proof.
  induction l as [|[k v] l IH]; [done|].
  change (<[k:=v]> (strings_of (prod_map id GString <$> l)) = <[k:=v]> (list_to_map l)).
  by rewrite IH.
Qed.

Lemma strings_of_map (m : gmap string string) :
  match string_map m with GMap l => strings_of l = m | _ => False end.
Proof.
  simpl. rewrite strings_of_string_map.
  apply list_to_map_to_list.
Qed.

Lemma field_set_path o v p o' : set_path o v p = inr o' -> field o' p = Some v.
Proof.
  revert o o'. induction p as [|k p IH]; intros o o'; simpl; [congruence|].
  destruct o as [| | | | | |m]; try done.
  destruct (set_path _ v p) as [|v'] eqn:E; [done|]. intros [= <-]. simpl.
  rewrite massoc_mset, String.eqb_refl. by apply (IH _ _ E).
Qed.

(** Setting below the first key [k] leaves the other first keys alone. *)
Lemma set_path_frame o v k p o' j q :
  set_path o v (k :: p) = inr o' -> j <> k -> field o' (j :: q) = field o (j :: q).
Proof.
  simpl. destruct o as [| | | | | |m]; try done.
  destruct (set_path _ v p); [done|]. intros [= <-] N. simpl.
  rewrite massoc_mset. by destruct (String.eqb_spec k j).
Qed.

Lemma set_path_frame2 o v k a p o' b q :
  set_path o v (k :: a :: p) = inr o' -> b <> a ->
  field o' (k :: b :: q) = field o (k :: b :: q).
Proof.
  simpl. destruct o as [| | | | | |m]; try done.
  destruct (massoc k m) as [w|] eqn:E; simpl.
  - destruct w as [| | | | | |m']; try done.
    destruct (set_path _ v p); [done|]. intros [= <-] N. simpl.
    rewrite massoc_mset, String.eqb_refl. simpl. rewrite massoc_mset.
    destruct (String.eqb_spec a b); [congruence|]. done.
  - destruct (set_path _ v p); [done|]. intros [= <-] N. simpl.
    rewrite massoc_mset, String.eqb_refl. simpl.
    by destruct (String.eqb_spec a b).
Qed.

Lemma set_or_keep_frame o v k p j q :
  j <> k -> field (set_or_keep o v (k :: p)) (j :: q) = field o (j :: q).
Proof.
  intros N. unfold set_or_keep. destruct (set_path o v (k :: p)) eqn:E; [done|].
  by eapply set_path_frame.
Qed.

Lemma typed_field {A} (get : gvalue -> option A) (mk : A -> gvalue) o p a :
  (forall v a, get v = Some a <-> v = mk a) ->
  field o p = Some (mk a) <-> typed get o p = inr (Some a).
Proof.
  intros G. unfold typed. split.
  - intros ->. by rewrite (proj2 (G _ _) eq_refl).
  - destruct (field o p) as [v|]; [|done]. destruct (get v) eqn:E; [|done].
    intros [= ->]. by apply G in E as ->.
Qed.

Instance unstructured_ok : UnstructuredOk.
Proof.
  split.
  1-3: intros; apply typed_field; intros [] ?; split; congruence.
  - intros o v p o' E. eapply field_set_path, E.
  - intros o l E. simpl in *. rewrite E. apply strings_of_string_map.
  - intros [| | | | | |o] m [mm E]; try done. simpl in E.
    destruct (massoc "metadata" o) as [w|] eqn:Em; [|done]. injection E as ->.
    unfold GetLabels, SetLabels. simpl. unfold set_or_keep. simpl. rewrite Em. simpl.
    rewrite massoc_mset. simpl. rewrite massoc_mset. simpl. apply strings_of_map.
  - intros o s E. simpl in *. by rewrite E.
  - intros. by apply set_or_keep_frame.
  - intros [| | | | | |o] m [mm E]; try done. simpl in E.
    destruct (massoc "metadata" o) as [w|] eqn:Em; [|done]. injection E as ->.
    unfold SetLabels. simpl. unfold set_or_keep. simpl. rewrite Em. simpl.
    rewrite massoc_mset. simpl. eauto.
  - intros o m k path N.
    change (field (set_or_keep o (string_map m) ["metadata"; "labels"]) ("metadata" :: k :: path) =
            field o ("metadata" :: k :: path)).
    unfold set_or_keep. destruct (set_path o (string_map m) ["metadata"; "labels"]) eqn:E; [done|].
    by eapply set_path_frame2.
  - intros o [[g k] v] j q N1 N2.
    change (field (set_or_keep (set_or_keep o (GString (g +s+ "/" +s+ v)) ["apiVersion"])
                     (GString k) ["kind"]) (j :: q) = field o (j :: q)).
    by rewrite !set_or_keep_frame.
  - intros owner o o' q E.
    eapply (set_path_frame o _ "metadata" ["ownerReferences"] o'); [exact E|done].
  - intros owner o o' E _. split_and!.
    + pose proof (field_set_path _ _ _ _ E) as F. cbn [field] in F |- *.
      destruct o' as [| | | | | |m]; try done.
      destruct (massoc "metadata" m) as [[]|]; try done. eauto.
    + unfold GetLabels. cbn [unstructured].
      rewrite (set_path_frame2 _ _ _ _ _ _ "labels" [] E); done.
    + apply (set_path_frame2 _ _ _ _ _ _ "name" [] E). done.
  - intros owner o o' k path E N. by apply (set_path_frame2 _ _ _ _ _ _ k path E).
  - intros owner o o' E. unfold GetControllerOf. by rewrite (field_set_path _ _ _ _ E).
Qed.

(** *** Comparison of plain data *)

Definition cmp_of_eq_dec {T} `{EqDecision T} : GoCmp T :=
  {| cmp_Equal x y := bool_decide (x = y) |}.

Lemma cmp_of_eq_dec_ok {T} `{EqDecision T} : GoCmpOk T (H := cmp_of_eq_dec).
Proof. split. intros x y. simpl. by rewrite bool_decide_eq_true. Qed.

End Ref.
