(* ===== verification/JsonDecode.v ===== *)
(** * encoding/json: decoding into an interface{}

    [json_Unmarshal] decodes a text the way json.Unmarshal does when the target
    is an empty interface: the grammar of JSON, escapes and surrogate pairs in
    strings with U+FFFD for what is not a character, numbers as float64, later
    members of an object over earlier ones, at most 10000 levels of nesting.
    The text of an error is not modelled, only that there is one.

    The second half reads back what [GoJson.Json] writes: strings, maps of
    strings and the fields of a struct. *)

From Stdlib Require Import ZArith Lia Ascii String SpecFloat.
From Stdlib Require Import DecimalString DecimalZ DecimalPos DecimalN DecimalFacts.
From stdpp Require Import sorting.
From S2P Require Import Prelude GoStd Float GoJson K8sLib.

Module JsonDecode.
Import Json.
Local Open Scope Z_scope.

(** ** Strings *)

Definition bytes (l : list Z) : string :=
  string_of_list_ascii ((fun n => ascii_of_N (Z.to_N n)) <$> l).

(** U+FFFD *)
Definition replacement_rune : string := bytes [239; 191; 189].

(** utf8.AppendRune of a code point that is not a surrogate *)
Definition utf8 (r : Z) : string :=
  if r <? 128 then bytes [r]
  else if r <? 2048 then bytes [192 + Z.shiftr r 6; 128 + Z.land r 63]
  else if r <? 65536 then
    bytes [224 + Z.shiftr r 12; 128 + Z.land (Z.shiftr r 6) 63; 128 + Z.land r 63]
  else
    bytes [240 + Z.shiftr r 18; 128 + Z.land (Z.shiftr r 12) 63;
           128 + Z.land (Z.shiftr r 6) 63; 128 + Z.land r 63].

Definition hex_value (c : ascii) : option Z :=
  let n := byte_of c in
  if (48 <=? n) && (n <=? 57) then Some (n - 48)
  else if (97 <=? n) && (n <=? 102) then Some (n - 87)
  else if (65 <=? n) && (n <=? 70) then Some (n - 55)
  else None.

Definition hex4 (a b c d : ascii) : option Z :=
  match hex_value a, hex_value b, hex_value c, hex_value d with
  | Some x, Some y, Some z, Some w => Some (((x * 16 + y) * 16 + z) * 16 + w)
  | _, _, _, _ => None
  end.

Definition is_surrogate (r : Z) : bool := (55296 <=? r) && (r <? 57344).

(** utf16.DecodeRune; [None] is not a pair *)
Definition surrogate_pair (r1 r2 : Z) : option Z :=
  if (55296 <=? r1) && (r1 <? 56320) && (56320 <=? r2) && (r2 <? 57344)
  then Some ((r1 - 55296) * 1024 + (r2 - 56320) + 65536)
  else None.

Definition simple_escape (c : ascii) : option ascii :=
  let n := byte_of c in
  if (n =? 34) || (n =? 92) || (n =? 47) then Some c
  else if n =? 98 then Some "008"%char
  else if n =? 102 then Some "012"%char
  else if n =? 110 then Some "010"%char
  else if n =? 114 then Some "013"%char
  else if n =? 116 then Some "009"%char
  else None.

Definition prepend (a : string) (r : option (string * string)) : option (string * string) :=
  match r with Some (s, rest) => Some (a +s+ s, rest) | None => None end.

Definition char (c : ascii) : string := String c EmptyString.

(** The characters of a string up to its closing quote, and what follows it. *)
Fixpoint unquote (s : string) : option (string * string) :=
  match s with
  | EmptyString => None
  | String c1 s1 =>
      let n := byte_of c1 in
      if n =? 34 then Some (EmptyString, s1)
      else if n =? 92 then
        match s1 with
        | EmptyString => None
        | String e s2 =>
            match simple_escape e with
            | Some x => prepend (char x) (unquote s2)
            | None =>
                if byte_of e =? 117 then
                  match s2 with
                  | String h1 (String h2 (String h3 (String h4 s3))) =>
                      match hex4 h1 h2 h3 h4 with
                      | None => None
                      | Some r =>
                          if is_surrogate r then
                            match s3 with
                            | String b (String u (String g1 (String g2 (String g3 (String g4 s4))))) =>
                                if (byte_of b =? 92) && (byte_of u =? 117) then
                                  match hex4 g1 g2 g3 g4 with
                                  | Some r2 =>
                                      match surrogate_pair r r2 with
                                      | Some rr => prepend (utf8 rr) (unquote s4)
                                      | None => prepend replacement_rune (unquote s3)
                                      end
                                  | None => None
                                  end
                                else prepend replacement_rune (unquote s3)
                            | _ => prepend replacement_rune (unquote s3)
                            end
                          else prepend (utf8 r) (unquote s3)
                      end
                  | _ => None
                  end
                else None
            end
        end
      else if n <? 32 then None
      else if n <? 128 then prepend (char c1) (unquote s1)
      else
        match s1 with
        | String c2 s2 =>
            if valid2 c1 c2 then prepend (String c1 (char c2)) (unquote s2)
            else
              match s2 with
              | String c3 s3 =>
                  if valid3 c1 c2 c3 then prepend (String c1 (String c2 (char c3))) (unquote s3)
                  else
                    match s3 with
                    | String c4 s4 =>
                        if valid4 c1 c2 c3 c4
                        then prepend (String c1 (String c2 (String c3 (char c4)))) (unquote s4)
                        else prepend replacement_rune (unquote s1)
                    | EmptyString => prepend replacement_rune (unquote s1)
                    end
              | EmptyString => prepend replacement_rune (unquote s1)
              end
        | EmptyString => prepend replacement_rune (unquote s1)
        end
  end.

(** ** Numbers *)

(** Decimal digits read after the value [acc]: value, how many, what follows *)
Fixpoint digits (s : string) (acc n : Z) : Z * Z * string :=
  match s with
  | String c s' =>
      match Strconv.digit c with
      | Some d => digits s' (10 * acc + d) (n + 1)
      | None => (acc, n, s)
      end
  | EmptyString => (acc, n, s)
  end.

(** The exponent, which strconv stops reading at five digits *)
Fixpoint exponent (s : string) (acc n : Z) : Z * Z * string :=
  match s with
  | String c s' =>
      match Strconv.digit c with
      | Some d => exponent s' (if acc <? 10000 then 10 * acc + d else acc) (n + 1)
      | None => (acc, n, s)
      end
  | EmptyString => (acc, n, s)
  end.

(** strconv.ParseFloat of m * 10^e, m having [nd] digits: the nearest float64;
    [None] is out of range. *)
Definition to_float (neg : bool) (m nd e : Z) : option float64 :=
  if m =? 0 then Some (S754_zero neg)
  else if 310 <? nd + e then None
  else if nd + e <? -330 then Some (S754_zero neg)
  else
    let x :=
      if 0 <=? e then Float64.of_int ((if neg then - m else m) * 10 ^ e)
      else SFdiv Float64.prec Float64.emax (S754_finite neg (Z.to_pos m) 0)
             (S754_finite false (Z.to_pos (10 ^ (- e))) 0) in
    match x with S754_infinity _ => None | _ => Some x end.

(** How many digits [m] has *)
Definition count_digits (m : Z) : Z := Z.of_nat (String.length (Strconv.FormatInt m)).

(** A number literal; the inner [None] is a number out of range. *)
Definition number (s : string) : option (option float64 * string) :=
  let '(neg, s) :=
    match s with
    | String c s' => if byte_of c =? 45 then (true, s') else (false, s)
    | EmptyString => (false, s)
    end in
  let int_part :=
    match s with
    | String c s' =>
        if byte_of c =? 48 then Some (0, s')
        else let '(m, n, rest) := digits s 0 0 in if n =? 0 then None else Some (m, rest)
    | EmptyString => None
    end in
  match int_part with
  | None => None
  | Some (m, s) =>
      let frac_part :=
        match s with
        | String c s' =>
            if byte_of c =? 46 then
              let '(m', n, rest) := digits s' m 0 in
              if n =? 0 then None else Some (m', n, rest)
            else Some (m, 0, s)
        | EmptyString => Some (m, 0, s)
        end in
      match frac_part with
      | None => None
      | Some (m, nfrac, s) =>
          let exp_part :=
            match s with
            | String c s' =>
                if (byte_of c =? 101) || (byte_of c =? 69) then
                  let '(eneg, s') :=
                    match s' with
                    | String c' s'' =>
                        if byte_of c' =? 45 then (true, s'')
                        else if byte_of c' =? 43 then (false, s'') else (false, s')
                    | EmptyString => (false, s')
                    end in
                  let '(x, n, rest) := exponent s' 0 0 in
                  if n =? 0 then None else Some (if eneg then - x else x, rest)
                else Some (0, s)
            | EmptyString => Some (0, s)
            end in
          match exp_part with
          | None => None
          | Some (x, s) => Some (to_float neg m (count_digits m) (x - nfrac), s)
          end
      end
  end.

(** ** Values *)

Definition is_space (c : ascii) : bool :=
  let n := byte_of c in (n =? 32) || (n =? 9) || (n =? 10) || (n =? 13).

Fixpoint skip (s : string) : string :=
  match s with
  | String c s' => if is_space c then skip s' else s
  | EmptyString => s
  end.

(** The text after a given one *)
Fixpoint after (w s : string) : option string :=
  match w, s with
  | EmptyString, _ => Some s
  | String a w', String b s' => if Ascii.eqb a b then after w' s' else None
  | String _ _, EmptyString => None
  end.

(** m[k] = v *)
Fixpoint set_member (k : string) (v : gvalue) (m : list (string * gvalue)) : list (string * gvalue) :=
  match m with
  | [] => [(k, v)]
  | (k', v') :: m' => if String.eqb k' k then (k, v) :: m' else (k', v') :: set_member k v m'
  end.

Definition maxNestingDepth : Z := 10000.

(** The result of a part of the decoder: a value and what follows it. The inner
    [None] is a number out of range, an error that shows once the whole text
    has been read. *)
Abbreviation parsed A := (option (option A * string)).

Fixpoint value (fuel : nat) (depth : Z) (s : string) : parsed gvalue :=
  match fuel with
  | O => None
  | S f =>
      match skip s with
      | EmptyString => None
      | String c s1 =>
          let n := byte_of c in
          if n =? 123 then
            if maxNestingDepth <=? depth then None
            else
              match skip s1 with
              | String c' rest =>
                  if byte_of c' =? 125 then Some (Some (GMap []), rest)
                  else members f (depth + 1) s1 (Some [])
              | EmptyString => None
              end
          else if n =? 91 then
            if maxNestingDepth <=? depth then None
            else
              match skip s1 with
              | String c' rest =>
                  if byte_of c' =? 93 then Some (Some (GSlice []), rest)
                  else elements f (depth + 1) s1 (Some [])
              | EmptyString => None
              end
          else if n =? 34 then
            match unquote s1 with
            | Some (x, rest) => Some (Some (GString x), rest)
            | None => None
            end
          else if (n =? 45) || (48 <=? n) && (n <=? 57) then
            match number (String c s1) with
            | Some (x, rest) => Some (GFloat64 <$> x, rest)
            | None => None
            end
          else
            match after "true" (String c s1) with
            | Some rest => Some (Some (GBool true), rest)
            | None =>
                match after "false" (String c s1) with
                | Some rest => Some (Some (GBool false), rest)
                | None =>
                    match after "null" (String c s1) with
                    | Some rest => Some (Some GNil, rest)
                    | None => None
                    end
                end
            end
      end
  end

(** The members of an object, at least one, after those of [acc] *)
with members (fuel : nat) (depth : Z) (s : string) (acc : option (list (string * gvalue)))
    : parsed gvalue :=
  match fuel with
  | O => None
  | S f =>
      match skip s with
      | String c s1 =>
          if byte_of c =? 34 then
            match unquote s1 with
            | None => None
            | Some (k, s2) =>
                match skip s2 with
                | String c2 s3 =>
                    if byte_of c2 =? 58 then
                      match value f depth s3 with
                      | None => None
                      | Some (v, s4) =>
                          let acc := match v, acc with
                                     | Some v, Some m => Some (set_member k v m)
                                     | _, _ => None
                                     end in
                          match skip s4 with
                          | String c5 s5 =>
                              if byte_of c5 =? 44 then members f depth s5 acc
                              else if byte_of c5 =? 125 then Some (GMap <$> acc, s5)
                              else None
                          | EmptyString => None
                          end
                      end
                    else None
                | EmptyString => None
                end
            end
          else None
      | EmptyString => None
      end
  end

(** The elements of an array, at least one *)
with elements (fuel : nat) (depth : Z) (s : string) (acc : option (list gvalue))
    : parsed gvalue :=
  match fuel with
  | O => None
  | S f =>
      match value f depth s with
      | None => None
      | Some (v, s4) =>
          let acc := match v, acc with Some v, Some l => Some (l ++ [v]) | _, _ => None end in
          match skip s4 with
          | String c5 s5 =>
              if byte_of c5 =? 44 then elements f depth s5 acc
              else if byte_of c5 =? 93 then Some (GSlice <$> acc, s5)
              else None
          | EmptyString => None
          end
      end
  end.

Definition syntax_error : gerror := Errorf "invalid character or unexpected end of JSON input".
Definition range_error : gerror :=
  Errorf "json: cannot unmarshal number into Go value of type float64".

(** json.Unmarshal(data, &v) with v an interface{} *)
Definition Unmarshal (data : string) : result gvalue :=
  match value (S (2 * String.length data)) 0 data with
  | Some (v, rest) =>
      match skip rest, v with
      | EmptyString, Some v => inr v
      | EmptyString, None => inl range_error
      | _, _ => inl syntax_error
      end
  | None => inl syntax_error
  end.

(** ** Reading back what the encoder writes *)

(** The string that a decoder gets to see: bytes that are not UTF-8 have been
    replaced by U+FFFD. *)
Fixpoint sanitize (s : string) : string :=
  match s with
  | EmptyString => EmptyString
  | String c1 s1 =>
      if byte_of c1 <? 128 then String c1 (sanitize s1)
      else
        match s1 with
        | String c2 s2 =>
            if valid2 c1 c2 then String c1 (String c2 (sanitize s2))
            else
              match s2 with
              | String c3 s3 =>
                  if valid3 c1 c2 c3 then String c1 (String c2 (String c3 (sanitize s3)))
                  else
                    match s3 with
                    | String c4 s4 =>
                        if valid4 c1 c2 c3 c4
                        then String c1 (String c2 (String c3 (String c4 (sanitize s4))))
                        else replacement_rune +s+ sanitize s1
                    | EmptyString => replacement_rune +s+ sanitize s1
                    end
              | EmptyString => replacement_rune +s+ sanitize s1
              end
        | EmptyString => replacement_rune +s+ sanitize s1
        end
  end.

(** A string that is UTF-8 *)
Inductive utf8_text : string -> Prop :=
| utf8_nil : utf8_text EmptyString
| utf8_1 c1 s : byte_of c1 < 128 -> utf8_text s -> utf8_text (String c1 s)
| utf8_2 c1 c2 s : valid2 c1 c2 = true -> utf8_text s -> utf8_text (String c1 (String c2 s))
| utf8_3 c1 c2 c3 s : valid3 c1 c2 c3 = true -> utf8_text s ->
    utf8_text (String c1 (String c2 (String c3 s)))
| utf8_4 c1 c2 c3 c4 s : valid4 c1 c2 c3 c4 = true -> utf8_text s ->
    utf8_text (String c1 (String c2 (String c3 (String c4 s)))).

(** A string of such characters that are written as they are in JSON *)
Definition verbatim (c : ascii) : bool :=
  (32 <=? byte_of c) && negb (byte_of c =? 34) && negb (byte_of c =? 92).

Fixpoint all_chars (f : ascii -> bool) (s : string) : bool :=
  match s with EmptyString => true | String c s' => f c && all_chars f s' end.

Lemma byte_of_inj (c d : ascii) : byte_of c = byte_of d -> c = d.
Proof.
  unfold byte_of. intros E%N2Z.inj. rewrite <- (ascii_N_embedding c), E.
  apply ascii_N_embedding.
Qed.

Lemma in_bytes_spec c lo hi : in_bytes c lo hi = true -> lo <= byte_of c <= hi.
Proof. unfold in_bytes. intros [H1%Z.leb_le H2%Z.leb_le]%andb_prop. lia. Qed.

Lemma in_bytes_one c n : in_bytes c n n = true -> byte_of c = n.
Proof. intros ?%in_bytes_spec. lia. Qed.

Ltac by_bytes :=
  repeat match goal with
  | H : (_ && _)%bool = true |- _ => apply andb_prop in H as [? ?]
  | H : (_ || _)%bool = true |- _ => apply orb_prop in H as [H|H]
  | H : in_bytes _ _ _ = true |- _ => apply in_bytes_spec in H
  | H : cont _ = true |- _ => unfold cont in H
  end.

(** One step of [unquote] on a byte from 128 up *)
Lemma unquote_high (c1 : ascii) (s1 : string) : 128 <= byte_of c1 ->
  unquote (String c1 s1) =
  match s1 with
  | String c2 s2 =>
      if valid2 c1 c2 then prepend (String c1 (char c2)) (unquote s2)
      else
        match s2 with
        | String c3 s3 =>
            if valid3 c1 c2 c3 then prepend (String c1 (String c2 (char c3))) (unquote s3)
            else
              match s3 with
              | String c4 s4 =>
                  if valid4 c1 c2 c3 c4
                  then prepend (String c1 (String c2 (String c3 (char c4)))) (unquote s4)
                  else prepend replacement_rune (unquote s1)
              | EmptyString => prepend replacement_rune (unquote s1)
              end
        | EmptyString => prepend replacement_rune (unquote s1)
        end
  | EmptyString => prepend replacement_rune (unquote s1)
  end.
Proof.
  intros H. cbn [unquote].
  destruct (Z.eqb_spec (byte_of c1) 34); [lia|].
  destruct (Z.eqb_spec (byte_of c1) 92); [lia|].
  destruct (Z.ltb_spec (byte_of c1) 32); [lia|].
  destruct (Z.ltb_spec (byte_of c1) 128); [lia|]. done.
Qed.

Lemma unquote_ascii (c : ascii) (s : string) : byte_of c < 128 ->
  unquote (escape_ascii c +s+ s) = prepend (char c) (unquote s).
Proof.
  intros H. destruct c as [b0 b1 b2 b3 b4 b5 b6 b7].
  destruct b7; [by destruct b0, b1, b2, b3, b4, b5, b6|].
  destruct b0, b1, b2, b3, b4, b5, b6; reflexivity.
Qed.

(** Bytes that start a sequence, and that no shorter sequence fits *)
Lemma valid2_bytes c1 c2 : valid2 c1 c2 = true -> 128 <= byte_of c1.
Proof. unfold valid2. intros ?. by_bytes; lia. Qed.

Lemma in_bytes_above c lo hi : hi < byte_of c -> in_bytes c lo hi = false.
Proof. intros H. unfold in_bytes. apply andb_false_iff. right. apply Z.leb_gt. lia. Qed.

Lemma valid2_above c1 c2 : 224 <= byte_of c1 -> valid2 c1 c2 = false.
Proof. intros H. unfold valid2. by rewrite in_bytes_above by lia. Qed.

Lemma valid3_above c1 c2 c3 : 240 <= byte_of c1 -> valid3 c1 c2 c3 = false.
Proof. intros H. unfold valid3. by rewrite !(in_bytes_above c1) by lia. Qed.

Lemma valid3_bytes c1 c2 c3 : valid3 c1 c2 c3 = true -> 128 <= byte_of c1 /\ valid2 c1 c2 = false.
Proof.
  intros H. assert (224 <= byte_of c1) by (unfold valid3 in H; by_bytes; lia).
  split; [lia|by apply valid2_above].
Qed.

Lemma valid4_bytes c1 c2 c3 c4 : valid4 c1 c2 c3 c4 = true ->
  128 <= byte_of c1 /\ valid2 c1 c2 = false /\ valid3 c1 c2 c3 = false.
Proof.
  intros H. assert (240 <= byte_of c1) by (unfold valid4 in H; by_bytes; lia).
  split_and!; [lia|apply valid2_above; lia|by apply valid3_above].
Qed.

(** A way to read a string: sequences of UTF-8, and bytes that start none *)
Inductive readable : string -> Prop :=
| read_nil : readable EmptyString
| read_1 c1 s : byte_of c1 < 128 -> readable s -> readable (String c1 s)
| read_2 c1 c2 s : valid2 c1 c2 = true -> readable s -> readable (String c1 (String c2 s))
| read_3 c1 c2 c3 s : valid3 c1 c2 c3 = true -> readable s ->
    readable (String c1 (String c2 (String c3 s)))
| read_4 c1 c2 c3 c4 s : valid4 c1 c2 c3 c4 = true -> readable s ->
    readable (String c1 (String c2 (String c3 (String c4 s))))
| read_bad c1 s : escape (String c1 s) = replacement +s+ escape s ->
    sanitize (String c1 s) = replacement_rune +s+ sanitize s -> readable s ->
    readable (String c1 s).

Lemma all_readable (s : string) : readable s.
Proof.
  induction s as [s IH] using (induction_ltof1 _ String.length).
  unfold ltof in IH. destruct s as [|c1 s1]; [constructor|].
  destruct (Z.ltb_spec (byte_of c1) 128) as [|H]; [constructor; [done|]; apply IH; simpl; lia|].
  assert (H' : (byte_of c1 <? 128) = false) by (apply Z.ltb_ge; lia).
  destruct s1 as [|c2 s2].
  { apply read_bad; [simpl; by rewrite H'..|constructor]. }
  destruct (valid2 c1 c2) eqn:V2; [constructor; [done|]; apply IH; simpl; lia|].
  destruct s2 as [|c3 s3].
  { apply read_bad; [cbn [escape sanitize]; by rewrite H', V2..|apply IH; simpl; lia]. }
  destruct (valid3 c1 c2 c3) eqn:V3; [constructor; [done|]; apply IH; simpl; lia|].
  destruct s3 as [|c4 s4].
  { apply read_bad; [cbn [escape sanitize]; by rewrite H', V2, V3..|apply IH; simpl; lia]. }
  destruct (valid4 c1 c2 c3 c4) eqn:V4; [constructor; [done|]; apply IH; simpl; lia|].
  apply read_bad; [| |apply IH; simpl; lia].
  - cbn [escape]. rewrite H', V2, V3, V4. done.
  - cbn [sanitize]. rewrite H', V2, V3, V4. done.
Qed.

Lemma utf8_sanitize (s : string) : utf8_text s -> sanitize s = s.
Proof.
  induction 1 as [|c1 s H _ IH|c1 c2 s H _ IH|c1 c2 c3 s H _ IH|c1 c2 c3 c4 s H _ IH]; [done|..].
  - cbn [sanitize]. destruct (Z.ltb_spec (byte_of c1) 128); [congruence|lia].
  - pose proof (valid2_bytes _ _ H).
    cbn [sanitize]. destruct (Z.ltb_spec (byte_of c1) 128); [lia|]. rewrite H. congruence.
  - pose proof (valid3_bytes _ _ _ H) as (? & V2).
    cbn [sanitize]. destruct (Z.ltb_spec (byte_of c1) 128); [lia|]. rewrite V2, H. congruence.
  - pose proof (valid4_bytes _ _ _ _ H) as (? & V2 & V3).
    cbn [sanitize]. destruct (Z.ltb_spec (byte_of c1) 128); [lia|]. rewrite V2, V3, H. congruence.
Qed.

Lemma prepend_assoc a b r : prepend a (prepend b r) = prepend (a +s+ b) r.
Proof. destruct r as [[s rest]|]; simpl; [by rewrite append_assoc|done]. Qed.

(** Reading a sequence as it is *)
Lemma unquote_2 c1 c2 s : valid2 c1 c2 = true ->
  unquote (String c1 (String c2 s)) = prepend (String c1 (char c2)) (unquote s).
Proof. intros V. rewrite unquote_high by (by eapply valid2_bytes). by rewrite V. Qed.

Lemma unquote_3 c1 c2 c3 s : valid3 c1 c2 c3 = true ->
  unquote (String c1 (String c2 (String c3 s))) = prepend (String c1 (String c2 (char c3))) (unquote s).
Proof.
  intros V. destruct (valid3_bytes _ _ _ V) as (? & V2).
  rewrite unquote_high by done. by rewrite V2, V.
Qed.

Lemma unquote_4 c1 c2 c3 c4 s : valid4 c1 c2 c3 c4 = true ->
  unquote (String c1 (String c2 (String c3 (String c4 s)))) =
    prepend (String c1 (String c2 (String c3 (char c4)))) (unquote s).
Proof.
  intros V. destruct (valid4_bytes _ _ _ _ V) as (? & V2 & V3).
  rewrite unquote_high by done. by rewrite V2, V3, V.
Qed.

Lemma unquote_replacement (s : string) :
  unquote (replacement +s+ s) = prepend replacement_rune (unquote s).
Proof. reflexivity. Qed.

(** U+2028 and U+2029 are written as escapes. *)
Lemma unquote_line_sep c1 c2 c3 s : line_sep c1 c2 c3 = true ->
  unquote (backslash +s+ "u202" +s+ String (hex_digit (Z.land (byte_of c3) 15)) s) =
    prepend (String c1 (String c2 (char c3))) (unquote s).
Proof.
  unfold line_sep. intros [[H1%in_bytes_one H2%in_bytes_one]%andb_prop H3%in_bytes_spec]%andb_prop.
  rewrite (byte_of_inj c1 (ascii_of_N 226)), (byte_of_inj c2 (ascii_of_N 128)) by done.
  assert (byte_of c3 = 168 \/ byte_of c3 = 169) as [E|E] by lia;
    [rewrite (byte_of_inj c3 (ascii_of_N 168)) by done
    |rewrite (byte_of_inj c3 (ascii_of_N 169)) by done]; reflexivity.
Qed.

(** A decoder reads the string that was written, as far as it is UTF-8. *)
Lemma unquote_escape (s rest : string) :
  unquote (escape s +s+ dquote +s+ rest) = Some (sanitize s, rest).
Proof.
  induction (all_readable s) as
    [|c1 s H _ IH|c1 c2 s H _ IH|c1 c2 c3 s H _ IH|c1 c2 c3 c4 s H _ IH|c1 s E1 E2 _ IH]; [done|..].
  - cbn [escape sanitize]. destruct (Z.ltb_spec (byte_of c1) 128); [|lia].
    rewrite append_assoc, unquote_ascii, IH by done. done.
  - pose proof (valid2_bytes _ _ H). cbn [escape sanitize].
    destruct (Z.ltb_spec (byte_of c1) 128); [lia|]. rewrite H. cbn [String.append].
    by rewrite unquote_2, IH.
  - pose proof (valid3_bytes _ _ _ H) as (? & V2). cbn [escape sanitize].
    destruct (Z.ltb_spec (byte_of c1) 128); [lia|]. rewrite V2, H.
    destruct (line_sep c1 c2 c3) eqn:L; rewrite ?append_assoc; cbn [String.append].
    + change (String "u" (String "2" (String "0" (String "2" ?x)))) with ("u202" +s+ x).
      rewrite (unquote_line_sep c1 c2 c3), IH by done. done.
    + by rewrite unquote_3, IH.
  - pose proof (valid4_bytes _ _ _ _ H) as (? & V2 & V3). cbn [escape sanitize].
    destruct (Z.ltb_spec (byte_of c1) 128); [lia|]. rewrite V2, V3, H. cbn [String.append].
    by rewrite unquote_4, IH.
  - rewrite E1, E2, append_assoc, unquote_replacement, IH. done.
Qed.

(** Text without quotes, backslashes and control characters is read as it is. *)
Lemma unquote_verbatim (s rest : string) :
  utf8_text s -> all_chars verbatim s = true ->
  unquote (s +s+ dquote +s+ rest) = Some (s, rest).
Proof.
  intros U. induction U as
    [|c1 s H _ IH|c1 c2 s H _ IH|c1 c2 c3 s H _ IH|c1 c2 c3 c4 s H _ IH]; intros V; [done|..];
    cbn [all_chars] in V; repeat apply andb_prop in V as [? V]; cbn [String.append].
  - cbn [unquote]. unfold verbatim in *. breflect.
    repeat match goal with
    | |- context [byte_of c1 =? ?n] => destruct (Z.eqb_spec (byte_of c1) n); [lia|]
    end.
    destruct (Z.ltb_spec (byte_of c1) 32); [lia|]. destruct (Z.ltb_spec (byte_of c1) 128); [|lia].
    by rewrite IH.
  - by rewrite unquote_2, IH.
  - by rewrite unquote_3, IH.
  - by rewrite unquote_4, IH.
Qed.

(** *** Scalars *)

(** [text] is read as [v] whatever follows that could not be part of it. *)
Definition number_end (rest : string) : bool :=
  match rest with
  | EmptyString => true
  | String c _ =>
      match Strconv.digit c with Some _ => false | None => true end &&
      negb ((byte_of c =? 46) || (byte_of c =? 101) || (byte_of c =? 69))
  end.

Definition reads (text : string) (v : gvalue) : Prop :=
  forall f d rest, number_end rest = true -> value (S f) d (text +s+ rest) = Some (Some v, rest).

Lemma value_quote f d s :
  value (S f) d (Json.dquote +s+ s) =
    match unquote s with Some (x, rest) => Some (Some (GString x), rest) | None => None end.
Proof. reflexivity. Qed.

Lemma reads_string (x : string) :
  utf8_text x -> all_chars verbatim x = true -> reads (Json.dquote +s+ x +s+ Json.dquote) (GString x).
Proof.
  intros U V f d rest _. by rewrite !append_assoc, value_quote, unquote_verbatim.
Qed.

Lemma reads_escaped (x : string) : reads (MarshalString x) (GString (sanitize x)).
Proof.
  intros f d rest _. unfold MarshalString. by rewrite !append_assoc, value_quote, unquote_escape.
Qed.

Lemma reads_bool (b : bool) : reads (MarshalBool b) (GBool b).
Proof. intros f d rest _. by destruct b. Qed.

(** Reading digits up to something else *)
Lemma digits_app (s rest : string) (acc v n : Z) :
  Strconv.parse_digits s acc = Some v -> number_end rest = true ->
  digits (s +s+ rest) acc n = (v, n + Z.of_nat (String.length s), rest).
Proof.
  revert acc n. induction s as [|c s IH]; intros acc n H E; cbn [String.append].
  - injection H as ->. replace (n + Z.of_nat _) with n by (simpl; lia).
    destruct rest as [|c rest]; [done|]. cbn [digits]. simpl in E.
    by destruct (Strconv.digit c).
  - cbn [digits Strconv.parse_digits] in *. destruct (Strconv.digit c); [|done].
    rewrite (IH _ _ H E). f_equal. f_equal. cbn [String.length]. lia.
Qed.

(** What the digits are worth, at least *)
Lemma parse_digits_lower (s : string) (acc v : Z) :
  0 <= acc -> Strconv.parse_digits s acc = Some v -> acc * 10 ^ Z.of_nat (String.length s) <= v.
Proof.
  revert acc. induction s as [|c s IH]; intros acc Ha; cbn [Strconv.parse_digits String.length].
  - intros [= ->]. simpl. lia.
  - destruct (Strconv.digit c) as [d|] eqn:D; [|done]. intros H.
    assert (0 <= d).
    { unfold Strconv.digit in D. destruct (_ && _)%bool eqn:B; [|done]. breflect.
      injection D as <-. lia. }
    apply IH in H; [|lia]. rewrite Nat2Z.inj_succ, Z.pow_succ_r by lia.
    pose proof (Z.pow_pos_nonneg 10 (Z.of_nat (String.length s)) ltac:(lia) ltac:(lia)). nia.
Qed.

(** The digits of a positive number: the first is not zero. *)
Lemma positive_digits (p : positive) :
  exists c s d, NilEmpty.string_of_uint (Pos.to_uint p) = String c s /\
    Strconv.digit c = Some d /\ 1 <= d /\ byte_of c <> 48 /\ 48 <= byte_of c <= 57 /\
    Strconv.parse_digits (String c s) 0 = Some (Zpos p).
Proof.
  pose proof (Strconv.parse_digits_uint0 (Pos.to_uint p)) as P.
  rewrite DecimalPos.Unsigned.of_to in P. change (Z.of_N (Npos p)) with (Zpos p) in P.
  assert (N : Pos.to_uint p = Decimal.unorm (Pos.to_uint p)).
  { pose proof (DecimalN.Unsigned.to_of (Pos.to_uint p)) as T.
    change (N.of_uint (Pos.to_uint p)) with (Pos.of_uint (Pos.to_uint p)) in T.
    by rewrite DecimalPos.Unsigned.of_to in T. }
  pose proof (DecimalFacts.nzhead_nonzero (Pos.to_uint p)) as Z0.
  pose proof (DecimalPos.Unsigned.to_uint_nonzero p) as NZ.
  unfold Decimal.unorm in N.
  destruct (Decimal.nzhead (Pos.to_uint p)) as [| | | | | | | | | |] eqn:H; try (by destruct (Z0 _ eq_refl));
    [by destruct NZ; rewrite N| ..];
    rewrite N in P |- *; cbn [NilEmpty.string_of_uint] in P |- *;
    (do 3 eexists; split; [reflexivity|]; split; [vm_compute; reflexivity|]; split_and!;
      first [exact P|done]).
Qed.

Lemma to_float_int neg p nd : nd <= 300 -> 0 <= nd -> Zpos p < 2 ^ 64 ->
  to_float neg (Zpos p) nd 0 = Some (Float64.of_int (if neg then Zneg p else Zpos p)).
Proof.
  intros H1 H2 H. unfold to_float. cbn [Z.eqb].
  destruct (Z.ltb_spec 310 (nd + 0)); [lia|]. destruct (Z.ltb_spec (nd + 0) (-330)); [lia|].
  cbn [Z.leb Z.compare]. replace ((if neg then - Zpos p else Zpos p) * 10 ^ 0) with
    (if neg then Zneg p else Zpos p) by (destruct neg; lia).
  pose proof (Float64.of_int_finite (if neg then Zneg p else Zpos p) ltac:(destruct neg; lia)) as F.
  by destruct (Float64.of_int _).
Qed.

(** A literal of digits only *)
Lemma number_digits neg (ds rest : string) c s m :
  ds = String c s -> byte_of c <> 48 -> 48 <= byte_of c <= 57 ->
  Strconv.parse_digits ds 0 = Some m -> number_end rest = true ->
  number ((if neg : bool then "-" else EmptyString) +s+ ds +s+ rest) =
    Some (to_float neg m (count_digits m) 0, rest).
Proof.
  intros -> N0 Rc P E.
  assert (D : digits (String c s +s+ rest) 0 0 = (m, Z.of_nat (String.length (String c s)), rest))
    by (by apply (digits_app _ _ _ _ 0)).
  assert (L : (Z.of_nat (String.length (String c s)) =? 0) = false)
    by (apply Z.eqb_neq; cbn [String.length]; lia).
  assert (C0 : (byte_of c =? 48) = false) by (by apply Z.eqb_neq).
  assert (C45 : (byte_of c =? 45) = false) by (apply Z.eqb_neq; lia).
  unfold number. destruct neg; cbn [String.append].
  1: change (byte_of "-" =? 45) with true.
  2: rewrite C45.
  all: cbn iota beta; rewrite C0; change (String c (s +s+ rest)) with (String c s +s+ rest);
    rewrite D, L; destruct rest as [|c' r]; [done|]; simpl in E; breflect;
    repeat match goal with H : (byte_of c' =? _) = _ |- _ => rewrite H; clear H end;
    repeat match goal with
    | H : byte_of c' <> ?n |- _ => rewrite (proj2 (Z.eqb_neq _ _) H); clear H
    end; reflexivity.
Qed.

Lemma number_zero rest : number_end rest = true ->
  number (String "0" rest) = Some (Some (Float64.of_int 0), rest).
Proof.
  intros E. unfold number.
  assert ((byte_of "0" =? 45) = false) as -> by reflexivity. cbn iota beta.
  assert ((byte_of "0" =? 48) = true) as -> by reflexivity. cbn iota beta.
  destruct rest as [|c r]; [done|]. simpl in E. breflect.
  repeat match goal with
  | H : byte_of c <> ?n |- _ => rewrite (proj2 (Z.eqb_neq _ _) H); clear H
  end. done.
Qed.

Lemma value_number f d c s : byte_of c = 45 \/ 48 <= byte_of c <= 57 ->
  value (S f) d (String c s) =
    match number (String c s) with
    | Some (x, rest) => Some (GFloat64 <$> x, rest)
    | None => None
    end.
Proof.
  intros H.
  assert (E : forall n, n <> 45 -> (n < 48 \/ 57 < n) -> (byte_of c =? n) = false)
    by (intros n ? ?; apply Z.eqb_neq; lia).
  assert (S : is_space c = false) by (unfold is_space; by rewrite !E by lia).
  cbn [value skip]. rewrite S. rewrite !E by lia. cbn iota.
  assert (((byte_of c =? 45) || (48 <=? byte_of c) && (byte_of c <=? 57))%bool = true) as ->; [|done].
  destruct H as [->|[H1 H2]]; [done|].
  rewrite (proj2 (Z.leb_le _ _) H1), (proj2 (Z.leb_le _ _) H2). by destruct (_ =? 45).
Qed.

(** The decimal form of an int64 is read as the nearest float64. *)
Lemma reads_int (z : Z) :
  Int64.in_range z -> reads (Strconv.FormatInt z) (GFloat64 (Float64.of_int z)).
Proof.
  unfold Int64.in_range, Int64.min_value, Int64.max_value. intros B f d rest E.
  destruct z as [|p|p].
  { change (Strconv.FormatInt 0) with "0". cbn [String.append].
    rewrite value_number by (right; vm_compute; split; discriminate).
    by rewrite number_zero. }
  all: destruct (positive_digits p) as (c & s & k & E1 & Dk & K1 & N0 & Rc & P).
  all: assert (CD : count_digits (Zpos p) = Z.of_nat (String.length (String c s)))
    by (unfold count_digits, Strconv.FormatInt; cbn [Z.to_int NilZero.string_of_int];
        by rewrite (Strconv.nilzero_nonnil _ (Strconv.to_uint_not_nil p)), E1).
  all: assert (CB : 0 <= count_digits (Zpos p) <= 300)
    by (rewrite CD; pose proof P as P'; cbn [Strconv.parse_digits] in P'; rewrite Dk in P';
        apply parse_digits_lower in P'; [|lia]; cbn [String.length];
        split; [lia|]; apply Z.nlt_ge; intros LT;
        assert (10 ^ 300 <= 10 ^ Z.of_nat (String.length s)) by (apply Z.pow_le_mono_r; lia);
        assert (2 ^ 64 < 10 ^ 300) by (vm_compute; reflexivity); nia).
  all: unfold Strconv.FormatInt; cbn [Z.to_int NilZero.string_of_int].
  all: rewrite (Strconv.nilzero_nonnil _ (Strconv.to_uint_not_nil p)), E1.
  - cbn [String.append]. rewrite value_number by (by right).
    pose proof (number_digits false _ rest c s _ eq_refl N0 Rc P E) as ND.
    cbn [String.append] in ND. rewrite ND. rewrite to_float_int by lia. done.
  - cbn [String.append]. rewrite value_number by (left; reflexivity).
    pose proof (number_digits true _ rest c s _ eq_refl N0 Rc P E) as ND.
    cbn [String.append] in ND. rewrite ND. rewrite to_float_int by lia. done.
Qed.

(** *** Objects *)

Lemma skip_app (w s : string) : all_chars is_space w = true -> skip (w +s+ s) = skip s.
Proof.
  induction w as [|c w IH]; [done|]. cbn [all_chars String.append skip].
  intros [-> H]%andb_prop. auto.
Qed.

Lemma members_skip f d w s acc : all_chars is_space w = true ->
  members f d (w +s+ s) acc = members f d s acc.
Proof. intros H. destruct f; [done|]. cbn [members]. by rewrite skip_app. Qed.

Lemma value_skip f d w s : all_chars is_space w = true -> value f d (w +s+ s) = value f d s.
Proof. intros H. destruct f; [done|]. cbn [value]. by rewrite skip_app. Qed.

(** One member: its key, what separates it from its value, the value's text *)
Definition member_text (k w text : string) : string :=
  Json.dquote +s+ k +s+ Json.dquote +s+ ":" +s+ w +s+ text.

(** What follows a member: another one, or the end of the object *)
Definition after_member (f : nat) (d : Z) (acc : list (string * gvalue)) (s : string)
  : parsed gvalue :=
  match skip s with
  | String c s' =>
      if byte_of c =? 44 then members f d s' (Some acc)
      else if byte_of c =? 125 then Some (Some (GMap acc), s')
      else None
  | EmptyString => None
  end.

Lemma members_one f d k w text v s acc :
  utf8_text k -> all_chars verbatim k = true -> all_chars is_space w = true -> reads text v ->
  number_end s = true ->
  members (S (S f)) d (member_text k w text +s+ s) (Some acc) =
    after_member (S f) d (set_member k v acc) s.
Proof.
  intros U V W Rv E. unfold member_text. rewrite !append_assoc.
  assert (Q : forall x, members (S (S f)) d (Json.dquote +s+ x) (Some acc) =
    match unquote x with
    | None => None
    | Some (k, s2) =>
        match skip s2 with
        | String c2 s3 =>
            if byte_of c2 =? 58 then
              match value (S f) d s3 with
              | None => None
              | Some (v, s4) =>
                  let acc := match v, Some acc with
                             | Some v, Some m => Some (set_member k v m)
                             | _, _ => None
                             end in
                  match skip s4 with
                  | String c5 s5 =>
                      if byte_of c5 =? 44 then members (S f) d s5 acc
                      else if byte_of c5 =? 125 then Some (GMap <$> acc, s5)
                      else None
                  | EmptyString => None
                  end
              end
            else None
        | EmptyString => None
        end
    end) by done.
  rewrite Q, unquote_verbatim by done.
  change (skip (":" +s+ ?x)) with (":" +s+ x). cbn [String.append].
  change (byte_of ":" =? 58) with true. cbn iota.
  rewrite value_skip by done. by rewrite (Rv f d s E).
Qed.

(** A member of an object as it is written: blanks, its key, blanks before the
    value, the pieces of the text of the value, and the value *)
Record jmember := JMember { jm_pre : string; jm_key : string; jm_mid : string;
                            jm_text : list string; jm_value : gvalue }.

Definition jm_ok (m : jmember) : Prop :=
  all_chars is_space (jm_pre m) = true /\ all_chars is_space (jm_mid m) = true /\
  utf8_text (jm_key m) /\ all_chars verbatim (jm_key m) = true /\ reads (cat (jm_text m)) (jm_value m).

Definition jm_string (m : jmember) : string :=
  jm_pre m +s+ member_text (jm_key m) (jm_mid m) (cat (jm_text m)).

Definition store (acc : list (string * gvalue)) (m : jmember) : list (string * gvalue) :=
  set_member (jm_key m) (jm_value m) acc.

(** The text of an object up to its last member: blanks, and members with
    the comma after them *)
Definition stream : Type := list (string + jmember).

Definition piece_ok (x : string + jmember) : Prop :=
  match x with inl w => all_chars is_space w = true | inr m => jm_ok m end.

Definition piece_text (x : string + jmember) : string :=
  match x with inl w => w | inr m => jm_string m +s+ "," end.

Fixpoint stream_text (st : stream) : string :=
  match st with [] => EmptyString | x :: st => piece_text x +s+ stream_text st end.

Definition stored (st : stream) (acc : list (string * gvalue)) : list (string * gvalue) :=
  fold_left (fun acc x => match x with inl _ => acc | inr m => store acc m end) st acc.

Lemma stream_text_app st1 st2 : stream_text (st1 ++ st2) = stream_text st1 +s+ stream_text st2.
Proof. induction st1 as [|x st IH]; [done|]. cbn [app stream_text]. by rewrite IH, append_assoc. Qed.

(** The same text before [k], from left to right *)
Definition jm_then (m : jmember) (k : string) : string :=
  jm_pre m +s+ Json.dquote +s+ jm_key m +s+ Json.dquote +s+ ":" +s+ jm_mid m +s+
  cat_then (jm_text m) k.

Fixpoint stream_then (st : stream) (k : string) : string :=
  match st with
  | [] => k
  | inl w :: st => w +s+ stream_then st k
  | inr m :: st => jm_then m ("," +s+ stream_then st k)
  end.

Lemma jm_then_eq m k : jm_then m k = jm_string m +s+ k.
Proof. unfold jm_then, jm_string, member_text. by rewrite cat_then_eq, !append_assoc. Qed.

Lemma stream_then_eq st k : stream_then st k = stream_text st +s+ k.
Proof.
  induction st as [|[w|m] st IH]; [done|..]; cbn [stream_then stream_text piece_text];
    rewrite ?jm_then_eq, IH, !append_assoc; done.
Qed.

Lemma stored_app st1 st2 acc : stored (st1 ++ st2) acc = stored st2 (stored st1 acc).
Proof. apply fold_left_app. Qed.

(** Reading it needs a step per member. *)
Lemma stream_read (st : stream) (f : nat) d acc s :
  Forall piece_ok st -> (List.length st < f)%nat ->
  exists f', (f <= f' + List.length st)%nat /\
    members f d (stream_text st +s+ s) (Some acc) = members f' d s (Some (stored st acc)).
Proof.
  intros H. revert f acc. induction H as [|x st H _ IH]; intros f acc L.
  { exists f. split; [simpl; lia|done]. }
  cbn [List.length] in L. cbn [stream_text]. rewrite append_assoc. destruct x as [w|m]; simpl in H.
  - cbn [piece_text]. rewrite members_skip by done.
    destruct (IH f acc ltac:(lia)) as (f' & B & E). exists f'. split; [cbn [List.length]; lia|done].
  - destruct H as (H1 & H2 & H3 & H4 & H5). destruct f as [|[|f]]; [lia..|].
    destruct (IH (S f) (store acc m) ltac:(lia)) as (f' & B & E).
    exists f'. split; [cbn [List.length]; lia|]. cbn [piece_text].
    unfold jm_string. rewrite !append_assoc, members_skip by done.
    rewrite (members_one f d _ _ _ (jm_value m)) by done.
    unfold after_member. cbn [String.append skip]. change (is_space ",") with false. cbn iota.
    change (byte_of "," =? 44) with true. cbn iota. exact E.
Qed.

Lemma stream_skip (st : stream) (m : jmember) (s : string) :
  Forall piece_ok st -> jm_ok m ->
  exists x, skip (stream_text st +s+ jm_string m +s+ s) = Json.dquote +s+ x.
Proof.
  assert (Q : forall m s, jm_ok m -> exists x, skip (jm_string m +s+ s) = Json.dquote +s+ x).
  { intros m' s' (H & _). unfold jm_string, member_text. rewrite !append_assoc, skip_app by done.
    by eexists. }
  intros H Hm. induction H as [|[w|m'] st H _ IH]; cbn [stream_text piece_text append].
  - by apply Q.
  - rewrite append_assoc, skip_app by done. exact IH.
  - rewrite !append_assoc. by apply Q.
Qed.

(** Decoding an object *)
Lemma Unmarshal_stream (st : stream) (m : jmember) :
  Forall piece_ok st -> jm_ok m -> (List.length st <= 2 * String.length (stream_text st))%nat ->
  Unmarshal ("{" +s+ stream_text st +s+ jm_string m +s+ "}") = inr (GMap (store (stored st []) m)).
Proof.
  intros H Hm L. unfold Unmarshal.
  assert (V : forall f s, (exists x, skip s = Json.dquote +s+ x) ->
            value (S f) 0 ("{" +s+ s) = members f 1 s (Some [])).
  { intros f s [x E]. cbn [String.append value skip]. change (is_space "{") with false. cbn iota.
    change (byte_of "{" =? 123) with true. cbn iota. change (maxNestingDepth <=? 0) with false.
    cbn iota. by rewrite E. }
  rewrite V by by apply stream_skip.
  set (n := (2 * _)%nat).
  assert (Ln : (List.length st + 4 < n)%nat).
  { unfold n. rewrite !append_length. unfold jm_string, member_text. rewrite !append_length.
    cbn [Json.dquote String.length]. lia. }
  destruct (stream_read st n 1 [] (jm_string m +s+ "}") H ltac:(lia)) as (f' & B & ->).
  destruct f' as [|[|f']]; [lia..|]. destruct Hm as (H1 & H2 & H3 & H4 & H5).
  unfold jm_string. rewrite !append_assoc, members_skip by done.
  by rewrite (members_one f' 1 _ _ _ (jm_value m)).
Qed.

(** What an object holds at a key: the last member with that key *)
Lemma massoc_set_member k k' v m :
  massoc k (set_member k' v m) = if String.eqb k' k then Some v else massoc k m.
Proof.
  induction m as [|[k0 v0] m IH]; cbn [set_member massoc]; [done|].
  destruct (String.eqb_spec k0 k') as [->|N]; cbn [massoc].
  - by destruct (String.eqb k' k).
  - rewrite IH. destruct (String.eqb_spec k0 k) as [->|]; [|done].
    destruct (String.eqb_spec k' k) as [->|]; [done|done].
Qed.

Definition has_key (k : string) (x : string + jmember) : bool :=
  match x with inl _ => false | inr m => String.eqb (jm_key m) k end.

Lemma massoc_stored_other k st acc :
  Forall (fun x => has_key k x = false) st -> massoc k (stored st acc) = massoc k acc.
Proof.
  intros H. revert acc. induction H as [|[w|m] st H _ IH]; intros acc; [done|exact (IH acc)|].
  cbn [stored fold_left] in IH |- *. rewrite IH. unfold store. rewrite massoc_set_member.
  simpl in H. by rewrite H.
Qed.

Lemma massoc_stored k st1 m st2 acc :
  jm_key m = k -> Forall (fun x => has_key k x = false) st2 ->
  massoc k (stored (st1 ++ inr m :: st2) acc) = Some (jm_value m).
Proof.
  intros E H. rewrite stored_app.
  change (inr m :: st2) with ([inr m] ++ st2). rewrite stored_app, massoc_stored_other by done.
  cbn [stored fold_left]. unfold store. by rewrite massoc_set_member, E, String.eqb_refl.
Qed.

End JsonDecode.

Abbreviation json_Unmarshal := JsonDecode.Unmarshal.
