(* ===== verification/JsonTotal.v ===== *)
(** * The fuel of the JSON decoder is enough

    [JsonDecode.value] and its companions recurse with fuel. Here the fuel that
    [Unmarshal] starts with is shown to be enough for every text: more of it
    never changes the outcome. *)

From Stdlib Require Import ZArith Lia Ascii String.
From S2P Require Import Prelude GoStd Float GoJson K8sLib JsonDecode.
Import Json JsonDecode.

Module JsonTotal.

Abbreviation len := String.length.

(** ** What is left is not longer. *)

Lemma skip_le s : len (skip s) <= len s.
Proof. induction s as [|c s IH]; [done|]. cbn. destruct (is_space c); cbn; lia. Qed.

Lemma after_le w s rest : after w s = Some rest -> len rest <= len s.
Proof.
  revert s. induction w as [|a w IH]; intros s; [by intros [= <-]|]. destruct s as [|b s]; [done|]. cbn.
  destruct (Ascii.eqb a b); [|done]. intros E%IH. lia.
Qed.

Lemma digits_le s : forall acc n, len (digits s acc n).2 <= len s.
Proof.
  induction s as [|c s IH]; intros acc n; cbn; [done|]. destruct (Strconv.digit c) as [d|]; cbn; [|lia].
  specialize (IH (10 * acc + d)%Z (n + 1)%Z). lia.
Qed.

Lemma exponent_le s : forall acc n, len (exponent s acc n).2 <= len s.
Proof.
  induction s as [|c s IH]; intros acc n; cbn; [done|]. destruct (Strconv.digit c) as [d|]; cbn; [|lia].
  specialize (IH (if (acc <? 10000)%Z then 10 * acc + d else acc)%Z (n + 1)%Z). lia.
Qed.

Lemma prepend_le a r s rest k : prepend a r = Some (s, rest) ->
  (forall s' rest', r = Some (s', rest') -> len rest' <= k) -> len rest <= k.
Proof. destruct r as [[s' rest']|]; [|done]. intros [= _ <-] H. by apply (H s'). Qed.

Lemma unquote_le n : forall s x rest, len s <= n -> unquote s = Some (x, rest) -> len rest <= n.
Proof.
  induction n as [|n IH]; intros s x rest L E; [by destruct s; [|cbn in L; lia]|].
  assert (K : forall s' a, len s' <= n -> prepend a (unquote s') = Some (x, rest) -> len rest <= S n).
  { intros s' a L' E'. assert (len rest <= n); [|lia]. eapply prepend_le; [exact E'|]. intros. by eapply IH. }
  destruct s as [|c1 s1]; [done|]. cbn [len] in L.
  assert (Q : forall b : bool, forall X Y, (if b then X else Y) = Some (x, rest) ->
    X = Some (x, rest) \/ Y = Some (x, rest)) by (intros []; auto).
  cbn [unquote] in E.
  repeat first
    [ progress (cbn [len] in L)
    | match type of E with
      | None = _ => discriminate E
      | Some _ = _ => injection E as _ <-; lia
      | prepend _ (unquote _) = _ => eapply K; [|exact E]; cbn [len]; lia
      | (if ?b then _ else _) = _ => destruct b
      | match ?y with _ => _ end = _ => destruct y
      end ].
Qed.

(** What each part of a number leaves: [leaves] bounds it. *)
Ltac leaves :=
  repeat first
    [ discriminate
    | progress simplify_eq
    | match goal with
      | |- context[match ?y with _ => _ end] => destruct y eqn:?
      | H : context[match ?y with _ => _ end] |- _ => destruct y eqn:?
      end ];
  repeat match goal with
  | H : digits ?s ?a ?n = _ |- _ => pose proof (digits_le s a n); rewrite H in *; clear H
  | H : exponent ?s ?a ?n = _ |- _ => pose proof (exponent_le s a n); rewrite H in *; clear H
  end; cbn [len snd] in *; lia.

Lemma number_le s x rest : number s = Some (x, rest) -> len rest <= len s.
Proof.
  intros E. unfold number in E.
  destruct (match s with
            | String c s' => if (byte_of c =? 45)%Z then (true, s') else (false, s)
            | EmptyString => (false, s)
            end) as [neg s1] eqn:E1.
  assert (len s1 <= len s) by (clear E; leaves). clear E1.
  destruct (match s1 with
            | String c s' =>
                if (byte_of c =? 48)%Z then Some (0%Z, s')
                else let '(m, n, rest) := digits s1 0 0 in if (n =? 0)%Z then None else Some (m, rest)
            | EmptyString => None
            end) as [[m s2]|] eqn:E2; [|done].
  assert (len s2 <= len s1) by (clear E; leaves). clear E2.
  destruct (match s2 with
            | String c s' =>
                if (byte_of c =? 46)%Z then
                  let '(m', n, rest) := digits s' m 0 in
                  if (n =? 0)%Z then None else Some (m', n, rest)
                else Some (m, 0%Z, s2)
            | EmptyString => Some (m, 0%Z, s2)
            end) as [[[m' n] s3]|] eqn:E3; [|done].
  assert (len s3 <= len s2) by (clear E; leaves). clear E3.
  assert (len rest <= len s3); [|lia]. leaves.
Qed.

(** The parts of the decoder *)
Lemma parsed_le n : forall d s,
  (forall v rest, value n d s = Some (v, rest) -> len rest <= len s) /\
  (forall acc v rest, members n d s acc = Some (v, rest) -> len rest <= len s) /\
  (forall acc v rest, elements n d s acc = Some (v, rest) -> len rest <= len s).
Proof.
  induction n as [|n IH]; intros d s; [done|].
  pose proof (skip_le s) as Ks. split_and!.
  - intros v rest E. cbn [value] in E. destruct (skip s) as [|c s1]; [done|]. cbn [len] in Ks.
    pose proof (skip_le s1) as K1.
    destruct (byte_of c =? 123)%Z.
    { destruct (maxNestingDepth <=? d)%Z; [done|]. destruct (skip s1) as [|c' s2]; [done|]. cbn [len] in K1.
      destruct (byte_of c' =? 125)%Z; [injection E as _ <-; lia|]. apply (IH (d + 1)%Z s1) in E. lia. }
    destruct (byte_of c =? 91)%Z.
    { destruct (maxNestingDepth <=? d)%Z; [done|]. destruct (skip s1) as [|c' s2]; [done|]. cbn [len] in K1.
      destruct (byte_of c' =? 93)%Z; [injection E as _ <-; lia|]. apply (IH (d + 1)%Z s1) in E. lia. }
    destruct (byte_of c =? 34)%Z.
    { destruct (unquote s1) as [[x r]|] eqn:U; [|done]. injection E as _ <-.
      apply (unquote_le (len s1)) in U; [lia|done]. }
    destruct (_ || _).
    { destruct (number (String c s1)) as [[x r]|] eqn:U; [|done]. injection E as _ <-.
      apply number_le in U. cbn [len] in U. lia. }
    destruct (after "true" (String c s1)) eqn:A1; [injection E as _ <-; apply after_le in A1; cbn [len] in A1; lia|].
    destruct (after "false" (String c s1)) eqn:A2; [injection E as _ <-; apply after_le in A2; cbn [len] in A2; lia|].
    destruct (after "null" (String c s1)) eqn:A3; [injection E as _ <-; apply after_le in A3; cbn [len] in A3; lia|done].
  - intros acc v rest E. cbn [members] in E. destruct (skip s) as [|c s1]; [done|]. cbn [len] in Ks.
    destruct (byte_of c =? 34)%Z; [|done]. destruct (unquote s1) as [[k s2]|] eqn:U; [|done].
    apply (unquote_le (len s1)) in U; [|done]. pose proof (skip_le s2) as K2.
    destruct (skip s2) as [|c2 s3]; [done|]. cbn [len] in K2. destruct (byte_of c2 =? 58)%Z; [|done].
    destruct (value n d s3) as [[w s4]|] eqn:V; [|done]. apply (IH d s3) in V. pose proof (skip_le s4) as K4.
    destruct (skip s4) as [|c5 s5]; [done|]. cbn [len] in K4.
    destruct (byte_of c5 =? 44)%Z; [apply (IH d s5) in E; lia|].
    destruct (byte_of c5 =? 125)%Z; [injection E as _ <-; lia|done].
  - intros acc v rest E. cbn [elements] in E. destruct (value n d s) as [[w s4]|] eqn:V; [|done].
    apply (IH d s) in V. pose proof (skip_le s4) as K4. destruct (skip s4) as [|c5 s5]; [done|]. cbn [len] in K4.
    destruct (byte_of c5 =? 44)%Z; [apply (IH d s5) in E; lia|].
    destruct (byte_of c5 =? 93)%Z; [injection E as _ <-; lia|done].
Qed.

(** ** More fuel changes nothing. *)

Lemma stable n : forall d s f g, len s <= n -> 2 * n + 2 <= S f -> 2 * n + 2 <= S g ->
  value f d s = value g d s /\
  (2 * n + 2 <= f -> 2 * n + 2 <= g ->
   forall acc acc', members f d s acc = members g d s acc /\ elements f d s acc' = elements g d s acc').
Proof.
  induction n as [|n IH]; intros d s f g L Lf Lg.
  - destruct s; [|cbn in L; lia]. destruct f as [|f], g as [|g]; try lia. split; [done|].
    intros Lf' Lg' acc acc'. destruct f as [|f], g as [|g]; try lia. done.
  - assert (V : forall d s f g, len s <= n -> 2 * n + 1 <= f -> 2 * n + 1 <= g -> value f d s = value g d s)
      by (intros; apply IH; lia).
    assert (W : forall d s f g acc acc', len s <= n -> 2 * n + 2 <= f -> 2 * n + 2 <= g ->
      members f d s acc = members g d s acc /\ elements f d s acc' = elements g d s acc')
      by (intros; apply IH; lia).
    assert (X : forall f g, 2 * n + 3 <= f -> 2 * n + 3 <= g -> value f d s = value g d s).
    { clear f g Lf Lg. intros [|f] [|g] Lf Lg; try lia. cbn [value]. pose proof (skip_le s) as Ks.
      destruct (skip s) as [|c s1]; [done|]. cbn [len] in Ks.
      destruct (W (d + 1)%Z s1 f g (Some []) (Some []) ltac:(lia) ltac:(lia) ltac:(lia)) as [-> ->]. done. }
    split; [apply X; lia|]. intros Lf' Lg' acc acc'.
    destruct f as [|f], g as [|g]; try lia. cbn [members elements]. split.
    + pose proof (skip_le s) as Ks. destruct (skip s) as [|c s1]; [done|]. cbn [len] in Ks.
      destruct (byte_of c =? 34)%Z; [|done]. destruct (unquote s1) as [[k s2]|] eqn:U; [|done].
      apply (unquote_le (len s1)) in U; [|done]. pose proof (skip_le s2) as K2.
      destruct (skip s2) as [|c2 s3]; [done|]. cbn [len] in K2. destruct (byte_of c2 =? 58)%Z; [|done].
      rewrite (V d s3 f g) by lia. destruct (value g d s3) as [[w s4]|] eqn:V4; [|done].
      apply (parsed_le g d s3) in V4. pose proof (skip_le s4) as K4.
      destruct (skip s4) as [|c5 s5]; [done|]. cbn [len] in K4.
      destruct (byte_of c5 =? 44)%Z; [|done]. apply (W d s5 f g _ None); lia.
    + rewrite (X f g) by lia. destruct (value g d s) as [[w s4]|] eqn:V4; [|done].
      apply (parsed_le g d s) in V4. pose proof (skip_le s4) as K4.
      destruct (skip s4) as [|c5 s5]; [done|]. cbn [len] in K4.
      destruct (byte_of c5 =? 44)%Z; [|done]. apply (W d s5 f g None _); lia.
Qed.

(** The decoder's fuel is enough. *)
Lemma value_fuel (data : string) (f : nat) :
  2 * len data + 1 <= f -> value f 0 data = value (S (2 * len data)) 0 data.
Proof. intros L. apply (stable (len data)); lia. Qed.

End JsonTotal.
