(* ===== verification/Template.v ===== *)
(** * text/template: the part of the language that the default templates use

    [render text v] executes a template text on a value, as
    template.New(name).Parse(text) and Execute do: literal text, {{.Field}},
    {{$variable.field}}, string constants, the functions and, or, not, eq, ne,
    if with else and else if, and range over slices and maps (in the order of
    the keys) with up to two variables. [None] is everything else: an error of
    the template, or a construct outside this part (pipes, numbers, comments,
    trim markers, definitions, other functions). *)

From Stdlib Require Import ZArith Lia Ascii String.
From stdpp Require Import sorting.
From S2P Require Import Prelude GoStd Float GoJson K8sLib.

Module Tmpl.
Local Open Scope Z_scope.

(** ** Syntax *)

Inductive fn := FAnd | FOr | FNot | FEq | FNe.

(** A field path starts from the dot or a variable. *)
Inductive expr :=
| EField (path : list string)
| EVar (x : string) (path : list string)
| EString (s : string)
| ECall (f : fn) (args : list expr).

Inductive node :=
| NText (s : string)
| NAction (e : expr)
| NIf (e : expr) (yes no : list node)
| NRange (xs : list string) (e : expr) (body no : list node).

(** ** Lexing *)

Inductive item := IText (s : string) | IAction (s : string).

Definition dquote : ascii := "034"%char.

(** Split the text at the delimiters {{ and }}. The first component is the
    rest of the segment at hand; [action]: inside an action, [quoted]: inside a
    string constant of one. *)
Fixpoint split (s : string) (action quoted : bool) : option (string * list item) :=
  match s with
  | EmptyString => if action then None else Some (EmptyString, [])
  | String c s1 =>
      let here (seg : option (string * list item)) :=
        match seg with Some (t, l) => Some (String c t, l) | None => None end in
      if negb action then
        match s1 with
        | String c' s2 =>
            if Ascii.eqb c "{" && Ascii.eqb c' "{" then
              match split s2 true false with
              | Some (a, l) => Some (EmptyString, IAction a :: l)
              | None => None
              end
            else here (split s1 false false)
        | EmptyString => here (split s1 false false)
        end
      else if Ascii.eqb c dquote then here (split s1 true (negb quoted))
      else if quoted then here (split s1 true true)
      else
        match s1 with
        | String c' s2 =>
            if Ascii.eqb c "}" && Ascii.eqb c' "}" then
              match split s2 false false with
              | Some (t, l) => Some (EmptyString, IText t :: l)
              | None => None
              end
            else here (split s1 true false)
        | EmptyString => None
        end
  end.

Definition items (s : string) : option (list item) :=
  match split s false false with Some (t, l) => Some (IText t :: l) | None => None end.

Inductive token :=
| TWord (w : string)
| TField (path : list string)
| TVar (x : string) (path : list string)
| TString (s : string)
| TOpen | TClose | TComma | TAssign.

Definition is_space (c : ascii) : bool :=
  let n := byte_of c in (n =? 32) || (n =? 9) || (n =? 10) || (n =? 13).

Definition alnum (c : ascii) : bool :=
  let n := byte_of c in
  ((48 <=? n) && (n <=? 57)) || ((65 <=? n) && (n <=? 90)) || ((97 <=? n) && (n <=? 122)) || (n =? 95).

(** The longest word that [s] starts with, and what follows *)
Fixpoint span (s : string) : string * string :=
  match s with
  | String c s' => if alnum c then let '(w, rest) := span s' in (String c w, rest) else (EmptyString, s)
  | EmptyString => (EmptyString, EmptyString)
  end.

Definition is_digit (c : ascii) : bool := let n := byte_of c in (48 <=? n) && (n <=? 57).

Definition starts_with_digit (s : string) : bool :=
  match s with String c _ => is_digit c | EmptyString => false end.

(** ".a.b.c" *)
Fixpoint fields (fuel : nat) (s : string) : option (list string * string) :=
  match fuel with
  | O => None
  | S f =>
      match s with
      | String c s' =>
          if Ascii.eqb c "." then
            let '(w, rest) := span s' in
            if String.eqb w EmptyString || starts_with_digit w then None
            else match fields f rest with Some (p, rest) => Some (w :: p, rest) | None => None end
          else Some ([], s)
      | EmptyString => Some ([], s)
      end
  end.

(** The end of an operand *)
Definition at_end (s : string) : bool :=
  match s with
  | EmptyString => true
  | String c _ => is_space c || Ascii.eqb c ")" || Ascii.eqb c "," || Ascii.eqb c ":"
  end.

(** A string constant without escapes *)
Fixpoint constant (s : string) : option (string * string) :=
  match s with
  | EmptyString => None
  | String c s' =>
      if Ascii.eqb c dquote then Some (EmptyString, s')
      else if (byte_of c =? 92) || (byte_of c =? 10) then None
      else match constant s' with Some (w, rest) => Some (String c w, rest) | None => None end
  end.

(** Put a token before the others when the text after it allows it. *)
Definition operand_then (t : token) (rest : string) (more : string -> option (list token))
  : option (list token) :=
  if at_end rest then match more rest with Some ts => Some (t :: ts) | None => None end else None.

Fixpoint lex (fuel : nat) (s : string) : option (list token) :=
  match fuel with
  | O => None
  | S f =>
      match s with
      | EmptyString => Some []
      | String c s1 =>
          let one t := match lex f s1 with Some ts => Some (t :: ts) | None => None end in
          if is_space c then lex f s1
          else if Ascii.eqb c "(" then one TOpen
          else if Ascii.eqb c ")" then one TClose
          else if Ascii.eqb c "," then one TComma
          else if Ascii.eqb c ":" then
            match s1 with
            | String d s2 =>
                if Ascii.eqb d "=" then
                  match lex f s2 with Some ts => Some (TAssign :: ts) | None => None end
                else None
            | EmptyString => None
            end
          else if Ascii.eqb c dquote then
            match constant s1 with
            | Some (w, rest) => operand_then (TString w) rest (lex f)
            | None => None
            end
          else if Ascii.eqb c "." then
            if at_end s1 then operand_then (TField []) s1 (lex f)
            else
              match fields f s with
              | Some (p, rest) => operand_then (TField p) rest (lex f)
              | None => None
              end
          else if Ascii.eqb c "$" then
            let '(x, rest) := span s1 in
            match fields f rest with
            | Some (p, rest) => operand_then (TVar x p) rest (lex f)
            | None => None
            end
          else if alnum c && negb (is_digit c) then
            let '(w, rest) := span s in operand_then (TWord w) rest (lex f)
          else None
      end
  end.

Definition tokens (s : string) : option (list token) := lex (S (String.length s)) s.

(** ** Parsing *)

Definition function (w : string) : option fn :=
  if String.eqb w "and" then Some FAnd
  else if String.eqb w "or" then Some FOr
  else if String.eqb w "not" then Some FNot
  else if String.eqb w "eq" then Some FEq
  else if String.eqb w "ne" then Some FNe
  else None.

(** A command, and the operands of a call up to the end or a parenthesis *)
Fixpoint command (fuel : nat) (ts : list token) : option (expr * list token) :=
  match fuel with
  | O => None
  | S f =>
      match ts with
      | TWord w :: ts =>
          match function w, operands f ts with
          | Some g, Some (e :: es, rest) => Some (ECall g (e :: es), rest)
          | _, _ => None
          end
      | _ =>
          match operands f ts with
          | Some ([e], rest) => Some (e, rest)
          | _ => None
          end
      end
  end
with operands (fuel : nat) (ts : list token) : option (list expr * list token) :=
  match fuel with
  | O => None
  | S f =>
      let operand e ts :=
        match operands f ts with Some (es, rest) => Some (e :: es, rest) | None => None end in
      match ts with
      | TField p :: ts => operand (EField p) ts
      | TVar x p :: ts => operand (EVar x p) ts
      | TString s :: ts => operand (EString s) ts
      | TOpen :: ts =>
          match command f ts with
          | Some (e, TClose :: ts) => operand e ts
          | _ => None
          end
      | _ => Some ([], ts)
      end
  end.

Definition expression (ts : list token) : option expr :=
  match command (S (2 * List.length ts)) ts with Some (e, []) => Some e | _ => None end.

(** What an action is *)
Inductive action :=
| AExpr (e : expr)
| AIf (e : expr)
| ARange (xs : list string) (e : expr)
| AElse
| AElseIf (e : expr)
| AEnd.

Definition parse_action (s : string) : option action :=
  match tokens s with
  | None => None
  | Some ts =>
      match ts with
      | [TWord w] =>
          if String.eqb w "end" then Some AEnd else if String.eqb w "else" then Some AElse else None
      | TWord w :: ts' =>
          if String.eqb w "if" then AIf <$> expression ts'
          else if String.eqb w "else" then
            match ts' with
            | TWord w' :: ts'' => if String.eqb w' "if" then AElseIf <$> expression ts'' else None
            | _ => None
            end
          else if String.eqb w "range" then
            match ts' with
            | TVar x [] :: TComma :: TVar y [] :: TAssign :: ts'' => ARange [x; y] <$> expression ts''
            | TVar x [] :: TAssign :: ts'' => ARange [x] <$> expression ts''
            | _ => ARange [] <$> expression ts'
            end
          else AExpr <$> expression ts
      | _ => AExpr <$> expression ts
      end
  end.

(** How a list of nodes ends *)
Inductive stop := SEof | SEnd | SElse | SElseIf (e : expr).

(** The nodes up to the end of the enclosing if or range *)
Fixpoint nodes (fuel : nat) (l : list item) : option (list node * stop * list item) :=
  match fuel with
  | O => None
  | S f =>
      (* after the body of an if: its else part *)
      let else_part (st : stop) (l : list item) : option (list node * list item) :=
        match st with
        | SEnd => Some ([], l)
        | SElse => match nodes f l with Some (no, SEnd, l) => Some (no, l) | _ => None end
        | SElseIf e => else_if f e l
        | SEof => None
        end in
      let node_then (n : node) (l : list item) :=
        match nodes f l with Some (ns, st, l) => Some (n :: ns, st, l) | None => None end in
      match l with
      | [] => Some ([], SEof, [])
      | IText s :: l => node_then (NText s) l
      | IAction s :: l =>
          match parse_action s with
          | None => None
          | Some (AExpr e) => node_then (NAction e) l
          | Some (AIf e) =>
              match nodes f l with
              | Some (yes, st, l) =>
                  match else_part st l with
                  | Some (no, l) => node_then (NIf e yes no) l
                  | None => None
                  end
              | None => None
              end
          | Some (ARange xs e) =>
              match nodes f l with
              | Some (body, SEnd, l) => node_then (NRange xs e body []) l
              | Some (body, SElse, l) =>
                  match nodes f l with
                  | Some (no, SEnd, l) => node_then (NRange xs e body no) l
                  | _ => None
                  end
              | _ => None
              end
          | Some AElse => Some ([], SElse, l)
          | Some (AElseIf e) => Some ([], SElseIf e, l)
          | Some AEnd => Some ([], SEnd, l)
          end
      end
  end
(** An if in the place of an else, which shares its end *)
with else_if (fuel : nat) (e : expr) (l : list item) : option (list node * list item) :=
  match fuel with
  | O => None
  | S f =>
      match nodes f l with
      | Some (yes, SEnd, l) => Some ([NIf e yes []], l)
      | Some (yes, SElse, l) =>
          match nodes f l with Some (no, SEnd, l) => Some ([NIf e yes no], l) | _ => None end
      | Some (yes, SElseIf e', l) =>
          match else_if f e' l with Some (no, l) => Some ([NIf e yes no], l) | None => None end
      | _ => None
      end
  end.

Definition parse (s : string) : option (list node) :=
  match items s with
  | None => None
  | Some l =>
      match nodes (S (2 * List.length l)) l with
      | Some (ns, SEof, []) => Some ns
      | _ => None
      end
  end.

(** ** Execution *)

(** A value, or the missing entry of a map *)
Abbreviation mvalue := (option gvalue).

Fixpoint at_path (v : mvalue) (path : list string) : option mvalue :=
  match path with
  | [] => Some v
  | k :: path' =>
      match v with
      | Some (GMap m) => at_path (massoc k m) path'
      | _ => None
      end
  end.

Definition truth (v : mvalue) : option bool :=
  match v with
  | None | Some GNil => Some false
  | Some (GBool b) => Some b
  | Some (GString s) => Some (negb (String.eqb s EmptyString))
  | Some (GInt64 z) => Some (negb (z =? 0))
  | Some (GSlice l) => Some (match l with [] => false | _ => true end)
  | Some (GMap m) => Some (match m with [] => false | _ => true end)
  | Some (GFloat64 _) => None
  end.

Definition string_of (v : mvalue) : option string :=
  match v with Some (GString s) => Some s | _ => None end.

Definition vars : Type := list (string * gvalue).

Fixpoint eval (dot : gvalue) (env : vars) (e : expr) : option mvalue :=
  match e with
  | EField p => at_path (Some dot) p
  | EVar x p =>
      match massoc x env with Some v => at_path (Some v) p | None => None end
  | EString s => Some (Some (GString s))
  | ECall f args =>
      let fold_bool (stop_at : bool) :=
        (fix go (l : list expr) : option mvalue :=
           match l with
           | [] => None
           | a :: l' =>
               match eval dot env a with
               | None => None
               | Some v =>
                   match l', truth v with
                   | _, None => None
                   | [], _ => Some v
                   | _, Some b => if Bool.eqb b stop_at then Some v else go l'
                   end
               end
           end) in
      match f, args with
      | FAnd, _ => fold_bool false args
      | FOr, _ => fold_bool true args
      | FNot, [a] =>
          match eval dot env a with
          | Some v => (fun b => Some (GBool (negb b))) <$> truth v
          | None => None
          end
      | FEq, [a; b] =>
          match eval dot env a ≫= string_of, eval dot env b ≫= string_of with
          | Some x, Some y => Some (Some (GBool (String.eqb x y)))
          | _, _ => None
          end
      | FNe, [a; b] =>
          match eval dot env a ≫= string_of, eval dot env b ≫= string_of with
          | Some x, Some y => Some (Some (GBool (negb (String.eqb x y))))
          | _, _ => None
          end
      | _, _ => None
      end
  end.

Definition print (v : mvalue) : option string :=
  match v with
  | None => Some "<no value>"
  | Some (GString s) => Some s
  | Some (GBool b) => Some (Strconv.FormatBool b)
  | Some (GInt64 z) => Some (Strconv.FormatInt z)
  | _ => None
  end.

(** What range visits: keys and elements; a map in the order of its keys *)
Definition entry_le (x y : string * gvalue) : Prop := String.leb x.1 y.1 = true.

#[export] Instance entry_le_dec : RelDecision entry_le.
Proof. intros x y. unfold entry_le. apply _. Defined.

Definition visits (v : mvalue) : option (list (gvalue * gvalue)) :=
  match v with
  | None => Some []
  | Some (GSlice l) => Some (imap (fun i x => (GInt64 (Z.of_nat i), x)) l)
  | Some (GMap m) => Some (prod_map GString id <$> merge_sort entry_le m)
  | _ => None
  end.

Definition bind_vars (xs : list string) (k v : gvalue) (env : vars) : vars :=
  match xs with
  | [x] => (x, v) :: env
  | [x; y] => (y, v) :: (x, k) :: env
  | _ => env
  end.

(** What a node writes, piece by piece. *)
Fixpoint exec (dot : gvalue) (env : vars) (n : node) {struct n} : option (list string) :=
  let exec_list := fix go (d : gvalue) (env : vars) (ns : list node) : option (list string) :=
    match ns with
    | [] => Some []
    | n :: ns =>
        match exec d env n, go d env ns with
        | Some a, Some b => Some (a ++ b)
        | _, _ => None
        end
    end in
  match n with
  | NText s => Some [s]
  | NAction e => (fun s => [s]) <$> (eval dot env e ≫= print)
  | NIf e yes no =>
      match eval dot env e ≫= truth with
      | Some true => exec_list dot env yes
      | Some false => exec_list dot env no
      | None => None
      end
  | NRange xs e body no =>
      match eval dot env e ≫= visits with
      | None => None
      | Some [] => exec_list dot env no
      | Some l =>
          (fix loop (l : list (gvalue * gvalue)) : option (list string) :=
             match l with
             | [] => Some []
             | (k, v) :: l =>
                 match exec_list v (bind_vars xs k v env) body, loop l with
                 | Some a, Some b => Some (a ++ b)
                 | _, _ => None
                 end
             end) l
      end
  end.

Fixpoint exec_nodes (dot : gvalue) (env : vars) (ns : list node) : option (list string) :=
  match ns with
  | [] => Some []
  | n :: ns =>
      match exec dot env n, exec_nodes dot env ns with
      | Some a, Some b => Some (a ++ b)
      | _, _ => None
      end
  end.

(** The lists inside a node are executed like a whole template. *)
Lemma exec_if dot env e yes no :
  exec dot env (NIf e yes no) =
    match eval dot env e ≫= truth with
    | Some true => exec_nodes dot env yes
    | Some false => exec_nodes dot env no
    | None => None
    end.
Proof.
  cbn [exec]. destruct (_ ≫= truth) as [[]|]; [| |done].
  - induction yes as [|n yes IH]; [done|]. cbn [exec_nodes]. by rewrite <- IH.
  - induction no as [|n no IH]; [done|]. cbn [exec_nodes]. by rewrite <- IH.
Qed.

Lemma exec_range xs e body dot env l (g : gvalue * gvalue -> list string) :
  eval dot env e ≫= visits = Some l ->
  (forall k v, (k, v) ∈ l -> exec_nodes v (bind_vars xs k v env) body = Some (g (k, v))) ->
  exec dot env (NRange xs e body []) = Some (List.concat (List.map g l)).
Proof.
  intros E H. cbn [exec]. rewrite E. clear E.
  assert (B : forall d env,
    (fix go (d : gvalue) (env : vars) (ns : list node) : option (list string) :=
       match ns with
       | [] => Some []
       | n :: ns =>
           match exec d env n, go d env ns with
           | Some a, Some b => Some (a ++ b)
           | _, _ => None
           end
       end) d env body = exec_nodes d env body).
  { clear. induction body as [|n body IH]; intros d env; [done|]. cbn [exec_nodes]. by rewrite IH. }
  destruct l as [|[k v] l]; [done|].
  assert (L : forall l' , (forall k v, (k, v) ∈ l' -> exec_nodes v (bind_vars xs k v env) body = Some (g (k, v))) ->
    (fix loop (l : list (gvalue * gvalue)) : option (list string) :=
       match l with
       | [] => Some []
       | (k, v) :: l =>
           match (fix go (d : gvalue) (env : vars) (ns : list node) : option (list string) :=
                    match ns with
                    | [] => Some []
                    | n :: ns =>
                        match exec d env n, go d env ns with
                        | Some a, Some b => Some (a ++ b)
                        | _, _ => None
                        end
                    end) v (bind_vars xs k v env) body, loop l with
           | Some a, Some b => Some (a ++ b)
           | _, _ => None
           end
       end) l' = Some (List.concat (List.map g l'))); [|exact (L _ H)].
  induction l' as [|[k' v'] l' IH]; intros H'; [done|].
  rewrite B, H' by left. rewrite IH by (intros; apply H'; by right). done.
Qed.

Lemma exec_nodes_app dot env a b :
  exec_nodes dot env (a ++ b) =
    match exec_nodes dot env a, exec_nodes dot env b with
    | Some x, Some y => Some (x ++ y)
    | _, _ => None
    end.
Proof.
  induction a as [|n a IH]; cbn [app exec_nodes].
  - by destruct (exec_nodes dot env b).
  - rewrite IH. destruct (exec dot env n), (exec_nodes dot env a), (exec_nodes dot env b); try done.
    by rewrite app_assoc.
Qed.

(** The variable $ is the data of the whole template. *)
Definition execute (ns : list node) (v : gvalue) : option string :=
  cat <$> exec_nodes v [(EmptyString, v)] ns.

Definition render (text : string) (v : gvalue) : option string :=
  parse text ≫= fun ns => execute ns v.

(** An engine that is no more than this part of the language *)
Definition template_error : gerror := Errorf "template: outside of the supported part".

Instance engine : TemplateEngine := {
  tmpl := list node;
  template_Parse text := match parse text with Some ns => inr ns | None => inl template_error end;
  template_Execute ns v :=
    match execute ns v with Some s => inr s | None => inl template_error end
}.

End Tmpl.

(** What is assumed of the engine: on this part of the language it renders as
    documented. *)
Class TemplateEngineOk `{TemplateEngine} : Prop := {
  template_renders text v s :
    Tmpl.render text v = Some s ->
    exists t, template_Parse text = inr t /\ template_Execute t v = inr s
}.

#[export] Instance engine_ok : TemplateEngineOk (H := Tmpl.engine).
Proof.
  split. intros text v s. unfold Tmpl.render. simpl.
  destruct (Tmpl.parse text) as [ns|]; simpl; [|done]. intros E. exists ns. by rewrite E.
Qed.
