(* ===== verification/TemplateTotal.v ===== *)
(** * The fuel of the template lexer and parser is enough

    [Tmpl.lex], [Tmpl.command] and [Tmpl.nodes] recurse with fuel. Here the fuel
    that [Tmpl.tokens], [Tmpl.expression] and [Tmpl.parse] start with is shown
    to be enough for every input: more of it never changes the outcome. *)

From Stdlib Require Import ZArith Lia Ascii String.
From S2P Require Import Prelude GoStd Float GoJson K8sLib Template.
Import Tmpl.

Module TemplateTotal.

Abbreviation len := String.length.
Abbreviation size := List.length.

(** ** Lexing *)

Lemma span_le s : len (span s).2 <= len s.
Proof.
  induction s as [|c s IH]; [done|]. cbn. destruct (alnum c); [|done]. destruct (span s). cbn in *. lia.
Qed.

Lemma span_alnum c s : alnum c = true -> len (span (String c s)).2 <= len s.
Proof. intros A. cbn. rewrite A. pose proof (span_le s). by destruct (span s). Qed.

(** A word that is not empty was read. *)
Lemma span_word s w rest : span s = (w, rest) -> String.eqb w EmptyString = false -> len rest < len s.
Proof.
  destruct s as [|c s]; [by intros [= <- <-]|]. cbn. destruct (alnum c).
  - pose proof (span_le s). destruct (span s). intros [= <- <-] _. cbn in *. lia.
  - by intros [= <- <-].
Qed.

Lemma fields_le f : forall s p rest, fields f s = Some (p, rest) -> len rest <= len s.
Proof.
  induction f as [|f IH]; intros s p rest E; [done|]. destruct s as [|c s]; cbn [fields] in E; [by simplify_eq|].
  destruct (Ascii.eqb c "."); [|by simplify_eq]. pose proof (span_le s) as K. destruct (span s) as [w r].
  destruct (_ || _); [done|]. destruct (fields f r) as [[p' r']|] eqn:E'; simplify_eq.
  apply IH in E'. cbn in *. lia.
Qed.

Lemma fields_dot f s p rest : fields f (String "." s) = Some (p, rest) -> len rest <= len s.
Proof.
  destruct f as [|f]; [done|]. cbn. pose proof (span_le s) as K. destruct (span s) as [w r].
  destruct (_ || _); [done|]. destruct (fields f r) as [[p' r']|] eqn:E'; [|done]. intros. simplify_eq.
  apply fields_le in E'. cbn in *. lia.
Qed.

Lemma fields_fuel f : forall g s, len s + 2 <= 2 * f -> len s + 2 <= 2 * g -> fields f s = fields g s.
Proof.
  induction f as [|f IH]; intros [|g] s Lf Lg; try lia. destruct s as [|c s]; [done|]. cbn [fields].
  destruct (Ascii.eqb c "."); [|done]. destruct (span s) as [w r] eqn:W.
  destruct (String.eqb w EmptyString) eqn:N; [done|]. pose proof (span_word s w r W N). cbn [len] in *.
  by rewrite (IH g r) by lia.
Qed.

Lemma constant_le s : forall w rest, constant s = Some (w, rest) -> len rest <= len s.
Proof.
  induction s as [|c s IH]; intros w rest E; [done|]. cbn [constant] in E.
  destruct (Ascii.eqb c dquote); [simplify_eq; cbn; lia|]. destruct (_ || _)%bool; [done|].
  destruct (constant s) as [[w' r]|] eqn:E'; simplify_eq. specialize (IH _ _ eq_refl). cbn. lia.
Qed.

Lemma operand_then_ext t rest m m' : m rest = m' rest -> operand_then t rest m = operand_then t rest m'.
Proof. unfold operand_then. by intros ->. Qed.

Lemma lex_fuel f : forall g s, len s < f -> len s < g -> lex f s = lex g s.
Proof.
  induction f as [|f IH]; intros [|g] s Lf Lg; try lia. destruct s as [|c s]; [done|]. cbn [len] in *.
  assert (X : forall r, len r <= len s -> lex f r = lex g r) by (intros; apply IH; lia).
  cbn [lex]. rewrite (X s) by lia.
  destruct (is_space c); [done|]. destruct (Ascii.eqb c "("); [done|]. destruct (Ascii.eqb c ")"); [done|].
  destruct (Ascii.eqb c ","); [done|]. destruct (Ascii.eqb c ":").
  { destruct s as [|d s2]; [done|]. by rewrite (X s2) by (cbn; lia). }
  destruct (Ascii.eqb c dquote).
  { destruct (constant s) as [[w r]|] eqn:E; [|done]. apply operand_then_ext, X. by eapply constant_le. }
  destruct (Ascii.eqb_spec c ".") as [->|_].
  { destruct (at_end s) eqn:A; [by apply operand_then_ext, X|].
    assert (1 <= len s) by (destruct s; [done|cbn; lia]).
    rewrite (fields_fuel f g) by (cbn; lia).
    destruct (fields g _) as [[p r]|] eqn:E; [|done]. apply operand_then_ext, X. by eapply fields_dot. }
  destruct (Ascii.eqb c "$").
  { pose proof (span_le s) as K. destruct (span s) as [x r]. cbn in K.
    rewrite (fields_fuel f g) by lia. destruct (fields g r) as [[p r']|] eqn:E; [|done].
    apply operand_then_ext, X. apply fields_le in E. lia. }
  destruct (alnum c) eqn:A; [|done]. destruct (negb _); [|done]. pose proof (span_alnum c s A) as K.
  cbn [andb]. destruct (span (String c s)) as [w r]. by apply operand_then_ext, X.
Qed.

Lemma tokens_fuel s f : len s < f -> lex f s = tokens s.
Proof. intros L. apply lex_fuel; lia. Qed.

(** ** Expressions *)

Lemma command_le f : forall ts,
  (forall e rest, command f ts = Some (e, rest) -> size rest <= size ts) /\
  (forall es rest, operands f ts = Some (es, rest) -> size rest <= size ts).
Proof.
  induction f as [|f IH]; intros ts; [done|].
  assert (O : forall ts es rest, operands f ts = Some (es, rest) -> size rest <= size ts) by (intros ts'; apply IH).
  split.
  - intros e rest E. cbn [command] in E. destruct ts as [|t ts]; [by destruct f|].
    destruct t;
      try (destruct (operands f _) as [[[|? []] ?]|] eqn:E'; simplify_eq; by apply O in E').
    destruct (function w); [|done]. destruct (operands f ts) as [[[|? ?] ?]|] eqn:E'; simplify_eq.
    apply O in E'. cbn. lia.
  - assert (S1 : forall (e : expr) ts es rest,
      match operands f ts with Some (es, rest) => Some (e :: es, rest) | None => None end = Some (es, rest) ->
      size rest <= size ts).
    { intros e ts' es rest E. destruct (operands f ts') as [[es' r]|] eqn:E'; simplify_eq. by apply O in E'. }
    intros es rest E. cbn [operands] in E. destruct ts as [|t ts]; [by simplify_eq|].
    destruct t; try (by simplify_eq); try (apply S1 in E; cbn; lia).
    destruct (command f ts) as [[e [|[] ts']]|] eqn:E'; try done. apply S1 in E.
    apply (IH ts) in E'. cbn in *. lia.
Qed.

Lemma command_fuel f : forall g ts,
  (2 * size ts + 1 <= f -> 2 * size ts + 1 <= g -> command f ts = command g ts) /\
  (1 <= f -> 1 <= g -> 2 * size ts <= f -> 2 * size ts <= g -> operands f ts = operands g ts).
Proof.
  induction f as [|f IH]; [intros; split; lia|]. intros [|g] ts; [split; lia|].
  split.
  - intros Lf Lg. cbn [command]. destruct ts as [|t ts].
    { assert (N : forall h, match operands h [] with Some ([e], rest) => Some (e, rest) | _ => None end
        = @None (expr * list token)) by (by intros []). by rewrite !N. }
    cbn in *. assert (E : operands f (t :: ts) = operands g (t :: ts)) by (apply IH; cbn; lia).
    destruct t; try (by rewrite E). assert (E' : operands f ts = operands g ts) by (apply IH; lia). by rewrite E'.
  - intros _ _ Lf Lg. cbn [operands]. destruct ts as [|t ts]; [done|]. cbn in *.
    assert (O : forall ts', size ts' <= size ts -> operands f ts' = operands g ts') by (intros; apply IH; lia).
    destruct t; try done; try (by rewrite (O ts) by lia).
    assert (C : command f ts = command g ts) by (apply IH; lia). rewrite C.
    destruct (command g ts) as [[e [|[] ts']]|] eqn:E; try done. apply (command_le g ts) in E. cbn in E.
    by rewrite (O ts') by lia.
Qed.

Lemma expression_fuel ts f : 2 * size ts + 1 <= f ->
  match command f ts with Some (e, []) => Some e | _ => None end = expression ts.
Proof. intros L. unfold expression. by rewrite (proj1 (command_fuel f (S (2 * size ts)) ts)) by lia. Qed.

(** ** Nodes *)

(** An end, an else or an else if was read unless the input ended. *)
Definition read (st : stop) : nat := match st with SEof => 0 | _ => 1 end.

(** Take the branches of the parser that return a result apart. *)
Ltac apart_nodes :=
  repeat first
    [ progress simplify_eq
    | match goal with
      | H : None = Some _ |- _ => discriminate H
      | H : match ?y with _ => _ end = Some _ |- _ => destruct y eqn:?
      end ].

Lemma nodes_le f : forall l,
  (forall ns st l', nodes f l = Some (ns, st, l') -> size l' + read st <= size l) /\
  (forall e ns l', else_if f e l = Some (ns, l') -> size l' <= size l).
Proof.
  induction f as [|f IH]; intros l; [done|].
  assert (N : forall l ns st l', nodes f l = Some (ns, st, l') -> size l' + read st <= size l)
    by (intros l0; apply IH).
  assert (X : forall e l ns l', else_if f e l = Some (ns, l') -> size l' <= size l)
    by (intros e l0; apply IH).
  split; [intros ns st l' E; cbn [nodes] in E|intros e ns l' E; cbn [else_if] in E];
    apart_nodes; repeat match goal with
    | H : nodes f _ = Some _ |- _ => apply N in H
    | H : else_if f _ _ = Some _ |- _ => apply X in H
    end; cbn in *; lia.
Qed.

Lemma nodes_fuel f : forall g l,
  (size l + 1 <= f -> size l + 1 <= g -> nodes f l = nodes g l) /\
  (forall e, size l + 2 <= f -> size l + 2 <= g -> else_if f e l = else_if g e l).
Proof.
  induction f as [|f IH]; [intros; split; lia|]. intros [|g] l; [split; lia|].
  split.
  - intros Lf Lg. destruct l as [|i l]; [done|]. cbn in Lf, Lg.
    assert (N : forall l', size l' <= size l -> nodes f l' = nodes g l') by (intros; apply IH; lia).
    assert (X : forall e l', size l' + 1 <= size l -> else_if f e l' = else_if g e l')
      by (intros; apply IH; lia).
    cbn [nodes]. rewrite (N l) by lia. destruct i as [s|s]; [done|].
    destruct (parse_action s) as [[e|e|xs e| |e|]|]; try done.
    + destruct (nodes g l) as [[[yes st] l1]|] eqn:E; [|done]. apply (nodes_le g l) in E.
      destruct st as [| | |e']; cbn in E; [done| | |].
      * by rewrite (N l1) by lia.
      * rewrite (N l1) by lia. destruct (nodes g l1) as [[[no []] l2]|] eqn:E2; try done.
        apply (nodes_le g l1) in E2. cbn in E2. by rewrite (N l2) by lia.
      * rewrite (X e' l1) by lia. destruct (else_if g e' l1) as [[no l2]|] eqn:E2; [|done].
        apply (nodes_le g l1) in E2. by rewrite (N l2) by lia.
    + destruct (nodes g l) as [[[body st] l1]|] eqn:E; [|done]. apply (nodes_le g l) in E.
      destruct st; cbn in E; try done; rewrite (N l1) by lia; [done|].
      destruct (nodes g l1) as [[[no []] l2]|] eqn:E2; try done.
      apply (nodes_le g l1) in E2. cbn in E2. by rewrite (N l2) by lia.
  - intros e Lf Lg. cbn [else_if].
    assert (N : forall l', size l' <= size l -> nodes f l' = nodes g l') by (intros; apply IH; lia).
    rewrite (N l) by lia. destruct (nodes g l) as [[[yes st] l1]|] eqn:E; [|done].
    apply (nodes_le g l) in E. destruct st as [| | |e']; cbn in E; try done.
    + by rewrite (N l1) by lia.
    + by rewrite (proj2 (IH g l1)) by lia.
Qed.

(** The parser's fuel is enough. *)
Lemma parse_fuel s l f : items s = Some l -> size l < f ->
  parse s = match nodes f l with Some (ns, SEof, []) => Some ns | _ => None end.
Proof.
  intros E L. unfold parse. rewrite E. by rewrite (proj1 (nodes_fuel f (S (2 * size l)) l)) by lia.
Qed.

End TemplateTotal.
