(* ===== verification/Api.v ===== *)
(** * api/v1alpha1: the CyndiPipeline resource and its state machine

    [Types] are the records of cyndipipeline_types.go; [State] is state.go:
    the state a pipeline is in is computed from its status, and the
    transitions rewrite the status. *)

From Stdlib Require Import ZArith Lia String.
From S2P Require Import Prelude GoStd GoJson Lang K8sLib.

Module Api.

(** ** cyndipipeline_types.go *)

Record CyndiPipelineSpec := {
  AppName : string;
  InsightsOnly : bool;
  AdditionalFilters : list (gmap string string);
  ConnectCluster : option string;
  MaxAge : option Z;
  ValidationThreshold : option Z;
  Topic : option string;
  DbSecret : option string;
  InventoryDbSecret : option string;
  DBTableIndexSQL : string;
  Refresh : string;
  ManagedConnectors : option bool;
  ConnectorPaused : bool
}.

(** DataSpec: the operational-only fields zeroed out *)
Definition DataSpec (s : CyndiPipelineSpec) : CyndiPipelineSpec := {|
  AppName := AppName s;
  InsightsOnly := InsightsOnly s;
  AdditionalFilters := AdditionalFilters s;
  ConnectCluster := ConnectCluster s;
  MaxAge := MaxAge s;
  ValidationThreshold := ValidationThreshold s;
  Topic := Topic s;
  DbSecret := DbSecret s;
  InventoryDbSecret := InventoryDbSecret s;
  DBTableIndexSQL := DBTableIndexSQL s;
  Refresh := EmptyString;
  ManagedConnectors := None;
  ConnectorPaused := false
|}.

Record CyndiPipelineStatus := {
  ValidationFailedCount : Z;
  PipelineVersion : string;
  ConnectorName_ : string;
  TableName_ : string;
  CyndiConfigVersion : string;
  SpecHash : string;
  InitialSyncInProgress : bool;
  ActiveTableName : string;
  Conditions : list Condition;
  HostCount : Z
}.

#[export] Instance Condition_eq_dec : EqDecision Condition.
Proof. solve_decision. Defined.

#[export] Instance Status_eq_dec : EqDecision CyndiPipelineStatus.
Proof. solve_decision. Defined.

Record CyndiPipeline := {
  Meta : ObjectMeta;
  Spec : CyndiPipelineSpec;
  Status : CyndiPipelineStatus
}.

(** *** Assignments to fields *)

Definition with_Status (p : CyndiPipeline) (s : CyndiPipelineStatus) : CyndiPipeline :=
  {| Meta := Meta p; Spec := Spec p; Status := s |}.

Definition with_Finalizers (p : CyndiPipeline) (fs : list string) : CyndiPipeline :=
  {| Meta := {| Name := Name (Meta p); Namespace := Namespace (Meta p); UID := UID (Meta p);
                ResourceVersion := ResourceVersion (Meta p); Generation := Generation (Meta p);
                DeletionTimestamp := DeletionTimestamp (Meta p); Finalizers_of := fs |};
     Spec := Spec p; Status := Status p |}.

Definition set_ValidationFailedCount (v : Z) (s : CyndiPipelineStatus) := {|
  ValidationFailedCount := v; PipelineVersion := PipelineVersion s;
  ConnectorName_ := ConnectorName_ s; TableName_ := TableName_ s;
  CyndiConfigVersion := CyndiConfigVersion s; SpecHash := SpecHash s;
  InitialSyncInProgress := InitialSyncInProgress s; ActiveTableName := ActiveTableName s;
  Conditions := Conditions s; HostCount := HostCount s |}.

Definition set_PipelineVersion (v : string) (s : CyndiPipelineStatus) := {|
  ValidationFailedCount := ValidationFailedCount s; PipelineVersion := v;
  ConnectorName_ := ConnectorName_ s; TableName_ := TableName_ s;
  CyndiConfigVersion := CyndiConfigVersion s; SpecHash := SpecHash s;
  InitialSyncInProgress := InitialSyncInProgress s; ActiveTableName := ActiveTableName s;
  Conditions := Conditions s; HostCount := HostCount s |}.

Definition set_ConnectorName (v : string) (s : CyndiPipelineStatus) := {|
  ValidationFailedCount := ValidationFailedCount s; PipelineVersion := PipelineVersion s;
  ConnectorName_ := v; TableName_ := TableName_ s;
  CyndiConfigVersion := CyndiConfigVersion s; SpecHash := SpecHash s;
  InitialSyncInProgress := InitialSyncInProgress s; ActiveTableName := ActiveTableName s;
  Conditions := Conditions s; HostCount := HostCount s |}.

Definition set_TableName (v : string) (s : CyndiPipelineStatus) := {|
  ValidationFailedCount := ValidationFailedCount s; PipelineVersion := PipelineVersion s;
  ConnectorName_ := ConnectorName_ s; TableName_ := v;
  CyndiConfigVersion := CyndiConfigVersion s; SpecHash := SpecHash s;
  InitialSyncInProgress := InitialSyncInProgress s; ActiveTableName := ActiveTableName s;
  Conditions := Conditions s; HostCount := HostCount s |}.

Definition set_CyndiConfigVersion (v : string) (s : CyndiPipelineStatus) := {|
  ValidationFailedCount := ValidationFailedCount s; PipelineVersion := PipelineVersion s;
  ConnectorName_ := ConnectorName_ s; TableName_ := TableName_ s;
  CyndiConfigVersion := v; SpecHash := SpecHash s;
  InitialSyncInProgress := InitialSyncInProgress s; ActiveTableName := ActiveTableName s;
  Conditions := Conditions s; HostCount := HostCount s |}.

Definition set_SpecHash (v : string) (s : CyndiPipelineStatus) := {|
  ValidationFailedCount := ValidationFailedCount s; PipelineVersion := PipelineVersion s;
  ConnectorName_ := ConnectorName_ s; TableName_ := TableName_ s;
  CyndiConfigVersion := CyndiConfigVersion s; SpecHash := v;
  InitialSyncInProgress := InitialSyncInProgress s; ActiveTableName := ActiveTableName s;
  Conditions := Conditions s; HostCount := HostCount s |}.

Definition set_InitialSyncInProgress (v : bool) (s : CyndiPipelineStatus) := {|
  ValidationFailedCount := ValidationFailedCount s; PipelineVersion := PipelineVersion s;
  ConnectorName_ := ConnectorName_ s; TableName_ := TableName_ s;
  CyndiConfigVersion := CyndiConfigVersion s; SpecHash := SpecHash s;
  InitialSyncInProgress := v; ActiveTableName := ActiveTableName s;
  Conditions := Conditions s; HostCount := HostCount s |}.

Definition set_ActiveTableName (v : string) (s : CyndiPipelineStatus) := {|
  ValidationFailedCount := ValidationFailedCount s; PipelineVersion := PipelineVersion s;
  ConnectorName_ := ConnectorName_ s; TableName_ := TableName_ s;
  CyndiConfigVersion := CyndiConfigVersion s; SpecHash := SpecHash s;
  InitialSyncInProgress := InitialSyncInProgress s; ActiveTableName := v;
  Conditions := Conditions s; HostCount := HostCount s |}.

Definition set_Conditions (v : list Condition) (s : CyndiPipelineStatus) := {|
  ValidationFailedCount := ValidationFailedCount s; PipelineVersion := PipelineVersion s;
  ConnectorName_ := ConnectorName_ s; TableName_ := TableName_ s;
  CyndiConfigVersion := CyndiConfigVersion s; SpecHash := SpecHash s;
  InitialSyncInProgress := InitialSyncInProgress s; ActiveTableName := ActiveTableName s;
  Conditions := v; HostCount := HostCount s |}.

Definition set_HostCount (v : Z) (s : CyndiPipelineStatus) := {|
  ValidationFailedCount := ValidationFailedCount s; PipelineVersion := PipelineVersion s;
  ConnectorName_ := ConnectorName_ s; TableName_ := TableName_ s;
  CyndiConfigVersion := CyndiConfigVersion s; SpecHash := SpecHash s;
  InitialSyncInProgress := InitialSyncInProgress s; ActiveTableName := ActiveTableName s;
  Conditions := Conditions s; HostCount := v |}.

(** The assignment instance.Status.<field> = v *)
Definition upd (f : CyndiPipelineStatus -> CyndiPipelineStatus) (p : CyndiPipeline)
  : CyndiPipeline := with_Status p (f (Status p)).

End Api.

(** ** Concrete pipelines for the examples and witnesses *)

Module Sample.
Import Api.

Definition meta : ObjectMeta := {|
  Name := "test-pipeline-01"; Namespace := "test"; UID := "uid-1"; ResourceVersion := "1";
  Generation := 1; DeletionTimestamp := None; Finalizers_of := [] |}.

Definition deleted_meta : ObjectMeta := {|
  Name := "test-pipeline-01"; Namespace := "test"; UID := "uid-1"; ResourceVersion := "1";
  Generation := 1; DeletionTimestamp := Some 1%Z;
  Finalizers_of := ["cyndi.cloud.redhat.com/finalizer"] |}.

Definition spec : CyndiPipelineSpec := {|
  AppName := "test-pipeline-01"; InsightsOnly := false; AdditionalFilters := [];
  ConnectCluster := None; MaxAge := None; ValidationThreshold := None; Topic := None;
  DbSecret := None; InventoryDbSecret := None; DBTableIndexSQL := EmptyString;
  Refresh := EmptyString; ManagedConnectors := None; ConnectorPaused := false |}.

Definition zero_status : CyndiPipelineStatus := {|
  ValidationFailedCount := 0; PipelineVersion := EmptyString; ConnectorName_ := EmptyString;
  TableName_ := EmptyString; CyndiConfigVersion := EmptyString; SpecHash := EmptyString;
  InitialSyncInProgress := false; ActiveTableName := EmptyString; Conditions := [];
  HostCount := 0 |}.

Definition new_pipeline : CyndiPipeline := {| Meta := meta; Spec := spec; Status := zero_status |}.

End Sample.
