(* ===== verification/Copies.v ===== *)
(** * Deep copies

    zz_generated.deepcopy.go on a store: pointers, slices and maps of a
    resource are addresses of cells, which assignments through one reference
    change for all. [Copies] has the store, the reading of a value from it and
    the copy methods; [CopiesProps] shows that a copy reads as its original and
    shares no cell with it. That is why the rest of the library may keep the
    fetched pipeline (OriginalInstance) as a value while the status of the
    working copy is changed in place. *)

From Stdlib Require Import ZArith Lia String.
From S2P Require Import Prelude GoStd Float GoJson Lang K8sLib Api.
Import Api.

Module Copies.

#[local] Unset Program Cases.

Definition addr : Type := positive.

(** A slice: its backing array and its length *)
Record slice := { array : addr; len : nat }.

(** CyndiPipelineSpec as it lies in memory *)
Record hSpec := {
  hAppName : string; hInsightsOnly : bool; hAdditionalFilters : option slice;
  hConnectCluster : option addr; hMaxAge : option addr; hValidationThreshold : option addr;
  hTopic : option addr; hDbSecret : option addr; hInventoryDbSecret : option addr;
  hDBTableIndexSQL : string; hRefresh : string; hManagedConnectors : option addr;
  hConnectorPaused : bool
}.

(** CyndiPipelineStatus *)
Record hStatus := {
  hValidationFailedCount : Z; hPipelineVersion : string; hConnectorName : string;
  hTableName : string; hCyndiConfigVersion : string; hSpecHash : string;
  hInitialSyncInProgress : bool; hActiveTableName : string; hConditions : option slice;
  hHostCount : Z
}.

(** The metadata types of Kubernetes and their copies are parameters: a type of
    object metadata with its zero value, and one of list metadata. *)
Class MetaV1 := { OM : Type; LM : Type; zero_OM : OM; zero_LM : LM }.

Section Heap.
Context {MV : MetaV1}.

Record hPipeline := { hTypeMeta : string * string; hMeta : OM; hSpec_ : hSpec; hStatus_ : hStatus }.
Record hList := { hlTypeMeta : string * string; hlMeta : LM; hItems : option slice }.

Inductive cell :=
| CString (s : string)
| CInt64 (z : Z)
| CBool (b : bool)
| CMap (m : gmap string string)
| CMaps (l : list (option addr))
| CConditions (l : list Condition)
| CSpec (s : hSpec)
| CStatus (s : hStatus)
| CPipeline (p : hPipeline)
| CPipelines (l : list hPipeline)
| CList (l : hList).

Abbreviation store := (gmap addr cell).

(** ** Operations on the store; [None]: a dangling or ill-typed address *)

Definition M (A : Type) : Type := store -> option (A * store).
Definition ret {A} (a : A) : M A := fun h => Some (a, h).
Definition bind {A B} (m : M A) (f : A -> M B) : M B := fun h =>
  match m h with Some (a, h') => f a h' | None => None end.

(** What a cell of a type holds *)
Record cell_type (T : Type) := {
  ct_inj : T -> cell;
  ct_prj : cell -> option T;
  ct_inv : forall x, ct_prj (ct_inj x) = Some x
}.
Arguments ct_inj {T}.
Arguments ct_prj {T}.

Definition read {T} (t : cell_type T) (h : store) (a : addr) : option T :=
  match h !! a with Some c => ct_prj t c | None => None end.

Definition load {T} (t : cell_type T) (a : addr) : M T := fun h =>
  match read t h a with Some x => Some (x, h) | None => None end.

(** new(T), make(T, n) *)
Definition new {T} (t : cell_type T) (zero : T) : M addr := fun h =>
  let a := fresh (dom h) in Some (a, <[a := ct_inj t zero]> h).

Definition save {T} (t : cell_type T) (a : addr) (x : T) : M unit := fun h =>
  match read t h a with Some _ => Some (tt, <[a := ct_inj t x]> h) | None => None end.

Program Definition string_t : cell_type string :=
  {| ct_inj := CString; ct_prj c := match c with CString s => Some s | _ => None end |}.
Solve Obligations with done.
Program Definition int64_t : cell_type Z :=
  {| ct_inj := CInt64; ct_prj c := match c with CInt64 s => Some s | _ => None end |}.
Solve Obligations with done.
Program Definition bool_t : cell_type bool :=
  {| ct_inj := CBool; ct_prj c := match c with CBool s => Some s | _ => None end |}.
Solve Obligations with done.
Program Definition map_t : cell_type (gmap string string) :=
  {| ct_inj := CMap; ct_prj c := match c with CMap s => Some s | _ => None end |}.
Solve Obligations with done.
Program Definition maps_t : cell_type (list (option addr)) :=
  {| ct_inj := CMaps; ct_prj c := match c with CMaps s => Some s | _ => None end |}.
Solve Obligations with done.
Program Definition conditions_t : cell_type (list Condition) :=
  {| ct_inj := CConditions; ct_prj c := match c with CConditions s => Some s | _ => None end |}.
Solve Obligations with done.
Program Definition spec_t : cell_type hSpec :=
  {| ct_inj := CSpec; ct_prj c := match c with CSpec s => Some s | _ => None end |}.
Solve Obligations with done.
Program Definition status_t : cell_type hStatus :=
  {| ct_inj := CStatus; ct_prj c := match c with CStatus s => Some s | _ => None end |}.
Solve Obligations with done.
Program Definition pipeline_t : cell_type hPipeline :=
  {| ct_inj := CPipeline; ct_prj c := match c with CPipeline s => Some s | _ => None end |}.
Solve Obligations with done.
Program Definition pipelines_t : cell_type (list hPipeline) :=
  {| ct_inj := CPipelines; ct_prj c := match c with CPipelines s => Some s | _ => None end |}.
Solve Obligations with done.
Program Definition list_t : cell_type hList :=
  {| ct_inj := CList; ct_prj c := match c with CList s => Some s | _ => None end |}.
Solve Obligations with done.

(** ** The copy methods *)

(** The library's methods *)
Class MetaCopy := {
  om_DeepCopyInto : OM -> M OM;
  lm_DeepCopyInto : LM -> M LM;
  condition_DeepCopyInto : Condition -> Condition
}.
Context {MC : MetaCopy}.

Notation "x <- m ;; k" := (bind m (fun x => k)) (at level 100, m at next level, right associativity).

(** if in.F != nil { out.F = new(T); **out = **in } *)
Definition copy_pointer {T} (t : cell_type T) (zero : T) (in_ : option addr) : M (option addr) :=
  match in_ with
  | None => ret None
  | Some p =>
      q <- new t zero ;;
      x <- load t p ;;
      _ <- save t q x ;;
      ret (Some q)
  end.

(** for i := range in.F { out.F[i] = copy of in.F[i] } *)
Fixpoint copy_elements {E} (t : cell_type (list E)) (copy : E -> M E) (in_ : list E) (i : nat)
    (out : addr) : M unit :=
  match in_ with
  | [] => ret tt
  | e :: rest =>
      e' <- copy e ;;
      es <- load t out ;;
      _ <- save t out (<[i := e']> es) ;;
      copy_elements t copy rest (S i) out
  end.

(** if in.F != nil { out.F = make([]E, len(in.F)); for i := range in.F { ... } } *)
Definition copy_slice {E} (t : cell_type (list E)) (zero : E) (copy : E -> M E) (in_ : option slice)
  : M (option slice) :=
  match in_ with
  | None => ret None
  | Some s =>
      out <- new t (replicate (len s) zero) ;;
      es <- load t (array s) ;;
      _ <- copy_elements t copy (take (len s) es) 0 out ;;
      ret (Some {| array := out; len := len s |})
  end.

(** if in.F[i] != nil { out.F[i] = make(map); for key, val := range in.F[i] {...} } *)
Definition copy_map (in_ : option addr) : M (option addr) :=
  match in_ with
  | None => ret None
  | Some p =>
      q <- new map_t ∅ ;;
      m <- load map_t p ;;
      _ <- save map_t q (map_fold (fun key val out => <[key := val]> out) ∅ m) ;;
      ret (Some q)
  end.

Definition Spec_DeepCopyInto (in_ : hSpec) : M hSpec :=
  filters <- copy_slice maps_t None copy_map (hAdditionalFilters in_) ;;
  cluster <- copy_pointer string_t EmptyString (hConnectCluster in_) ;;
  maxAge <- copy_pointer int64_t 0%Z (hMaxAge in_) ;;
  threshold <- copy_pointer int64_t 0%Z (hValidationThreshold in_) ;;
  topic <- copy_pointer string_t EmptyString (hTopic in_) ;;
  dbSecret <- copy_pointer string_t EmptyString (hDbSecret in_) ;;
  inventoryDbSecret <- copy_pointer string_t EmptyString (hInventoryDbSecret in_) ;;
  managed <- copy_pointer bool_t false (hManagedConnectors in_) ;;
  ret {| hAppName := hAppName in_; hInsightsOnly := hInsightsOnly in_;
         hAdditionalFilters := filters; hConnectCluster := cluster; hMaxAge := maxAge;
         hValidationThreshold := threshold; hTopic := topic; hDbSecret := dbSecret;
         hInventoryDbSecret := inventoryDbSecret; hDBTableIndexSQL := hDBTableIndexSQL in_;
         hRefresh := hRefresh in_; hManagedConnectors := managed;
         hConnectorPaused := hConnectorPaused in_ |}.

Definition zero_condition : Condition := {|
  cType := EmptyString; cStatus := ConditionUnknown; cReason := EmptyString;
  cMessage := EmptyString |}.

Definition Status_DeepCopyInto (in_ : hStatus) : M hStatus :=
  conditions <- copy_slice conditions_t zero_condition (fun c => ret (condition_DeepCopyInto c))
                  (hConditions in_) ;;
  ret {| hValidationFailedCount := hValidationFailedCount in_;
         hPipelineVersion := hPipelineVersion in_; hConnectorName := hConnectorName in_;
         hTableName := hTableName in_; hCyndiConfigVersion := hCyndiConfigVersion in_;
         hSpecHash := hSpecHash in_; hInitialSyncInProgress := hInitialSyncInProgress in_;
         hActiveTableName := hActiveTableName in_; hConditions := conditions;
         hHostCount := hHostCount in_ |}.

Definition Pipeline_DeepCopyInto (in_ : hPipeline) : M hPipeline :=
  meta <- om_DeepCopyInto (hMeta in_) ;;
  spec <- Spec_DeepCopyInto (hSpec_ in_) ;;
  status <- Status_DeepCopyInto (hStatus_ in_) ;;
  ret {| hTypeMeta := hTypeMeta in_; hMeta := meta; hSpec_ := spec; hStatus_ := status |}.

(** Zero values, which new and make start from *)
Definition zero_spec : hSpec := {|
  hAppName := EmptyString; hInsightsOnly := false; hAdditionalFilters := None;
  hConnectCluster := None; hMaxAge := None; hValidationThreshold := None; hTopic := None;
  hDbSecret := None; hInventoryDbSecret := None; hDBTableIndexSQL := EmptyString;
  hRefresh := EmptyString; hManagedConnectors := None; hConnectorPaused := false |}.

Definition zero_status : hStatus := {|
  hValidationFailedCount := 0; hPipelineVersion := EmptyString; hConnectorName := EmptyString;
  hTableName := EmptyString; hCyndiConfigVersion := EmptyString; hSpecHash := EmptyString;
  hInitialSyncInProgress := false; hActiveTableName := EmptyString; hConditions := None;
  hHostCount := 0 |}.

Definition zero_pipeline : hPipeline := {|
  hTypeMeta := (EmptyString, EmptyString); hMeta := zero_OM; hSpec_ := zero_spec;
  hStatus_ := zero_status |}.

Definition zero_list : hList :=
  {| hlTypeMeta := (EmptyString, EmptyString); hlMeta := zero_LM; hItems := None |}.

Definition List_DeepCopyInto (in_ : hList) : M hList :=
  meta <- lm_DeepCopyInto (hlMeta in_) ;;
  items <- copy_slice pipelines_t zero_pipeline Pipeline_DeepCopyInto (hItems in_) ;;
  ret {| hlTypeMeta := hlTypeMeta in_; hlMeta := meta; hItems := items |}.

(** if in == nil { return nil }; out := new(T); in.DeepCopyInto(out); return out *)
Definition deep_copy {T} (t : cell_type T) (zero : T) (DeepCopyInto : T -> M T) (in_ : option addr)
  : M (option addr) :=
  match in_ with
  | None => ret None
  | Some a =>
      out <- new t zero ;;
      x <- load t a ;;
      x' <- DeepCopyInto x ;;
      _ <- save t out x' ;;
      ret (Some out)
  end.

Definition Spec_DeepCopy : option addr -> M (option addr) := deep_copy spec_t zero_spec Spec_DeepCopyInto.
Definition Status_DeepCopy : option addr -> M (option addr) :=
  deep_copy status_t zero_status Status_DeepCopyInto.
Definition Pipeline_DeepCopy : option addr -> M (option addr) :=
  deep_copy pipeline_t zero_pipeline Pipeline_DeepCopyInto.
Definition List_DeepCopy : option addr -> M (option addr) := deep_copy list_t zero_list List_DeepCopyInto.

(** if c := in.DeepCopy(); c != nil { return c }; return nil *)
Definition object_of (m : M (option addr)) : M (option addr) :=
  c <- m ;; match c with Some a => ret (Some a) | None => ret None end.
Definition Pipeline_DeepCopyObject (in_ : option addr) : M (option addr) := object_of (Pipeline_DeepCopy in_).
Definition List_DeepCopyObject (in_ : option addr) : M (option addr) := object_of (List_DeepCopy in_).

(** ** Reading values *)

(** How a value is read through a reference: [value] is the value, [reach] the
    cells it lies in. *)
Record readable (A V : Type) := {
  value : store -> A -> option V;
  reach : store -> A -> list addr;
  local h h' a : (forall l, l ∈ reach h a -> h' !! l = h !! l) ->
    value h' a = value h a /\ reach h' a = reach h a;
  in_dom h a v : value h a = Some v -> forall l, l ∈ reach h a -> l ∈ dom h
}.
Arguments value {A V}.
Arguments reach {A V}.
Arguments local {A V}.
Arguments in_dom {A V}.

Lemma read_local {T} (t : cell_type T) h h' a : h' !! a = h !! a -> read t h' a = read t h a.
Proof. unfold read. by intros ->. Qed.

Lemma read_dom {T} (t : cell_type T) h a x : read t h a = Some x -> a ∈ dom h.
Proof. unfold read. intros E. apply elem_of_dom. by destruct (h !! a). Qed.

(** Scalars *)
Program Definition r_pure {A} : readable A A := {| value h a := Some a; reach h a := [] |}.
Next Obligation. done. Qed.
Next Obligation. by intros A h a v _ l ?%elem_of_nil. Qed.

(** Pointers to scalars and maps *)
Program Definition r_pointer {T} (t : cell_type T) : readable (option addr) (option T) := {|
  value h o := match o with None => Some None | Some a => Some <$> read t h a end;
  reach h o := option_list o |}.
Next Obligation.
  intros T t h h' [a|] K; cbn; [|done]. by rewrite (read_local t h h' a (K a ltac:(left))).
Qed.
Next Obligation.
  intros T t h [a|] v E l I; cbn in *; [|by apply elem_of_nil in I].
  apply list_elem_of_singleton in I as ->. destruct (read t h a) eqn:R; [|done]. by eapply read_dom.
Qed.

(** Pairs *)
Program Definition r_pair {A B V W} (r : readable A V) (s : readable B W) : readable (A * B) (V * W) := {|
  value h p := match value r h p.1, value s h p.2 with Some v, Some w => Some (v, w) | _, _ => None end;
  reach h p := reach r h p.1 ++ reach s h p.2 |}.
Next Obligation.
  intros A B V W r s h h' [a b] K; cbn in *.
  destruct (local r h h' a) as [-> ->]; [intros; apply K, elem_of_app; by left|].
  by destruct (local s h h' b) as [-> ->]; [intros; apply K, elem_of_app; by right|].
Qed.
Next Obligation.
  intros A B V W r s h [a b] [v w] E l I; cbn in *.
  destruct (value r h a) eqn:Ea, (value s h b) eqn:Eb; try done.
  apply elem_of_app in I as [I|I]; [by apply (in_dom r h a _ Ea)|by apply (in_dom s h b _ Eb)].
Qed.

(** Structs: scalar fields and references *)
Program Definition r_struct {S A V C} (scalars : S -> C) (refs : S -> A) (r : readable A V)
  : readable S (C * V) := {|
  value h s := match value r h (refs s) with Some v => Some (scalars s, v) | None => None end;
  reach h s := reach r h (refs s) |}.
Next Obligation.
  intros S A V C scalars refs r h h' s K; cbn in *. by destruct (local r h h' _ K) as [-> ->].
Qed.
Next Obligation.
  intros S A V C scalars refs r h s v E l I; cbn in *. destruct (value r h (refs s)) eqn:Er; [|done].
  by eapply in_dom.
Qed.

(** Pointers to structs *)
Program Definition r_object {T V} (t : cell_type T) (r : readable T V)
  : readable (option addr) (option V) := {|
  value h o :=
    match o with
    | None => Some None
    | Some a => match read t h a with Some x => Some <$> value r h x | None => None end
    end;
  reach h o :=
    match o with
    | None => []
    | Some a => a :: match read t h a with Some x => reach r h x | None => [] end
    end |}.
Next Obligation.
  intros T V t r h h' [a|] K; cbn in *; [|done].
  rewrite (read_local t h h' a) by (apply K; left). destruct (read t h a) as [x|]; [|done].
  by destruct (local r h h' x) as [-> ->]; [intros; apply K; by right|].
Qed.
Next Obligation.
  intros T V t r h [a|] v E l I; cbn in *; [|by apply elem_of_nil in I].
  destruct (read t h a) as [x|] eqn:R; [|done]. apply elem_of_cons in I as [->|I]; [by eapply read_dom|].
  destruct (value r h x) eqn:Er; [|done]. by eapply in_dom.
Qed.

(** Slices *)
Program Definition r_slice {E V} (t : cell_type (list E)) (r : readable E V)
  : readable (option slice) (option (list V)) := {|
  value h o :=
    match o with
    | None => Some None
    | Some s =>
        match read t h (array s) with
        | Some es => if Nat.leb (len s) (length es) then Some <$> mapM (value r h) (take (len s) es) else None
        | None => None
        end
    end;
  reach h o :=
    match o with
    | None => []
    | Some s => array s :: match read t h (array s) with
                           | Some es => take (len s) es ≫= reach r h
                           | None => []
                           end
    end |}.
Next Obligation.
  intros E V t r h h' [s|] K; cbn in *; [|done].
  rewrite (read_local t h h' (array s)) by (apply K; left). destruct (read t h (array s)) as [es|]; [|done].
  assert (L : forall e, e ∈ take (len s) es -> value r h' e = value r h e /\ reach r h' e = reach r h e).
  { intros e I. apply (local r). intros l Il. apply K. right. apply list_elem_of_bind. eauto. }
  clear K. assert (Q : mapM (value r h') (take (len s) es) = mapM (value r h) (take (len s) es) /\
                       take (len s) es ≫= reach r h' = take (len s) es ≫= reach r h).
  { induction (take (len s) es) as [|e l IH]; [done|]. cbn. destruct (L e) as [-> ->]; [left|].
    destruct IH as [IH1 IH2]; [intros; apply L; by right|]. cbn in IH1, IH2. by rewrite IH1, IH2. }
  by destruct Q as [-> ->].
Qed.
Next Obligation.
  intros E V t r h [s|] v Ev l I; cbn in *; [|by apply elem_of_nil in I].
  destruct (read t h (array s)) as [es|] eqn:R; [|done].
  apply elem_of_cons in I as [->|I]; [by eapply read_dom|].
  destruct (Nat.leb _ _); [|done]. destruct (mapM _ _) as [vs|] eqn:M_; [|done].
  apply mapM_Some in M_. apply list_elem_of_bind in I as (e & Il & Ie).
  apply list_elem_of_lookup in Ie as [i Ie]. destruct (Forall2_lookup_l _ _ _ _ _ M_ Ie) as (w & _ & Ew).
  by eapply in_dom.
Qed.

(** The parts of a resource *)
Definition r_filters : readable (option slice) (option (list (option (gmap string string)))) :=
  r_slice maps_t (r_pointer map_t).

Definition spec_scalars (s : hSpec) :=
  (hAppName s, hInsightsOnly s, hDBTableIndexSQL s, hRefresh s, hConnectorPaused s).
Definition spec_refs (s : hSpec) :=
  (hAdditionalFilters s, (hConnectCluster s, (hMaxAge s, (hValidationThreshold s,
    (hTopic s, (hDbSecret s, (hInventoryDbSecret s, hManagedConnectors s))))))).

Definition r_spec :=
  r_struct spec_scalars spec_refs
    (r_pair r_filters (r_pair (r_pointer string_t) (r_pair (r_pointer int64_t)
      (r_pair (r_pointer int64_t) (r_pair (r_pointer string_t) (r_pair (r_pointer string_t)
        (r_pair (r_pointer string_t) (r_pointer bool_t)))))))).

Definition status_scalars (s : hStatus) :=
  (hValidationFailedCount s, hPipelineVersion s, hConnectorName s, hTableName s,
   hCyndiConfigVersion s, hSpecHash s, hInitialSyncInProgress s, hActiveTableName s, hHostCount s).

Definition r_status := r_struct status_scalars hConditions (r_slice conditions_t r_pure).

(** ** Copying *)

(** [m] copies what [r] reads: old cells stay as they are, the copy reads as
    its original and lies in new cells only. *)
Definition copies {A V} (r : readable A V) (m : A -> M A) : Prop :=
  forall h a v, value r h a = Some v ->
    exists a' h', m a h = Some (a', h') /\ h ⊆ h' /\ value r h' a' = Some v /\
      forall l, l ∈ reach r h' a' -> l ∉ dom h.

(** Growth of the store changes nothing. *)
Lemma value_mono {A V} (r : readable A V) h h' a v :
  h ⊆ h' -> value r h a = Some v -> value r h' a = Some v /\ reach r h' a = reach r h a.
Proof.
  intros S E. destruct (local r h h' a) as [-> ->]; [|done].
  intros l I. destruct (in_dom r h a v E l I) as [].
  assert (D : l ∈ dom h) by by eapply in_dom.
  apply elem_of_dom in D as [c D]. rewrite D. by eapply lookup_weaken.
Qed.

Lemma fresh_not_dom (h : store) : fresh (dom h) ∉ dom h.
Proof. apply is_fresh. Qed.

Lemma insert_fresh_subseteq (h : store) a c : a ∉ dom h -> h ⊆ <[a := c]> h.
Proof. intros N. apply insert_subseteq. by apply not_elem_of_dom. Qed.

(** Writing to a cell that is not in [h] *)
Lemma keeps (h g : store) a c : h ⊆ g -> a ∉ dom h -> h ⊆ <[a := c]> g.
Proof.
  intros S N. apply map_subseteq_spec. intros l d E. rewrite lookup_insert_ne.
  - by eapply lookup_weaken.
  - intros <-. apply N. by apply elem_of_dom_2 in E.
Qed.

Lemma read_insert {T} (t : cell_type T) h a x : read t (<[a := ct_inj t x]> h) a = Some x.
Proof. unfold read. rewrite lookup_insert_eq. apply ct_inv. Qed.

Lemma read_mono {T} (t : cell_type T) h h' a x : h ⊆ h' -> read t h a = Some x -> read t h' a = Some x.
Proof.
  unfold read. intros S E. destruct (h !! a) eqn:L; [|done]. by rewrite (lookup_weaken _ _ _ _ L S).
Qed.

Lemma copies_pure {A} (f : A -> A) : (forall a, f a = a) -> copies r_pure (fun a => ret (f a)).
Proof.
  intros F h a v E. exists a, h. rewrite F. split_and!; [done|done|done|]. by intros l ?%elem_of_nil.
Qed.

(** new, load and save of a cell *)
Lemma copy_cell {T U} (t : cell_type T) (zero : T) (h : store) p x (k : T -> U) :
  read t h p = Some x ->
  exists q h', (q <- new t zero ;; y <- load t p ;; _ <- save t q y ;; ret (Some q)) h = Some (Some q, h') /\
    h ⊆ h' /\ read t h' q = Some x /\ q ∉ dom h.
Proof.
  intros R. set (q := fresh (dom h)). pose proof (fresh_not_dom h) as F. fold q in F.
  exists q, (<[q := ct_inj t x]> (<[q := ct_inj t zero]> h)).
  assert (S : h ⊆ <[q := ct_inj t zero]> h) by by apply insert_fresh_subseteq.
  unfold bind, new, load, save, ret. fold q.
  rewrite (read_mono t _ _ p x S R), read_insert.
  split_and!; [done| |apply read_insert|done]. rewrite insert_insert_eq. by apply insert_fresh_subseteq.
Qed.

Lemma copies_pointer {T} (t : cell_type T) zero : copies (r_pointer t) (copy_pointer t zero).
Proof.
  intros h [p|] v E; cbn in E.
  - destruct (read t h p) as [x|] eqn:R; [|done]. injection E as <-.
    destruct (copy_cell t zero h p x (fun y => y) R) as (q & h' & C & S & Rq & F).
    exists (Some q), h'. split_and!; [exact C|done|cbn; by rewrite Rq|].
    intros l ->%list_elem_of_singleton. done.
  - injection E as <-. exists None, h. split_and!; [done..|]. by intros l ?%elem_of_nil.
Qed.

Lemma copy_entries (m : gmap string string) : map_fold (fun k v out => <[k := v]> out) ∅ m = m.
Proof.
  induction m as [|k v m K F IH] using map_first_key_ind; [by rewrite map_fold_empty|].
  by rewrite map_fold_insert_first_key, IH.
Qed.

Lemma copies_map : copies (r_pointer map_t) copy_map.
Proof.
  intros h [p|] v E; [|by apply (copies_pointer map_t ∅ h None)].
  destruct (copies_pointer map_t ∅ h (Some p) v E) as (a' & h' & C & Q). exists a', h'.
  split; [|done]. rewrite <- C. cbn. unfold bind, load, save, new, ret.
  destruct (read map_t _ p) as [m|]; [|done]. by rewrite copy_entries.
Qed.

Definition copy_pair {A B} (m : A -> M A) (n : B -> M B) (p : A * B) : M (A * B) :=
  a <- m p.1 ;; b <- n p.2 ;; ret (a, b).

Lemma copies_pair {A B V W} (r : readable A V) (s : readable B W) m n :
  copies r m -> copies s n -> copies (r_pair r s) (copy_pair m n).
Proof.
  intros Cm Cn h [a b] vw E; cbn in E.
  destruct (value r h a) as [v|] eqn:Ea; [|done]. destruct (value s h b) as [w|] eqn:Eb; [|done].
  injection E as <-. destruct (Cm h a v Ea) as (a' & h1 & E1 & S1 & V1 & F1).
  destruct (value_mono s h h1 b w S1 Eb) as [Eb1 _].
  destruct (Cn h1 b w Eb1) as (b' & h2 & E2 & S2 & V2 & F2).
  destruct (value_mono r h1 h2 a' v S2 V1) as [Va Ra].
  exists (a', b'), h2. split_and!.
  - unfold copy_pair, bind, ret. cbn. by rewrite E1, E2.
  - by transitivity h1.
  - cbn. by rewrite Va, V2.
  - cbn. rewrite Ra. intros l [I|I]%elem_of_app; [by apply F1|].
    intros D. apply (F2 l I). apply subseteq_dom in S1. by apply S1.
Qed.

Lemma copies_struct {S A V C} (scalars : S -> C) (refs : S -> A) (r : readable A V) (m : S -> M S)
    (c : A -> M A) (mk : S -> A -> S) :
  copies r c ->
  (forall s h, m s h = match c (refs s) h with Some (x, h') => Some (mk s x, h') | None => None end) ->
  (forall s x, scalars (mk s x) = scalars s /\ refs (mk s x) = x) ->
  copies (r_struct scalars refs r) m.
Proof.
  intros Cc E K h s v Ev; cbn in Ev. destruct (value r h (refs s)) as [w|] eqn:Er; [|done].
  injection Ev as <-. destruct (Cc h (refs s) w Er) as (x & h' & E1 & S1 & V1 & F1).
  exists (mk s x), h'. rewrite E, E1. destruct (K s x) as [Ks Kr]. split_and!; [done..| |].
  - cbn. by rewrite Kr, V1, Ks.
  - cbn. rewrite Kr. exact F1.
Qed.

Lemma copies_object {T V} (t : cell_type T) (r : readable T V) zero m :
  copies r m -> copies (r_object t r) (deep_copy t zero m).
Proof.
  intros C h [a|] v E; cbn in E.
  2: { injection E as <-. exists None, h. split_and!; [done..|]. by intros l ?%elem_of_nil. }
  destruct (read t h a) as [x|] eqn:R; [|done]. destruct (value r h x) as [w|] eqn:Er; [|done].
  injection E as <-. set (q := fresh (dom h)). pose proof (fresh_not_dom h) as F. fold q in F.
  set (h0 := <[q := ct_inj t zero]> h).
  assert (S0 : h ⊆ h0) by by apply insert_fresh_subseteq.
  destruct (value_mono r h h0 x w S0 Er) as [Er0 _].
  destruct (C h0 x w Er0) as (x' & h1 & E1 & S1 & V1 & F1).
  assert (Rq : read t h1 q = Some zero) by (apply (read_mono t h0); [done|apply read_insert]).
  assert (Nq : forall l, l ∈ reach r h1 x' -> l <> q).
  { intros l I ->. apply (F1 q I). unfold h0. rewrite dom_insert. set_solver. }
  exists (Some q), (<[q := ct_inj t x']> h1).
  destruct (local r h1 (<[q := ct_inj t x']> h1) x') as [Lv Lr].
  { intros l I. rewrite lookup_insert_ne; [done|]. by apply not_eq_sym, Nq. }
  split_and!.
  - unfold deep_copy, bind, new, load, save, ret. fold q h0.
    by rewrite (read_mono t h h0 a x S0 R), E1, Rq.
  - apply keeps; [|done]. by transitivity h0.
  - cbn. by rewrite read_insert, Lv, V1.
  - cbn. rewrite read_insert, Lr. intros l [->|I]%elem_of_cons; [done|].
    intros D. apply (F1 l I). apply subseteq_dom in S0. by apply S0.
Qed.

(** The loop over a slice: [done_] is the part of the new array that is
    already copied, [todo] the rest of it. *)
Section Elements.
Context {E V : Type} (t : cell_type (list E)) (r : readable E V) (copy : E -> M E).
Hypothesis C : copies r copy.

Definition own (h0 h : store) (out : addr) (es : list E) : Prop :=
  forall e l, e ∈ es -> l ∈ reach r h e -> l ∉ dom h0 /\ l <> out.

Lemma own_write h0 h out es c : own h0 h out es ->
  own h0 (<[out := c]> h) out es /\
  forall vs, Forall2 (fun e v => value r h e = Some v) es vs ->
    Forall2 (fun e v => value r (<[out := c]> h) e = Some v) es vs.
Proof.
  intros O.
  assert (K : forall e, e ∈ es -> value r (<[out := c]> h) e = value r h e /\
                                  reach r (<[out := c]> h) e = reach r h e).
  { intros e I. apply (local r). intros l Il. destruct (O e l I Il) as [_ N].
    by rewrite lookup_insert_ne by done. }
  split.
  - intros e l I. destruct (K e I) as [_ ->]. by apply O.
  - intros vs F. apply Forall2_same_length_lookup in F as [Len F].
    apply Forall2_same_length_lookup. split; [done|]. intros i e v Ee Ev.
    destruct (K e) as [-> _]; [by eapply list_elem_of_lookup_2|]. by eapply F.
Qed.

Lemma own_grow h0 h h1 out es vs : h ⊆ h1 ->
  own h0 h out es -> Forall2 (fun e v => value r h e = Some v) es vs ->
  own h0 h1 out es /\ Forall2 (fun e v => value r h1 e = Some v) es vs.
Proof.
  intros S O F. split.
  - intros e l I. apply list_elem_of_lookup in I as [i Ei].
    destruct (Forall2_lookup_l _ _ _ _ _ F Ei) as (v & _ & Ev).
    destruct (value_mono r h h1 e v S Ev) as [_ ->]. apply O. by eapply list_elem_of_lookup_2.
  - eapply Forall2_impl; [|exact F]. intros e v Ev. by apply (value_mono r h h1 e v S Ev).
Qed.

Lemma copies_elements h0 out : out ∉ dom h0 ->
  forall in_ vs done_ dvs todo h,
  h0 ⊆ h -> read t h out = Some (done_ ++ todo) -> length todo = length in_ ->
  Forall2 (fun e v => value r h0 e = Some v) in_ vs ->
  Forall2 (fun e v => value r h e = Some v) done_ dvs -> own h0 h out done_ ->
  exists es h', copy_elements t copy in_ (length done_) out h = Some (tt, h') /\ h0 ⊆ h' /\
    read t h' out = Some (done_ ++ es) /\
    Forall2 (fun e v => value r h' e = Some v) (done_ ++ es) (dvs ++ vs) /\
    own h0 h' out (done_ ++ es).
Proof.
  intros No. induction in_ as [|e in_ IH]; intros vs done_ dvs todo h S R Len F Fd O.
  { apply Forall2_nil_inv_l in F as ->. destruct todo; [|done]. exists [], h. by rewrite !app_nil_r in *. }
  apply Forall2_cons_inv_l in F as (v & vs' & Ev & F & ->). destruct todo as [|z todo]; [done|].
  destruct (value_mono r h0 h e v S Ev) as [Ev1 _].
  destruct (C h e v Ev1) as (e' & h1 & E1 & S1 & V1 & F1).
  assert (Do : out ∈ dom h) by by eapply read_dom.
  assert (N1 : forall l, l ∈ reach r h1 e' -> l ∉ dom h0 /\ l <> out).
  { intros l I. specialize (F1 l I). split; [|by intros ->]. intros D. apply F1.
    apply subseteq_dom in S. by apply S. }
  destruct (own_grow h0 h h1 out done_ dvs S1 O Fd) as [O1 Fd1].
  assert (O2 : own h0 h1 out (done_ ++ [e'])).
  { intros d l [I| ->%list_elem_of_singleton]%elem_of_app; [by apply O1|by apply N1]. }
  assert (F2 : Forall2 (fun e v => value r h1 e = Some v) (done_ ++ [e']) (dvs ++ [v]))
    by (apply Forall2_app; [done|by constructor]).
  set (h2 := <[out := ct_inj t ((done_ ++ [e']) ++ todo)]> h1).
  destruct (own_write h0 h1 out _ (ct_inj t ((done_ ++ [e']) ++ todo)) O2) as [O3 F3].
  specialize (F3 _ F2). fold h2 in O3, F3.
  destruct (IH vs' (done_ ++ [e']) (dvs ++ [v]) todo h2) as (es & h' & E' & S' & R' & F' & O').
  - apply keeps; [by transitivity h|done].
  - apply read_insert.
  - by injection Len.
  - done.
  - done.
  - done.
  - exists (e' :: es), h'. rewrite <- !app_assoc in *. cbn [app] in *. split_and!; [|done..].
    rewrite length_app, Nat.add_1_r in E'. rewrite <- E'.
    cbn [copy_elements]. unfold bind, load, save. rewrite E1, (read_mono t h h1 out _ S1 R).
    rewrite (read_mono t h h1 out _ S1 R).
    pose proof (insert_app_r done_ (z :: todo) 0 e') as I0. rewrite Nat.add_0_r in I0. rewrite I0.
    unfold h2. by rewrite <- app_assoc.
Qed.

End Elements.

Lemma copies_slice {E V} (t : cell_type (list E)) (r : readable E V) zero copy :
  copies r copy -> copies (r_slice t r) (copy_slice t zero copy).
Proof.
  intros C h [s|] v Ev; cbn in Ev.
  2: { injection Ev as <-. exists None, h. split_and!; [done..|]. by intros l ?%elem_of_nil. }
  destruct (read t h (array s)) as [es|] eqn:R; [|done]. destruct (Nat.leb_spec (len s) (length es)) as [Le|]; [|done].
  destruct (mapM (value r h) (take (len s) es)) as [vs|] eqn:F; [|done]. injection Ev as <-.
  apply mapM_Some in F. set (out := fresh (dom h)). pose proof (fresh_not_dom h) as No. fold out in No.
  set (h1 := <[out := ct_inj t (replicate (len s) zero)]> h).
  assert (S1 : h ⊆ h1) by by apply insert_fresh_subseteq.
  destruct (copies_elements t r copy C h out No (take (len s) es) vs [] [] (replicate (len s) zero) h1)
    as (es' & h' & E' & S' & R' & F' & O'); [done|apply read_insert| |done|constructor| |].
  { by rewrite length_replicate, length_take_le. }
  { by intros e l ?%elem_of_nil. }
  cbn [app length] in *. pose proof (Forall2_length F) as L1. pose proof (Forall2_length F') as L2.
  rewrite length_take_le in L1 by done.
  exists (Some {| array := out; len := len s |}), h'.
  assert (T : take (len s) es' = es') by (apply take_ge; lia).
  split_and!; [|done| |].
  - unfold copy_slice, bind, new, load. fold out h1. rewrite (read_mono t h h1 _ _ S1 R), E'. done.
  - cbn. rewrite R', T. destruct (Nat.leb_spec (len s) (length es')); [|lia].
    apply mapM_Some in F'. by rewrite F'.
  - cbn. rewrite R', T. intros l [->|I]%elem_of_cons; [done|].
    apply list_elem_of_bind in I as (e & Il & Ie). by apply (O' e l).
Qed.

(** ** The resources *)

(** Metadata is read as [ObjectMeta], and the library's methods copy it. *)
Class MetaRead := {
  r_om : readable OM ObjectMeta;
  ListMeta : Type;
  r_lm : readable LM ListMeta
}.
Class MetaCopyOk {MR : MetaRead} : Prop := {
  om_copies : copies r_om om_DeepCopyInto;
  lm_copies : copies r_lm lm_DeepCopyInto;
  condition_copies c : condition_DeepCopyInto c = c
}.

Context {MR : MetaRead} {MCOK : MetaCopyOk}.

Definition r_pipeline :=
  r_struct hTypeMeta (fun p => (hMeta p, (hSpec_ p, hStatus_ p))) (r_pair r_om (r_pair r_spec r_status)).
Definition r_list :=
  r_struct hlTypeMeta (fun l => (hlMeta l, hItems l)) (r_pair r_lm (r_slice pipelines_t r_pipeline)).

(** Follow a chain of binds. *)
Ltac bind_chain :=
  repeat match goal with
  | |- context [match ?m ?h with Some _ => _ | None => _ end] =>
      match type of (m h) with option (_ * _) => destruct (m h) as [[? ?]|]; cbn; try done end
  end.

Lemma copies_spec : copies r_spec Spec_DeepCopyInto.
Proof.
  eapply (copies_struct _ _ _ _ (copy_pair (copy_slice maps_t None copy_map)
    (copy_pair (copy_pointer string_t EmptyString) (copy_pair (copy_pointer int64_t 0%Z)
    (copy_pair (copy_pointer int64_t 0%Z) (copy_pair (copy_pointer string_t EmptyString)
    (copy_pair (copy_pointer string_t EmptyString) (copy_pair (copy_pointer string_t EmptyString)
    (copy_pointer bool_t false)))))))) (fun s x =>
    let '(f, (c, (a, (v, (t, (d, (i, m))))))) := x in
    {| hAppName := hAppName s; hInsightsOnly := hInsightsOnly s; hAdditionalFilters := f;
       hConnectCluster := c; hMaxAge := a; hValidationThreshold := v; hTopic := t; hDbSecret := d;
       hInventoryDbSecret := i; hDBTableIndexSQL := hDBTableIndexSQL s; hRefresh := hRefresh s;
       hManagedConnectors := m; hConnectorPaused := hConnectorPaused s |})).
  - repeat apply copies_pair; [apply copies_slice, copies_map|..]; apply copies_pointer.
  - intros s h. unfold Spec_DeepCopyInto, copy_pair, spec_refs, bind, ret. cbn. by bind_chain.
  - intros s (f & c & a & v & t & d & i & m). done.
Qed.

Lemma copies_status : copies r_status Status_DeepCopyInto.
Proof.
  eapply (copies_struct _ _ _ _
    (copy_slice conditions_t zero_condition (fun c => ret (condition_DeepCopyInto c))) (fun s x => {|
    hValidationFailedCount := hValidationFailedCount s; hPipelineVersion := hPipelineVersion s;
    hConnectorName := hConnectorName s; hTableName := hTableName s;
    hCyndiConfigVersion := hCyndiConfigVersion s; hSpecHash := hSpecHash s;
    hInitialSyncInProgress := hInitialSyncInProgress s; hActiveTableName := hActiveTableName s;
    hConditions := x; hHostCount := hHostCount s |})).
  - apply copies_slice, (copies_pure condition_DeepCopyInto), condition_copies.
  - intros s h. unfold Status_DeepCopyInto, bind, ret. by bind_chain.
  - done.
Qed.

Lemma copies_pipeline : copies r_pipeline Pipeline_DeepCopyInto.
Proof.
  eapply (copies_struct _ _ _ _
    (copy_pair om_DeepCopyInto (copy_pair Spec_DeepCopyInto Status_DeepCopyInto)) (fun p x =>
    {| hTypeMeta := hTypeMeta p; hMeta := x.1; hSpec_ := x.2.1; hStatus_ := x.2.2 |})).
  - apply copies_pair; [apply om_copies|apply copies_pair; [apply copies_spec|apply copies_status]].
  - intros s h. unfold Pipeline_DeepCopyInto, copy_pair, bind, ret. cbn. by bind_chain.
  - by intros s (m & sp & st).
Qed.

Lemma copies_list : copies r_list List_DeepCopyInto.
Proof.
  eapply (copies_struct _ _ _ _
    (copy_pair lm_DeepCopyInto (copy_slice pipelines_t zero_pipeline Pipeline_DeepCopyInto)) (fun p x =>
    {| hlTypeMeta := hlTypeMeta p; hlMeta := x.1; hItems := x.2 |})).
  - apply copies_pair; [apply lm_copies|apply copies_slice, copies_pipeline].
  - intros s h. unfold List_DeepCopyInto, copy_pair, bind, ret. cbn. by bind_chain.
  - by intros s (m & l).
Qed.

(** *** As values of Api.v: a nil slice or map is an empty one there. *)

Definition spec_of (v : _ * _) : CyndiPipelineSpec :=
  let '((app, insights, sql, refresh, paused), (f, (c, (a, (t, (topic, (d, (i, m)))))))) := v in
  {| AppName := app; InsightsOnly := insights;
     AdditionalFilters := (fun m : option (gmap string string) => default ∅ m) <$> default [] f;
     ConnectCluster := c; MaxAge := a; ValidationThreshold := t; Topic := topic; DbSecret := d;
     InventoryDbSecret := i; DBTableIndexSQL := sql; Refresh := refresh; ManagedConnectors := m;
     ConnectorPaused := paused |}.

Definition status_of (v : _ * _) : CyndiPipelineStatus :=
  let '((failed, version, connector, table, config, hash, sync, active, hosts), conditions) := v in
  {| ValidationFailedCount := failed; PipelineVersion := version; ConnectorName_ := connector;
     TableName_ := table; CyndiConfigVersion := config; SpecHash := hash;
     InitialSyncInProgress := sync; ActiveTableName := active;
     Conditions := default [] conditions; HostCount := hosts |}.

(** The pipeline behind a pointer *)
Definition pipeline_at (h : store) (a : addr) : option CyndiPipeline :=
  match value (r_object pipeline_t r_pipeline) h (Some a) with
  | Some (Some (_, (m, (s, st)))) => Some {| Meta := m; Spec := spec_of s; Status := status_of st |}
  | _ => None
  end.

End Heap.
End Copies.

Module CopiesProps.
Import Copies.

Section Props.
Context {MV : MetaV1} {MC : MetaCopy} {MR : MetaRead} {MCOK : MetaCopyOk}.

(** [m] returns a copy that whatever happens to the cells of the original
    leaves alone, and conversely. *)
Definition independent {V} (r : readable (option addr) V) (m : option addr -> M (option addr)) : Prop :=
  forall h a v, value _ _ r h a = Some v ->
    exists a' h', m a h = Some (a', h') /\ value _ _ r h' a' = Some v /\
      (forall g, (forall l, l ∉ dom h -> g !! l = h' !! l) -> value _ _ r g a' = Some v) /\
      (forall g, (forall l, l ∈ dom h -> g !! l = h' !! l) -> value _ _ r g a = Some v).

Lemma copies_independent {V} (r : readable (option addr) V) m : copies r m -> independent r m.
Proof.
  intros C h a v E. destruct (C h a v E) as (a' & h' & E1 & S & V1 & F). exists a', h'.
  split_and!; [done|done| |].
  - intros g K. destruct (local _ _ r h' g a') as [-> _]; [|done]. intros l I. by apply K, F.
  - intros g K. destruct (local _ _ r h g a) as [-> _]; [|done]. intros l I.
    assert (D : l ∈ dom h) by by eapply in_dom. rewrite K by done.
    apply elem_of_dom in D as [c D]. rewrite D. by eapply lookup_weaken.
Qed.

Lemma object_same {V} (r : readable (option addr) V) m :
  independent r m -> independent r (fun a => object_of (m a)).
Proof.
  intros I h a v E. destruct (I h a v E) as (a' & h' & E1 & R). exists a', h'. split; [|done].
  unfold object_of, bind, ret. rewrite E1. by destruct a'.
Qed.

(** C18: Deep copies. The copy of a pipeline (of a list, a specification or a
    status, too) reads as the original; assignments to any cell of the
    original, through pointers, slices and maps as well, never change the copy,
    and assignments to the copy never change the original; the copy of nil is
    nil. So the status of the working copy can be changed in place, conditions
    included, while the pipeline as it was fetched is kept for comparison. *)
Theorem deep_copies_independent :
  independent (r_object pipeline_t r_pipeline) Pipeline_DeepCopy /\
  independent (r_object pipeline_t r_pipeline) Pipeline_DeepCopyObject /\
  independent (r_object list_t r_list) List_DeepCopy /\
  independent (r_object list_t r_list) List_DeepCopyObject /\
  independent (r_object spec_t r_spec) Spec_DeepCopy /\
  independent (r_object status_t r_status) Status_DeepCopy /\
  (forall h a p, pipeline_at h a = Some p ->
     exists a' h', Pipeline_DeepCopy (Some a) h = Some (Some a', h') /\
       forall g, (forall l, l ∉ dom h -> g !! l = h' !! l) -> pipeline_at g a' = Some p) /\
  (forall h, Pipeline_DeepCopy None h = Some (None, h)).
Proof.
  pose proof (copies_object pipeline_t r_pipeline zero_pipeline _ copies_pipeline) as P.
  pose proof (copies_object list_t r_list zero_list _ copies_list) as Q.
  split_and!; [by apply copies_independent|by apply object_same, copies_independent
    |by apply copies_independent|by apply object_same, copies_independent
    |by apply copies_independent, copies_object, copies_spec
    |by apply copies_independent, copies_object, copies_status| |done].
  intros h a p. unfold pipeline_at.
  destruct (value _ _ _ h (Some a)) as [[v|]|] eqn:E; [|done..]. intros Ep.
  destruct (copies_independent _ _ P h (Some a) (Some v) E) as (a' & h' & E1 & V1 & K & _).
  destruct a' as [a'|]; [|done]. exists a', h'. split; [done|]. intros g A. by rewrite (K g A).
Qed.

End Props.

(** *** A pipeline whose maximum age and conditions are changed in place *)

#[local] Instance meta_values : MetaV1 := {|
  OM := ObjectMeta; LM := unit; zero_OM := Sample.meta; zero_LM := tt |}.
#[local] Instance meta_copy : MetaCopy := {|
  om_DeepCopyInto m := ret m; lm_DeepCopyInto m := ret m; condition_DeepCopyInto c := c |}.
#[local] Instance meta_read : MetaRead := {| r_om := r_pure; r_lm := r_pure |}.
#[local] Instance meta_copy_ok : MetaCopyOk.
Proof. split; [apply (copies_pure (fun m => m))|apply (copies_pure (fun m => m))|]; done. Qed.

Definition valid_condition : Condition := {|
  cType := "Valid"; cStatus := ConditionTrue; cReason := "ValidationSucceeded"; cMessage := "ok" |}.
Definition invalid_condition : Condition := {|
  cType := "Valid"; cStatus := ConditionFalse; cReason := "ValidationFailed"; cMessage := "no" |}.

Definition in_memory : hPipeline := {|
  hTypeMeta := ("CyndiPipeline", "cyndi.cloud.redhat.com/v1alpha1"); hMeta := Sample.meta;
  hSpec_ := {| hAppName := "advisor"; hInsightsOnly := true; hAdditionalFilters := None;
    hConnectCluster := None; hMaxAge := Some 2%positive; hValidationThreshold := None; hTopic := None;
    hDbSecret := None; hInventoryDbSecret := None; hDBTableIndexSQL := EmptyString;
    hRefresh := EmptyString; hManagedConnectors := None; hConnectorPaused := false |};
  hStatus_ := {| hValidationFailedCount := 0; hPipelineVersion := "1_1"; hConnectorName := "c";
    hTableName := "hosts_v1_1"; hCyndiConfigVersion := EmptyString; hSpecHash := EmptyString;
    hInitialSyncInProgress := false; hActiveTableName := EmptyString;
    hConditions := Some {| array := 3%positive; len := 1 |}; hHostCount := 7 |} |}.

Definition memory : gmap addr cell :=
  <[1%positive := CPipeline in_memory]> (<[2%positive := CInt64 45]>
    (<[3%positive := CConditions [valid_condition]]> ∅)).

(** Both cells are overwritten. *)
Definition overwrite (h : gmap addr cell) : gmap addr cell :=
  <[2%positive := CInt64 60]> (<[3%positive := CConditions [invalid_condition]]> h).

Lemma deep_copies_independent_witness :
  exists p a' h', pipeline_at memory 1%positive = Some p /\ MaxAge (Spec p) = Some 45%Z /\
    Pipeline_DeepCopy (Some 1%positive) memory = Some (Some a', h') /\
    pipeline_at (overwrite h') a' = Some p /\ pipeline_at (overwrite h') 1%positive <> Some p.
Proof.
  destruct deep_copies_independent as (_ & _ & _ & _ & _ & _ & D & _).
  assert (E : exists p, pipeline_at memory 1%positive = Some p) by (eexists; vm_compute; reflexivity).
  destruct E as [p E]. destruct (D memory 1%positive p E) as (a' & h' & C & K).
  exists p, a', h'. vm_compute in E. injection E as <-. split_and!; [reflexivity|reflexivity|exact C| |].
  - apply K. intros l N. unfold overwrite. rewrite !lookup_insert_ne; [done|..];
      intros <-; apply N; by vm_compute.
  - vm_compute in C. injection C as _ <-. by vm_compute.
Defined.

End CopiesProps.
