(* ===== verification/Reporter.v ===== *)
(** * controllers/diff.go: the DiffReporter

    A reporter for cmp.Equal. The program does not use it: it compares
    configurations with cmp.Diff. go-cmp is a parameter: its paths, results and
    values, and how fmt prints them. *)

From Stdlib Require Import Lia Ascii String.
From S2P Require Import Prelude GoStd.

Module Reporter.
Section Reporter.
Context {PathStep Result Value : Type}.
Context (Equal : Result -> bool) (Last : list PathStep -> PathStep) (Values : PathStep -> Value * Value).
(** fmt's verbs: %#v of a path and %+v of a value *)
Context (sprint_path : list PathStep -> string) (sprint_value : Value -> string).

Record DiffReporter := { path : list PathStep; diffs : list string }.

Definition newline : string := String "010"%char EmptyString.
Definition tab : string := String "009"%char EmptyString.

Definition PushStep (r : DiffReporter) (ps : PathStep) : DiffReporter :=
  {| path := path r ++ [ps]; diffs := diffs r |}.

Definition difference (p : list PathStep) : string :=
  let '(vx, vy) := Values (Last p) in
  sprint_path p +s+ ":" +s+ newline +s+ tab +s+ "-: " +s+ sprint_value vx +s+ newline +s+ tab +s+
  "+: " +s+ sprint_value vy +s+ newline.

Definition Report (r : DiffReporter) (rs : Result) : DiffReporter :=
  if negb (Equal rs) then {| path := path r; diffs := diffs r ++ [difference (path r)] |} else r.

(** PopStep; [None]: cutting an empty path panics *)
Definition PopStep (r : DiffReporter) : option DiffReporter :=
  match path r with
  | [] => None
  | _ => Some {| path := take (length (path r) - 1) (path r); diffs := diffs r |}
  end.

Definition String_ (r : DiffReporter) : string := Strings.Join (diffs r) newline.

(** How go-cmp drives a reporter: a tree of steps with results at its leaves *)
Inductive tree := Leaf (rs : Result) | Steps (ts : list (PathStep * tree)).

Fixpoint walk (t : tree) (r : DiffReporter) : option DiffReporter :=
  match t with
  | Leaf rs => Some (Report r rs)
  | Steps ts =>
      (fix steps ts r :=
         match ts with
         | [] => Some r
         | (ps, t) :: ts =>
             match walk t (PushStep r ps) with
             | Some r => match PopStep r with Some r => steps ts r | None => None end
             | None => None
             end
         end) ts r
  end.

(** The paths of the unequal leaves, in order *)
Fixpoint unequal (t : tree) (p : list PathStep) : list (list PathStep) :=
  match t with
  | Leaf rs => if Equal rs then [] else [p]
  | Steps ts => ts ≫= fun '(ps, t) => unequal t (p ++ [ps])
  end.

Lemma PopStep_PushStep p ps ds :
  PopStep {| path := p ++ [ps]; diffs := ds |} = Some {| path := p; diffs := ds |}.
Proof.
  unfold PopStep; cbn. destruct (p ++ [ps]) as [|x l] eqn:E; [by destruct p|]. rewrite <- E.
  do 2 f_equal. rewrite length_app. cbn. replace (length p + 1 - 1) with (length p + 0) by lia.
  by rewrite take_app_add, take_0, app_nil_r.
Qed.

(** A walk ends where it began and collects one difference per unequal leaf. *)
Lemma walk_reports (t : tree) : forall p ds,
  walk t {| path := p; diffs := ds |} =
    Some {| path := p; diffs := ds ++ (difference <$> unequal t p) |}.
Proof.
  revert t. fix IH 1. intros [rs|ts] p ds.
  - cbn. unfold Report. destruct (Equal rs); cbn; by rewrite ?app_nil_r.
  - cbn. revert ds. induction ts as [|[ps t] ts IHts]; intros ds; [by rewrite app_nil_r|].
    unfold PushStep at 1; cbn. rewrite IH, PopStep_PushStep, IHts, fmap_app. by rewrite app_assoc.
Qed.

End Reporter.
End Reporter.
