(* ===== verification/State.v ===== *)
(** * api/v1alpha1/state.go: states of a pipeline and the moves between them

    The state is not stored: [GetState] computes it from the deletion
    timestamp, the pipeline version, the "Valid" condition and the
    initial-sync flag. [diagram] is the abstract machine of the project's
    state diagram, and the theorems show that every status operation, on a
    well-formed status, is a step of it. *)

From Stdlib Require Import ZArith Lia String.
From S2P Require Import Prelude GoStd GoJson Lang K8sLib Api.
Import Api.

Module State.

Inductive PipelineState :=
| STATE_NEW | STATE_INITIAL_SYNC | STATE_VALID | STATE_INVALID | STATE_REMOVED | STATE_UNKNOWN.

#[export] Instance PipelineState_eq_dec : EqDecision PipelineState.
Proof. solve_decision. Defined.

(** The Go type is a string; these are its constants. *)
Definition state_string (s : PipelineState) : string :=
  match s with
  | STATE_NEW => "NEW"
  | STATE_INITIAL_SYNC => "INITIAL_SYNC"
  | STATE_VALID => "VALID"
  | STATE_INVALID => "INVALID"
  | STATE_REMOVED => "REMOVED"
  | STATE_UNKNOWN => "UNKNOWN"
  end.

Definition tablePrefix : string := "hosts_v".
Definition validConditionType : string := "Valid".

(** ** Names of tables and connectors *)

Definition TableName (pipelineVersion : string) : string := tablePrefix +s+ pipelineVersion.

Definition ConnectorName (pipelineVersion appName : string) : string :=
  "cyndi-" +s+ appName +s+ "-" +s+ Strings.Replace pipelineVersion "_" "-" 1.

(** tableName[len(tablePrefix):len(tableName)]: slicing past the end of the
    string is a run-time panic ([None]). *)
Definition TableNameToConnectorName (tableName appName : string) : option string :=
  if Nat.leb (String.length tablePrefix) (String.length tableName)
  then Some (ConnectorName
         (String.substring (String.length tablePrefix)
            (String.length tableName - String.length tablePrefix) tableName) appName)
  else None.

(** ** State and transitions *)

Section WithConditions.
Context {SC : StatusConditions}.

Definition ConnectorsManaged (p : CyndiPipeline) : bool :=
  match ManagedConnectors (Spec p) with
  | None => true
  | Some b => b
  end.

Definition IsValid (p : CyndiPipeline) : bool :=
  IsStatusConditionPresentAndEqual (Conditions (Status p)) validConditionType ConditionTrue.

Definition GetValid (p : CyndiPipeline) : ConditionStatus :=
  match FindStatusCondition (Conditions (Status p)) validConditionType with
  | None => ConditionUnknown
  | Some condition => cStatus condition
  end.

Definition GetState (p : CyndiPipeline) : PipelineState :=
  if bool_decide (DeletionTimestamp (Meta p) <> None) then STATE_REMOVED
  else if String.eqb (PipelineVersion (Status p)) EmptyString then STATE_NEW
  else if IsValid p then STATE_VALID
  else if Bool.eqb (InitialSyncInProgress (Status p)) true then STATE_INITIAL_SYNC
  else if bool_decide (GetValid p = ConditionFalse) then STATE_INVALID
  else STATE_UNKNOWN.

Definition SetValid (status : ConditionStatus) (reason message : string) (hostCount : Z)
    (p : CyndiPipeline) : CyndiPipeline :=
  let p := upd (fun s => set_Conditions
             (SetStatusCondition (Conditions s)
                {| cType := validConditionType; cStatus := status;
                   cReason := reason; cMessage := message |}) s) p in
  let p := upd (set_HostCount hostCount) p in
  match status with
  | ConditionFalse =>
      upd (fun s => set_ValidationFailedCount (Int64.add (ValidationFailedCount s) 1) s) p
  | ConditionUnknown => upd (set_ValidationFailedCount 0) p
  | ConditionTrue =>
      upd (set_InitialSyncInProgress false) (upd (set_ValidationFailedCount 0) p)
  end.

Definition ResetValid (p : CyndiPipeline) : CyndiPipeline :=
  SetValid ConditionUnknown "New" "Validation not yet run" (-1) p.

(** TransitionToNew always returns nil *)
Definition TransitionToNew (p : CyndiPipeline) : CyndiPipeline :=
  let p := ResetValid p in
  let p := upd (set_InitialSyncInProgress false) p in
  upd (set_PipelineVersion EmptyString) p.

Fixpoint assertState_loop (p : CyndiPipeline) (validStates : list PipelineState) : bool :=
  match validStates with
  | [] => false
  | state :: rest => if decide (GetState p = state) then true else assertState_loop p rest
  end.

Definition assertState (p : CyndiPipeline) (targetState : PipelineState)
    (validStates : list PipelineState) : option gerror :=
  if assertState_loop p validStates then None
  else Some (Errorf ("Attempted invalid state transition from " +s+
                     state_string (GetState p) +s+ " to " +s+ state_string targetState)).

Definition TransitionToInitialSync (pipelineVersion : string) (p : CyndiPipeline)
  : CyndiPipeline * option gerror :=
  match assertState p STATE_INITIAL_SYNC [STATE_INITIAL_SYNC; STATE_NEW] with
  | Some err => (p, Some err)
  | None =>
      let p := ResetValid p in
      let p := upd (set_InitialSyncInProgress true) p in
      let p := upd (set_PipelineVersion pipelineVersion) p in
      let p :=
        if ConnectorsManaged p then
          upd (set_ConnectorName (ConnectorName pipelineVersion (AppName (Spec p))))
            (upd (set_TableName (TableName pipelineVersion)) p)
        else if String.eqb (TableName_ (Status p)) EmptyString then
          upd (set_TableName (TableName pipelineVersion)) p
        else p in
      (p, None)
  end.

End WithConditions.

(** GetUIDString (utils.go) *)
Definition GetUIDString (p : CyndiPipeline) : string := UID (Meta p).

(** ** The abstract state machine *)

(** What the two controllers do to a pipeline that is not being deleted:
    refresh it, start a synchronisation into a new version, record the
    outcome of a validation. *)
Inductive action :=
| Refreshed
| SyncStarted (pipelineVersion : string)
| Validated (ok : bool) (reason message : string) (hostCount : Z).

(** The project's state diagram. *)
Inductive diagram : PipelineState -> action -> PipelineState -> Prop :=
| d_refresh s : s <> STATE_REMOVED -> s <> STATE_UNKNOWN -> diagram s Refreshed STATE_NEW
| d_start v : diagram STATE_NEW (SyncStarted v) STATE_INITIAL_SYNC
| d_restart v : diagram STATE_INITIAL_SYNC (SyncStarted v) STATE_INITIAL_SYNC
| d_valid s r m h : s = STATE_INITIAL_SYNC \/ s = STATE_VALID \/ s = STATE_INVALID ->
    diagram s (Validated true r m h) STATE_VALID
| d_still_syncing r m h : diagram STATE_INITIAL_SYNC (Validated false r m h) STATE_INITIAL_SYNC
| d_invalid s r m h : s = STATE_VALID \/ s = STATE_INVALID ->
    diagram s (Validated false r m h) STATE_INVALID.

Section Concrete.
Context {SC : StatusConditions}.

(** The status operation each action is. *)
Definition act (a : action) (p : CyndiPipeline) : CyndiPipeline :=
  match a with
  | Refreshed => TransitionToNew p
  | SyncStarted v => (TransitionToInitialSync v p).1
  | Validated ok r m h => SetValid (if ok then ConditionTrue else ConditionFalse) r m h p
  end.

(** When the controllers perform it: a synchronisation starts in NEW with a
    non-empty version, a validation is not recorded in NEW. *)
Definition enabled (p : CyndiPipeline) (a : action) : Prop :=
  match a with
  | Refreshed => True
  | SyncStarted v => GetState p = STATE_NEW /\ v <> EmptyString
  | Validated _ _ _ _ => GetState p <> STATE_NEW
  end.

Definition live (p : CyndiPipeline) : Prop := DeletionTimestamp (Meta p) = None.

(** Well-formed statuses. *)
Record wf (p : CyndiPipeline) : Prop := {
  wf_new : PipelineVersion (Status p) = EmptyString ->
    InitialSyncInProgress (Status p) = false /\ GetValid p = ConditionUnknown;
  wf_pending : PipelineVersion (Status p) <> EmptyString ->
    GetValid p = ConditionUnknown -> InitialSyncInProgress (Status p) = true;
  wf_valid : GetValid p = ConditionTrue -> InitialSyncInProgress (Status p) = false;
  wf_count : GetValid p <> ConditionFalse -> ValidationFailedCount (Status p) = 0%Z
}.

(** A pipeline as the API server first stores it: the zero status. *)
Definition fresh (p : CyndiPipeline) : Prop :=
  live p /\ Status p =
    {| ValidationFailedCount := 0; PipelineVersion := EmptyString; ConnectorName_ := EmptyString;
       TableName_ := EmptyString; CyndiConfigVersion := EmptyString; SpecHash := EmptyString;
       InitialSyncInProgress := false; ActiveTableName := EmptyString; Conditions := [];
       HostCount := 0 |}.

Definition step (p p' : CyndiPipeline) : Prop := exists a, enabled p a /\ p' = act a p.

End Concrete.

(** ** Lemmas *)

Section Lemmas.
Context `{SCOK : StatusConditionsOk}.

Lemma IsValid_GetValid (p : CyndiPipeline) :
  IsValid p = bool_decide (GetValid p = ConditionTrue).
Proof.
  unfold IsValid, GetValid. rewrite present_and_equal.
  by destruct (FindStatusCondition _ _).
Qed.

Lemma GetState_live (p : CyndiPipeline) :
  live p ->
  GetState p =
    if String.eqb (PipelineVersion (Status p)) EmptyString then STATE_NEW
    else match GetValid p with
         | ConditionTrue => STATE_VALID
         | ConditionFalse =>
             if InitialSyncInProgress (Status p) then STATE_INITIAL_SYNC else STATE_INVALID
         | ConditionUnknown =>
             if InitialSyncInProgress (Status p) then STATE_INITIAL_SYNC else STATE_UNKNOWN
         end.
Proof.
  intros L. unfold GetState. rewrite L, IsValid_GetValid. simpl.
  destruct (String.eqb _ _); [done|]. destruct (GetValid p), (InitialSyncInProgress _); done.
Qed.

Lemma GetValid_SetValid st r m h p : GetValid (SetValid st r m h p) = st.
Proof.
  unfold GetValid, SetValid.
  pose proof (find_set_eq (Conditions (Status p))
    {| cType := validConditionType; cStatus := st; cReason := r; cMessage := m |}) as F.
  simpl in F. destruct st; simpl; by rewrite F.
Qed.

Lemma SetValid_meta st r m h p : Meta (SetValid st r m h p) = Meta p.
Proof. by destruct st. Qed.

Lemma SetValid_spec st r m h p : Spec (SetValid st r m h p) = Spec p.
Proof. by destruct st. Qed.

Lemma SetValid_version st r m h p :
  PipelineVersion (Status (SetValid st r m h p)) = PipelineVersion (Status p).
Proof. by destruct st. Qed.

Lemma SetValid_names st r m h p :
  TableName_ (Status (SetValid st r m h p)) = TableName_ (Status p) /\
  ConnectorName_ (Status (SetValid st r m h p)) = ConnectorName_ (Status p) /\
  ActiveTableName (Status (SetValid st r m h p)) = ActiveTableName (Status p) /\
  CyndiConfigVersion (Status (SetValid st r m h p)) = CyndiConfigVersion (Status p) /\
  SpecHash (Status (SetValid st r m h p)) = SpecHash (Status p) /\
  HostCount (Status (SetValid st r m h p)) = h.
Proof. by destruct st. Qed.

Lemma SetValid_sync st r m h p :
  InitialSyncInProgress (Status (SetValid st r m h p)) =
    if bool_decide (st = ConditionTrue) then false else InitialSyncInProgress (Status p).
Proof. by destruct st. Qed.

Lemma SetValid_count st r m h p :
  ValidationFailedCount (Status (SetValid st r m h p)) =
    if bool_decide (st = ConditionFalse)
    then Int64.add (ValidationFailedCount (Status p)) 1 else 0%Z.
Proof. by destruct st. Qed.

(** Fields other than the conditions do not change the validity. *)
Lemma GetValid_upd f p :
  Conditions (f (Status p)) = Conditions (Status p) -> GetValid (upd f p) = GetValid p.
Proof. intros E. unfold GetValid, upd. simpl. by rewrite E. Qed.

Lemma GetState_removed (p : CyndiPipeline) :
  GetState p = STATE_REMOVED <-> DeletionTimestamp (Meta p) <> None.
Proof.
  unfold GetState. case_bool_decide as D; [naive_solver|].
  repeat case_goal; naive_solver.
Qed.

Lemma GetState_new (p : CyndiPipeline) :
  GetState p = STATE_NEW <-> live p /\ PipelineVersion (Status p) = EmptyString.
Proof.
  unfold GetState, live. case_bool_decide as D; [naive_solver|].
  assert (DeletionTimestamp (Meta p) = None) by (destruct (DeletionTimestamp (Meta p)); naive_solver).
  destruct (String.eqb_spec (PipelineVersion (Status p)) EmptyString); [naive_solver|].
  repeat case_goal; naive_solver.
Qed.

Lemma assertState_ok p t l :
  assertState p t l = None <-> GetState p ∈ l.
Proof.
  unfold assertState.
  assert (E : assertState_loop p l = true <-> GetState p ∈ l).
  { induction l as [|s l IH]; simpl; [set_solver|].
    rewrite elem_of_cons. case_decide; naive_solver. }
  destruct (assertState_loop p l); naive_solver.
Qed.

Lemma TransitionToInitialSync_error v p :
  GetState p ∉ [STATE_INITIAL_SYNC; STATE_NEW] ->
  exists e, TransitionToInitialSync v p = (p, Some e).
Proof.
  intros N. unfold TransitionToInitialSync.
  destruct (assertState p _ _) as [e|] eqn:A; [by exists e|].
  by apply assertState_ok in A.
Qed.

Lemma live_meta (p q : CyndiPipeline) : Meta q = Meta p -> live p -> live q.
Proof. unfold live. congruence. Qed.

(** A well-formed live pipeline is in one of the four states of the diagram. *)
Lemma wf_known (p : CyndiPipeline) : live p -> wf p -> GetState p <> STATE_UNKNOWN.
Proof.
  intros L [Wn Wp Wv Wc]. rewrite GetState_live by done.
  destruct (String.eqb_spec (PipelineVersion (Status p)) EmptyString) as [|N]; [done|].
  destruct (GetValid p) eqn:G, (InitialSyncInProgress (Status p)) eqn:I; try done.
  specialize (Wp N eq_refl). congruence.
Qed.

(** The pipeline after a permitted start of a synchronisation. *)
Lemma TransitionToInitialSync_ok v p :
  GetState p ∈ [STATE_INITIAL_SYNC; STATE_NEW] ->
  let p' := (TransitionToInitialSync v p).1 in
  (TransitionToInitialSync v p).2 = None /\
  Meta p' = Meta p /\ Spec p' = Spec p /\
  PipelineVersion (Status p') = v /\ InitialSyncInProgress (Status p') = true /\
  GetValid p' = ConditionUnknown /\ ValidationFailedCount (Status p') = 0%Z /\
  HostCount (Status p') = (-1)%Z /\
  ActiveTableName (Status p') = ActiveTableName (Status p) /\
  CyndiConfigVersion (Status p') = CyndiConfigVersion (Status p) /\
  SpecHash (Status p') = SpecHash (Status p) /\
  TableName_ (Status p') =
    (if ConnectorsManaged p then TableName v
     else if String.eqb (TableName_ (Status p)) EmptyString then TableName v
     else TableName_ (Status p)) /\
  ConnectorName_ (Status p') =
    (if ConnectorsManaged p then ConnectorName v (AppName (Spec p))
     else ConnectorName_ (Status p)).
Proof.
  intros I p'. subst p'. unfold TransitionToInitialSync.
  destruct (assertState p _ _) as [e|] eqn:A.
  { apply (assertState_ok p STATE_INITIAL_SYNC) in I. congruence. }
  set (q := upd (set_PipelineVersion v) (upd (set_InitialSyncInProgress true) (ResetValid p))).
  assert (V : GetValid q = ConditionUnknown).
  { unfold q. rewrite !GetValid_upd by done. apply GetValid_SetValid. }
  assert (M : ConnectorsManaged q = ConnectorsManaged p) by done.
  rewrite M. destruct (ConnectorsManaged p); [by rewrite ?GetValid_upd by done|].
  change (TableName_ (Status q)) with (TableName_ (Status p)).
  destruct (String.eqb _ _); by rewrite ?GetValid_upd by done.
Qed.

Lemma TransitionToNew_fields p :
  let p' := TransitionToNew p in
  Meta p' = Meta p /\ Spec p' = Spec p /\
  PipelineVersion (Status p') = EmptyString /\ InitialSyncInProgress (Status p') = false /\
  GetValid p' = ConditionUnknown /\ ValidationFailedCount (Status p') = 0%Z /\
  TableName_ (Status p') = TableName_ (Status p) /\
  ConnectorName_ (Status p') = ConnectorName_ (Status p) /\
  ActiveTableName (Status p') = ActiveTableName (Status p).
Proof.
  intros p'. subst p'. unfold TransitionToNew.
  rewrite !GetValid_upd by done. unfold ResetValid. by rewrite GetValid_SetValid.
Qed.
End Lemmas.

Section Preservation.
Context `{SCOK : StatusConditionsOk}.

Lemma fresh_wf (p : CyndiPipeline) : fresh p -> wf p /\ live p.
Proof.
  intros [L E]. split; [|done].
  split; unfold GetValid; rewrite E; simpl; rewrite find_nil; done.
Qed.

(** The operations preserve well-formedness. *)
Lemma act_wf (p : CyndiPipeline) (a : action) :
  live p -> wf p -> enabled p a -> wf (act a p) /\ live (act a p).
Proof.
  intros L W E. destruct a as [|v|ok r m h]; simpl act.
  - pose proof (TransitionToNew_fields p) as (HM & HS & HV & HI & HG & HC & _).
    split; [by split; rewrite ?HI, ?HG, ?HC | by eauto using live_meta].
  - destruct E as [E V].
    destruct (TransitionToInitialSync_ok v p) as (_ & HM & HS & HV & HI & HG & HC & _);
      [rewrite E; set_solver|].
    split; [by split; rewrite ?HI, ?HG, ?HC, ?HV | by eauto using live_meta].
  - simpl in E. rewrite GetState_new in E.
    split; [|by eauto using live_meta, SetValid_meta].
    split; rewrite ?SetValid_version, ?GetValid_SetValid, ?SetValid_sync, ?SetValid_count;
      destruct ok; simpl; naive_solver.
Qed.

(** The operations are steps of the diagram. *)
Lemma act_step (p : CyndiPipeline) (a : action) :
  live p -> wf p -> enabled p a -> diagram (GetState p) a (GetState (act a p)).
Proof.
  intros L W E. pose proof (act_wf p a L W E) as [W' L'].
  pose proof (wf_known p L W) as NU. destruct a as [|v|ok r m h]; simpl act in *.
  - rewrite (proj2 (GetState_new (TransitionToNew p))) by (split; [done|apply TransitionToNew_fields]).
    constructor; [|done]. rewrite GetState_removed. unfold live in L. naive_solver.
  - destruct E as [E V].
    destruct (TransitionToInitialSync_ok v p) as (_ & _ & _ & HV & HI & HG & _);
      [rewrite E; set_solver|].
    rewrite E, GetState_live, HV, HG, HI by done.
    destruct (String.eqb_spec v EmptyString); [done|constructor].
  - simpl in E. rewrite GetState_new in E. rewrite !GetState_live in * by done.
    rewrite SetValid_version, GetValid_SetValid, SetValid_sync.
    destruct (String.eqb_spec (PipelineVersion (Status p)) EmptyString) as [|_]; [naive_solver|].
    pose proof (wf_valid p W) as Wv.
    clear W' L'. destruct ok, (GetValid p), (InitialSyncInProgress (Status p)); simpl in *;
      solve [constructor; auto | exfalso; naive_solver].
Qed.
End Preservation.

(** Decide a statement about [GetState p] by the fields it reads. *)
Ltac solve_state p :=
  destruct (decide (GetState p = STATE_REMOVED)) as [Hrem|Hrem];
  [rewrite Hrem; apply GetState_removed in Hrem; unfold live; naive_solver|];
  rewrite GetState_removed in Hrem;
  assert (live p) by (unfold live; destruct (DeletionTimestamp (Meta p)); naive_solver);
  rewrite GetState_live by done; unfold live in *;
  destruct (String.eqb_spec (PipelineVersion (Status p)) EmptyString); [naive_solver|];
  destruct (GetValid p), (InitialSyncInProgress (Status p)); naive_solver.

Lemma replace_from_none (old new s : string) : Strings.replace_from old new s 0 0 = s.
Proof. induction s as [|c s IH]; simpl; congruence. Qed.

Lemma substring_from (a b : string) :
  String.substring (String.length a) (String.length (a +s+ b) - String.length a) (a +s+ b) = b.
Proof.
  rewrite append_length. replace (_ + _ - _) with (String.length b) by lia.
  induction a as [|c a IH]; simpl; [|done].
  induction b as [|c b IHb]; simpl; [done|by rewrite IHb].
Qed.

Lemma TableNameToConnectorName_TableName v app :
  TableNameToConnectorName (TableName v) app = Some (ConnectorName v app).
Proof.
  unfold TableNameToConnectorName, TableName. rewrite substring_from.
  by rewrite append_length, (proj2 (Nat.leb_le _ _)) by lia.
Qed.

(** Versions as the operator makes them: "1_" and a time stamp. *)
Lemma ConnectorName_version (n : string) (app : string) :
  ConnectorName ("1_" +s+ n) app = "cyndi-" +s+ app +s+ "-1-" +s+ n.
Proof.
  unfold ConnectorName, Strings.Replace.
  replace (Strings.replace_from "_" "-" ("1_" +s+ n) 0 1)
    with ("1-" +s+ Strings.replace_from "_" "-" n 0 0) by (by destruct n).
  by rewrite replace_from_none.
Qed.

End State.

(** ** Properties of the state machine *)

Module StateProps.
Import State.

Section Props.
Context `{SCOK : StatusConditionsOk}.

(** Which of the six states a pipeline is in, in terms of its fields:
    deletion wins, then a missing version, then validity, then the
    initial-sync flag. *)
Theorem GetState_spec (p : CyndiPipeline) :
  (GetState p = STATE_REMOVED <-> ~ live p) /\
  (GetState p = STATE_NEW <-> live p /\ PipelineVersion (Status p) = EmptyString) /\
  (GetState p = STATE_VALID <->
     live p /\ PipelineVersion (Status p) <> EmptyString /\ GetValid p = ConditionTrue) /\
  (GetState p = STATE_INITIAL_SYNC <->
     live p /\ PipelineVersion (Status p) <> EmptyString /\ GetValid p <> ConditionTrue /\
     InitialSyncInProgress (Status p) = true) /\
  (GetState p = STATE_INVALID <->
     live p /\ PipelineVersion (Status p) <> EmptyString /\ GetValid p = ConditionFalse /\
     InitialSyncInProgress (Status p) = false).
Proof.
  split_and!; [|apply GetState_new|by solve_state p..].
  unfold live. by rewrite GetState_removed.
Qed.

(** Refinement of the state diagram: on a well-formed status of a live
    pipeline every enabled status operation is a step of the diagram, and
    leaves a well-formed status of a live pipeline. *)
Theorem act_diagram (p : CyndiPipeline) (a : action) :
  live p -> wf p -> enabled p a ->
  diagram (GetState p) a (GetState (act a p)) /\ wf (act a p) /\ live (act a p).
Proof. intros L W E. split; [by apply act_step | by apply act_wf]. Qed.

(** C29: Every status reachable from that of a freshly created pipeline by the
    controllers' operations is well-formed, and the pipeline is then in one of
    the four states of the diagram: UNKNOWN cannot be reached. *)
Theorem reachable_known (p0 p : CyndiPipeline) :
  fresh p0 -> rtc step p0 p ->
  wf p /\ (GetState p = STATE_NEW \/ GetState p = STATE_INITIAL_SYNC \/
           GetState p = STATE_VALID \/ GetState p = STATE_INVALID).
Proof.
  intros F R. assert (W : wf p /\ live p).
  { apply fresh_wf in F. induction R as [|x y z (a & E & ->) R IH]; [done|].
    apply IH. destruct F. by apply act_wf. }
  destruct W as [W L]. split; [done|].
  pose proof (wf_known p L W). pose proof (GetState_removed p). unfold live in L.
  destruct (GetState p); naive_solver.
Qed.

(** Starting a synchronisation: outside NEW and INITIAL_SYNC it is refused
    and changes nothing; otherwise the pipeline is in INITIAL_SYNC with the
    given version, with validation reset. A managed pipeline moves to the
    table and connector of the new version, an unmanaged one keeps its table
    (and gets a table only if it had none). *)
Theorem TransitionToInitialSync_spec (v : string) (p : CyndiPipeline) :
  v <> EmptyString ->
  let '(p', err) := TransitionToInitialSync v p in
  if decide (GetState p = STATE_NEW \/ GetState p = STATE_INITIAL_SYNC) then
    err = None /\ GetState p' = STATE_INITIAL_SYNC /\ PipelineVersion (Status p') = v /\
    ValidationFailedCount (Status p') = 0%Z /\ HostCount (Status p') = (-1)%Z /\
    TableName_ (Status p') =
      (if ConnectorsManaged p then TableName v
       else if String.eqb (TableName_ (Status p)) EmptyString then TableName v
       else TableName_ (Status p)) /\
    ConnectorName_ (Status p') =
      (if ConnectorsManaged p then ConnectorName v (AppName (Spec p))
       else ConnectorName_ (Status p))
  else p' = p /\ err <> None.
Proof.
  intros V. case_decide as D.
  - pose proof (TransitionToInitialSync_ok v p ltac:(set_solver))
      as (HE & HM & HS & HV & HI & HG & HC & HH & _ & _ & _ & HT & HN).
    destruct (TransitionToInitialSync v p) as [p' err]. simpl in *.
    assert (L : live p').
    { apply (live_meta p); [done|]. pose proof (GetState_removed p) as R. unfold live.
      destruct (DeletionTimestamp (Meta p)); [|done]. destruct R as [_ R].
      rewrite R in D by done. naive_solver. }
    split_and!; [done| |done..].
    rewrite GetState_live, HV, HG, HI by done. by destruct (String.eqb_spec v EmptyString).
  - destruct (TransitionToInitialSync_error v p) as [e ->]; [set_solver|]. done.
Qed.

End Props.

(** C38: Naming round trip: from the name of a table the operator finds the
    name of the connector that feeds it, for every version; table names of
    different versions differ, and so do the connector names of different time
    stamps. A name shorter than the table prefix is out of range. *)
Theorem names_roundtrip (v v' app table : string) (n n' : Z) :
  TableNameToConnectorName (TableName v) app = Some (ConnectorName v app) /\
  (TableName v = TableName v' -> v = v') /\
  (Int64.in_range n -> Int64.in_range n' ->
   ConnectorName ("1_" +s+ Strconv.FormatInt n) app =
     ConnectorName ("1_" +s+ Strconv.FormatInt n') app -> n = n') /\
  (TableNameToConnectorName table app = None <-> String.length table < 7).
Proof.
  split_and!.
  - apply TableNameToConnectorName_TableName.
  - apply append_inj_l.
  - intros R R'. rewrite !ConnectorName_version. intros E.
    do 3 apply append_inj_l in E. by apply Strconv.FormatInt_inj.
  - unfold TableNameToConnectorName. simpl (String.length tablePrefix).
    destruct (Nat.leb_spec 7 (String.length table)); split; (done || lia).
Qed.

Example fresh_sample : fresh Sample.new_pipeline.
Proof. done. Defined.

Lemma act_diagram_witness :
  diagram STATE_NEW (SyncStarted "1_1") STATE_INITIAL_SYNC /\
  wf (SC := Ref.conditions) (act (SC := Ref.conditions) (SyncStarted "1_1") Sample.new_pipeline) /\
  live (act (SC := Ref.conditions) (SyncStarted "1_1") Sample.new_pipeline).
Proof.
  apply (act_diagram (SCOK := Ref.conditions_ok) Sample.new_pipeline (SyncStarted "1_1"));
    [done|by split|by split].
Defined.

Lemma GetState_spec_witness :
  GetState (SC := Ref.conditions) Sample.new_pipeline = STATE_NEW.
Proof. apply (GetState_spec (SCOK := Ref.conditions_ok) Sample.new_pipeline). done. Defined.

(** A life of a pipeline: synchronised, valid, invalid, refreshed, and being
    synchronised again, with a first validation that fails *)
Definition a_life : list action :=
  [SyncStarted "1_1"; Validated true "ok" "m" 3; Validated false "bad" "m" 2; Refreshed;
   SyncStarted "1_2"; Validated false "bad" "m" 1].

Definition after_life (l : list action) : CyndiPipeline :=
  fold_left (fun p a => act (SC := Ref.conditions) a p) l Sample.new_pipeline.

Example a_life_states :
  (fun n => GetState (SC := Ref.conditions) (after_life (take n a_life))) <$> seq 0 7 =
    [STATE_NEW; STATE_INITIAL_SYNC; STATE_VALID; STATE_INVALID; STATE_NEW; STATE_INITIAL_SYNC;
     STATE_INITIAL_SYNC].
Proof. vm_compute. reflexivity. Qed.

Lemma life_step l a :
  enabled (SC := Ref.conditions) (after_life l) a ->
  step (SC := Ref.conditions) (after_life l) (after_life (l ++ [a])).
Proof. intros E. exists a. split; [exact E|]. unfold after_life. by rewrite fold_left_app. Qed.

Lemma reachable_known_witness :
  GetState (SC := Ref.conditions) (after_life (take 3 a_life)) = STATE_INVALID /\
  wf (SC := Ref.conditions) (after_life a_life).
Proof.
  split; [vm_compute; reflexivity|].
  apply (reachable_known (SCOK := Ref.conditions_ok) (after_life []) (after_life a_life));
    [vm_compute; repeat split|].
  eapply rtc_l; [apply (life_step [] (SyncStarted "1_1")); split; [vm_compute; reflexivity|done]|].
  eapply rtc_l; [apply (life_step _ (Validated true "ok" "m" 3)); vm_compute; discriminate|].
  eapply rtc_l; [apply (life_step _ (Validated false "bad" "m" 2)); vm_compute; discriminate|].
  eapply rtc_l; [apply (life_step _ Refreshed); exact I|].
  eapply rtc_l; [apply (life_step _ (SyncStarted "1_2")); split; [vm_compute; reflexivity|done]|].
  eapply rtc_l; [apply (life_step _ (Validated false "bad" "m" 1)); vm_compute; discriminate|].
  apply rtc_refl.
Defined.

Lemma TransitionToInitialSync_spec_witness :
  TableName_ (Status (TransitionToInitialSync (SC := Ref.conditions) "1_1" Sample.new_pipeline).1)
    = "hosts_v1_1".
Proof.
  pose proof (TransitionToInitialSync_spec (SCOK := Ref.conditions_ok) "1_1"
    Sample.new_pipeline ltac:(done)) as H.
  vm_compute in H. vm_compute. apply H.
Defined.

Lemma names_roundtrip_witness :
  TableNameToConnectorName "hosts_v1_5" "app" = Some "cyndi-app-1-5".
Proof. apply (names_roundtrip "1_5" "1_5" "app" "x" 5 5). Defined.

End StateProps.
