(* ===== verification/Utils.v ===== *)
(** * controllers/utils: names (misc.go) and configuration hashes (k8s.go) *)

From Stdlib Require Import ZArith Lia String.
From S2P Require Import Prelude GoStd GoJson Lang K8sLib Api.
Import Api.

Module Utils.

(** ** misc.go *)

Definition inventorySchema : string := "inventory".

Definition AppFullTableName (tableName : string) : string :=
  inventorySchema +s+ "." +s+ tableName.

Definition AppDefaultDbSecretName (appName : string) : string := appName +s+ "-db".

Definition AppDbSecretName (spec : CyndiPipelineSpec) : string :=
  match DbSecret spec with
  | Some s => s
  | None => AppDefaultDbSecretName (AppName spec)
  end.

(** ** k8s.go: hashes *)

(** ConfigMapHash. json.Marshal cannot fail on a map of strings, so the result
    "-2" never occurs. *)
Definition ConfigMapHash (cm : gmap string string) (ignoredKeys : list string) : string :=
  if Nat.eqb (size cm) 0 then "-1"
  else Strconv.FormatInt (Fnv.Sum32a (Json.MarshalStringMap (Lang.Omit cm ignoredKeys))).

(** A field with the option omitempty *)
Definition omitempty_string (name v : string) : list (string * string) :=
  if String.eqb v EmptyString then [] else [(name, Json.MarshalString v)].

Definition omitempty_bool (name : string) (v : bool) : list (string * string) :=
  if v then [(name, Json.MarshalBool v)] else [].

Definition omitempty_ptr {A} (name : string) (enc : A -> string) (v : option A)
  : list (string * string) :=
  match v with Some x => [(name, enc x)] | None => [] end.

Definition omitempty_maps (name : string) (v : list (gmap string string))
  : list (string * string) :=
  match v with [] => [] | _ => [(name, Json.MarshalMaps v)] end.

(** json.Marshal of a CyndiPipelineSpec, in the order of its fields *)
Definition MarshalSpec (s : CyndiPipelineSpec) : string :=
  Json.MarshalFields
    ([("appName", Json.MarshalString (AppName s));
      ("insightsOnly", Json.MarshalBool (InsightsOnly s))] ++
     omitempty_maps "additionalFilters" (AdditionalFilters s) ++
     omitempty_ptr "connectCluster" Json.MarshalString (ConnectCluster s) ++
     omitempty_ptr "maxAge" Json.MarshalInt (MaxAge s) ++
     omitempty_ptr "validationThreshold" Json.MarshalInt (ValidationThreshold s) ++
     omitempty_ptr "topic" Json.MarshalString (Topic s) ++
     omitempty_ptr "dbSecret" Json.MarshalString (DbSecret s) ++
     omitempty_ptr "inventoryDbSecret" Json.MarshalString (InventoryDbSecret s) ++
     omitempty_string "dbTableIndexSQL" (DBTableIndexSQL s) ++
     omitempty_string "refresh" (Refresh s) ++
     omitempty_ptr "managedConnectors" Json.MarshalBool (ManagedConnectors s) ++
     omitempty_bool "connectorPaused" (ConnectorPaused s)).

(** SpecHash; neither the encoding nor the hash write can fail on this type. *)
Definition SpecHash (s : CyndiPipelineSpec) : string :=
  Strconv.FormatInt (Fnv.Sum32a (MarshalSpec s)).

(** ** Lemmas *)

Lemma ConfigMapHash_nonempty (cm : gmap string string) (ks : list string) :
  cm <> ∅ ->
  ConfigMapHash cm ks =
    Strconv.FormatInt (Fnv.Sum32a (Json.MarshalStringMap (Lang.Omit cm ks))).
Proof.
  intros N. unfold ConfigMapHash. destruct (Nat.eqb_spec (size cm) 0) as [E|]; [|done].
  by apply map_size_empty_inv in E.
Qed.

Lemma hash_not_minus1 (s : string) : Strconv.FormatInt (Fnv.Sum32a s) <> "-1".
Proof.
  intros E. pose proof (Fnv.Sum32a_range s) as R.
  assert (Fnv.Sum32a s = -1)%Z; [|lia].
  apply Strconv.FormatInt_inj; [..|exact E];
    unfold Int64.in_range, Int64.min_value, Int64.max_value; lia.
Qed.

Lemma DataSpec_idem (s : CyndiPipelineSpec) : DataSpec (DataSpec s) = DataSpec s.
Proof. done. Qed.

End Utils.
