(* ===== verification/Config.v ===== *)
(** * controllers/config: configuration of a pipeline and database secrets

    [BuildCyndiConfig] resolves every setting from the resource, then the
    merged config map, then the defaults; [ParseDBSecret] reads the connection
    parameters of a database out of a secret. *)

From Stdlib Require Import ZArith Lia String.
From S2P Require Import Prelude GoStd GoJson Lang K8sLib Api Defaults Utils.
Import Api Defaults.

Module Config.

(** ** types.go *)

Record DBParams := {
  DBName : string;
  Host : string;
  Port : string;
  User : string;
  Password : string;
  SSLMode : string;
  SSLRootCert : string
}.

Record ValidationConfiguration := {
  Interval : Z;
  AttemptsThreshold : Z;
  PercentageThreshold : Z
}.

Record CyndiConfiguration := {
  cfgTopic : string;
  cfgConnectCluster : string;
  ConnectorTemplate : string;
  ConnectorTasksMax : Z;
  ConnectorBatchSize : Z;
  ConnectorMaxAge : Z;
  ConnectorAllowlistSystemProfile : string;
  TopicReplicationFactor : Z;
  DeadLetterQueueTopicName : string;
  cfgInventoryDbSecret : string;
  InventoryDbSchema : string;
  DBTableInitScript : string;
  cfgDBTableIndexSQL : string;
  StandardInterval : Z;
  ValidationConfig : ValidationConfiguration;
  ValidationConfigInit : ValidationConfiguration;
  ConfigMapVersion : string;
  cfgSpecHash : string;
  cfgSSLMode : string;
  cfgSSLRootCert : string
}.

(** defaults.go: validation settings *)
Definition defaultValidationConfig : ValidationConfiguration :=
  {| Interval := 60 * 30; AttemptsThreshold := 3; PercentageThreshold := 5 |}.

Definition defaultValidationConfigInit : ValidationConfiguration :=
  {| Interval := 60; AttemptsThreshold := 30; PercentageThreshold := 5 |}.

(** ** config.go *)

Definition reconcileInterval : string := "standard.interval".
Definition validationInterval : string := "validation.interval".
Definition validationAttemptsThreshold : string := "validation.attempts.threshold".
Definition validationPercentageThreshold : string := "validation.percentage.threshold".

Definition keysIgnoredByRefresh : list string :=
  [ reconcileInterval; validationInterval; validationAttemptsThreshold;
    validationPercentageThreshold;
    "init." +s+ validationInterval;
    "init." +s+ validationAttemptsThreshold;
    "init." +s+ validationPercentageThreshold ].

Definition getStringValue (cm : gmap string string) (key defaultValue : string) : string :=
  match cm !! key with
  | Some value => value
  | None => defaultValue
  end.

Definition invalid_value (value key : string) : gerror :=
  Errorf (Json.dquote +s+ value +s+ Json.dquote +s+ " is not a valid value for " +s+
          Json.dquote +s+ key +s+ Json.dquote).

Definition getIntValue (cm : gmap string string) (key : string) (defaultValue : Z) : result Z :=
  match cm !! key with
  | Some value =>
      match Strconv.ParseInt value with
      | Some parsed => inr parsed
      | None => inl (invalid_value value key)
      end
  | None => inr defaultValue
  end.

(** instance != nil && instance.Spec.F != nil *)
Definition override {A} (inst : option CyndiPipeline) (f : CyndiPipelineSpec -> option A)
  : option A :=
  match inst with Some p => f (Spec p) | None => None end.

Definition getValidationConfig (inst : option CyndiPipeline) (cm : gmap string string)
    (prefix : string) (defaultValue : ValidationConfiguration)
  : result ValidationConfiguration :=
  let? interval := getIntValue cm (prefix +s+ validationInterval) (Interval defaultValue) in
  let? attempts := getIntValue cm (prefix +s+ validationAttemptsThreshold)
                     (AttemptsThreshold defaultValue) in
  let? percentage :=
    match override inst ValidationThreshold with
    | Some t => inr t
    | None => getIntValue cm (prefix +s+ validationPercentageThreshold)
                (PercentageThreshold defaultValue)
    end in
  inr {| Interval := interval; AttemptsThreshold := attempts;
         PercentageThreshold := percentage |}.

(** BuildCyndiConfig. A missing config map (nil) and an empty one behave
    alike. The partly filled value that accompanies an error is not modelled:
    no caller reads it. *)
Definition BuildCyndiConfig (inst : option CyndiPipeline) (cm : gmap string string)
  : result CyndiConfiguration :=
  let topic :=
    match override inst Topic with
    | Some t => t
    | None => getStringValue cm "connector.topic" defaultTopic
    end in
  let connectCluster :=
    match override inst ConnectCluster with
    | Some c => c
    | None => getStringValue cm "connect.cluster" defaultConnectCluster
    end in
  let inventoryDbSecret :=
    match override inst InventoryDbSecret with
    | Some s => s
    | None => getStringValue cm "inventory.dbSecret" defaultInventoryDbSecret
    end in
  let inventoryDbSchema := getStringValue cm "inventory.dbSchema" defaultInventoryDbSchema in
  let? topicReplicationFactor :=
    getIntValue cm "connector.topic.replication.factor" defaultTopicReplicationFactor in
  let deadLetterQueueTopicName :=
    getStringValue cm "connector.deadletterqueue.topic.name" defaultDeadLetterQueueTopicName in
  let connectorTemplate := getStringValue cm "connector.config" defaultConnectorTemplate in
  let? connectorTasksMax := getIntValue cm "connector.tasks.max" defaultConnectorTasksMax in
  let? connectorBatchSize := getIntValue cm "connector.batch.size" defaultConnectorBatchSize in
  let? connectorMaxAge :=
    match override inst MaxAge with
    | Some a => inr a
    | None => getIntValue cm "connector.max.age" defaultConnectorMaxAge
    end in
  let allowlist := getStringValue cm "connector.allowlist.sp" defaultAllowlistSystemProfile in
  let indexSQL :=
    match inst with
    | Some p => if String.eqb (DBTableIndexSQL (Spec p)) EmptyString
                then defaultDBTableIndexSQL else DBTableIndexSQL (Spec p)
    | None => defaultDBTableIndexSQL
    end in
  let initScript := getStringValue cm "db.schema" defaultDBTableInitScript in
  let? standardInterval := getIntValue cm reconcileInterval defaultStandardInterval in
  let? validationConfig := getValidationConfig inst cm EmptyString defaultValidationConfig in
  let? validationConfigInit :=
    getValidationConfig inst cm "init." defaultValidationConfigInit in
  inr {| cfgTopic := topic;
         cfgConnectCluster := connectCluster;
         ConnectorTemplate := connectorTemplate;
         ConnectorTasksMax := connectorTasksMax;
         ConnectorBatchSize := connectorBatchSize;
         ConnectorMaxAge := connectorMaxAge;
         ConnectorAllowlistSystemProfile := allowlist;
         TopicReplicationFactor := topicReplicationFactor;
         DeadLetterQueueTopicName := deadLetterQueueTopicName;
         cfgInventoryDbSecret := inventoryDbSecret;
         InventoryDbSchema := inventoryDbSchema;
         DBTableInitScript := initScript;
         cfgDBTableIndexSQL := indexSQL;
         StandardInterval := standardInterval;
         ValidationConfig := validationConfig;
         ValidationConfigInit := validationConfigInit;
         ConfigMapVersion := Utils.ConfigMapHash cm keysIgnoredByRefresh;
         cfgSpecHash :=
           match inst with
           | Some p => Utils.SpecHash (DataSpec (Spec p))
           | None => EmptyString
           end;
         cfgSSLMode := getStringValue cm "db.ssl.mode" defaultSSLMode;
         cfgSSLRootCert := getStringValue cm "db.ssl.root.cert" defaultSSLRootCert |}.

(** ** parsers.go *)

Record Secret := {
  SecretName : string;
  SecretData : gmap string string
}.

Definition readSecretValue (secret : Secret) (key : string) : result string :=
  match SecretData secret !! key with
  | Some value =>
      if String.eqb value EmptyString
      then inl (Errorf (key +s+ " missing from " +s+ SecretName secret +s+ " secret"))
      else inr value
  | None => inl (Errorf (key +s+ " missing from " +s+ SecretName secret +s+ " secret"))
  end.

Definition ParseDBSecret (secret : Secret) : result DBParams :=
  let? host := readSecretValue secret "db.host" in
  let? user := readSecretValue secret "db.user" in
  let? password := readSecretValue secret "db.password" in
  let? name := readSecretValue secret "db.name" in
  let? port := readSecretValue secret "db.port" in
  inr {| DBName := name; Host := host; Port := port; User := user; Password := password;
         SSLMode := EmptyString; SSLRootCert := EmptyString |}.

(** The part of LoadDBSecret after the secret has been fetched. *)
Definition db_params_of (config : option CyndiConfiguration) (secret : Secret)
  : result DBParams :=
  let? params := ParseDBSecret secret in
  inr (match config with
       | Some c => {| DBName := DBName params; Host := Host params; Port := Port params;
                      User := User params; Password := Password params;
                      SSLMode := cfgSSLMode c; SSLRootCert := cfgSSLRootCert c |}
       | None => params
       end).

(** ** Specification of the parsing errors *)

(** The integer settings in the order they are read; those that the resource
    overrides are not read from the config map. *)
Definition int_keys (inst : option CyndiPipeline) : list string :=
  ["connector.topic.replication.factor"; "connector.tasks.max"; "connector.batch.size"] ++
  (if override inst MaxAge then [] else ["connector.max.age"]) ++
  [reconcileInterval; validationInterval; validationAttemptsThreshold] ++
  (if override inst ValidationThreshold then [] else [validationPercentageThreshold]) ++
  ["init." +s+ validationInterval; "init." +s+ validationAttemptsThreshold] ++
  (if override inst ValidationThreshold then []
   else ["init." +s+ validationPercentageThreshold]).

(** The first of [keys] whose value in [cm] is not an int64. *)
Fixpoint first_malformed (cm : gmap string string) (keys : list string)
  : option (string * string) :=
  match keys with
  | [] => None
  | k :: keys' =>
      match cm !! k with
      | Some v => if Strconv.ParseInt v then first_malformed cm keys' else Some (v, k)
      | None => first_malformed cm keys'
      end
  end.

(** ** Lemmas *)

Lemma getIntValue_malformed cm k d :
  getIntValue cm k d =
    match first_malformed cm [k] with
    | Some (v, k') => inl (invalid_value v k')
    | None => inr (match cm !! k with
                   | Some v => default d (Strconv.ParseInt v)
                   | None => d
                   end)
    end.
Proof.
  unfold getIntValue. simpl. destruct (cm !! k); [|done].
  by destruct (Strconv.ParseInt _).
Qed.

Lemma first_malformed_app cm l l' :
  first_malformed cm (l ++ l') =
    match first_malformed cm l with
    | Some x => Some x
    | None => first_malformed cm l'
    end.
Proof.
  induction l as [|k l IH]; simpl; [done|].
  destruct (cm !! k); [|done]. by destruct (Strconv.ParseInt _).
Qed.

Lemma first_malformed_cons cm k l :
  first_malformed cm (k :: l) =
    match first_malformed cm [k] with
    | Some x => Some x
    | None => first_malformed cm l
    end.
Proof. exact (first_malformed_app cm [k] l). Qed.

Lemma first_malformed_nil cm : first_malformed cm [] = None.
Proof. done. Qed.

Lemma first_malformed_Some cm l v k :
  first_malformed cm l = Some (v, k) ->
  k ∈ l /\ cm !! k = Some v /\ Strconv.ParseInt v = None.
Proof.
  induction l as [|x l IH]; simpl; [done|].
  destruct (cm !! x) as [w|] eqn:E; [destruct (Strconv.ParseInt w) eqn:P|];
    intros H; [|injection H as -> ->; set_solver|]; destruct (IH H); set_solver.
Qed.

Lemma first_malformed_None cm l :
  first_malformed cm l = None <->
  forall k v, k ∈ l -> cm !! k = Some v -> is_Some (Strconv.ParseInt v).
Proof.
  induction l as [|x l IH]; simpl; [set_solver|]. split.
  - intros H k v [->|I]%elem_of_cons E.
    + rewrite E in H. by destruct (Strconv.ParseInt v).
    + destruct (cm !! x) as [w|]; [destruct (Strconv.ParseInt w)|]; naive_solver.
  - intros H. destruct (cm !! x) as [w|] eqn:E.
    + destruct (H x w) as [z ->]; [set_solver|done|]. apply IH. set_solver.
    + apply IH. set_solver.
Qed.

(** Take a successful [let?] chain apart. *)
Ltac let_ok B :=
  repeat match type of B with
  | context [match ?x with inl _ => _ | inr _ => _ end] => destruct x eqn:?; [done|]
  end.

Lemma getStringValue_insert_ne cm k k' v d :
  k <> k' -> getStringValue (<[k := v]> cm) k' d = getStringValue cm k' d.
Proof. intros N. unfold getStringValue. by rewrite lookup_insert_ne. Qed.

Lemma getIntValue_insert_ne cm k k' v d :
  k <> k' -> getIntValue (<[k := v]> cm) k' d = getIntValue cm k' d.
Proof. intros N. unfold getIntValue. by rewrite lookup_insert_ne. Qed.

Lemma readSecretValue_ok s k v :
  readSecretValue s k = inr v <-> SecretData s !! k = Some v /\ v <> EmptyString.
Proof.
  unfold readSecretValue. destruct (SecretData s !! k) as [w|]; [|naive_solver].
  destruct (String.eqb_spec w EmptyString); naive_solver.
Qed.

Lemma readSecretValue_err s k e :
  readSecretValue s k = inl e ->
  default EmptyString (SecretData s !! k) = EmptyString /\
  Error e = k +s+ " missing from " +s+ SecretName s +s+ " secret".
Proof.
  unfold readSecretValue. destruct (SecretData s !! k) as [w|]; simpl; [|by intros [= <-]].
  destruct (String.eqb_spec w EmptyString); [by intros [= <-]|done].
Qed.

End Config.

(** ** Properties of the configuration *)

Module ConfigProps.
Import Config.

(** One setting of the list: malformed, and the error is about it, or not. *)
Ltac step_malformed :=
  match goal with
  | |- context [first_malformed ?m (?k :: ?l)] =>
      lazymatch l with
      | [] => idtac
      | _ => rewrite (first_malformed_cons m k l)
      end;
      destruct (first_malformed m [k]) as [[? ?]|]; [done|]
  end.

(** C34: Parsing the configuration succeeds exactly when every integer setting
    that is read is an int64; otherwise the error is about the first malformed
    one, in the order of the code, and quotes its value and key. *)
Theorem BuildCyndiConfig_errors (inst : option CyndiPipeline) (cm : gmap string string) :
  match first_malformed cm (int_keys inst) with
  | Some (v, k) => BuildCyndiConfig inst cm = inl (invalid_value v k)
  | None => exists c, BuildCyndiConfig inst cm = inr c
  end.
Proof.
  unfold BuildCyndiConfig, getValidationConfig, int_keys.
  destruct (override inst MaxAge), (override inst ValidationThreshold);
    cbn [app];
    rewrite !getIntValue_malformed, ?append_nil_l.
  all: repeat step_malformed.
  all: by eexists.
Qed.

(** Settings with the requeue intervals and validation settings left out. *)
Definition data_settings (c : CyndiConfiguration) : CyndiConfiguration := {|
  cfgTopic := cfgTopic c; cfgConnectCluster := cfgConnectCluster c;
  ConnectorTemplate := ConnectorTemplate c; ConnectorTasksMax := ConnectorTasksMax c;
  ConnectorBatchSize := ConnectorBatchSize c; ConnectorMaxAge := ConnectorMaxAge c;
  ConnectorAllowlistSystemProfile := ConnectorAllowlistSystemProfile c;
  TopicReplicationFactor := TopicReplicationFactor c;
  DeadLetterQueueTopicName := DeadLetterQueueTopicName c;
  cfgInventoryDbSecret := cfgInventoryDbSecret c; InventoryDbSchema := InventoryDbSchema c;
  DBTableInitScript := DBTableInitScript c; cfgDBTableIndexSQL := cfgDBTableIndexSQL c;
  StandardInterval := 0; ValidationConfig := defaultValidationConfig;
  ValidationConfigInit := defaultValidationConfigInit;
  ConfigMapVersion := ConfigMapVersion c; cfgSpecHash := cfgSpecHash c;
  cfgSSLMode := cfgSSLMode c; cfgSSLRootCert := cfgSSLRootCert c |}.

(** Two maps that agree on every key that counts for a refresh. *)
Definition same_data (cm cm' : gmap string string) : Prop :=
  forall k, k ∉ keysIgnoredByRefresh -> cm !! k = cm' !! k.

Lemma same_data_Omit cm cm' :
  same_data cm cm' ->
  Lang.Omit cm keysIgnoredByRefresh = Lang.Omit cm' keysIgnoredByRefresh.
Proof.
  intros H. apply map_eq. intros k. rewrite !Lang.lookup_Omit. case_decide; auto.
Qed.

Lemma same_data_string cm cm' k d :
  same_data cm cm' -> bool_decide (k ∈ keysIgnoredByRefresh) = false ->
  getStringValue cm k d = getStringValue cm' k d.
Proof. intros H N. unfold getStringValue. rewrite H; [done|by apply bool_decide_eq_false in N]. Qed.

Lemma same_data_int cm cm' k d :
  same_data cm cm' -> bool_decide (k ∈ keysIgnoredByRefresh) = false ->
  getIntValue cm k d = getIntValue cm' k d.
Proof. intros H N. unfold getIntValue. rewrite H; [done|by apply bool_decide_eq_false in N]. Qed.

(** The keys left out of the hash of the config map decide nothing but
    intervals and validation settings: two non-empty config maps that agree on
    the other keys give the same version and the same remaining settings, so
    editing an ignored key never refreshes a pipeline. *)
Theorem ignored_keys_keep_version (inst : option CyndiPipeline)
    (cm cm' : gmap string string) (c c' : CyndiConfiguration) :
  cm <> ∅ -> cm' <> ∅ -> same_data cm cm' ->
  BuildCyndiConfig inst cm = inr c -> BuildCyndiConfig inst cm' = inr c' ->
  data_settings c = data_settings c'.
Proof.
  intros N N' S. unfold BuildCyndiConfig.
  rewrite !Utils.ConfigMapHash_nonempty, (same_data_Omit _ _ S) by done.
  rewrite !(fun k d => same_data_string cm cm' k d S) by (vm_compute; reflexivity).
  do 3 rewrite (same_data_int cm cm' _ _ S) by (vm_compute; reflexivity).
  rewrite (same_data_int cm cm' "connector.max.age" _ S) by (vm_compute; reflexivity).
  intros B B'.
  let_ok B.
  let_ok B'.
  injection B as <-. injection B' as <-. unfold data_settings. simpl. congruence.
Qed.

(** The first ignored key does change the version: the hash of an absent
    or empty config map is the constant "-1", which is not the hash of any
    non-empty one, ignored keys included. *)
Theorem first_ignored_key_changes_version (inst : option CyndiPipeline)
    (cm : gmap string string) (c c' : CyndiConfiguration) :
  cm <> ∅ -> (forall k, is_Some (cm !! k) -> k ∈ keysIgnoredByRefresh) ->
  BuildCyndiConfig inst ∅ = inr c -> BuildCyndiConfig inst cm = inr c' ->
  same_data ∅ cm /\ ConfigMapVersion c = "-1" /\ ConfigMapVersion c' <> ConfigMapVersion c.
Proof.
  intros N I B B'.
  assert (V : ConfigMapVersion c = "-1").
  { unfold BuildCyndiConfig in B.
    let_ok B. injection B as <-. done. }
  split_and!; [| done |].
  - intros k Hk. rewrite lookup_empty. destruct (cm !! k) eqn:E; [|done].
    destruct Hk. apply I. by rewrite E.
  - rewrite V. unfold BuildCyndiConfig in B'. rewrite Utils.ConfigMapHash_nonempty in B' by done.
    let_ok B'. injection B' as <-. apply Utils.hash_not_minus1.
Qed.

(** The value of a setting: the resource's, else that of the key in the config
    map, else the default. A number of the config map must parse. *)
Definition text_setting (resource : option string) (cm : gmap string string)
    (key d : string) (value : string) : Prop :=
  value = default (default d (cm !! key)) resource.

Definition number_setting (resource : option Z) (cm : gmap string string)
    (key : string) (d value : Z) : Prop :=
  match resource, cm !! key with
  | Some z, _ => value = z
  | None, Some text => Strconv.ParseInt text = Some value
  | None, None => value = d
  end.

(** The index statement of a resource; an empty one does not count. *)
Definition own_index_sql (inst : option CyndiPipeline) : option string :=
  match inst with
  | Some p => if decide (DBTableIndexSQL (Spec p) = EmptyString) then None
              else Some (DBTableIndexSQL (Spec p))
  | None => None
  end.

Lemma text_setting_override (o : option string) cm key d :
  text_setting o cm key d (match o with Some v => v | None => getStringValue cm key d end).
Proof. unfold text_setting, getStringValue. by destruct o, (cm !! key). Qed.

Lemma text_setting_map cm key d : text_setting None cm key d (getStringValue cm key d).
Proof. exact (text_setting_override None cm key d). Qed.

Lemma number_setting_map cm key d z :
  getIntValue cm key d = inr z -> number_setting None cm key d z.
Proof.
  unfold number_setting, getIntValue. destruct (cm !! key); [|congruence].
  destruct (Strconv.ParseInt _); congruence.
Qed.

Lemma number_setting_override o cm key d z :
  match o with Some v => inr v | None => getIntValue cm key d end = inr z ->
  number_setting o cm key d z.
Proof. destruct o; [intros [= ->]; by destruct (cm !! key)|apply number_setting_map]. Qed.

(** The three settings of a validation phase *)
Definition phase_settings (inst : option CyndiPipeline) (cm : gmap string string)
    (prefix : string) (interval attempts percentage : Z) (vc : ValidationConfiguration) : Prop :=
  number_setting None cm (prefix +s+ "validation.interval") interval (Interval vc) /\
  number_setting None cm (prefix +s+ "validation.attempts.threshold") attempts
    (AttemptsThreshold vc) /\
  number_setting (override inst ValidationThreshold) cm
    (prefix +s+ "validation.percentage.threshold") percentage (PercentageThreshold vc).

Lemma getValidationConfig_settings inst cm prefix d vc :
  getValidationConfig inst cm prefix d = inr vc ->
  phase_settings inst cm prefix (Interval d) (AttemptsThreshold d) (PercentageThreshold d) vc.
Proof.
  unfold getValidationConfig. intros B. let_ok B. injection B as <-. simpl.
  split_and!; [by apply number_setting_map..|by apply number_setting_override].
Qed.

(** C35: Where every setting comes from: the resource, for the settings it can
    override, else the config map under the key given here, else the default
    given here; a number in the config map is the one its text denotes. The
    index statement of the resource counts unless it is empty, and its
    validation threshold governs both phases. *)
Theorem settings_precedence (inst : option CyndiPipeline) (cm : gmap string string)
    (c : CyndiConfiguration) :
  BuildCyndiConfig inst cm = inr c ->
  text_setting (override inst Topic) cm "connector.topic" "platform.inventory.events"
    (cfgTopic c) /\
  text_setting (override inst ConnectCluster) cm "connect.cluster" "xjoin-kafka-connect-strimzi"
    (cfgConnectCluster c) /\
  text_setting (override inst InventoryDbSecret) cm "inventory.dbSecret"
    "host-inventory-read-only-db" (cfgInventoryDbSecret c) /\
  text_setting None cm "inventory.dbSchema" "public" (InventoryDbSchema c) /\
  number_setting None cm "connector.topic.replication.factor" 1 (TopicReplicationFactor c) /\
  text_setting None cm "connector.deadletterqueue.topic.name" "platform.cyndi.dlq"
    (DeadLetterQueueTopicName c) /\
  text_setting None cm "connector.config" defaultConnectorTemplate (ConnectorTemplate c) /\
  number_setting None cm "connector.tasks.max" 16 (ConnectorTasksMax c) /\
  number_setting None cm "connector.batch.size" 100 (ConnectorBatchSize c) /\
  number_setting (override inst MaxAge) cm "connector.max.age" 45 (ConnectorMaxAge c) /\
  text_setting None cm "connector.allowlist.sp" "sap_system,sap_sids"
    (ConnectorAllowlistSystemProfile c) /\
  cfgDBTableIndexSQL c = default defaultDBTableIndexSQL (own_index_sql inst) /\
  text_setting None cm "db.schema" defaultDBTableInitScript (DBTableInitScript c) /\
  number_setting None cm "standard.interval" 120 (StandardInterval c) /\
  phase_settings inst cm EmptyString 1800 3 5 (ValidationConfig c) /\
  phase_settings inst cm "init." 60 30 5 (ValidationConfigInit c) /\
  text_setting None cm "db.ssl.mode" "disable" (cfgSSLMode c) /\
  text_setting None cm "db.ssl.root.cert" "none" (cfgSSLRootCert c).
Proof.
  intros B. unfold BuildCyndiConfig in B. let_ok B.
  repeat match goal with
  | H : getValidationConfig _ _ _ _ = inr _ |- _ => apply getValidationConfig_settings in H
  end.
  injection B as <-. simpl. split_and!;
    first [apply text_setting_override | apply text_setting_map | by apply number_setting_map
          | by apply number_setting_override | done | idtac].
  destruct inst as [p|]; [|done]. unfold own_index_sql.
  by destruct (String.eqb_spec (DBTableIndexSQL (Spec p)) EmptyString), (decide _).
Qed.

(** The keys [pre] are fine and the next one is missing. *)
Ltac missing_after pre :=
  exists pre; do 2 eexists; split; [reflexivity|];
  split; [repeat (constructor; [by eexists|]); constructor | by apply readSecretValue_err].

(** Reading the credentials of a database: they are accepted exactly when
    host, user, password, name and port are all present and non-empty, the
    result holds those values and the SSL settings of the configuration, and a
    rejection names the first missing key and the secret. *)
Theorem db_secret_spec (c : CyndiConfiguration) (secret : Secret) (p : DBParams) :
  (db_params_of (Some c) secret = inr p <->
     SecretData secret !! "db.host" = Some (Host p) /\ Host p <> EmptyString /\
     SecretData secret !! "db.user" = Some (User p) /\ User p <> EmptyString /\
     SecretData secret !! "db.password" = Some (Password p) /\ Password p <> EmptyString /\
     SecretData secret !! "db.name" = Some (DBName p) /\ DBName p <> EmptyString /\
     SecretData secret !! "db.port" = Some (Port p) /\ Port p <> EmptyString /\
     SSLMode p = cfgSSLMode c /\ SSLRootCert p = cfgSSLRootCert c) /\
  (forall e, db_params_of (Some c) secret = inl e ->
     exists pre k post,
       ["db.host"; "db.user"; "db.password"; "db.name"; "db.port"] = pre ++ k :: post /\
       Forall (fun k' => exists v, readSecretValue secret k' = inr v) pre /\
       default EmptyString (SecretData secret !! k) = EmptyString /\
       Error e = k +s+ " missing from " +s+ SecretName secret +s+ " secret").
Proof.
  unfold db_params_of, ParseDBSecret. split; [split|].
  - intros B. let_ok B. let_ok Heqs. injection Heqs as <-. injection B as <-. simpl.
    repeat match goal with
    | H : readSecretValue _ _ = inr _ |- _ => apply readSecretValue_ok in H as [? ?]
    end. done.
  - intros (?&?&?&?&?&?&?&?&?&?&?&?).
    rewrite (proj2 (readSecretValue_ok secret "db.host" (Host p))) by done.
    rewrite (proj2 (readSecretValue_ok secret "db.user" (User p))) by done.
    rewrite (proj2 (readSecretValue_ok secret "db.password" (Password p))) by done.
    rewrite (proj2 (readSecretValue_ok secret "db.name" (DBName p))) by done.
    rewrite (proj2 (readSecretValue_ok secret "db.port" (Port p))) by done.
    f_equal. destruct p; simpl in *. congruence.
  - intros e. unfold ParseDBSecret.
    destruct (readSecretValue secret "db.host") as [x|v1] eqn:E1;
      [intros [= ->]; by missing_after (@nil string)|].
    destruct (readSecretValue secret "db.user") as [x|v2] eqn:E2;
      [intros [= ->]; by missing_after ["db.host"]|].
    destruct (readSecretValue secret "db.password") as [x|v3] eqn:E3;
      [intros [= ->]; by missing_after ["db.host"; "db.user"]|].
    destruct (readSecretValue secret "db.name") as [x|v4] eqn:E4;
      [intros [= ->]; by missing_after ["db.host"; "db.user"; "db.password"]|].
    destruct (readSecretValue secret "db.port") as [x|v5] eqn:E5; [|done].
    intros [= ->]. by missing_after ["db.host"; "db.user"; "db.password"; "db.name"].
Qed.

(** ** Examples and witnesses *)

Definition cm1 : gmap string string :=
  <["connect.cluster" := "cluster01"]> (<["validation.interval" := "60"]> ∅).
Definition cm2 : gmap string string :=
  <["connect.cluster" := "cluster01"]> (<["validation.interval" := "120"]> ∅).
Definition cm3 : gmap string string :=
  <["connect.cluster" := "cluster02"]> (<["validation.interval" := "120"]> ∅).
Definition cm4 : gmap string string := <["validation.interval" := "60"]> ∅.

Definition version_of (cm : gmap string string) : option string :=
  match BuildCyndiConfig None cm with inr c => Some (ConfigMapVersion c) | inl _ => None end.

(** The versions that the project's own tests expect. *)
Example config_versions :
  version_of cm1 = Some "1480767004" /\ version_of cm2 = Some "1480767004" /\
  version_of cm3 = Some "361613641" /\ version_of ∅ = Some "-1" /\
  version_of (<["connect.cluster" := "value1"]> ∅) = Some "1768911245".
Proof. vm_compute. done. Qed.

Definition get_inr {A B} (d : B) (x : A + B) : B := match x with inr b => b | inl _ => d end.

(** The configuration built from a given map, for the witnesses. *)
Definition config0 : CyndiConfiguration :=
  Eval vm_compute in
  match BuildCyndiConfig None ∅ with
  | inr c => c
  | inl _ => {| cfgTopic := EmptyString; cfgConnectCluster := EmptyString;
      ConnectorTemplate := EmptyString; ConnectorTasksMax := 0; ConnectorBatchSize := 0;
      ConnectorMaxAge := 0; ConnectorAllowlistSystemProfile := EmptyString;
      TopicReplicationFactor := 0; DeadLetterQueueTopicName := EmptyString;
      cfgInventoryDbSecret := EmptyString; InventoryDbSchema := EmptyString;
      DBTableInitScript := EmptyString; cfgDBTableIndexSQL := EmptyString;
      StandardInterval := 0; ValidationConfig := defaultValidationConfig;
      ValidationConfigInit := defaultValidationConfigInit; ConfigMapVersion := EmptyString;
      cfgSpecHash := EmptyString; cfgSSLMode := EmptyString; cfgSSLRootCert := EmptyString |}
  end.

Definition built (cm : gmap string string) : CyndiConfiguration :=
  get_inr config0 (BuildCyndiConfig None cm).

Lemma ignored_keys_keep_version_witness : data_settings (built cm1) = data_settings (built cm2).
Proof.
  apply (ignored_keys_keep_version None cm1 cm2); [done|done| |vm_compute; reflexivity..].
  intros k Hk. unfold cm1, cm2.
  destruct (decide (k = "validation.interval")) as [->|N].
  { destruct Hk. apply (bool_decide_unpack _). vm_compute. done. }
  destruct (decide (k = "connect.cluster")) as [->|N']; [done|].
  by rewrite !lookup_insert_ne by done.
Defined.

Lemma first_ignored_key_changes_version_witness :
  ConfigMapVersion (built cm4) <> ConfigMapVersion (built ∅).
Proof.
  apply (first_ignored_key_changes_version None cm4 (built ∅) (built cm4));
    [done| |vm_compute; reflexivity..].
  intros k [v E]. unfold cm4 in E.
  destruct (decide (k = "validation.interval")) as [->|N];
    [apply (bool_decide_unpack _); vm_compute; done|].
  by rewrite lookup_insert_ne in E by done.
Defined.

(** A resource with a topic and an index statement of its own *)
Definition indexed : CyndiPipeline :=
  {| Meta := Meta Sample.new_pipeline;
     Spec := {| AppName := "app"; InsightsOnly := false; AdditionalFilters := [];
                ConnectCluster := None; MaxAge := Some 60%Z; ValidationThreshold := Some 9%Z;
                Topic := Some "hosts"; DbSecret := None; InventoryDbSecret := None;
                DBTableIndexSQL := "CREATE INDEX"; Refresh := EmptyString;
                ManagedConnectors := None; ConnectorPaused := false |};
     Status := Status Sample.new_pipeline |}.

Definition indexed_config : CyndiConfiguration :=
  get_inr config0 (BuildCyndiConfig (Some indexed) cm1).

Lemma settings_precedence_witness :
  cfgTopic indexed_config = "hosts" /\ cfgConnectCluster indexed_config = "cluster01" /\
  cfgDBTableIndexSQL indexed_config = "CREATE INDEX" /\ ConnectorMaxAge indexed_config = 60%Z.
Proof.
  destruct (settings_precedence (Some indexed) cm1 indexed_config)
    as (T & K & _ & _ & _ & _ & _ & _ & _ & A & _ & I & _); [vm_compute; reflexivity|].
  split_and!; [exact T|exact K|exact I|exact A].
Defined.

Definition secret0 : Secret := {|
  SecretName := "app-db";
  SecretData := <["db.host" := "localhost"]> (<["db.user" := "postgres"]>
    (<["db.password" := "pw"]> (<["db.name" := "test"]> (<["db.port" := "5432"]> ∅)))) |}.

Definition params0 : DBParams := {|
  DBName := "test"; Host := "localhost"; Port := "5432"; User := "postgres"; Password := "pw";
  SSLMode := "disable"; SSLRootCert := "none" |}.

Lemma db_secret_spec_witness : db_params_of (Some config0) secret0 = inr params0.
Proof. apply (db_secret_spec config0 secret0 params0). vm_compute. done. Defined.

Lemma BuildCyndiConfig_errors_witness :
  BuildCyndiConfig None (<["connector.tasks.max" := "many"]> ∅) =
    inl (invalid_value "many" "connector.tasks.max").
Proof.
  exact (BuildCyndiConfig_errors None (<["connector.tasks.max" := "many"]> ∅)).
Defined.

End ConfigProps.
