(* ===== verification/Hashes.v ===== *)
(** * What the hashes are computed from

    SpecHash and ConfigMapHash (controllers/utils/k8s.go) hash the JSON text of
    the specification and of the config map without its ignored keys. Here the
    text is shown to determine its source: every encoder is a code whose words
    end where they end ([delimits]), from strings up to maps, lists of maps and
    structs. So two specifications or config maps with the same hash are equal,
    or FNV-1a collides on their texts. *)

From Stdlib Require Import ZArith Lia Ascii String.
From stdpp Require Import sorting.
From S2P Require Import Prelude GoStd Float GoJson Lang K8sLib JsonDecode Template Api Defaults Utils Config.
Import Api Json JsonDecode Utils Config ConfigProps.

Module Hashes.

(** ** Codes *)

(** Words of [enc] can be told apart and end at a place that the text shows. *)
Definition delimits {A} (enc : A -> string) (ok : A -> Prop) : Prop :=
  forall x y r s, ok x -> ok y -> number_end r = true -> number_end s = true ->
    enc x +s+ r = enc y +s+ s -> x = y /\ r = s.

Lemma delimits_string : delimits MarshalString utf8_text.
Proof.
  intros x y r s Hx Hy _ _ E. unfold MarshalString in E. rewrite !append_assoc in E.
  apply append_inj_l in E. apply (f_equal unquote) in E. rewrite !unquote_escape in E.
  rewrite !utf8_sanitize in E by done. by injection E.
Qed.

Lemma delimits_bool : delimits MarshalBool (fun _ => True).
Proof. intros [] [] r s _ _ _ _ E; by simplify_eq/=. Qed.

(** An integer and what follows it *)
Definition read_int (s : string) : Z * string :=
  match s with
  | String c s' =>
      if Ascii.eqb c "-" then let '(z, _, rest) := digits s' 0 0 in ((- z)%Z, rest)
      else let '(z, _, rest) := digits s 0 0 in (z, rest)
  | EmptyString => (0%Z, EmptyString)
  end.

Lemma read_FormatInt (z : Z) (r : string) :
  number_end r = true -> read_int (Strconv.FormatInt z +s+ r) = (z, r).
Proof.
  intros E. destruct z as [|p|p].
  { change (Strconv.FormatInt 0) with "0". unfold read_int. cbn [String.append].
    change (Ascii.eqb "0" "-") with false. cbn iota. change (String "0" r) with ("0" +s+ r).
    by rewrite (digits_app "0" r 0 0 0). }
  all: destruct (positive_digits p) as (c & s & k & E1 & Dk & K1 & N0 & Rc & P).
  all: unfold Strconv.FormatInt; cbn [Z.to_int DecimalString.NilZero.string_of_int].
  all: rewrite (Strconv.nilzero_nonnil _ (Strconv.to_uint_not_nil p)), E1.
  - unfold read_int. cbn [String.append].
    destruct (Ascii.eqb_spec c "-") as [->|]; [exfalso; destruct Rc as [Rc _]; by apply Rc|].
    change (String c (s +s+ r)) with (String c s +s+ r). by rewrite (digits_app _ r 0 _ 0 P E).
  - cbn [String.append read_int]. change (Ascii.eqb "-" "-") with true. cbn iota.
    change (String c (s +s+ r)) with (String c s +s+ r). by rewrite (digits_app _ r 0 _ 0 P E).
Qed.

Lemma delimits_int : delimits MarshalInt (fun _ => True).
Proof.
  intros x y r s _ _ Hr Hs E. apply (f_equal read_int) in E. unfold MarshalInt in E.
  rewrite !read_FormatInt in E by done. by injection E.
Qed.

(** *** Lists between commas, up to a closing byte *)

Definition opens_without (close : ascii) (s : string) : Prop :=
  match s with String c _ => c <> close | EmptyString => False end.

Lemma delimits_join {A} (enc : A -> string) (ok : A -> Prop) (close : ascii) :
  number_end (String close EmptyString) = true -> close <> ","%char ->
  delimits enc ok -> (forall x, ok x -> opens_without close (enc x)) ->
  forall l m r s, Forall ok l -> Forall ok m ->
    Strings.Join (enc <$> l) "," +s+ String close r = Strings.Join (enc <$> m) "," +s+ String close s ->
    l = m /\ r = s.
Proof.
  intros Hc Nc D O.
  assert (B : forall s, number_end (String close s) = true) by (intros s'; exact Hc).
  assert (F : forall x t s, ok x -> enc x +s+ t <> String close s).
  { intros x t s' Hx E. specialize (O x Hx). destruct (enc x); [done|]. simpl in E. by injection E. }
  unfold Strings.Join. induction l as [|x l IH]; intros m r s Hl Hm E.
  - destruct m as [|y m]; [by injection E|]. exfalso. apply Forall_cons_1 in Hm as [Hy _].
    cbn [fmap list_fmap String.concat String.append] in E.
    destruct m; cbn [fmap list_fmap String.concat] in E; rewrite ?append_assoc in E;
      symmetry in E; by eapply F.
  - apply Forall_cons_1 in Hl as [Hx Hl]. destruct m as [|y m].
    { exfalso. cbn [fmap list_fmap String.concat String.append] in E.
      destruct l; cbn [fmap list_fmap String.concat] in E; rewrite ?append_assoc in E; by eapply F. }
    apply Forall_cons_1 in Hm as [Hy Hm]. cbn [fmap list_fmap] in E.
    destruct l as [|x' l], m as [|y' m]; cbn [fmap list_fmap String.concat] in E;
      rewrite ?append_assoc in E; cbn [String.append] in E.
    + apply D in E as [-> [= ->]]; auto.
    + apply D in E as [_ E]; auto. by injection E.
    + apply D in E as [_ E]; auto. injection E as E _. done.
    + apply D in E as [-> E]; auto. injection E as E.
      destruct (IH (y' :: m) r s Hl Hm E) as [[= -> ->] ->]. done.
Qed.

(** *** Maps *)

Definition utf8_pair (kv : string * string) : Prop := utf8_text kv.1 /\ utf8_text kv.2.

Lemma delimits_member : delimits member utf8_pair.
Proof.
  intros [k v] [k' v'] r s [Hk Hv] [Hk' Hv'] Hr Hs E. unfold member in E. cbn [fst snd] in *.
  rewrite !append_assoc in E. apply delimits_string in E as [-> E]; [|done..].
  apply append_inj_l in E. by apply delimits_string in E as [-> ->].
Qed.

Definition utf8_map (m : gmap string string) : Prop := forall k v, m !! k = Some v -> utf8_pair (k, v).

Lemma delimits_map : delimits MarshalStringMap utf8_map.
Proof.
  intros m m' r s Hm Hm' _ _ E. unfold MarshalStringMap in E. rewrite !append_assoc in E.
  apply append_inj_l in E.
  assert (P : forall m, utf8_map m -> Forall utf8_pair (merge_sort pair_le (map_to_list m))).
  { intros n Hn. rewrite merge_sort_Permutation. apply List.Forall_forall. intros [k v] I%list_elem_of_In.
    by apply Hn, elem_of_map_to_list. }
  apply (delimits_join member utf8_pair "}") in E as [E ->]; [|done|done|apply delimits_member| |by apply P..].
  - split; [|done]. rewrite <- (list_to_map_to_list m), <- (list_to_map_to_list m').
    apply map_eq. intros k. apply option_eq. intros v.
    rewrite <- !elem_of_list_to_map, !elem_of_map_to_list by apply NoDup_fst_map_to_list.
    rewrite <- !elem_of_map_to_list, <- (merge_sort_Permutation pair_le (map_to_list m)), E.
    by rewrite merge_sort_Permutation.
  - intros [k v] _. done.
Qed.

Lemma delimits_maps : delimits MarshalMaps (Forall utf8_map).
Proof.
  intros l m r s Hl Hm _ _ E. unfold MarshalMaps in E. rewrite !append_assoc in E.
  apply append_inj_l in E.
  apply (delimits_join MarshalStringMap utf8_map "]") in E as [-> ->];
    [done|done|done|apply delimits_map| |done|done]. done.
Qed.

(** *** Structs *)

(** What a field of the specification can hold *)
Inductive fvalue :=
| FString (s : string)
| FBool (b : bool)
| FInt (z : Z)
| FMaps (l : list (gmap string string)).

Definition enc_value (v : fvalue) : string :=
  match v with
  | FString s => MarshalString s
  | FBool b => MarshalBool b
  | FInt z => MarshalInt z
  | FMaps l => MarshalMaps l
  end.

Definition ok_value (v : fvalue) : Prop :=
  match v with
  | FString s => utf8_text s
  | FMaps l => Forall utf8_map l
  | _ => True
  end.

(** The first byte shows the kind of a value. *)
Definition kind_byte (v : fvalue) (c : ascii) : Prop :=
  match v with
  | FString _ => c = Tmpl.dquote
  | FBool _ => c = "t"%char \/ c = "f"%char
  | FInt _ => c = "-"%char \/ (48 <= byte_of c <= 57)%Z
  | FMaps _ => c = "["%char
  end.

Lemma enc_value_first v : exists c s, enc_value v = String c s /\ kind_byte v c.
Proof.
  destruct v as [s|b|z|l].
  - by do 2 eexists.
  - destruct b; do 2 eexists; (split; [reflexivity|]); simpl; auto.
  - unfold enc_value, MarshalInt. destruct z as [|p|p].
    + do 2 eexists. split; [reflexivity|]. right. by vm_compute.
    + destruct (positive_digits p) as (c & s & k & E1 & _ & _ & _ & Rc & _).
      exists c, s. unfold Strconv.FormatInt. cbn [Z.to_int DecimalString.NilZero.string_of_int].
      rewrite (Strconv.nilzero_nonnil _ (Strconv.to_uint_not_nil p)). split; [done|by right].
    + do 2 eexists. split; [reflexivity|]. by left.
  - by do 2 eexists.
Qed.

Lemma kind_byte_inj v w c : kind_byte v c -> kind_byte w c ->
  match v, w with
  | FString _, FString _ | FBool _, FBool _ | FInt _, FInt _ | FMaps _, FMaps _ => True
  | _, _ => False
  end.
Proof.
  destruct v, w; simpl; try done; intros H1 H2;
    repeat match goal with H : _ \/ _ |- _ => destruct H as [H|H] end; subst; try done;
    repeat match goal with H : (_ <= byte_of _ <= _)%Z |- _ => destruct H as [Ha Hb];
      solve [by apply Ha|by apply Hb] end.
Qed.

Lemma delimits_value : delimits enc_value ok_value.
Proof.
  intros v w r s Hv Hw Hr Hs E.
  assert (K : match v, w with
    | FString _, FString _ | FBool _, FBool _ | FInt _, FInt _ | FMaps _, FMaps _ => True
    | _, _ => False
    end).
  { destruct (enc_value_first v) as (c & t & E1 & K1), (enc_value_first w) as (c' & t' & E2 & K2).
    rewrite E1, E2 in E. cbn [String.append] in E. injection E as <- _. by eapply kind_byte_inj. }
  destruct v, w; try done; cbn [enc_value ok_value] in *.
  - by apply delimits_string in E as [-> ->].
  - by apply delimits_bool in E as [-> ->].
  - by apply delimits_int in E as [-> ->].
  - by apply delimits_maps in E as [-> ->].
Qed.

Definition enc_field (kv : string * fvalue) : string := MarshalString kv.1 +s+ ":" +s+ enc_value kv.2.
Definition ok_field (kv : string * fvalue) : Prop := utf8_text kv.1 /\ ok_value kv.2.

Lemma delimits_field : delimits enc_field ok_field.
Proof.
  intros [k v] [k' v'] r s [Hk Hv] [Hk' Hv'] Hr Hs E. unfold enc_field in E. cbn [fst snd] in *.
  rewrite !append_assoc in E. apply delimits_string in E as [-> E]; [|done..].
  apply append_inj_l in E. by apply delimits_value in E as [-> ->].
Qed.

(** ** The specification *)

Definition opt {A} (name : string) (f : A -> fvalue) (v : option A) : list (string * fvalue) :=
  match v with Some x => [(name, f x)] | None => [] end.

Definition nonempty_string (s : string) : option string := if String.eqb s EmptyString then None else Some s.
Definition nonempty_maps (l : list (gmap string string)) : option (list (gmap string string)) :=
  match l with [] => None | _ => Some l end.
Definition if_true (b : bool) : option bool := if b then Some true else None.

Definition spec_fields (s : CyndiPipelineSpec) : list (string * fvalue) :=
  opt "appName" FString (Some (AppName s)) ++
  opt "insightsOnly" FBool (Some (InsightsOnly s)) ++
  opt "additionalFilters" FMaps (nonempty_maps (AdditionalFilters s)) ++
  opt "connectCluster" FString (ConnectCluster s) ++
  opt "maxAge" FInt (MaxAge s) ++
  opt "validationThreshold" FInt (ValidationThreshold s) ++
  opt "topic" FString (Topic s) ++
  opt "dbSecret" FString (DbSecret s) ++
  opt "inventoryDbSecret" FString (InventoryDbSecret s) ++
  opt "dbTableIndexSQL" FString (nonempty_string (DBTableIndexSQL s)) ++
  opt "refresh" FString (nonempty_string (Refresh s)) ++
  opt "managedConnectors" FBool (ManagedConnectors s) ++
  opt "connectorPaused" FBool (if_true (ConnectorPaused s)).

Lemma fields_opt {A} name (enc : A -> string) (f : A -> fvalue) (v : option A) :
  (forall x, enc_value (f x) = enc x) ->
  (fun kv => MarshalString kv.1 +s+ ":" +s+ kv.2) <$> omitempty_ptr name enc v = enc_field <$> opt name f v.
Proof. intros H. destruct v as [x|]; [|done]. cbn. unfold enc_field. cbn [fst snd]. by rewrite H. Qed.

Lemma omit_maps name l : omitempty_maps name l = omitempty_ptr name MarshalMaps (nonempty_maps l).
Proof. by destruct l. Qed.

Lemma omit_string name v : omitempty_string name v = omitempty_ptr name MarshalString (nonempty_string v).
Proof. unfold omitempty_string, nonempty_string. by destruct (String.eqb v EmptyString). Qed.

Lemma omit_bool name v : omitempty_bool name v = omitempty_ptr name MarshalBool (if_true v).
Proof. by destruct v. Qed.

Lemma MarshalSpec_fields (s : CyndiPipelineSpec) :
  MarshalSpec s = "{" +s+ Strings.Join (enc_field <$> spec_fields s) "," +s+ "}".
Proof.
  unfold MarshalSpec, MarshalFields, spec_fields. rewrite omit_maps, !omit_string, omit_bool, !fmap_app.
  by rewrite <- !(fields_opt _ MarshalString FString), <- !(fields_opt _ MarshalInt FInt),
    <- !(fields_opt _ MarshalBool FBool), <- (fields_opt _ MarshalMaps FMaps).
Qed.

(** The field with a name *)
Fixpoint get (k : string) (fs : list (string * fvalue)) : option fvalue :=
  match fs with
  | [] => None
  | (k', v) :: fs => if String.eqb k' k then Some v else get k fs
  end.

Lemma get_app k a b : get k (a ++ b) = match get k a with Some v => Some v | None => get k b end.
Proof. induction a as [|[k' v] a IH]; cbn [app get]; [done|]. by destruct (String.eqb k' k). Qed.

Lemma get_opt {A} k name (f : A -> fvalue) v :
  get k (opt name f v) = if String.eqb name k then f <$> v else None.
Proof. destruct v; simpl; [done|]. by destruct (String.eqb name k). Qed.

Lemma or_none {A} (o : option A) : match o with Some v => Some v | None => None end = o.
Proof. by destruct o. Qed.

#[local] Instance FString_inj : Inj eq eq FString. Proof. by intros ?? [=]. Qed.
#[local] Instance FBool_inj : Inj eq eq FBool. Proof. by intros ?? [=]. Qed.
#[local] Instance FInt_inj : Inj eq eq FInt. Proof. by intros ?? [=]. Qed.
#[local] Instance FMaps_inj : Inj eq eq FMaps. Proof. by intros ?? [=]. Qed.

#[local] Instance nonempty_string_inj : Inj eq eq nonempty_string.
Proof.
  intros a b. unfold nonempty_string.
  destruct (String.eqb_spec a EmptyString), (String.eqb_spec b EmptyString); by intros; simplify_eq.
Qed.

#[local] Instance nonempty_maps_inj : Inj eq eq nonempty_maps.
Proof. intros [] []; simpl; congruence. Qed.

#[local] Instance if_true_inj : Inj eq eq if_true.
Proof. intros [] []; simpl; congruence. Qed.

(** The field [k] of equal lists of fields *)
Ltac field_eq E k :=
  let H := fresh "F" in
  pose proof (f_equal (get k) E) as H; unfold spec_fields in H;
  rewrite !get_app, !get_opt in H; cbn [String.eqb Ascii.eqb Bool.eqb] in H;
  rewrite ?or_none in H; repeat apply (inj _) in H.

Lemma spec_fields_inj (s s' : CyndiPipelineSpec) : spec_fields s = spec_fields s' -> s = s'.
Proof.
  intros E. field_eq E "appName". field_eq E "insightsOnly". field_eq E "additionalFilters".
  field_eq E "connectCluster". field_eq E "maxAge". field_eq E "validationThreshold". field_eq E "topic".
  field_eq E "dbSecret". field_eq E "inventoryDbSecret". field_eq E "dbTableIndexSQL".
  field_eq E "refresh". field_eq E "managedConnectors". field_eq E "connectorPaused".
  clear E. destruct s, s'. cbn in *. by subst.
Qed.

Definition utf8_spec (s : CyndiPipelineSpec) : Prop := Forall ok_field (spec_fields s).

Lemma MarshalSpec_inj (s s' : CyndiPipelineSpec) :
  utf8_spec s -> utf8_spec s' -> MarshalSpec s = MarshalSpec s' -> s = s'.
Proof.
  intros H H' E. rewrite !MarshalSpec_fields in E. apply append_inj_l in E.
  apply (delimits_join enc_field ok_field "}") in E as [E _];
    [by apply spec_fields_inj|done|done|apply delimits_field| |done|done].
  by intros [k v] _.
Qed.

Lemma MarshalStringMap_inj (m m' : gmap string string) :
  utf8_map m -> utf8_map m' -> MarshalStringMap m = MarshalStringMap m' -> m = m'.
Proof.
  intros H H' E. apply (f_equal (fun s => s +s+ EmptyString)) in E.
  by apply delimits_map in E as [-> _].
Qed.

(** ** FNV-1a

    A step is a bijection of the state, and of the byte it reads: changing one
    byte of a text always changes the hash. *)

Local Open Scope Z_scope.

(** The inverse of the prime modulo 2^32 *)
Definition prime_inv : Z := 899433627.

Lemma mul_prime_inj x y : 0 <= x < 2 ^ 32 -> 0 <= y < 2 ^ 32 ->
  (x * Fnv.prime32) mod 2 ^ 32 = (y * Fnv.prime32) mod 2 ^ 32 -> x = y.
Proof.
  intros Hx Hy E. apply (f_equal (fun z => (z * prime_inv) mod 2 ^ 32)) in E.
  rewrite !Z.mul_mod_idemp_l, <- !Z.mul_assoc in E by lia.
  change (Fnv.prime32 * prime_inv) with (1 + 3513497 * 2 ^ 32) in E.
  rewrite !Z.mul_add_distr_l, !Z.mul_1_r, !Z.mul_assoc, !Z.mod_add, !Z.mod_small in E by lia. done.
Qed.

Lemma lxor_range a b : 0 <= a < 2 ^ 32 -> 0 <= b < 256 -> 0 <= Z.lxor a b < 2 ^ 32.
Proof.
  intros Ha Hb. assert (L : 0 <= Z.lxor a b) by (apply Z.lxor_nonneg; lia). split; [done|].
  destruct (Z.eq_dec (Z.lxor a b) 0) as [->|N]; [lia|]. apply Z.log2_lt_pow2; [lia|].
  pose proof (Z.log2_lxor a b ltac:(lia) ltac:(lia)).
  assert (Z.log2 a <= 31) by (apply (Z.log2_le_mono a (2 ^ 32 - 1)); lia).
  assert (Z.log2 b <= 7) by (apply (Z.log2_le_mono b 255); lia). lia.
Qed.

Lemma step_inj h h' c : 0 <= h < 2 ^ 32 -> 0 <= h' < 2 ^ 32 -> Fnv.step h c = Fnv.step h' c -> h = h'.
Proof.
  intros H H' E. pose proof (byte_of_range c). apply mul_prime_inj in E; [|by apply lxor_range..].
  apply (f_equal (fun z => Z.lxor z (byte_of c))) in E.
  by rewrite !Z.lxor_assoc, !Z.lxor_nilpotent, !Z.lxor_0_r in E.
Qed.

Lemma step_byte_inj h c d : 0 <= h < 2 ^ 32 -> Fnv.step h c = Fnv.step h d -> c = d.
Proof.
  intros H E. pose proof (byte_of_range c). pose proof (byte_of_range d).
  apply mul_prime_inj in E; [|by apply lxor_range..]. apply (f_equal (Z.lxor h)) in E.
  rewrite <- !Z.lxor_assoc, !Z.lxor_nilpotent, !Z.lxor_0_l in E. by apply byte_of_inj.
Qed.

Lemma write_inj s h h' : 0 <= h < 2 ^ 32 -> 0 <= h' < 2 ^ 32 -> Fnv.write h s = Fnv.write h' s -> h = h'.
Proof.
  revert h h'. induction s as [|c s IH]; intros h h' H H' E; [done|]. cbn in E.
  apply IH in E; [by apply step_inj in E| |]; apply Z.mod_pos_bound; lia.
Qed.

(** Two texts that differ in one byte *)
Definition one_byte (a b : string) : Prop :=
  exists p c d q, a = p +s+ String c q /\ b = p +s+ String d q /\ c <> d.

Lemma one_byte_hash (a b : string) : one_byte a b -> Fnv.Sum32a a <> Fnv.Sum32a b.
Proof.
  intros (p & c & d & q & -> & -> & N) E. apply N. unfold Fnv.Sum32a in E.
  rewrite !Fnv.write_app in E. cbn [Fnv.write] in E.
  apply write_inj in E; [|apply Z.mod_pos_bound; lia..].
  apply step_byte_inj in E; [done|]. apply Fnv.write_range. unfold Fnv.offset32. lia.
Qed.

(** Texts with the same hash which are neither equal nor a byte apart *)
Definition collision (a b : string) : Prop :=
  a <> b /\ ~ one_byte a b /\ Fnv.Sum32a a = Fnv.Sum32a b.

Lemma same_hash (a b : string) : Strconv.FormatInt (Fnv.Sum32a a) = Strconv.FormatInt (Fnv.Sum32a b) ->
  a = b \/ collision a b.
Proof.
  intros E. pose proof (Fnv.Sum32a_range a) as Ra. pose proof (Fnv.Sum32a_range b) as Rb.
  apply Strconv.FormatInt_inj in E;
    [|unfold Int64.in_range, Int64.min_value, Int64.max_value; lia..].
  destruct (decide (a = b)) as [|N]; [by left|right]. split_and!; [done| |done].
  by intros O%one_byte_hash.
Qed.

Lemma utf8_DataSpec (s : CyndiPipelineSpec) : utf8_spec s -> utf8_spec (DataSpec s).
Proof.
  unfold utf8_spec, spec_fields. rewrite !Forall_app. cbn [opt DataSpec Refresh ManagedConnectors ConnectorPaused].
  intuition (try constructor).
Qed.

Lemma utf8_Omit (m : gmap string string) ks : utf8_map m -> utf8_map (Lang.Omit m ks).
Proof. intros H k v. rewrite Lang.lookup_Omit. case_decide; [done|]. apply H. Qed.

Lemma same_Omit (m m' : gmap string string) :
  Lang.Omit m keysIgnoredByRefresh = Lang.Omit m' keysIgnoredByRefresh -> same_data m m'.
Proof.
  intros E k N. apply (f_equal (fun m => m !! k)) in E. rewrite !Lang.lookup_Omit in E.
  by rewrite !decide_False in E by done.
Qed.

Lemma config_hashes inst cm c : BuildCyndiConfig inst cm = inr c ->
  ConfigMapVersion c = ConfigMapHash cm keysIgnoredByRefresh /\
  cfgSpecHash c = match inst with Some p => SpecHash (DataSpec (Spec p)) | None => EmptyString end.
Proof. unfold BuildCyndiConfig. intros B. let_ok B. by injection B as <-. Qed.

Lemma same_version (m m' : gmap string string) :
  utf8_map m -> utf8_map m' ->
  ConfigMapHash m keysIgnoredByRefresh = ConfigMapHash m' keysIgnoredByRefresh ->
  same_data m m' \/
  collision (MarshalStringMap (Lang.Omit m keysIgnoredByRefresh))
            (MarshalStringMap (Lang.Omit m' keysIgnoredByRefresh)).
Proof.
  intros H H'. destruct (decide (m = ∅)) as [->|N], (decide (m' = ∅)) as [->|N']; [by left| | |].
  - rewrite (ConfigMapHash_nonempty m') by done. intros E. by destruct (hash_not_minus1 _ (eq_sym E)).
  - rewrite (ConfigMapHash_nonempty m) by done. intros E. by destruct (hash_not_minus1 _ E).
  - rewrite !ConfigMapHash_nonempty by done. intros [E|]%same_hash; [left|by right].
    apply same_Omit. by apply MarshalStringMap_inj; [apply utf8_Omit..|].
Qed.

End Hashes.

Module HashesProps.
Import Hashes.

(** C36: The versions that the status records determine what was configured:
    if two configurations have the same hash of the specification and the same
    version of the config map, then the specifications agree on everything but
    the operational fields and the config maps on every key that is not
    ignored, or the texts of two of them collide under FNV-1a - and texts that
    differ in a single byte never do. *)
Theorem versions_determine_settings (p p' : CyndiPipeline) (cm cm' : gmap string string)
    (c c' : CyndiConfiguration) :
  utf8_spec (Spec p) -> utf8_spec (Spec p') -> utf8_map cm -> utf8_map cm' ->
  BuildCyndiConfig (Some p) cm = inr c -> BuildCyndiConfig (Some p') cm' = inr c' ->
  cfgSpecHash c = cfgSpecHash c' -> ConfigMapVersion c = ConfigMapVersion c' ->
  (DataSpec (Spec p) = DataSpec (Spec p') \/
   collision (MarshalSpec (DataSpec (Spec p))) (MarshalSpec (DataSpec (Spec p')))) /\
  (same_data cm cm' \/
   collision (MarshalStringMap (Lang.Omit cm keysIgnoredByRefresh))
             (MarshalStringMap (Lang.Omit cm' keysIgnoredByRefresh))).
Proof.
  intros S S' M M' B B'. destruct (config_hashes _ _ _ B) as [-> ->], (config_hashes _ _ _ B') as [-> ->].
  intros E F. split.
  - apply same_hash in E as [E|]; [left|by right]. by apply MarshalSpec_inj; [apply utf8_DataSpec..|].
  - by apply same_version.
Qed.

Ltac ascii_text := repeat first [apply utf8_nil | apply utf8_1; [vm_compute; reflexivity|]].

Definition paused : CyndiPipeline := {|
  Meta := Sample.meta; Status := Sample.zero_status;
  Spec := {| AppName := "test-pipeline-01"; InsightsOnly := false; AdditionalFilters := [];
    ConnectCluster := None; MaxAge := None; ValidationThreshold := None; Topic := None;
    DbSecret := None; InventoryDbSecret := None; DBTableIndexSQL := EmptyString;
    Refresh := "2021-04-01"; ManagedConnectors := Some true; ConnectorPaused := true |} |}.

Definition built_for (p : CyndiPipeline) (cm : gmap string string) : CyndiConfiguration :=
  get_inr config0 (BuildCyndiConfig (Some p) cm).

Lemma versions_determine_settings_witness :
  (DataSpec (Spec Sample.new_pipeline) = DataSpec (Spec paused) \/
   collision (MarshalSpec (DataSpec (Spec Sample.new_pipeline))) (MarshalSpec (DataSpec (Spec paused)))) /\
  (same_data cm1 cm2 \/
   collision (MarshalStringMap (Lang.Omit cm1 keysIgnoredByRefresh))
             (MarshalStringMap (Lang.Omit cm2 keysIgnoredByRefresh))).
Proof.
  apply (versions_determine_settings Sample.new_pipeline paused cm1 cm2
    (built_for Sample.new_pipeline cm1) (built_for paused cm2)); [| | | |vm_compute; reflexivity..].
  1,2: unfold utf8_spec, spec_fields; cbn; repeat (constructor; [split; cbn; ascii_text; done|]);
       constructor.
  all: unfold cm1, cm2; intros k v; rewrite !lookup_insert_Some;
    intros [[<- <-]|[_ [[<- <-]|[_ E]]]]; [..|by rewrite lookup_empty in E];
    split; cbn; ascii_text.
Defined.

End HashesProps.
