(* ===== verification/Effects.v ===== *)
(** * Programs that talk to the cluster and the databases

    Every call of the operator that leaves the process is an effect [eff X],
    whose response [X] the environment chooses: Kubernetes API requests,
    PostgreSQL connections, queries and commands, events, metrics, the clock
    and the process environment. A Go function that makes such calls is a
    [prog]: a finite tree of effects. Go run-time panics are the leaf [Panic].

    [runs p t r]: some behaviour of the environment makes [p] perform the
    calls [t] and end in [r] ([None]: panic). No assumption is made about the
    responses, so a theorem about all runs holds whatever the cluster and the
    database do. [wp] is the corresponding predicate transformer, and [exec]
    runs a program against a handler; its trace is one of the runs. *)

From Stdlib Require Import ZArith Lia String.
From S2P Require Import Prelude GoStd Float GoJson Lang K8sLib Api State Utils Config.
Import Api Config.

(** ** Effects *)

(** What a query result is scanned into: bool, int64, string, *string *)
Inductive scan_ty := ScanBool | ScanInt64 | ScanString | ScanStringPtr.

Definition scan_val (s : scan_ty) : Type :=
  match s with
  | ScanBool => bool
  | ScanInt64 => Z
  | ScanString => string
  | ScanStringPtr => option string
  end.

(** The rows of a query: what Scan returns on each row that Next announces
    (an error or a value), what Err() reports once Next has returned false (an
    error when the result was cut short), and the error Scan returns when
    there is no row. *)
Record rows (T : Type) := Rows {
  rows_data : list (gerror + T);
  rows_err : option gerror;
  rows_no_row : gerror
}.
Arguments Rows {T}.
Arguments rows_data {T}.
Arguments rows_err {T}.
Arguments rows_no_row {T}.

(** Operations on the Prometheus vectors: WithLabelValues alone creates the
    child with the given labels. *)
Inductive gauge := hostCount | inconsistencyRatio | inconsistencyAbsolute | inconsistencyThreshold.
Inductive counter := validationFailedCount | refreshCount.

Inductive metric_op :=
| GaugeInit (g : gauge) (labels : list string)
| GaugeSet (g : gauge) (labels : list string) (v : float64)
| CounterInit (c : counter) (labels : list string)
| CounterInc (c : counter) (labels : list string).

Inductive eff : Type -> Type :=
(* Kubernetes API: client.Client *)
| KGetPipeline (namespace name : string) : eff (result CyndiPipeline)
| KListPipelines : eff (result (list CyndiPipeline))
| KGetConfigMap (namespace name : string) : eff (result (gmap string string))
| KGetSecret (namespace name : string) : eff (result Secret)
| KUpdatePipeline (p : CyndiPipeline) : eff (result CyndiPipeline)
| KUpdateStatus (p : CyndiPipeline) : eff (result CyndiPipeline)
| KGetConnector (name namespace : string) : eff (result gvalue)
| KListConnectors (namespace owner : string) : eff (result (list gvalue))
| KCreateConnector (obj : gvalue) : eff (option gerror)
| KUpdateConnector (obj : gvalue) : eff (option gerror)
| KDeleteConnector (name namespace : string) : eff (option gerror)
(* record.EventRecorder: Event(instance, type, reason, message) and
   Eventf(instance, type, reason, format, args...) *)
| Event (etype reason message : string) : eff unit
| Eventf (etype reason format : string) (args : list string) : eff unit
(* PostgreSQL: a connection is a handle *)
| PgConnect (connStr : string) : eff (result nat)
| PgClose (conn : nat) : eff (option gerror)
| PgQuery (conn : nat) (query : string) (s : scan_ty) : eff (result (rows (scan_val s)))
| PgExec (conn : nat) (query : string) : eff (option gerror)
(* process environment, clock, metrics *)
| Getenv (name : string) : eff string
| NowUnixNano : eff Z
| Metric (m : metric_op) : eff unit.

(** ** Programs *)

Inductive prog (A : Type) : Type :=
| Ret (a : A)
| Panic
| Call {X : Type} (e : eff X) (k : X -> prog A).
Arguments Ret {A} a.
Arguments Panic {A}.
Arguments Call {A X} e k.

Fixpoint pbind {A B} (p : prog A) (f : A -> prog B) : prog B :=
  match p with
  | Ret a => f a
  | Panic => Panic
  | Call e k => Call e (fun x => pbind (k x) f)
  end.

Definition call {X} (e : eff X) : prog X := Call e Ret.

Declare Scope prog_scope.
Delimit Scope prog_scope with prog.
Notation "x <- p ;; k" := (pbind p (fun x => k))
  (at level 100, p at next level, right associativity) : prog_scope.
Notation "' pat <- p ;; k" := (pbind p (fun y => match y with pat => k end))
  (at level 100, pat pattern, p at next level, right associativity) : prog_scope.
Notation "p ;; k" := (pbind p (fun _ => k))
  (at level 100, right associativity) : prog_scope.
(** if x, err := p; err != nil { return err } *)
Notation "'try' x <- p ;; k" :=
  (pbind p (fun y => match y with inl e => Ret (inl e) | inr x => k end))
  (at level 100, x name, p at next level, right associativity) : prog_scope.
Notation "'done_unless' p ;; k" :=
  (pbind p (fun y => match y with Some e => Ret (Some e) | None => k end))
  (at level 100, p at next level, right associativity) : prog_scope.
Open Scope prog_scope.

(** A dereference of a nil pointer panics. *)
Definition deref {A B} (o : option A) (k : A -> prog B) : prog B :=
  match o with Some a => k a | None => Panic end.

(** ** Runs *)

Record obs := Obs { obs_ty : Type; obs_eff : eff obs_ty; obs_res : obs_ty }.
Arguments Obs {obs_ty}.

Inductive runs {A} : prog A -> list obs -> option A -> Prop :=
| runs_ret a : runs (Ret a) [] (Some a)
| runs_panic : runs Panic [] None
| runs_call {X} (e : eff X) k x t r : runs (k x) t r -> runs (Call e k) (Obs e x :: t) r.

(** Follow a run whose trace is given. *)
Ltac run_tac :=
  simpl; repeat (first [apply runs_ret | apply runs_panic | apply runs_call]; simpl).

Fixpoint wp {A} (p : prog A) (Q : list obs -> option A -> Prop) : Prop :=
  match p with
  | Ret a => Q [] (Some a)
  | Panic => Q [] None
  | Call e k => forall x, wp (k x) (fun t r => Q (Obs e x :: t) r)
  end.

(** *** Rules *)

Lemma wp_mono {A} (p : prog A) (Q Q' : list obs -> option A -> Prop) :
  (forall t r, Q t r -> Q' t r) -> wp p Q -> wp p Q'.
Proof.
  revert Q Q'. induction p as [a| |X e k IH]; simpl; intros Q Q' H; [auto..|].
  intros W x. eapply IH; [|apply W]. auto.
Qed.

Lemma wp_sound {A} (p : prog A) (Q : list obs -> option A -> Prop) :
  wp p Q <-> forall t r, runs p t r -> Q t r.
Proof.
  split.
  - intros W t r R. revert Q W.
    induction R as [| |X e k x t r R IH]; simpl; intros Q W; auto.
    apply (IH (fun t r => Q (Obs e x :: t) r)). apply W.
  - revert Q. induction p as [a| |X e k IH]; simpl; intros Q H;
      [apply H; constructor..|].
    intros x. apply IH. intros t r R. apply H. by constructor.
Qed.

Lemma runs_wp {A} (p : prog A) t r (Q : list obs -> option A -> Prop) :
  runs p t r -> wp p Q -> Q t r.
Proof. rewrite wp_sound. auto. Qed.

(** The continuation's postcondition after a prefix [t] of the trace. *)
Definition after {A B} (f : A -> prog B) (Q : list obs -> option B -> Prop)
    (t : list obs) (r : option A) : Prop :=
  match r with
  | Some a => wp (f a) (fun t' r' => Q (t ++ t') r')
  | None => Q t None
  end.

Lemma wp_bind {A B} (p : prog A) (f : A -> prog B) (Q : list obs -> option B -> Prop) :
  wp (pbind p f) Q <-> wp p (after f Q).
Proof.
  revert Q. induction p as [a| |X e k IH]; simpl; intros Q; [done..|].
  split; intros W x; specialize (W x); [apply IH in W | apply IH]; revert W;
    apply wp_mono; intros t [b|]; done.
Qed.

Lemma wp_call {X} (e : eff X) (Q : list obs -> option X -> Prop) :
  wp (call e) Q <-> forall x, Q [Obs e x] (Some x).
Proof. done. Qed.

Lemma wp_and {A} (p : prog A) (Q Q' : list obs -> option A -> Prop) :
  wp p Q -> wp p Q' -> wp p (fun t r => Q t r /\ Q' t r).
Proof. rewrite !wp_sound. naive_solver. Qed.

(** Calls that change something outside the process. *)
Definition writes {X} (e : eff X) : bool :=
  match e with
  | KUpdatePipeline _ | KUpdateStatus _ | KCreateConnector _ | KUpdateConnector _
  | KDeleteConnector _ _ | PgExec _ _ => true
  | _ => false
  end.

Definition read_only (X : Type) (e : eff X) : Prop := writes e = false.

(** ** Effects a program may perform *)

Definition all_obs (P : forall X, eff X -> Prop) (t : list obs) : Prop :=
  Forall (fun o => P _ (obs_eff o)) t.

(** Every call of every run satisfies [P]. *)
Fixpoint only {A} (P : forall X, eff X -> Prop) (p : prog A) : Prop :=
  match p with
  | Ret _ | Panic => True
  | Call e k => P _ e /\ forall x, only P (k x)
  end.

Lemma only_bind {A B} P (p : prog A) (f : A -> prog B) :
  only P p -> (forall a, only P (f a)) -> only P (pbind p f).
Proof. induction p as [a| |X e k IH]; simpl; naive_solver. Qed.

Lemma only_mono {A} (P P' : forall X, eff X -> Prop) (p : prog A) :
  (forall X e, P X e -> P' X e) -> only P p -> only P' p.
Proof. intros H. induction p as [a| |X e k IH]; simpl; naive_solver. Qed.

Lemma only_wp {A} P (p : prog A) : only P p -> wp p (fun t _ => all_obs P t).
Proof.
  unfold all_obs. induction p as [a| |X e k IH]; simpl; [by constructor..|].
  intros [He Hk] x. eapply wp_mono; [|apply IH, Hk]. by constructor.
Qed.

(** Predicates that allow every call that changes nothing. *)
Definition allows_reads (P : forall X, eff X -> Prop) : Prop :=
  forall X (e : eff X), writes e = false -> P X e.

(** ** Execution against a handler *)

Definition handler (W : Type) := forall X, eff X -> W -> X * W.

Fixpoint exec {W A} (h : handler W) (p : prog A) (w : W) : option A * W * list obs :=
  match p with
  | Ret a => (Some a, w, [])
  | Panic => (None, w, [])
  | Call e k =>
      let '(x, w') := h _ e w in
      let '(r, w'', t) := exec h (k x) w' in
      (r, w'', Obs e x :: t)
  end.

Lemma exec_runs {W A} (h : handler W) (p : prog A) (w : W) :
  let '(r, _, t) := exec h p w in runs p t r.
Proof.
  revert w. induction p as [a| |X e k IH]; intros w; simpl; [constructor..|].
  destruct (h X e w) as [x w']. specialize (IH x w').
  destruct (exec h (k x) w') as [[r w''] t]. by constructor.
Qed.

Definition result_of {W A} (h : handler W) (p : prog A) (w : W) : option A := (exec h p w).1.1.
Definition trace_of {W A} (h : handler W) (p : prog A) (w : W) : list obs := (exec h p w).2.

Lemma runs_exec {W A} (h : handler W) (p : prog A) (w : W) (r : option A) :
  result_of h p w = r -> runs p (trace_of h p w) r.
Proof.
  intros <-. pose proof (exec_runs h p w) as R. unfold result_of, trace_of.
  by destruct (exec h p w) as [[r w'] t].
Qed.

(** *** An environment without a state: fixed replies *)

Record replies := {
  rp_pipeline : result CyndiPipeline;
  rp_pipelines : result (list CyndiPipeline);
  rp_configmap : string -> result (gmap string string);
  rp_secret : string -> result Secret;
  rp_update : CyndiPipeline -> result CyndiPipeline;
  rp_status : CyndiPipeline -> result CyndiPipeline;
  rp_connector : string -> result gvalue;
  rp_connectors : result (list gvalue);
  rp_create : gvalue -> option gerror;
  rp_update_connector : gvalue -> option gerror;
  rp_delete : string -> option gerror;
  rp_connect : string -> result nat;
  rp_query : forall s : scan_ty, string -> result (rows (scan_val s));
  rp_exec : string -> option gerror;
  rp_env : string;
  rp_now : Z
}.

Definition reply (R : replies) : handler unit := fun X e w =>
  (match e in eff X return X with
   | KGetPipeline _ _ => rp_pipeline R
   | KListPipelines => rp_pipelines R
   | KGetConfigMap ns _ => rp_configmap R ns
   | KGetSecret _ name => rp_secret R name
   | KUpdatePipeline p => rp_update R p
   | KUpdateStatus p => rp_status R p
   | KGetConnector name _ => rp_connector R name
   | KListConnectors _ _ => rp_connectors R
   | KCreateConnector obj => rp_create R obj
   | KUpdateConnector obj => rp_update_connector R obj
   | KDeleteConnector name _ => rp_delete R name
   | Event _ _ _ | Eventf _ _ _ _ => tt
   | PgConnect s => rp_connect R s
   | PgClose _ => None
   | PgQuery _ q s => rp_query R s q
   | PgExec _ q => rp_exec R q
   | Getenv _ => rp_env R
   | NowUnixNano => rp_now R
   | Metric _ => tt
   end, w).

(** What holds of all runs holds of every execution. *)
Lemma wp_exec {W A} (h : handler W) (p : prog A) (w : W) Q :
  wp p Q -> let '(r, _, t) := exec h p w in Q t r.
Proof.
  rewrite wp_sound. intros H. pose proof (exec_runs h p w).
  destruct (exec h p w) as [[r w'] t]. auto.
Qed.

Lemma exec_bind {W A B} (h : handler W) (p : prog A) (f : A -> prog B) (w : W) :
  exec h (pbind p f) w =
    let '(r, w', t) := exec h p w in
    match r with
    | Some a => let '(r', w'', t') := exec h (f a) w' in (r', w'', t ++ t')
    | None => (None, w', t)
    end.
Proof.
  revert w. induction p as [a| |X e k IH]; intros w; simpl; [|done|].
  - by destruct (exec h (f a) w) as [[? ?] ?].
  - destruct (h X e w) as [x w']. rewrite IH.
    destruct (exec h (k x) w') as [[[a|] w''] t]; [|done].
    by destruct (exec h (f a) w'') as [[? ?] ?].
Qed.

(** ** Projections of a trace *)

(** SQL commands with their outcome *)
Definition exec_of (o : obs) : option (string * option gerror) :=
  match o with
  | Obs e x =>
      match e in eff X return X -> option (string * option gerror) with
      | PgExec _ q => fun r => Some (q, r)
      | _ => fun _ => None
      end x
  end.

(** Connection attempts with their outcome *)
Definition connect_of (o : obs) : option (string * result nat) :=
  match o with
  | Obs e x =>
      match e in eff X return X -> option (string * result nat) with
      | PgConnect s => fun r => Some (s, r)
      | _ => fun _ => None
      end x
  end.

(** Queries whose result is scanned into a *string *)
Definition ptr_query_of (o : obs) : option (string * result (rows (option string))) :=
  match o with
  | Obs e x =>
      match e in eff X return X -> option (string * result (rows (option string))) with
      | PgQuery _ q s =>
          match s return result (rows (scan_val s)) ->
                         option (string * result (rows (option string))) with
          | ScanStringPtr => fun r => Some (q, r)
          | _ => fun _ => None
          end
      | _ => fun _ => None
      end x
  end.

Definition getenv_of (o : obs) : option (string * string) :=
  match o with
  | Obs e x =>
      match e in eff X return X -> option (string * string) with
      | Getenv name => fun r => Some (name, r)
      | _ => fun _ => None
      end x
  end.

(** Deleted connectors with the outcome *)
Definition conn_delete_of (o : obs) : option (string * option gerror) :=
  match o with
  | Obs e x =>
      match e in eff X return X -> option (string * option gerror) with
      | KDeleteConnector name _ => fun r => Some (name, r)
      | _ => fun _ => None
      end x
  end.

Definition conn_create_of (o : obs) : option (gvalue * option gerror) :=
  match o with
  | Obs e x =>
      match e in eff X return X -> option (gvalue * option gerror) with
      | KCreateConnector obj => fun r => Some (obj, r)
      | _ => fun _ => None
      end x
  end.

Definition conn_update_of (o : obs) : option (gvalue * option gerror) :=
  match o with
  | Obs e x =>
      match e in eff X return X -> option (gvalue * option gerror) with
      | KUpdateConnector obj => fun r => Some (obj, r)
      | _ => fun _ => None
      end x
  end.

Definition pipeline_update_of (o : obs) : option (CyndiPipeline * result CyndiPipeline) :=
  match o with
  | Obs e x =>
      match e in eff X return X -> option (CyndiPipeline * result CyndiPipeline) with
      | KUpdatePipeline p => fun r => Some (p, r)
      | _ => fun _ => None
      end x
  end.

Definition status_update_of (o : obs) : option (CyndiPipeline * result CyndiPipeline) :=
  match o with
  | Obs e x =>
      match e in eff X return X -> option (CyndiPipeline * result CyndiPipeline) with
      | KUpdateStatus p => fun r => Some (p, r)
      | _ => fun _ => None
      end x
  end.

Definition execs (t : list obs) := omap exec_of t.
Definition connects (t : list obs) := omap connect_of t.
Definition conn_deletes (t : list obs) := omap conn_delete_of t.
Definition conn_creates (t : list obs) := omap conn_create_of t.
Definition conn_updates (t : list obs) := omap conn_update_of t.
Definition pipeline_updates (t : list obs) := omap pipeline_update_of t.
Definition status_updates (t : list obs) := omap status_update_of t.

Create Rewrite HintDb cyndi_trace.
Lemma execs_app t t' : execs (t ++ t') = execs t ++ execs t'.
Proof. apply omap_app. Qed.
Lemma connects_app t t' : connects (t ++ t') = connects t ++ connects t'.
Proof. apply omap_app. Qed.
Lemma conn_deletes_app t t' : conn_deletes (t ++ t') = conn_deletes t ++ conn_deletes t'.
Proof. apply omap_app. Qed.
Lemma conn_creates_app t t' : conn_creates (t ++ t') = conn_creates t ++ conn_creates t'.
Proof. apply omap_app. Qed.
Lemma conn_updates_app t t' : conn_updates (t ++ t') = conn_updates t ++ conn_updates t'.
Proof. apply omap_app. Qed.
Lemma pipeline_updates_app t t' :
  pipeline_updates (t ++ t') = pipeline_updates t ++ pipeline_updates t'.
Proof. apply omap_app. Qed.
Lemma status_updates_app t t' :
  status_updates (t ++ t') = status_updates t ++ status_updates t'.
Proof. apply omap_app. Qed.
#[export] Hint Rewrite execs_app connects_app conn_deletes_app conn_creates_app
  conn_updates_app pipeline_updates_app status_updates_app : cyndi_trace.

(** A program that does not write leaves no write in its trace. *)
Lemma read_only_writes (t : list obs) :
  all_obs read_only t ->
  execs t = [] /\ conn_deletes t = [] /\ conn_creates t = [] /\ conn_updates t = [] /\
  pipeline_updates t = [] /\ status_updates t = [].
Proof.
  unfold all_obs, execs, conn_deletes, conn_creates, conn_updates, pipeline_updates,
    status_updates.
  induction 1 as [|[X e x] t He Ht IH]; [done|]. simpl in He.
  destruct e; try done; simpl; naive_solver.
Qed.

(** ** The log of the writes of a trace, in order *)

Definition wlog (t : list obs) : list obs := List.filter (fun o => writes (obs_eff o)) t.

Lemma elem_of_wlog o t : o ∈ wlog t -> o ∈ t.
Proof.
  unfold wlog. rewrite !list_elem_of_In, List.filter_In. by intros [? _].
Qed.

Lemma wlog_app t t' : wlog (t ++ t') = wlog t ++ wlog t'.
Proof. apply List.filter_app. Qed.
#[export] Hint Rewrite wlog_app : cyndi_trace.

Lemma all_obs_app P t t' : all_obs P (t ++ t') <-> all_obs P t /\ all_obs P t'.
Proof. apply Forall_app. Qed.

Lemma read_only_wlog t : all_obs read_only t -> wlog t = [].
Proof.
  unfold all_obs. induction 1 as [|o t Ho Ht IH]; [done|].
  simpl. unfold read_only in Ho. by rewrite Ho.
Qed.

Lemma wlog_nil t : wlog t = [] ->
  execs t = [] /\ conn_deletes t = [] /\ conn_creates t = [] /\ conn_updates t = [] /\
  pipeline_updates t = [] /\ status_updates t = [].
Proof.
  intros E. apply read_only_writes. unfold all_obs. induction t as [|o t IH]; [constructor|].
  simpl in E. destruct (writes (obs_eff o)) eqn:W; [done|]. constructor; auto.
Qed.

(** The projections only look at the writes. *)
Lemma omap_wlog {A} (f : obs -> option A) (t : list obs) :
  (forall o, writes (obs_eff o) = false -> f o = None) -> omap f (wlog t) = omap f t.
Proof.
  intros H. induction t as [|o t IH]; [done|].
  unfold wlog in *. csimpl. destruct (writes (obs_eff o)) eqn:W; csimpl.
  - by rewrite IH.
  - by rewrite (H _ W).
Qed.

Lemma projections_wlog t :
  execs (wlog t) = execs t /\ conn_deletes (wlog t) = conn_deletes t /\
  conn_creates (wlog t) = conn_creates t /\ conn_updates (wlog t) = conn_updates t /\
  pipeline_updates (wlog t) = pipeline_updates t /\ status_updates (wlog t) = status_updates t.
Proof. split_and!; apply omap_wlog; intros [X e x]; by destruct e. Qed.

(** The writes of the projections come from the log. *)
Lemma execs_wlog t : execs t = execs (wlog t).
Proof. symmetry. apply projections_wlog. Qed.
Lemma status_wlog t : status_updates t = status_updates (wlog t).
Proof. symmetry. apply projections_wlog. Qed.
Lemma pipeline_wlog t : pipeline_updates t = pipeline_updates (wlog t).
Proof. symmetry. apply projections_wlog. Qed.

(** *** Rules with the facts about the effects at hand *)

(** A program that only reads leaves nothing in the log of writes. *)
Lemma reader_wlog {A} (p : prog A) t r : only read_only p -> runs p t r -> wlog t = [].
Proof. intros O R. apply read_only_wlog. exact (runs_wp _ _ _ _ R (only_wp _ _ O)). Qed.

Lemma reader_status {A} (p : prog A) t r :
  only read_only p -> runs p t r -> status_updates t = [].
Proof. intros O R. by rewrite status_wlog, (reader_wlog p t r). Qed.

Lemma wp_only {A} P (p : prog A) (Q : list obs -> option A -> Prop) :
  only P p -> (forall t r, runs p t r -> all_obs P t -> Q t r) -> wp p Q.
Proof.
  intros O H. apply wp_sound. intros t r R. apply H; [done|].
  exact (runs_wp _ _ _ _ R (only_wp _ _ O)).
Qed.

(** A program that cannot panic. *)
Fixpoint safe {A} (p : prog A) : Prop :=
  match p with
  | Ret _ => True
  | Panic => False
  | Call e k => forall x, safe (k x)
  end.

Lemma safe_bind {A B} (p : prog A) (f : A -> prog B) :
  safe p -> (forall a, safe (f a)) -> safe (pbind p f).
Proof. induction p as [a| |X e k IH]; simpl; naive_solver. Qed.

Lemma safe_runs {A} (p : prog A) t r : safe p -> runs p t r -> r <> None.
Proof.
  intros S R. revert S. induction R as [| |X e k x t r R IH]; simpl; [done|done|].
  intros S. by apply IH.
Qed.

(** A read-only program that cannot panic: nothing is logged, a value comes out. *)
Lemma wp_reader {A} (p : prog A) (Q : list obs -> option A -> Prop) :
  only read_only p -> safe p ->
  (forall t a, runs p t (Some a) -> wlog t = [] -> Q t (Some a)) -> wp p Q.
Proof.
  intros O S H. apply (wp_only _ _ _ O). intros t [a|] R F.
  - apply H; [done|]. by apply read_only_wlog.
  - by apply (safe_runs _ _ _ S) in R.
Qed.

Create HintDb cyndi_prog discriminated.

(** Every value returned satisfies [R]. *)
Fixpoint returns {A} (R : A -> Prop) (p : prog A) : Prop :=
  match p with
  | Ret a => R a
  | Panic => True
  | Call e k => forall x, returns R (k x)
  end.

Lemma returns_bind {A B} (R : B -> Prop) (p : prog A) (f : A -> prog B) :
  (forall a, returns R (f a)) -> returns R (pbind p f).
Proof. intros H. induction p as [a| |X e k IH]; simpl; auto. Qed.

Lemma runs_returns {A} (R : A -> Prop) (p : prog A) t a :
  returns R p -> runs p t (Some a) -> R a.
Proof.
  intros H Rn. refine (runs_wp p t (Some a)
    (fun _ r => match r with Some a => R a | None => True end) Rn _).
  clear Rn. induction p as [b| |X e k IH]; simpl; [done|done|]. intros x. by apply IH.
Qed.

(** Go through the effects of a program that is explicit enough: close goals
    about [only] and [safe]. *)
Ltac prog_auto :=
  simpl;
  repeat match goal with
  | |- only _ (pbind _ _) => apply only_bind; [|intros ?]
  | |- safe (pbind _ _) => apply safe_bind; [|intros ?]
  | |- _ /\ _ => split
  | |- True => exact I
  | |- read_only _ _ => reflexivity
  | |- forall _, _ => intros ?; simpl
  | |- context [match ?x with _ => _ end] => destruct x; simpl
  | _ => progress (auto with cyndi_prog)
  end.


(** *** Taking a run apart along the program *)

Lemma runs_ret_inv {A} (a : A) t r : runs (Ret a) t r -> t = [] /\ r = Some a.
Proof. intros R. exact (runs_wp _ _ _ (fun t r => t = [] /\ r = Some a) R (conj eq_refl eq_refl)). Qed.

Lemma runs_panic_inv {A} t (r : option A) : runs Panic t r -> t = [] /\ r = None.
Proof. intros R. exact (runs_wp _ _ _ (fun t r => t = [] /\ r = None) R (conj eq_refl eq_refl)). Qed.

Lemma runs_call_inv {X} (e : eff X) t r :
  runs (call e) t r -> exists x, t = [Obs e x] /\ r = Some x.
Proof.
  intros R. apply (runs_wp _ _ _ (fun t r => exists x, t = [Obs e x] /\ r = Some x) R).
  intros x. simpl. eauto.
Qed.

Lemma runs_bind_intro {A B} (p : prog A) (f : A -> prog B) t1 t2 a r :
  runs p t1 (Some a) -> runs (f a) t2 r -> runs (pbind p f) (t1 ++ t2) r.
Proof.
  intros R. remember (Some a) as o eqn:E. revert E.
  induction R as [a'| |X e k x t r' R IH]; simpl; intros E R2; [congruence|done|].
  constructor. auto.
Qed.

Lemma runs_bind_inv {A B} (p : prog A) (f : A -> prog B) t r :
  runs (pbind p f) t r ->
  (exists t1 t2 a, t = t1 ++ t2 /\ runs p t1 (Some a) /\ runs (f a) t2 r) \/
  (runs p t None /\ r = None).
Proof.
  intros R. refine (runs_wp _ _ _ (fun t r =>
    (exists t1 t2 a, t = t1 ++ t2 /\ runs p t1 (Some a) /\ runs (f a) t2 r) \/
    (runs p t None /\ r = None)) R _).
  apply wp_bind. apply wp_sound. intros t1 [a|] R1; simpl.
  - apply wp_sound. intros t2 r2 R2. left. eauto 10.
  - by right.
Qed.

(** The part [p] of a run with the calls [t] returned [a]. *)
Definition answered {A} (t : list obs) (p : prog A) (a : A) : Prop :=
  exists t1 t2 t3, t = t1 ++ t2 ++ t3 /\ runs p t2 (Some a).

Lemma answered_here {A} t1 t2 t3 (p : prog A) a : runs p t2 (Some a) -> answered (t1 ++ t2 ++ t3) p a.
Proof. intros R. by exists t1, t2, t3. Qed.

Lemma answered_within {A} t0 t t' (p : prog A) a : answered t p a -> answered (t0 ++ t ++ t') p a.
Proof.
  intros (t1 & t2 & t3 & -> & R). exists (t0 ++ t1), t2, (t3 ++ t'). split; [|done].
  by rewrite <- !app_assoc.
Qed.

Lemma answered_right {A} t t' (p : prog A) a : answered t' p a -> answered (t ++ t') p a.
Proof. intros H. rewrite <- (app_nil_r t'). by apply answered_within. Qed.

Lemma answered_left {A} t t' (p : prog A) a : answered t p a -> answered (t ++ t') p a.
Proof. apply (answered_within []). Qed.

Lemma answered_self {A} t (p : prog A) a : runs p t (Some a) -> answered t p a.
Proof. intros R. exists [], t, []. by rewrite app_nil_r. Qed.

Lemma answered_call {X} (e : eff X) t x : Obs e x ∈ t <-> answered t (call e) x.
Proof.
  split.
  - intros (t1 & t2 & ->)%list_elem_of_split. exists t1, [Obs e x], t2. split; [done|].
    apply runs_call, runs_ret.
  - intros (t1 & t2 & t3 & -> & R). apply runs_call_inv in R as (y & -> & [= <-]).
    apply elem_of_app. right. by left.
Qed.

(** [only] after a program whose result is known. *)
Lemma only_bind_post {A B} P (p : prog A) (f : A -> prog B) :
  only P p -> (forall t a, runs p t (Some a) -> only P (f a)) -> only P (pbind p f).
Proof.
  induction p as [a| |X e k IH]; simpl; intros O H; [|done|].
  - apply (H []). constructor.
  - destruct O as [Oe Ok]. split; [done|]. intros x. apply IH; [done|].
    intros t a R. apply (H (Obs e x :: t)). by constructor.
Qed.

Lemma only_reads {A} P (p : prog A) : allows_reads P -> only read_only p -> only P p.
Proof. intros H. by apply only_mono. Qed.

(** A run of a program that only makes calls, step by step *)
Lemma runs_Call_inv {X A} (e : eff X) (k : X -> prog A) t r :
  runs (Call e k) t r -> exists x t', t = Obs e x :: t' /\ runs (k x) t' r.
Proof.
  intros R. refine (runs_wp _ _ _ (fun t r => exists x t', t = Obs e x :: t' /\ runs (k x) t' r) R _).
  intros x. apply wp_sound. eauto.
Qed.

Ltac inversion_runs H :=
  cbn in H;
  repeat (apply runs_Call_inv in H as (? & ? & -> & H); cbn in H);
  first [apply runs_ret_inv in H as [-> ?] | apply runs_panic_inv in H as [-> ?]]; simplify_eq.

(** One step down a run: [step H] where [H : runs p t r] *)
Ltac run_inv H :=
  match type of H with
  | runs (pbind _ _) _ _ =>
      let t1 := fresh "t" in let t2 := fresh "t" in let a := fresh "a" in
      let R1 := fresh "R" in let R2 := fresh "R" in
      apply runs_bind_inv in H as [(t1 & t2 & a & -> & R1 & R2)|[R1 ->]]
  | runs (Ret _) _ _ => apply runs_ret_inv in H as [-> ?]
  | runs Panic _ _ => apply runs_panic_inv in H as [-> ?]
  | runs (call _) _ _ => apply runs_call_inv in H as (? & -> & ?)
  end.
