(* ===== verification/Database.v ===== *)
(** * controllers/database: the inventory and application databases

    [BaseDatabase] is database.go (connections, queries, host counts and
    identifiers) and [AppDatabase] is app_database.go (tables, the view
    inventory.hosts, password rotation). A method that mutates its receiver
    returns the new receiver. *)

From Stdlib Require Import ZArith Lia String.
From S2P Require Import Prelude GoStd GoJson Lang K8sLib Api State Utils Config Effects.
Import Api Config.

Module Database.

(** ** database.go *)

Record BaseDatabase := {
  Config : DBParams;
  connection : option nat
}.

Definition NewBaseDatabase (config : DBParams) : BaseDatabase :=
  {| Config := config; connection := None |}.

(** The connection string built by GetConnection *)
Definition connection_string (params : DBParams) : string :=
  let connStr :=
    "postgresql://" +s+ User params +s+ ":" +s+ Password params +s+ "@" +s+ Host params +s+
    ":" +s+ Port params +s+ "/" +s+ DBName params +s+ "?sslmode=" +s+ SSLMode params in
  if negb (String.eqb (SSLRootCert params) EmptyString) &&
     negb (String.eqb (SSLRootCert params) "none")
  then connStr +s+ "&sslrootcert=" +s+ SSLRootCert params
  else connStr.

Definition GetConnection (params : DBParams) : prog (result nat) :=
  call (PgConnect (connection_string params)).

Definition Connect (db : BaseDatabase) : prog (BaseDatabase * option gerror) :=
  r <- GetConnection (Config db) ;;
  match r with
  | inl err =>
      Ret ({| Config := Config db; connection := None |},
           Some (Errorf ("Error connecting to " +s+ Host (Config db) +s+ ":" +s+
             Port (Config db) +s+ "/" +s+ DBName (Config db) +s+ " as " +s+
             User (Config db) +s+ " : " +s+ Error err)))
  | inr conn => Ret ({| Config := Config db; connection := Some conn |}, None)
  end.

Definition Close (db : BaseDatabase) : prog (option gerror) :=
  match connection db with
  | Some conn => call (PgClose conn)
  | None => Ret None
  end.

Definition no_connection : gerror :=
  Errorf "cannot run query because there is no database connection".

Definition query_error (query : string) (err : gerror) : gerror :=
  Errorf_wrap ("Error executing query " +s+ query +s+ ", ") err.

(** RunQuery; the destination type of the later Scan is known at each call. *)
Definition RunQuery (db : BaseDatabase) (query : string) (s : scan_ty)
  : prog (result (rows (scan_val s))) :=
  match connection db with
  | None => Ret (inl no_connection)
  | Some conn =>
      r <- call (PgQuery conn query s) ;;
      match r with
      | inl err => Ret (inl (query_error query err))
      | inr rs => Ret (inr rs)
      end
  end.

Definition Exec (db : BaseDatabase) (query : string) : prog (option gerror) :=
  match connection db with
  | None => Ret (Some no_connection)
  | Some conn =>
      r <- call (PgExec conn query) ;;
      match r with
      | Some err => Ret (Some (query_error query err))
      | None => Ret None
      end
  end.

(** *** Host queries *)

Abbreviation filters := (list (gmap string string)).

Fixpoint join_loop (additionalFilters : filters) (joins : list string) (seen : gset string)
  : list string :=
  match additionalFilters with
  | [] => joins
  | filter :: rest =>
      match filter !! "join" with
      | Some join =>
          if negb (String.eqb join EmptyString) then
            if decide (join ∈ seen) then join_loop rest joins seen
            else join_loop rest (joins ++ [join]) ({[ join ]} ∪ seen)
          else join_loop rest joins seen
      | None => join_loop rest joins seen
      end
  end.

Definition getJoinClause (additionalFilters : filters) : string :=
  Strings.Join (join_loop additionalFilters [] ∅) " ".

(** for i, filter := range additionalFilters *)
Fixpoint where_loop (additionalFilters : filters) (i : nat) (where_ : list string)
  : list string :=
  match additionalFilters with
  | [] => where_
  | filter :: rest =>
      where_loop rest (S i)
        (<[ i := "(" +s+ default EmptyString (filter !! "where") +s+ ")" ]> where_)
  end.

Definition insights_condition : string :=
  "(insights_id != '00000000-0000-0000-0000-000000000000'::uuid)".

Definition getWhereClause (insightsOnly : bool) (additionalFilters : filters) : string :=
  let length := if insightsOnly then List.length additionalFilters + 1
                else List.length additionalFilters in
  let where_ := replicate length EmptyString in
  let where_ := where_loop additionalFilters 0 where_ in
  let where_ := if insightsOnly then <[ length - 1 := insights_condition ]> where_ else where_ in
  let query := Strings.Join where_ " AND " in
  if Nat.ltb 0 (String.length query) then "WHERE " +s+ query else EmptyString.

Fixpoint hasJoinClause (additionalFilters : filters) : bool :=
  match additionalFilters with
  | [] => false
  | filter :: rest =>
      match filter !! "join" with
      | Some join => if negb (String.eqb join EmptyString) then true else hasJoinClause rest
      | None => hasJoinClause rest
      end
  end.

Definition hostCountQuery (table : string) (insightsOnly : bool) (additionalFilters : filters)
  : string :=
  if hasJoinClause additionalFilters then
    "SELECT count(*) FROM " +s+ table +s+ " h " +s+ getJoinClause additionalFilters +s+ " " +s+
    getWhereClause insightsOnly additionalFilters
  else
    "SELECT count(*) FROM " +s+ table +s+ " " +s+ getWhereClause insightsOnly additionalFilters.

Fixpoint count_loop (data : list (gerror + Z)) (response : Z) : result Z :=
  match data with
  | [] => inr response
  | inl err :: _ => inl err
  | inr count :: rest => count_loop rest count
  end.

Definition CountHosts (db : BaseDatabase) (table : string) (insightsOnly : bool)
    (additionalFilters : filters) : prog (result Z) :=
  try rs <- RunQuery db (hostCountQuery table insightsOnly additionalFilters) ScanInt64 ;;
  Ret (count_loop (rows_data rs) 0).

Definition hostIdQuery (table : string) (insightsOnly : bool) (additionalFilters : filters)
  : string :=
  if hasJoinClause additionalFilters then
    "SELECT h.id FROM " +s+ table +s+ " h " +s+ getJoinClause additionalFilters +s+ " " +s+
    getWhereClause insightsOnly additionalFilters +s+ " ORDER BY h.id"
  else
    "SELECT id FROM " +s+ table +s+ " " +s+ getWhereClause insightsOnly additionalFilters +s+
    " ORDER BY id".

(** for rows.Next() { rows.Scan(&x); xs = append(xs, x) } *)
Fixpoint scan_loop (data : list (gerror + string)) (acc : list string) : result (list string) :=
  match data with
  | [] => inr acc
  | inl err :: _ => inl err
  | inr x :: rest => scan_loop rest (acc ++ [x])
  end.

Definition GetHostIds (db : BaseDatabase) (table : string) (insightsOnly : bool)
    (additionalFilters : filters) : prog (result (list string)) :=
  try rs <- RunQuery db (hostIdQuery table insightsOnly additionalFilters) ScanString ;;
  Ret (scan_loop (rows_data rs) []).

(** ** app_database.go *)

Definition cullingStaleWarningOffset : string := "7".
Definition cullingCulledOffset : string := "14".

Definition viewTemplate (tableName : string) : string :=
  "CREATE OR REPLACE VIEW inventory.hosts AS SELECT
	id,
	account,
	display_name,
	created,
	updated,
	stale_timestamp,
	stale_timestamp + INTERVAL '1' DAY * '"
  +s+ cullingStaleWarningOffset +s+ "' AS stale_warning_timestamp,
	stale_timestamp + INTERVAL '1' DAY * '"
  +s+ cullingCulledOffset +s+ "' AS culled_timestamp,
	tags,
	system_profile,
	insights_id,
	reporter,
	per_reporter_staleness,
	org_id,
	groups,
	last_check_in
FROM inventory." +s+ tableName.

Definition initialPassword : string := "havefun".

Definition NewAppDatabase (config : DBParams) : BaseDatabase := NewBaseDatabase config.

Definition with_Password (db : BaseDatabase) (pw : string) : BaseDatabase :=
  {| Config := {| DBName := DBName (Config db); Host := Host (Config db);
                  Port := Port (Config db); User := User (Config db); Password := pw;
                  SSLMode := SSLMode (Config db); SSLRootCert := SSLRootCert (Config db) |};
     connection := connection db |}.

Definition rotatePassword (db : BaseDatabase) : prog (BaseDatabase * option gerror) :=
  let newPassword := Password (Config db) in
  let db := with_Password db initialPassword in
  ' (db, err) <- Connect db ;;
  match err with
  | Some e => Ret (db, Some e)
  | None =>
      err <- Exec db ("ALTER ROLE " +s+ User (Config db) +s+ " WITH PASSWORD '" +s+
                      newPassword +s+ "'") ;;
      Close db ;;
      Ret (db, err)
  end.

(** AppDatabase.Connect *)
Definition AppConnect (db : BaseDatabase) : prog (BaseDatabase * option gerror) :=
  ' (db, err) <- Connect db ;;
  match err with
  | None => Ret (db, None)
  | Some e =>
      if Strings.Contains (Error e) "28P01" then
        ' (db, err) <- rotatePassword db ;;
        match err with
        | Some e => Ret (db, Some e)
        | None => Connect db
        end
      else Ret (db, Some e)
  end.

Definition table_exists_query (tableName : string) : string :=
  "SELECT exists (SELECT FROM information_schema.tables WHERE table_schema = 'inventory' AND table_name = '"
  +s+ tableName +s+ "')".

Definition CheckIfTableExists (db : BaseDatabase) (tableName : string) : prog (result bool) :=
  if String.eqb tableName EmptyString then Ret (inr false)
  else
    try rs <- RunQuery db (table_exists_query tableName) ScanBool ;;
    match rows_data rs with
    | [] => Ret (inl (rows_no_row rs))
    | inl err :: _ => Ret (inl err)
    | inr exists_ :: _ => Ret (inr exists_)
    end.

Definition drop_query (tableName : string) : string :=
  "DROP table " +s+ Utils.AppFullTableName tableName +s+ " CASCADE".

Definition DeleteTable (db : BaseDatabase) (tableName : string) : prog (option gerror) :=
  r <- CheckIfTableExists db tableName ;;
  match r with
  | inl err => Ret (Some err)
  | inr tableExists =>
      if negb (Bool.eqb tableExists true) then Ret None
      else Exec db (drop_query tableName)
  end.

Definition grant_query : string := "GRANT SELECT ON inventory.hosts TO cyndi_reader".

Definition UpdateView (db : BaseDatabase) (tableName : string) : prog (option gerror) :=
  done_unless Exec db (viewTemplate tableName) ;;
  done_unless Exec db grant_query ;;
  Ret None.

Definition current_table_query : string :=
  "SELECT table_name FROM information_schema.view_table_usage WHERE view_schema = 'inventory' AND view_name = 'hosts' LIMIT 1;".

Definition GetCurrentTable (db : BaseDatabase) : prog (result (option string)) :=
  try rs <- RunQuery db current_table_query ScanStringPtr ;;
  match rows_data rs with
  | [] => Ret (inr None)
  | inl err :: _ => Ret (inl err)
  | inr table :: _ => Ret (inr table)
  end.

Definition cyndi_tables_query : string :=
  "SELECT table_name FROM information_schema.tables WHERE table_schema = 'inventory' AND table_type = 'BASE TABLE' AND table_name LIKE 'hosts_%' ORDER BY table_name".

Definition GetCyndiTables (db : BaseDatabase) : prog (result (list string)) :=
  try rs <- RunQuery db cyndi_tables_query ScanString ;;
  Ret (scan_loop (rows_data rs) []).

Section Templates.
Context {TE : TemplateEngine}.

Definition CreateTable (db : BaseDatabase) (tableName script : string) : prog (option gerror) :=
  let m := GMap [("TableName", GString tableName)] in
  match template_Parse script with
  | inl err => Ret (Some err)
  | inr t =>
      match template_Execute t m with
      | inl err => Ret (Some err)
      | inr dbSchemaParsed => Exec db dbSchemaParsed
      end
  end.
End Templates.

(** ** Reference definitions of the query fragments *)

(** The JOIN clauses in the order of their first occurrence. *)
Definition joins_of (fs : filters) : list string :=
  omap (fun f => match f !! "join" with
                 | Some j => if String.eqb j EmptyString then None else Some j
                 | None => None
                 end) fs.

(** Keep the first occurrence of each element. *)
Fixpoint first_occurrences (l : list string) (seen : gset string) : list string :=
  match l with
  | [] => []
  | x :: l' => if decide (x ∈ seen) then first_occurrences l' seen
               else x :: first_occurrences l' ({[ x ]} ∪ seen)
  end.

Definition conditions_of (insightsOnly : bool) (fs : filters) : list string :=
  ((fun f => "(" +s+ default EmptyString (f !! "where") +s+ ")") <$> fs) ++
  (if insightsOnly then [insights_condition] else []).

(** ** Lemmas *)

Lemma join_loop_spec (fs : filters) (joins : list string) (seen : gset string) :
  join_loop fs joins seen = joins ++ first_occurrences (joins_of fs) seen.
Proof.
  revert joins seen. induction fs as [|f fs IH]; intros joins seen;
    [by rewrite app_nil_r|].
  cbn [join_loop joins_of omap list_omap]. fold (joins_of fs).
  destruct (f !! "join") as [j|]; [|by apply IH].
  destruct (String.eqb j EmptyString); simpl; [by apply IH|].
  case_decide; rewrite IH; [done|]. by rewrite <- app_assoc.
Qed.

Lemma elem_of_first_occurrences l seen x :
  x ∈ first_occurrences l seen <-> x ∈ l /\ x ∉ seen.
Proof.
  revert seen; induction l as [|y l IH]; intros seen; simpl; [set_solver|].
  case_decide; rewrite ?elem_of_cons, IH; [set_solver|].
  destruct (decide (x = y)); set_solver.
Qed.

Lemma NoDup_first_occurrences l seen : NoDup (first_occurrences l seen).
Proof.
  revert seen; induction l as [|y l IH]; intros seen; simpl; [constructor|].
  case_decide; [done|]. constructor; [rewrite elem_of_first_occurrences; set_solver|done].
Qed.

Lemma hasJoinClause_spec fs : hasJoinClause fs = true <-> joins_of fs <> [].
Proof.
  induction fs as [|f fs IH]; [done|].
  cbn [hasJoinClause joins_of omap list_omap]. fold (joins_of fs).
  destruct (f !! "join") as [j|]; [|done].
  by destruct (String.eqb j EmptyString).
Qed.

Lemma elem_of_joins_of fs j :
  j ∈ joins_of fs <-> exists f, f ∈ fs /\ f !! "join" = Some j /\ j <> EmptyString.
Proof.
  unfold joins_of. rewrite list_elem_of_omap. split.
  - intros (f & Hf & E). exists f. destruct (f !! "join") as [k|]; [|done].
    destruct (String.eqb_spec k EmptyString); naive_solver.
  - intros (f & Hf & E & N). exists f. split; [done|]. rewrite E.
    by destruct (String.eqb_spec j EmptyString).
Qed.

Lemma where_loop_length fs i w : length (where_loop fs i w) = length w.
Proof. revert i w; induction fs as [|f fs IH]; intros i w; simpl; [done|]. by rewrite IH, length_insert. Qed.

Lemma where_loop_spec fs i w :
  i + length fs <= length w ->
  where_loop fs i w =
    take i w ++ ((fun f => "(" +s+ default EmptyString (f !! "where") +s+ ")") <$> fs) ++
    drop (i + length fs) w.
Proof.
  revert i w; induction fs as [|f fs IH]; intros i w L; simpl in *.
  { rewrite Nat.add_0_r. by rewrite take_drop. }
  rewrite IH by (rewrite length_insert; lia).
  erewrite (take_S_r _ i); [|apply list_lookup_insert_eq; lia].
  rewrite take_insert_ge, drop_insert_lt by lia.
  rewrite <- app_assoc. simpl. do 4 f_equal. lia.
Qed.

Lemma concat_cons_nonempty sep x l :
  x <> EmptyString -> String.concat sep (x :: l) <> EmptyString.
Proof. destruct x; [done|]. by destruct l. Qed.

(** The conditions the array of the Go code ends up holding. *)
Lemma getWhereClause_conditions io fs :
  getWhereClause io fs =
    match conditions_of io fs with
    | [] => EmptyString
    | cs => "WHERE " +s+ Strings.Join cs " AND "
    end.
Proof.
  unfold getWhereClause, conditions_of.
  assert (E : (if io then
      <[ (if io then length fs + 1 else length fs) - 1 := insights_condition ]>
        (where_loop fs 0 (replicate (if io then length fs + 1 else length fs) EmptyString))
      else where_loop fs 0 (replicate (if io then length fs + 1 else length fs) EmptyString))
    = conditions_of io fs).
  { unfold conditions_of. destruct io; rewrite where_loop_spec by (rewrite length_replicate; lia).
    - rewrite take_0, drop_replicate, app_nil_l.
      replace (length fs + 1 - (0 + length fs)) with 1 by lia.
      rewrite insert_app_r_alt by (rewrite length_fmap; lia). rewrite length_fmap.
      by replace (length fs + 1 - 1 - length fs) with 0 by lia.
    - rewrite take_0, drop_replicate. by replace (length fs - (0 + length fs)) with 0 by lia. }
  rewrite E. unfold conditions_of in *.
  destruct (_ ++ _) as [|c cs] eqn:C; [done|].
  assert (N : c <> EmptyString).
  { destruct fs, io; simpl in C; try done; by injection C as <- <-. }
  unfold Strings.Join. pose proof (concat_cons_nonempty " AND " c cs N).
  by destruct (String.concat " AND " (c :: cs)).
Qed.

(** ** What the methods call and return *)

Section Runs.
Implicit Types (db : BaseDatabase).

Lemma RunQuery_wp db q s Q :
  (connection db = None -> Q [] (Some (inl no_connection))) ->
  (forall c x, connection db = Some c ->
     Q [Obs (PgQuery c q s) x]
       (Some (match x with inl e => inl (query_error q e) | inr rs => inr rs end))) ->
  wp (RunQuery db q s) Q.
Proof.
  unfold RunQuery. destruct (connection db) as [c|]; simpl; [|auto].
  intros _ H x. specialize (H c x eq_refl). by destruct x.
Qed.

Lemma Exec_wp db q Q :
  (connection db = None -> Q [] (Some (Some no_connection))) ->
  (forall c x, connection db = Some c ->
     Q [Obs (PgExec c q) x]
       (Some (match x with Some e => Some (query_error q e) | None => None end))) ->
  wp (Exec db q) Q.
Proof.
  unfold Exec. destruct (connection db) as [c|]; simpl; [|auto].
  intros _ H x. specialize (H c x eq_refl). by destruct x.
Qed.

Lemma Exec_execs db q :
  wp (Exec db q) (fun t r =>
    exists err, r = Some err /\
    (execs t = [] /\ t = [] /\ connection db = None /\ err <> None \/
     exists res, execs t = [(q, res)] /\ (err = None <-> res = None))).
Proof.
  apply Exec_wp.
  - intros N. eexists; split; [done|]. left. done.
  - intros c x _. eexists; split; [done|]. right. exists x. split; [done|]. by destruct x.
Qed.

Lemma CheckIfTableExists_read_only db n : only read_only (CheckIfTableExists db n).
Proof.
  unfold CheckIfTableExists, RunQuery. destruct (String.eqb n _); [done|].
  destruct (connection db); simpl; [|done]. split; [done|].
  intros [e|rs]; simpl; [done|]. by destruct (rows_data rs) as [|[|]].
Qed.

Lemma GetCurrentTable_read_only db : only read_only (GetCurrentTable db).
Proof.
  unfold GetCurrentTable, RunQuery. destruct (connection db); simpl; [|done].
  split; [done|]. intros [e|rs]; simpl; [done|]. by destruct (rows_data rs) as [|[|]].
Qed.

Lemma GetCyndiTables_read_only db : only read_only (GetCyndiTables db).
Proof.
  unfold GetCyndiTables, RunQuery. destruct (connection db); simpl; [|done].
  split; [done|]. by intros [e|rs].
Qed.

Lemma CountHosts_read_only db t io fs : only read_only (CountHosts db t io fs).
Proof.
  unfold CountHosts, RunQuery. destruct (connection db); simpl; [|done].
  split; [done|]. by intros [e|rs].
Qed.

Lemma GetHostIds_read_only db t io fs : only read_only (GetHostIds db t io fs).
Proof.
  unfold GetHostIds, RunQuery. destruct (connection db); simpl; [|done].
  split; [done|]. by intros [e|rs].
Qed.

(** A table is dropped at most once, only the one asked for, only when it has
    a name. *)
Lemma DeleteTable_execs db n :
  wp (DeleteTable db n) (fun t r =>
    exists err, r = Some err /\ conn_deletes t = [] /\
    (execs t = [] \/
     exists res, execs t = [(drop_query n, res)] /\ n <> EmptyString /\
       (err = None <-> res = None))).
Proof.
  unfold DeleteTable, CheckIfTableExists.
  destruct (String.eqb_spec n EmptyString) as [|N]; [simpl; eauto 10|].
  unfold RunQuery, Exec. destruct (connection db) as [c|]; simpl; [|eauto 10].
  intros [e|rs]; simpl; [eauto 10|].
  destruct (rows_data rs) as [|[e|[]] ?]; simpl; [eauto 10..| |eauto 10].
  intros [e|]; simpl; eexists; (split; [done|]); (split; [done|]); right;
    eexists; (split; [done|]); (split; [done|]); done.
Qed.

(** *** Answers to the view query *)

Lemma GetCurrentTable_safe db : safe (GetCurrentTable db).
Proof. unfold GetCurrentTable, RunQuery. prog_auto. Qed.

Lemma GetCyndiTables_safe db : safe (GetCyndiTables db).
Proof. unfold GetCyndiTables, RunQuery. prog_auto. Qed.

Lemma CheckIfTableExists_safe db n : safe (CheckIfTableExists db n).
Proof. unfold CheckIfTableExists, RunQuery. prog_auto. Qed.

Lemma CountHosts_safe db t io fs : safe (CountHosts db t io fs).
Proof. unfold CountHosts, RunQuery. prog_auto. Qed.

Lemma GetHostIds_safe db t io fs : safe (GetHostIds db t io fs).
Proof. unfold GetHostIds, RunQuery. prog_auto. Qed.

Lemma Connect_safe db : safe (Connect db).
Proof. unfold Connect, GetConnection. prog_auto. Qed.

Lemma Connect_read_only db : only read_only (Connect db).
Proof. unfold Connect, GetConnection. prog_auto. Qed.

Lemma Close_safe db : safe (Close db).
Proof. unfold Close. prog_auto. Qed.

Lemma Close_read_only db : only read_only (Close db).
Proof. unfold Close. prog_auto. Qed.

Lemma Exec_safe db q : safe (Exec db q).
Proof. unfold Exec. prog_auto. Qed.

Lemma UpdateView_safe db n : safe (UpdateView db n).
Proof. unfold UpdateView, Exec. prog_auto. Qed.

Lemma DeleteTable_safe db n : safe (DeleteTable db n).
Proof. unfold DeleteTable, CheckIfTableExists, RunQuery, Exec. prog_auto. Qed.

Lemma CreateTable_safe {TE : TemplateEngine} db n s : safe (CreateTable db n s).
Proof. unfold CreateTable, Exec. prog_auto. Qed.

Lemma AppConnect_safe db : safe (AppConnect db).
Proof.
  unfold AppConnect, rotatePassword. apply safe_bind; [apply Connect_safe|].
  intros [db' [e|]]; [|done]. destruct (Strings.Contains _ _); [|done].
  apply safe_bind.
  - apply safe_bind; [apply Connect_safe|]. intros [db2 [e2|]]; [done|].
    apply safe_bind; [apply Exec_safe|]. intros err.
    apply safe_bind; [apply Close_safe|]. done.
  - intros [db2 [e2|]]; [done|]. apply Connect_safe.
Qed.

Lemma Exec_runs db q t r :
  runs (Exec db q) t r ->
  (connection db = None /\ t = [] /\ r = Some (Some no_connection)) \/
  exists c x, connection db = Some c /\ t = [Obs (PgExec c q) x] /\
    r = Some (match x with Some e => Some (query_error q e) | None => None end).
Proof.
  intros R. pattern t, r. apply (runs_wp _ _ _ _ R). apply Exec_wp; eauto 10.
Qed.

(** Deleting a table: what is logged, and when nothing is. *)
Lemma DeleteTable_runs db n t r :
  runs (DeleteTable db n) t r ->
  exists err, r = Some err /\
    ((wlog t = [] /\ (err = None -> runs (CheckIfTableExists db n) t (Some (inr false)))) \/
     exists c res, wlog t = [Obs (PgExec c (drop_query n)) res] /\ (err = None <-> res = None)).
Proof.
  intros R. unfold DeleteTable in R. run_inv R.
  2: by apply safe_runs in R0; [|apply CheckIfTableExists_safe].
  assert (W : wlog t0 = []).
  { apply read_only_wlog. exact (runs_wp _ _ _ _ R0 (only_wp _ _ (CheckIfTableExists_read_only db n))). }
  destruct a as [e|[]]; simpl in R1.
  - run_inv R1. subst. exists (Some e). split; [done|]. left. by rewrite app_nil_r.
  - apply Exec_runs in R1 as [(? & -> & ->)|(c & x & ? & -> & ->)].
    + eexists. split; [done|]. left. rewrite app_nil_r. by split.
    + eexists. split; [done|]. right. exists c, x. rewrite wlog_app, W. split; [done|]. by destruct x.
  - run_inv R1. subst. exists None. split; [done|]. left. rewrite app_nil_r. by split.
Qed.

Lemma scan_loop_acc data acc :
  scan_loop data acc =
    match scan_loop data [] with inl e => inl e | inr l => inr (acc ++ l) end.
Proof.
  revert acc; induction data as [|[e|x] data IH]; intros acc; simpl; [by rewrite app_nil_r|done|].
  rewrite IH, (IH [x]). destruct (scan_loop data []); [done|]. by rewrite <- app_assoc.
Qed.

(** The rows that were delivered are returned in order. *)
Lemma scan_loop_ok (l : list string) : scan_loop (map inr l) [] = inr l.
Proof.
  induction l as [|x l IH]; simpl; [done|]. by rewrite scan_loop_acc, IH.
Qed.

Lemma count_loop_ok (l : list Z) z : count_loop (map inr l) z = inr (List.last l z).
Proof.
  revert z; induction l as [|x l IH]; intros z; simpl; [done|].
  rewrite IH. destruct l as [|y l]; [done|]. f_equal. clear IH.
  revert y; induction l as [|w l IH]; intros y; [done|]. apply (IH w).
Qed.

End Runs.

#[export] Hint Resolve GetCurrentTable_safe GetCyndiTables_safe CheckIfTableExists_safe
  CountHosts_safe GetHostIds_safe Connect_safe Close_safe Exec_safe UpdateView_safe
  DeleteTable_safe CreateTable_safe AppConnect_safe
  GetCurrentTable_read_only GetCyndiTables_read_only CheckIfTableExists_read_only
  CountHosts_read_only GetHostIds_read_only Connect_read_only Close_read_only : cyndi_prog.


End Database.

(** ** Properties of the databases *)

Module DatabaseProps.
Import Database.

(** The JOIN clause of a query is made of the non-empty "join" entries of
    the filters, each once, in the order of their first occurrence; it is
    non-empty exactly when hasJoinClause says so, which is when the queries use
    the alias h. *)
Theorem join_clause_spec (fs : filters) :
  exists joins,
    getJoinClause fs = Strings.Join joins " " /\ NoDup joins /\
    joins = first_occurrences (joins_of fs) ∅ /\
    (forall j, j ∈ joins <-> exists f, f ∈ fs /\ f !! "join" = Some j /\ j <> EmptyString) /\
    (hasJoinClause fs = true <-> getJoinClause fs <> EmptyString).
Proof.
  exists (first_occurrences (joins_of fs) ∅). unfold getJoinClause. rewrite join_loop_spec.
  split_and!; [done|apply NoDup_first_occurrences|done|..].
  - intros j. rewrite elem_of_first_occurrences, elem_of_joins_of. set_solver.
  - rewrite hasJoinClause_spec. simpl app. split.
    + intros N. destruct (joins_of fs) as [|j l] eqn:E; [done|]. simpl.
      apply concat_cons_nonempty.
      assert (j ∈ joins_of fs) as (_ & _ & _ & Hj)%elem_of_joins_of by (rewrite E; set_solver).
      done.
    + intros N E. by rewrite E in N.
Qed.

(** C33: The two queries of a validation ask about the same hosts: same table,
    same joins and the conjunction of all the where entries, each in
    parentheses, plus the Insights condition when only Insights hosts count. *)
Theorem queries_same_hosts (table : string) (io : bool) (fs : filters) :
  exists columns alias body order,
    hostCountQuery table io fs = "SELECT count(*) FROM " +s+ table +s+ body /\
    hostIdQuery table io fs =
      "SELECT " +s+ columns +s+ " FROM " +s+ table +s+ body +s+ " ORDER BY " +s+ order /\
    body = alias +s+ " " +s+
      match conditions_of io fs with
      | [] => EmptyString
      | cs => "WHERE " +s+ Strings.Join cs " AND "
      end /\
    (alias = if hasJoinClause fs then " h " +s+ getJoinClause fs else EmptyString) /\
    List.length (conditions_of io fs) = List.length fs + (if io then 1 else 0) /\
    (forall f, f ∈ fs ->
       ("(" +s+ default EmptyString (f !! "where") +s+ ")") ∈ conditions_of io fs) /\
    (io = true -> insights_condition ∈ conditions_of io fs).
Proof.
  exists (if hasJoinClause fs then "h.id" else "id"),
    (if hasJoinClause fs then " h " +s+ getJoinClause fs else EmptyString),
    ((if hasJoinClause fs then " h " +s+ getJoinClause fs else EmptyString) +s+ " " +s+
       getWhereClause io fs),
    (if hasJoinClause fs then "h.id" else "id").
  rewrite <- getWhereClause_conditions. unfold hostCountQuery, hostIdQuery.
  split_and!; [|..|done|done| | |].
  - destruct (hasJoinClause fs); by rewrite ?append_assoc.
  - destruct (hasJoinClause fs); by rewrite ?append_assoc.
  - unfold conditions_of. rewrite length_app, length_fmap. by destruct io.
  - intros f Hf. unfold conditions_of. apply elem_of_app. left.
    apply list_elem_of_fmap. eauto.
  - intros ->. unfold conditions_of. apply elem_of_app. right. set_solver.
Qed.

(** Results cut short are taken for complete ones: when the server breaks
    off after the rows delivered so far, the count is the last one delivered (0
    when there was none), the host identifiers are those delivered, and the
    view counts as absent when its row was not delivered; none of the three
    reports the error that Err() holds. *)
Theorem truncated_results_accepted (db : BaseDatabase) (c : nat) (table : string) (io : bool)
    (fs : filters) (counts : list Z) (ids : list string) (e nr : gerror) :
  connection db = Some c ->
  runs (CountHosts db table io fs)
    [Obs (PgQuery c (hostCountQuery table io fs) ScanInt64)
       (inr (Rows (map inr counts) (Some e) nr))]
    (Some (inr (List.last counts 0%Z))) /\
  runs (GetHostIds db table io fs)
    [Obs (PgQuery c (hostIdQuery table io fs) ScanString) (inr (Rows (map inr ids) (Some e) nr))]
    (Some (inr ids)) /\
  runs (GetCurrentTable db)
    [Obs (PgQuery c current_table_query ScanStringPtr) (inr (Rows [] (Some e) nr))]
    (Some (inr None)).
Proof.
  intros C. unfold CountHosts, GetHostIds, GetCurrentTable, RunQuery. rewrite C.
  split_and!; constructor; simpl; rewrite ?scan_loop_ok, ?count_loop_ok; constructor.
Qed.

(** What connecting may do: the attempts [connects t], the commands [execs t]. *)
Definition alter_query (db : BaseDatabase) : string :=
  "ALTER ROLE " +s+ User (Config db) +s+ " WITH PASSWORD '" +s+ Password (Config db) +s+ "'".

(** The error of a refused connection, whose text also shows the parameters *)
Definition refusal (db : BaseDatabase) (e : gerror) : gerror :=
  Errorf ("Error connecting to " +s+ Host (Config db) +s+ ":" +s+ Port (Config db) +s+ "/" +s+
    DBName (Config db) +s+ " as " +s+ User (Config db) +s+ " : " +s+ Error e).

(** The code of a failed authentication is in that text. *)
Definition asks_rotation (db : BaseDatabase) (e : gerror) : Prop :=
  exists before after, Error (refusal db e) = before +s+ "28P01" +s+ after.

Definition connect_outcome (db db' : BaseDatabase) (err : option gerror) (t : list obs) : Prop :=
  let unrotated := with_Password db initialPassword in
  let configured := connection_string (Config db) in
  let initial := connection_string (Config unrotated) in
  (err = None -> connection db' <> None) /\
  ((exists c, connects t = [(configured, inr c)] /\ execs t = [] /\ err = None /\
      Config db' = Config db) \/
   (exists e, connects t = [(configured, inl e)] /\ execs t = [] /\ ~ asks_rotation db e /\
      err = Some (refusal db e) /\ Config db' = Config db) \/
   (exists e, asks_rotation db e /\
      ((exists e', connects t = [(configured, inl e); (initial, inl e')] /\ execs t = [] /\
          err = Some (refusal unrotated e')) \/
       (exists c e', connects t = [(configured, inl e); (initial, inr c)] /\
          execs t = [(alter_query db, Some e')] /\ err <> None) \/
       (exists c x, connects t = [(configured, inl e); (initial, inr c); (initial, x)] /\
          execs t = [(alter_query db, None)] /\ Config db' = Config unrotated /\
          err = match x with inl e' => Some (refusal unrotated e') | inr _ => None end)))).

(** C37: Connecting to the application database, and rotating the initial
    password. The first attempt uses the configured parameters. When it fails,
    a second attempt is made exactly when the error mentions 28P01, with the
    initial password; on that connection the role gets the configured
    password. The attempt that follows a rotation, however, again uses the
    initial password, which has just been replaced, and the configured one is
    no longer known. *)
Theorem AppConnect_spec (db db' : BaseDatabase) (err : option gerror) (t : list obs) :
  runs (AppConnect db) t (Some (db', err)) -> connect_outcome db db' err t.
Proof.
  intros R. revert t R.
  enough (W : wp (AppConnect db) (fun t r =>
    match r with Some (db', err) => connect_outcome db db' err t | None => True end)).
  { intros t R. by apply (proj1 (wp_sound _ _) W t (Some (db', err))). }
  unfold AppConnect, Connect, GetConnection. simpl.
  intros [e|c]; simpl; [|split; [done|]; left; eauto].
  case_goal; simpl.
  2: { split; [done|]. right; left. exists e. split_and!; try done.
       intros A%Strings.Contains_true. unfold refusal in A. simpl in A.
       congruence. }
  assert (A : asks_rotation db e) by (by apply Strings.Contains_true).
  intros [e'|c]; simpl; [split; [done|]; right; right; exists e; split; [done|]; left; eauto|].
  intros [e'|] x; simpl.
  - split; [done|]. right; right. exists e. split; [done|]. right; left. eauto.
  - intros [e3|c3]; simpl; (split; [done|]); right; right; exists e; (split; [done|]);
      right; right; exists c; eexists; split_and!; reflexivity.
Qed.

Definition db0 (conn : option nat) : BaseDatabase :=
  {| Config := {| DBName := "insights"; Host := "db"; Port := "5432"; User := "cyndi";
                  Password := "secret"; SSLMode := "disable"; SSLRootCert := EmptyString |};
     connection := conn |}.

Definition auth_failed : gerror :=
  Errorf "FATAL: password authentication failed (SQLSTATE 28P01)".

Lemma truncated_results_accepted_witness :
  connection (db0 (Some 7)) = Some 7 /\
  runs (GetHostIds (db0 (Some 7)) "public.hosts" false [])
    [Obs (PgQuery 7 (hostIdQuery "public.hosts" false []) ScanString)
       (inr (Rows (map inr ["a"]) (Some (Errorf "connection reset")) (Errorf "no rows")))]
    (Some (inr ["a"])).
Proof.
  split; [reflexivity|].
  apply (truncated_results_accepted (db0 (Some 7)) 7 "public.hosts" false [] [] ["a"]
           (Errorf "connection reset") (Errorf "no rows") eq_refl).
Defined.

(** A rotation: the initial password is accepted once, then it is refused. *)
Definition rotation_trace : list obs :=
  let s := connection_string (Config (db0 None)) in
  let s' := connection_string (Config (with_Password (db0 None) initialPassword)) in
  [Obs (PgConnect s) (inl auth_failed); Obs (PgConnect s') (inr 1);
   Obs (PgExec 1 (alter_query (db0 None))) None; Obs (PgClose 1) None;
   Obs (PgConnect s') (inl auth_failed)].

Lemma rotation_runs : { r | runs (AppConnect (db0 None)) rotation_trace (Some r) }.
Proof.
  eexists. unfold AppConnect, Connect, GetConnection, rotation_trace. simpl.
  repeat (constructor; simpl).
Defined.

Lemma AppConnect_spec_witness :
  let r := proj1_sig rotation_runs in
  snd r <> None /\ connect_outcome (db0 None) (fst r) (snd r) rotation_trace.
Proof.
  split; [discriminate|].
  apply AppConnect_spec. exact (proj2_sig rotation_runs).
Defined.

Definition filters0 : filters :=
  [ <["where" := "h.a = 1"]> (<["join" := "JOIN t ON t.id = h.id"]> ∅); <["where" := "h.b = 2"]> ∅ ].

Lemma queries_same_hosts_witness : insights_condition ∈ conditions_of true filters0.
Proof.
  destruct (queries_same_hosts "public.hosts" true filters0)
    as (columns & alias & body & order & _ & _ & _ & _ & _ & _ & H).
  exact (H eq_refl).
Defined.

Lemma join_clause_spec_witness :
  hasJoinClause filters0 = true /\ getJoinClause filters0 <> EmptyString.
Proof.
  assert (F : hasJoinClause filters0 = true) by (vm_compute; reflexivity).
  destruct (join_clause_spec filters0) as (joins & _ & _ & _ & _ & H).
  split; [exact F|exact (proj1 H F)].
Defined.

End DatabaseProps.
