(* ===== verification/Connect.v ===== *)
(** * controllers/connect: Kafka connectors

    The connectors of a pipeline are unstructured objects of kind
    KafkaConnector. A new one is rendered from a template ([newConnectorResource]);
    existing ones are looked up, listed by owner, deleted, paused and resumed,
    and checked for failure. *)

From Stdlib Require Import ZArith Lia Ascii String.
From S2P Require Import Prelude GoStd GoJson Lang K8sLib JsonDecode Template Defaults Api State Utils Config Effects.
Import Api Config.

Module Connect.

Definition LabelAppName : string := "cyndi/appName".
Definition LabelInsightsOnly : string := "cyndi/insightsOnly".
Definition LabelMaxAge : string := "cyndi/maxAge".
Definition LabelStrimziCluster : string := "strimzi.io/cluster".
Definition LabelOwner : string := "cyndi/owner".

Definition failed : string := "FAILED".

Definition connectorState (paused : bool) : string := if paused then "paused" else "running".

(** group, kind, version *)
Definition connectorGVK : string * string * string :=
  ("kafka.strimzi.io", "KafkaConnector", "v1beta2").

Record ConnectorConfiguration := {
  ccAppName : string;
  ccAdditionalFilters : list (gmap string string);
  ccInsightsOnly : bool;
  Paused : bool;
  Cluster : string;
  ccTopic : string;
  ccTableName : string;
  DB : DBParams;
  TasksMax : Z;
  BatchSize : Z;
  ccMaxAge : Z;
  Template : string;
  AllowlistSystemProfile : string;
  ccTopicReplicationFactor : Z;
  ccDeadLetterQueueTopicName : string
}.

(** ephemeral, err := strconv.ParseBool(os.Getenv("EPHEMERAL")); if err != nil { false } *)
Definition is_ephemeral (env : string) : bool :=
  match Strconv.ParseBool env with Some b => b | None => false end.

(** The connection parameters the template sees: the values themselves in an
    ephemeral environment, references to environment variables otherwise. *)
Definition db_values (ephemeral : bool) (config : ConnectorConfiguration)
  : list (string * gvalue) :=
  let appNameFormatted := Strings.ReplaceAll (ccAppName config) "-" "_" in
  let appNameFormatted := Strings.ToUpper appNameFormatted in
  let env suffix := GString ("${env:" +s+ appNameFormatted +s+ suffix +s+ "}") in
  if ephemeral then
    [("DBPort", GString (Port (DB config))); ("DBHostname", GString (Host (DB config)));
     ("DBName", GString (DBName (DB config))); ("DBUser", GString (User (DB config)));
     ("DBPassword", GString (Password (DB config)))]
  else
    [("DBPort", env "_DB_PORT"); ("DBHostname", env "_DB_HOSTNAME"); ("DBName", env "_DB_NAME");
     ("DBUser", env "_DB_USERNAME"); ("DBPassword", env "_DB_PASSWORD")].

(** The template parameters *)
Definition template_values (ephemeral : bool) (config : ConnectorConfiguration) : gvalue :=
  GMap ([("TableName", GString (ccTableName config)); ("Topic", GString (ccTopic config))] ++
        db_values ephemeral config ++
        [("AdditionalFilters", GSlice (string_map <$> ccAdditionalFilters config));
         ("TasksMax", GString (Strconv.FormatInt (TasksMax config)));
         ("BatchSize", GString (Strconv.FormatInt (BatchSize config)));
         ("MaxAge", GString (Strconv.FormatInt (ccMaxAge config)));
         ("InsightsOnly", GString (Strconv.FormatBool (ccInsightsOnly config)));
         ("AllowlistSP", GString (AllowlistSystemProfile config));
         ("SSLMode", GString (SSLMode (DB config)));
         ("SSLRootCert", GString (SSLRootCert (DB config)));
         ("TopicReplicationFactor",
          GString (Strconv.FormatInt (ccTopicReplicationFactor config)));
         ("DeadLetterQueueTopicName", GString (ccDeadLetterQueueTopicName config))]).

Definition newline : string := String "010"%char EmptyString.

Definition connector_labels (config : ConnectorConfiguration) : list (string * gvalue) :=
  [(LabelStrimziCluster, GString (Cluster config));
   (LabelAppName, GString (ccAppName config));
   (LabelInsightsOnly, GString (Strconv.FormatBool (ccInsightsOnly config)));
   (LabelMaxAge, GString (Strconv.FormatInt (ccMaxAge config)))].

Definition connector_object (name namespace : string) (config : ConnectorConfiguration)
    (configTemplateInterface : gvalue) : gvalue :=
  GMap [("metadata", GMap [("name", GString name); ("namespace", GString namespace);
                           ("labels", GMap (connector_labels config))]);
        ("spec", GMap [("tasksMax", GInt64 (TasksMax config));
                       ("class", GString "io.confluent.connect.jdbc.JdbcSinkConnector");
                       ("config", configTemplateInterface);
                       ("state", GString (connectorState (Paused config)))])].

Section WithLibs.
Context {TE : TemplateEngine} {US : Unstructured}.

Definition newConnectorResource (name namespace : string) (config : ConnectorConfiguration)
  : prog (result gvalue) :=
  env <- call (Getenv "EPHEMERAL") ;;
  let m := template_values (is_ephemeral env) config in
  Ret (let? tmpl := template_Parse (Template config) in
       let? configTemplateParsed := template_Execute tmpl m in
       let? configTemplateInterface :=
         json_Unmarshal (Strings.ReplaceAll configTemplateParsed newline EmptyString) in
       inr (SetGroupVersionKind (connector_object name namespace config configTemplateInterface)
              connectorGVK)).

(** CreateConnector; the owner is given by its metadata. The connector that
    Create may return next to an error is not modelled: no caller reads it. *)
Definition CreateConnector (name namespace : string) (config : ConnectorConfiguration)
    (owner : option ObjectMeta) (dryRun : bool) : prog (result gvalue) :=
  try connector <- newConnectorResource name namespace config ;;
  match
    match owner with
    | Some o =>
        let? connector' := SetControllerReference o connector in
        let labels := GetLabels connector' in
        let labels := <[ LabelOwner := UID o ]> labels in
        inr (SetLabels connector' labels)
    | None => inr connector
    end
  with
  | inl err => Ret (inl err)
  | inr connector =>
      if dryRun then Ret (inr connector)
      else
        err <- call (KCreateConnector connector) ;;
        match err with
        | Some e => Ret (inl e)
        | None => Ret (inr connector)
        end
  end.

Definition GetConnector (name namespace : string) : prog (result gvalue) :=
  call (KGetConnector name namespace).

Definition CheckIfConnectorExists (name namespace : string) : prog (result bool) :=
  if String.eqb name EmptyString then Ret (inr false)
  else
    r <- GetConnector name namespace ;;
    match r with
    | inl err => if IsNotFound err then Ret (inr false) else Ret (inl err)
    | inr _ => Ret (inr true)
    end.

Definition GetConnectorsForOwner (namespace owner : string) : prog (result (list gvalue)) :=
  call (KListConnectors namespace owner).

Definition EmptyConnector : gvalue := SetGroupVersionKind (GMap []) connectorGVK.

Definition DeleteConnector (name namespace : string) : prog (option gerror) :=
  r <- call (KDeleteConnector name namespace) ;;
  match r with
  | Some err => if negb (IsNotFound err) then Ret (Some err) else Ret None
  | None => Ret None
  end.

(** The first component of NestedString's triple *)
Definition string_or_empty (r : result (option string)) : string :=
  match r with inr (Some s) => s | _ => EmptyString end.

Definition SetConnectorState (name namespace : string) (paused : bool) : prog (option gerror) :=
  r <- GetConnector name namespace ;;
  match r with
  | inl err => Ret (Some err)
  | inr connector =>
      let desiredState := connectorState paused in
      let currentState := string_or_empty (NestedString connector ["spec"; "state"]) in
      if String.eqb currentState desiredState then Ret None
      else
        match SetNestedField connector (GString desiredState) ["spec"; "state"] with
        | inl err => Ret (Some err)
        | inr connector => call (KUpdateConnector connector)
        end
  end.

Fixpoint task_failed (tasks : list gvalue) : bool :=
  match tasks with
  | [] => false
  | GMap taskMap :: rest =>
      match massoc "state" taskMap with
      | Some (GString s) => if String.eqb s failed then true else task_failed rest
      | _ => task_failed rest
      end
  | _ :: rest => task_failed rest
  end.

Definition IsFailed (connector : gvalue) : bool :=
  let tasks_check :=
    match NestedSlice connector ["status"; "connectorStatus"; "tasks"] with
    | inr (Some tasks) => task_failed tasks
    | _ => false
    end in
  match NestedString connector ["status"; "connectorStatus"; "connector"; "state"] with
  | inr (Some connectorStatus) => if String.eqb connectorStatus failed then true else tasks_check
  | _ => tasks_check
  end.

End WithLibs.
(** ** Lemmas *)

Section Lemmas.
Context {US : Unstructured} {USOK : UnstructuredOk} {TE : TemplateEngine}.

(** The labels of a connector without and with an owner *)
Definition labels_of (config : ConnectorConfiguration) : gmap string string :=
  <[ LabelStrimziCluster := Cluster config ]>
  (<[ LabelAppName := ccAppName config ]>
   (<[ LabelInsightsOnly := Strconv.FormatBool (ccInsightsOnly config) ]>
    {[ LabelMaxAge := Strconv.FormatInt (ccMaxAge config) ]})).

(** A connector as [newConnectorResource] builds it, up to the owner. *)
Record built_from (c : gvalue) (name : string) (config : ConnectorConfiguration)
    (ephemeral : bool) : Prop := {
  bf_metadata : exists mm, field c ["metadata"] = Some (GMap mm);
  bf_name : field c ["metadata"; "name"] = Some (GString name);
  bf_state : field c ["spec"; "state"] = Some (GString (connectorState (Paused config)));
  bf_tasks : field c ["spec"; "tasksMax"] = Some (GInt64 (TasksMax config));
  bf_config : exists t text v,
    template_Parse (Template config) = inr t /\
    template_Execute t (template_values ephemeral config) = inr text /\
    json_Unmarshal (Strings.ReplaceAll text newline EmptyString) = inr v /\
    field c ["spec"; "config"] = Some v
}.

Lemma connector_object_built name ns config ephemeral t text v :
  template_Parse (Template config) = inr t ->
  template_Execute t (template_values ephemeral config) = inr text ->
  json_Unmarshal (Strings.ReplaceAll text newline EmptyString) = inr v ->
  built_from (SetGroupVersionKind (connector_object name ns config v) connectorGVK)
    name config ephemeral.
Proof.
  intros ? ? ?. split; rewrite ?SetGroupVersionKind_frame by done; simpl; eauto 10.
Qed.

Lemma connector_object_labels name ns config v gvk :
  GetLabels (SetGroupVersionKind (connector_object name ns config v) gvk) = labels_of config.
Proof.
  rewrite (GetLabels_field _
    [(LabelStrimziCluster, Cluster config); (LabelAppName, ccAppName config);
     (LabelInsightsOnly, Strconv.FormatBool (ccInsightsOnly config));
     (LabelMaxAge, Strconv.FormatInt (ccMaxAge config))]); [done|].
  by rewrite SetGroupVersionKind_frame.
Qed.

(** Adding the owner keeps the content. *)
Lemma owned_built c c' o name config ephemeral m :
  built_from c name config ephemeral ->
  SetControllerReference o c = inr c' ->
  built_from (SetLabels c' m) name config ephemeral.
Proof.
  intros [Mm Hn Hs Ht (t & text & v & ? & ? & ? & Hc)] E.
  destruct (SetControllerReference_labels _ _ _ E Mm) as (Mm' & _ & Hn').
  assert (F : forall p, field (SetLabels c' m) ("spec" :: p) = field c ("spec" :: p)).
  { intros p. rewrite SetLabels_spec. by eapply SetControllerReference_spec. }
  split; rewrite ?F; eauto 10.
  - apply SetLabels_map, Mm'.
  - by rewrite SetLabels_metadata, Hn'.
Qed.

(** A connector created for an owner *)
Record created (c : gvalue) (name : string) (config : ConnectorConfiguration) (o : ObjectMeta)
    (ephemeral : bool) : Prop := {
  cr_built : built_from c name config ephemeral;
  cr_labels : GetLabels c = <[ LabelOwner := UID o ]> (labels_of config)
}.

Lemma newConnectorResource_wp name ns config (Q : list obs -> option (result gvalue) -> Prop) :
  (forall env r,
     (forall c, r = inr c -> built_from c name config (is_ephemeral env) /\
                             GetLabels c = labels_of config) ->
     Q [Obs (Getenv "EPHEMERAL") env] (Some r)) ->
  wp (newConnectorResource name ns config) Q.
Proof.
  intros H env. simpl. apply H. intros c E.
  destruct (template_Parse _) eqn:?; [done|].
  destruct (template_Execute _ _) eqn:?; [done|].
  destruct (json_Unmarshal _) eqn:?; [done|]. injection E as <-.
  split; [by eapply connector_object_built | apply connector_object_labels].
Qed.

(** Running [CreateConnector]: the environment is read, then at most one
    object is created, never in a dry run. *)
Lemma CreateConnector_wp name ns config o dryRun (Q : list obs -> option (result gvalue) -> Prop) :
  (forall env r,
     (forall c, r = inr c -> dryRun = true /\ created c name config o (is_ephemeral env)) ->
     Q [Obs (Getenv "EPHEMERAL") env] (Some r)) ->
  (forall env c e, dryRun = false -> created c name config o (is_ephemeral env) ->
     Q [Obs (Getenv "EPHEMERAL") env; Obs (KCreateConnector c) e]
       (Some (match e with Some e => inl e | None => inr c end))) ->
  wp (CreateConnector name ns config (Some o) dryRun) Q.
Proof.
  intros H1 H2. unfold CreateConnector. apply wp_bind, newConnectorResource_wp.
  intros env [e|c] B; simpl; [by apply H1|].
  destruct (B c eq_refl) as [Bc Lc].
  destruct (SetControllerReference o c) as [e|c'] eqn:S; simpl; [by apply H1|].
  destruct (SetControllerReference_labels _ _ _ S (bf_metadata _ _ _ _ Bc)) as (Mm & L & _).
  set (c2 := SetLabels c' _).
  assert (C : created c2 name config o (is_ephemeral env)).
  { split; [by eapply owned_built|]. unfold c2. by rewrite GetLabels_SetLabels, L, Lc. }
  destruct dryRun; simpl.
  - apply H1. by intros ? [= <-].
  - intros e. specialize (H2 env c2 e eq_refl C). by destruct e.
Qed.

Lemma CreateConnector_dry_read_only name ns config o :
  only read_only (CreateConnector name ns config o true).
Proof.
  unfold CreateConnector, newConnectorResource. simpl. split; [done|]. intros env.
  repeat (case_goal; simpl; try done).
Qed.

Lemma SetConnectorState_wp name ns paused (Q : list obs -> option (option gerror) -> Prop) :
  (forall e, Q [Obs (KGetConnector name ns) (inl e)] (Some (Some e))) ->
  (forall c, NestedString c ["spec"; "state"] = inr (Some (connectorState paused)) ->
     Q [Obs (KGetConnector name ns) (inr c)] (Some None)) ->
  (forall c e, NestedString c ["spec"; "state"] <> inr (Some (connectorState paused)) ->
     Q [Obs (KGetConnector name ns) (inr c)] (Some (Some e))) ->
  (forall c c' e, NestedString c ["spec"; "state"] <> inr (Some (connectorState paused)) ->
     NestedString c' ["spec"; "state"] = inr (Some (connectorState paused)) ->
     Q [Obs (KGetConnector name ns) (inr c); Obs (KUpdateConnector c') e] (Some e)) ->
  wp (SetConnectorState name ns paused) Q.
Proof.
  intros H1 H2 H3 H4. unfold SetConnectorState, GetConnector. simpl.
  intros [e|c]; simpl; [auto|].
  destruct (String.eqb_spec (string_or_empty (NestedString c ["spec"; "state"]))
              (connectorState paused)) as [E|N]; simpl.
  - apply H2. destruct (NestedString c _) as [|[s|]]; simpl in E; [by destruct paused| |by destruct paused].
    congruence.
  - assert (N' : NestedString c ["spec"; "state"] <> inr (Some (connectorState paused))).
    { intros E. rewrite E in N. done. }
    destruct (SetNestedField _ _ _) as [e|c'] eqn:S; simpl; [auto|].
    intros e. apply H4; [done|]. apply NestedString_field.
    by eapply SetNestedField_same.
Qed.

Lemma task_failed_spec (tasks : list gvalue) :
  task_failed tasks = true <->
  exists m, GMap m ∈ tasks /\ massoc "state" m = Some (GString failed).
Proof.
  induction tasks as [|v tasks IH]; simpl; [set_solver|].
  setoid_rewrite elem_of_cons.
  assert (K : (exists m, GMap m ∈ tasks /\ massoc "state" m = Some (GString failed)) ->
    exists m, (GMap m = v \/ GMap m ∈ tasks) /\ massoc "state" m = Some (GString failed))
    by naive_solver.
  destruct v as [| | | | | |m]; try (rewrite IH; naive_solver).
  destruct (massoc "state" m) as [[| |s| | | |]|] eqn:E; try (rewrite IH; naive_solver).
  destruct (String.eqb_spec s failed) as [->|N]; [naive_solver|].
  rewrite IH. naive_solver.
Qed.

End Lemmas.
End Connect.

(** ** Properties *)

Module ConnectProps.
Import Connect.

Section Props.
Context {US : Unstructured} {USOK : UnstructuredOk} {TE : TemplateEngine}.

Definition create_outcome (name : string) (config : ConnectorConfiguration) (o : ObjectMeta)
    (dryRun : bool) (env : string) (t : list obs) (r : result gvalue) : Prop :=
  match conn_creates t with
  | [] => (dryRun = true \/ exists e, r = inl e) /\ t = [Obs (Getenv "EPHEMERAL") env]
  | [(c, e)] => dryRun = false /\ created c name config o (is_ephemeral env) /\
      t = [Obs (Getenv "EPHEMERAL") env; Obs (KCreateConnector c) e] /\
      r = match e with Some e => inl e | None => inr c end
  | _ => False
  end /\
  (forall c, r = inr c -> created c name config o (is_ephemeral env)).

(** C30: Creating a connector for a pipeline. A dry run issues no write at all;
    a real one issues at most one, the creation of the connector. A connector
    that is returned or sent carries the given name, the five labels that the
    deviation check and the owner lookup read, the paused or running state and
    the configuration decoded from the rendered template. *)
Theorem CreateConnector_spec (name ns : string) (config : ConnectorConfiguration)
    (o : ObjectMeta) (dryRun : bool) (t : list obs) (r : result gvalue) :
  runs (CreateConnector name ns config (Some o) dryRun) t (Some r) ->
  exists env, create_outcome name config o dryRun env t r.
Proof.
  intros R. apply (runs_wp _ _ _ (fun t r => match r with
    | Some r => exists env, create_outcome name config o dryRun env t r
    | None => True end) R).
  apply CreateConnector_wp; simpl.
  - intros env [e|c] B; exists env; (split; [|naive_solver]); simpl; [eauto|].
    split; [left; naive_solver|done].
  - intros env c [e|] D B; exists env; (split; [done|naive_solver]).
Qed.

(** The configuration with other database parameters *)
Definition with_DB (config : ConnectorConfiguration) (db : DBParams) : ConnectorConfiguration :=
  {| ccAppName := ccAppName config; ccAdditionalFilters := ccAdditionalFilters config;
     ccInsightsOnly := ccInsightsOnly config; Paused := Paused config;
     Cluster := Cluster config; ccTopic := ccTopic config;
     ccTableName := ccTableName config; DB := db; TasksMax := TasksMax config;
     BatchSize := BatchSize config; ccMaxAge := ccMaxAge config;
     Template := Template config; AllowlistSystemProfile := AllowlistSystemProfile config;
     ccTopicReplicationFactor := ccTopicReplicationFactor config;
     ccDeadLetterQueueTopicName := ccDeadLetterQueueTopicName config |}.

(** C32: Outside an ephemeral environment no database credential reaches the
    connector: whatever host, port, database, user and password the secret
    holds, the same connector results. *)
Theorem credentials_not_rendered (name ns env : string) (config : ConnectorConfiguration)
    (db : DBParams) (r : result gvalue) :
  is_ephemeral env = false ->
  SSLMode db = SSLMode (DB config) ->
  SSLRootCert db = SSLRootCert (DB config) ->
  runs (newConnectorResource name ns config) [Obs (Getenv "EPHEMERAL") env] (Some r) ->
  runs (newConnectorResource name ns (with_DB config db)) [Obs (Getenv "EPHEMERAL") env] (Some r).
Proof.
  intros E S1 S2 R.
  enough (K : forall t r', runs (newConnectorResource name ns config) t r' ->
    omap getenv_of t = [("EPHEMERAL", env)] ->
    runs (newConnectorResource name ns (with_DB config db)) t r')
    by (by apply (K _ _ R)).
  intros t r' R'. 
  refine (runs_wp _ _ _ (fun t r' => omap getenv_of t = [("EPHEMERAL", env)] ->
    runs (newConnectorResource name ns (with_DB config db)) t r') R' _).
  intros env'. simpl. intros [= ->].
  assert (T : template_values (is_ephemeral env) (with_DB config db) =
              template_values (is_ephemeral env) config).
  { rewrite E. unfold template_values, db_values. simpl. by rewrite S1, S2. }
  constructor. simpl. rewrite T. constructor.
Qed.

(** Pausing or resuming a connector converges: at most one update is sent,
    what it sends has the desired state, and running the operation again on a
    connector that is in that state sends nothing and succeeds. *)
Theorem SetConnectorState_converges (name ns : string) (paused : bool) (t : list obs)
    (r : option gerror) :
  runs (SetConnectorState name ns paused) t (Some r) ->
  (conn_updates t = [] \/ exists c, conn_updates t = [(c, r)] /\
     field c ["spec"; "state"] = Some (GString (connectorState paused))) /\
  (forall c, field c ["spec"; "state"] = Some (GString (connectorState paused)) ->
     runs (SetConnectorState name ns paused) [Obs (KGetConnector name ns) (inr c)] (Some None)).
Proof.
  intros R. split.
  - apply (runs_wp _ _ _ (fun t r => match r with
      | Some r => conn_updates t = [] \/ exists c, conn_updates t = [(c, r)] /\
          field c ["spec"; "state"] = Some (GString (connectorState paused))
      | None => True end) R).
    apply SetConnectorState_wp; simpl; [by auto..|].
    intros c c' e _ N%NestedString_field. eauto.
  - intros c F%NestedString_field. unfold SetConnectorState, GetConnector. constructor. simpl.
    rewrite F. simpl. rewrite String.eqb_refl. constructor.
Qed.

(** A connector counts as failed exactly when its own state or the state
    of one of its tasks is FAILED; statuses of any other shape do not. *)
Theorem IsFailed_spec (c : gvalue) :
  IsFailed c = true <->
  field c ["status"; "connectorStatus"; "connector"; "state"] = Some (GString failed) \/
  exists tasks task, field c ["status"; "connectorStatus"; "tasks"] = Some (GSlice tasks) /\
    GMap task ∈ tasks /\ massoc "state" task = Some (GString failed).
Proof.
  assert (T : match NestedSlice c ["status"; "connectorStatus"; "tasks"] with
              | inr (Some tasks) => task_failed tasks
              | _ => false
              end = true <->
    exists tasks task, field c ["status"; "connectorStatus"; "tasks"] = Some (GSlice tasks) /\
      GMap task ∈ tasks /\ massoc "state" task = Some (GString failed)).
  { setoid_rewrite NestedSlice_field. destruct (NestedSlice c _) as [|[tasks|]].
    2: rewrite task_failed_spec.
    all: naive_solver. }
  unfold IsFailed. rewrite NestedString_field.
  destruct (NestedString c _) as [|[s|]]; rewrite <- T; [naive_solver| |naive_solver].
  destruct (String.eqb_spec s failed) as [->|N]; naive_solver.
Qed.

(** Deleting a connector is idempotent and looking one up is total: a
    missing connector is no error for either, every other error is passed on. *)
Theorem missing_connector_is_no_error (name ns : string) (e : gerror) :
  runs (DeleteConnector name ns) [Obs (KDeleteConnector name ns) None] (Some None) /\
  runs (DeleteConnector name ns) [Obs (KDeleteConnector name ns) (Some e)]
    (Some (if IsNotFound e then None else Some e)) /\
  runs (CheckIfConnectorExists EmptyString ns) [] (Some (inr false)) /\
  (name <> EmptyString ->
   runs (CheckIfConnectorExists name ns) [Obs (KGetConnector name ns) (inl e)]
     (Some (if IsNotFound e then inr false else inl e)) /\
   forall c, runs (CheckIfConnectorExists name ns) [Obs (KGetConnector name ns) (inr c)]
     (Some (inr true))).
Proof.
  split_and!; [..|intros N; split; [|intros c]];
    rewrite ?(proj2 (String.eqb_neq _ _) N);
    unfold DeleteConnector, CheckIfConnectorExists, GetConnector, call;
    rewrite ?(proj2 (String.eqb_neq _ _) N); simpl;
    run_tac; destruct (IsNotFound e); run_tac.
Qed.

End Props.
(** *** Concrete inputs *)

Existing Instances Ref.unstructured Ref.unstructured_ok Tmpl.engine.

Definition cfg0 : ConnectorConfiguration :=
  {| ccAppName := "advisor-backend"; ccAdditionalFilters := []; ccInsightsOnly := true;
     Paused := false; Cluster := "cluster"; ccTopic := "topic"; ccTableName := "hosts_v1_1";
     DB := {| DBName := "insights"; Host := "db"; Port := "5432"; User := "cyndi";
              Password := "secret"; SSLMode := "disable"; SSLRootCert := EmptyString |};
     TasksMax := 16; BatchSize := 100; ccMaxAge := 45;
     Template := Defaults.defaultConnectorTemplate;
     AllowlistSystemProfile := "os"; ccTopicReplicationFactor := 1;
     ccDeadLetterQueueTopicName := "dlq" |}.

(** A cluster that accepts everything; the connector [c] exists and is paused. *)
Definition no_table : gerror := GError RNotFound "not found".

Definition replies0 : replies := {|
  rp_pipeline := inr Sample.new_pipeline; rp_pipelines := inr [Sample.new_pipeline];
  rp_configmap ns := inr ∅; rp_secret name := inl no_table;
  rp_update p := inr p; rp_status p := inr p;
  rp_connector name := inr (GMap [("spec", GMap [("state", GString "paused")])]);
  rp_connectors := inr []; rp_create o := None; rp_update_connector o := None;
  rp_delete name := None; rp_connect s := inr 1;
  rp_query s q := inr (Rows [] None no_table); rp_exec q := None;
  rp_env := EmptyString; rp_now := 1 |}.

Lemma CreateConnector_spec_witness :
  let p := CreateConnector "c" "test" cfg0 (Some Sample.meta) false in
  exists r env, result_of (reply replies0) p tt = Some r /\
    create_outcome "c" cfg0 Sample.meta false env (trace_of (reply replies0) p tt) r.
Proof.
  eexists.
  edestruct (CreateConnector_spec "c" "test" cfg0 Sample.meta false) as [env H];
    [apply (runs_exec (reply replies0) _ tt); vm_compute; reflexivity|].
  exists env. split; [vm_compute; reflexivity|exact H].
Defined.

Lemma credentials_not_rendered_witness :
  let db := {| DBName := "x"; Host := "y"; Port := "1"; User := "u"; Password := "p";
               SSLMode := "disable"; SSLRootCert := EmptyString |} in
  exists r, runs (newConnectorResource "c" "test" (with_DB cfg0 db))
    [Obs (Getenv "EPHEMERAL") "false"] (Some r).
Proof.
  eexists. eapply (credentials_not_rendered "c" "test" "false" cfg0);
    [vm_compute; reflexivity..|].
  apply runs_call, runs_ret.
Defined.

Lemma SetConnectorState_converges_witness :
  let p := SetConnectorState "c" "test" false in
  exists t r, runs p t (Some r) /\ conn_updates t <> [] /\
    (conn_updates t = [] \/ exists c, conn_updates t = [(c, r)] /\
       field c ["spec"; "state"] = Some (GString (connectorState false))).
Proof.
  exists (trace_of (reply replies0) (SetConnectorState "c" "test" false) tt), None.
  assert (R := runs_exec (reply replies0) (SetConnectorState "c" "test" false) tt (Some None) eq_refl).
  split; [exact R|]. split; [discriminate|].
  exact (proj1 (SetConnectorState_converges "c" "test" false _ _ R)).
Defined.

(** A connector whose second task has failed *)
Definition failed_task : gvalue :=
  GMap [("status", GMap [("connectorStatus", GMap
    [("connector", GMap [("state", GString "RUNNING")]);
     ("tasks", GSlice [GMap [("state", GString "RUNNING")]; GMap [("state", GString "FAILED")]])])])].

Lemma IsFailed_spec_witness :
  IsFailed failed_task = true /\
  (field failed_task ["status"; "connectorStatus"; "connector"; "state"] = Some (GString failed) \/
   exists tasks task,
     field failed_task ["status"; "connectorStatus"; "tasks"] = Some (GSlice tasks) /\
     GMap task ∈ tasks /\ massoc "state" task = Some (GString failed)).
Proof.
  assert (F : IsFailed failed_task = true) by (vm_compute; reflexivity).
  split; [exact F|exact (proj1 (IsFailed_spec failed_task) F)].
Defined.

Lemma missing_connector_is_no_error_witness :
  runs (CheckIfConnectorExists "c" "test") [Obs (KGetConnector "c" "test") (inl no_table)]
    (Some (inr false)).
Proof.
  assert (N : "c" <> EmptyString) by discriminate.
  exact (proj1 (proj2 (proj2 (proj2 (missing_connector_is_no_error "c" "test" no_table))) N)).
Defined.

End ConnectProps.
