(* ===== verification/Rendering.v ===== *)
(** * The default connector

    The default connector template (config/defaults.go) rendered with the
    parameters of connect.go, and the configuration that JSON decoding makes of
    the text. [Rendering] has the parts: the removal of line breaks, strings
    that JSON shows as they are, execution of ranges, and the members that the
    template writes; [RenderingProps] what a connector of the default template
    is configured with. *)

From Stdlib Require Import ZArith Lia Ascii String.
From stdpp Require Import sorting.
From S2P Require Import Prelude GoStd Float GoJson Lang K8sLib JsonDecode Template Defaults Api State Utils Config Effects Connect.
Import Config Connect Json JsonDecode.

Module Rendering.

(** ** Line breaks *)

(** strings.ReplaceAll(s, newline, empty string) *)
Fixpoint strip (s : string) : string :=
  match s with
  | EmptyString => EmptyString
  | String c s' => if Ascii.eqb c "010" then strip s' else String c (strip s')
  end.

Lemma ReplaceAll_newline (s : string) : Strings.ReplaceAll s newline EmptyString = strip s.
Proof.
  unfold Strings.ReplaceAll. assert (H : (-1 < 0)%Z) by lia. revert H. generalize (-1)%Z.
  induction s as [|c s IH]; intros n Hn; [done|]. cbn [Strings.replace_from strip].
  rewrite (proj2 (Z.eqb_neq n 0)) by lia. cbn [negb andb newline String.prefix].
  destruct (ascii_dec "010" c) as [<-|N].
  - change (Ascii.eqb "010" "010") with true. cbn iota.
    assert (E : match s with EmptyString => true | String _ _ => true end = true) by by destruct s.
    destruct s; cbn iota; cbn [String.length Nat.sub String.append]; rewrite IH by lia; done.
  - rewrite (proj2 (Ascii.eqb_neq c "010")) by congruence. by rewrite IH.
Qed.

Lemma strip_text_app a b : strip (a +s+ b) = strip a +s+ strip b.
Proof.
  induction a as [|c a IH]; [done|]. cbn [String.append strip].
  destruct (Ascii.eqb c "010"); [exact IH|]. cbn [String.append]. by rewrite IH.
Qed.

Lemma strip_cat l : strip (cat l) = cat (strip <$> l).
Proof. induction l as [|s l IH]; [done|]. cbn [cat fmap list_fmap]. by rewrite strip_text_app, IH. Qed.

(** ** Strings that JSON shows as they are *)

Definition plain_text (s : string) : Prop := utf8_text s /\ all_chars verbatim s = true.

Definition plain_ascii (c : ascii) : bool := verbatim c && (byte_of c <? 128)%Z.

Lemma plain_of_ascii s : all_chars plain_ascii s = true -> plain_text s.
Proof.
  induction s as [|c s IH]; cbn [all_chars]; [by split; [constructor|]|].
  intros [[Hv Hb]%andb_prop H]%andb_prop. destruct (IH H) as [U V].
  split; [apply utf8_1; [by apply Z.ltb_lt|done]|cbn [all_chars]; by rewrite Hv, V].
Qed.

Lemma all_chars_app f a b : all_chars f (a +s+ b) = all_chars f a && all_chars f b.
Proof. induction a as [|c a IH]; [done|]. cbn [String.append all_chars]. by rewrite IH, andb_assoc. Qed.

Lemma plain_app a b : plain_text a -> plain_text b -> plain_text (a +s+ b).
Proof.
  intros [Ua Va] [Ub Vb]. split; [|by rewrite all_chars_app, Va, Vb].
  clear Va Vb. induction Ua; cbn [String.append]; try done; by constructor.
Qed.

Lemma strip_plain s : plain_text s -> strip s = s.
Proof.
  intros [_ V]. induction s as [|c s IH]; [done|]. cbn [all_chars strip] in *.
  apply andb_prop in V as [Vc V]. rewrite IH by done.
  destruct (Ascii.eqb_spec c "010") as [->|]; [by vm_compute in Vc|done].
Qed.

Lemma plain_FormatInt z : plain_text (Strconv.FormatInt z).
Proof.
  assert (U : forall d, all_chars plain_ascii (DecimalString.NilEmpty.string_of_uint d) = true)
    by (induction d; [done|exact IHd..]).
  apply plain_of_ascii. unfold Strconv.FormatInt. destruct (Z.to_int z) as [d|d]; simpl.
  - destruct d; try done; apply (U _).
  - destruct d; try done; apply (U _).
Qed.

(** A change of single bytes that keeps plain bytes plain *)
Fixpoint map_chars (f : ascii -> ascii) (s : string) : string :=
  match s with EmptyString => EmptyString | String c s' => String (f c) (map_chars f s') end.

Lemma plain_map f s :
  (forall c, plain_ascii c = true -> plain_ascii (f c) = true) ->
  (forall c, (128 <= byte_of c)%Z -> f c = c) ->
  plain_text s -> plain_text (map_chars f s).
Proof.
  intros F1 F2 [U V].
  assert (K : forall c, (byte_of c < 128)%Z -> verbatim c = true ->
            (byte_of (f c) < 128)%Z /\ verbatim (f c) = true).
  { intros c B Vc. specialize (F1 c). unfold plain_ascii in F1.
    rewrite Vc, (proj2 (Z.ltb_lt _ _) B) in F1. specialize (F1 eq_refl).
    apply andb_prop in F1 as [? ?%Z.ltb_lt]. done. }
  induction U as [|c1 s H U IH|c1 c2 s H U IH|c1 c2 c3 s H U IH|c1 c2 c3 c4 s H U IH];
    cbn [all_chars map_chars] in *; [by split; [constructor|]|..];
    repeat match goal with H : (_ && _)%bool = true |- _ => apply andb_prop in H as [? ?] end;
    (destruct IH as [IU IV]; [done|]).
  - destruct (K c1) as [K1 K2]; [done..|]. split; [by apply utf8_1|].
    cbn [all_chars]. by rewrite K2, IV.
  - assert (128 <= byte_of c1 /\ 128 <= byte_of c2)%Z as [? ?]
      by (unfold valid2 in H; by_bytes; lia).
    rewrite !F2 by done. split; [by apply utf8_2|]. cbn [all_chars].
    rewrite IV. by repeat match goal with H : verbatim _ = true |- _ => rewrite H; clear H end.
  - assert (128 <= byte_of c1 /\ 128 <= byte_of c2 /\ 128 <= byte_of c3)%Z as (? & ? & ?)
      by (unfold valid3 in H; by_bytes; lia).
    rewrite !F2 by done. split; [by apply utf8_3|]. cbn [all_chars].
    rewrite IV. by repeat match goal with H : verbatim _ = true |- _ => rewrite H; clear H end.
  - assert (128 <= byte_of c1 /\ 128 <= byte_of c2 /\ 128 <= byte_of c3 /\ 128 <= byte_of c4)%Z
      as (? & ? & ? & ?) by (unfold valid4 in H; by_bytes; lia).
    rewrite !F2 by done. split; [by apply utf8_4|]. cbn [all_chars].
    rewrite IV. by repeat match goal with H : verbatim _ = true |- _ => rewrite H; clear H end.
Qed.

Definition underscore (c : ascii) : ascii := if Ascii.eqb c "-" then "_"%char else c.

Lemma ReplaceAll_dash (s : string) : Strings.ReplaceAll s "-" "_" = map_chars underscore s.
Proof.
  unfold Strings.ReplaceAll. assert (H : (-1 < 0)%Z) by lia. revert H. generalize (-1)%Z.
  induction s as [|c s IH]; intros n Hn; [done|]. cbn [Strings.replace_from map_chars].
  rewrite (proj2 (Z.eqb_neq n 0)) by lia. cbn [negb andb String.prefix]. unfold underscore at 1.
  destruct (ascii_dec "-" c) as [<-|N].
  - change (Ascii.eqb "-" "-") with true. cbn iota.
    destruct s; cbn iota; cbn [String.length Nat.sub String.append]; by rewrite IH by lia.
  - rewrite (proj2 (Ascii.eqb_neq c "-")) by congruence. by rewrite IH.
Qed.

Lemma ToUpper_map (s : string) : Strings.ToUpper s = map_chars Strings.upper_byte s.
Proof. induction s as [|c s IH]; [done|]. cbn [Strings.ToUpper map_chars]. by rewrite IH. Qed.

Lemma each_byte (P : ascii -> bool) : forallb P (ascii_of_nat <$> seq 0 256) = true -> forall c, P c = true.
Proof.
  intros H c. rewrite forallb_forall in H. apply H. apply list_elem_of_In, list_elem_of_fmap.
  exists (nat_of_ascii c). split; [by rewrite ascii_nat_embedding|].
  apply elem_of_seq. pose proof (nat_ascii_bounded c). lia.
Qed.

(** The name of the application in upper case, as part of variable names *)
Lemma plain_env s : plain_text s -> plain_text (Strings.ToUpper (Strings.ReplaceAll s "-" "_")).
Proof.
  assert (B : forall f, forallb (fun c => implb (plain_ascii c) (plain_ascii (f c)) &&
      (implb (128 <=? byte_of c)%Z (Ascii.eqb (f c) c))) (ascii_of_nat <$> seq 0 256) = true ->
    forall s, plain_text s -> plain_text (map_chars f s)).
  { intros f H s' P. pose proof (each_byte _ H) as E. apply plain_map; [| |done]; intros c Hc;
      specialize (E c); apply andb_prop in E as [E1 E2].
    - by rewrite Hc in E1.
    - rewrite (proj2 (Z.leb_le _ _) Hc) in E2. by apply Ascii.eqb_eq. }
  intros P. rewrite ToUpper_map, ReplaceAll_dash.
  apply B; [vm_compute; reflexivity|]. apply B; [vm_compute; reflexivity|done].
Qed.

(** ** The parsed template *)

Definition connector_ast : list Tmpl.node :=
  Eval vm_compute in
    match Tmpl.parse Defaults.defaultConnectorTemplate with Some l => l | None => [] end.

Lemma connector_parse : Tmpl.parse Defaults.defaultConnectorTemplate = Some connector_ast.
Proof. vm_compute. reflexivity. Qed.

(** The nodes before the first if or range, and the others *)
Fixpoint straight (l : list Tmpl.node) : list Tmpl.node * list Tmpl.node :=
  match l with
  | [] | Tmpl.NIf _ _ _ :: _ | Tmpl.NRange _ _ _ _ :: _ => ([], l)
  | n :: l => let '(a, b) := straight l in (n :: a, b)
  end.

Definition head_ast : list Tmpl.node := Eval vm_compute in (straight connector_ast).1.
Definition tail_ast : list Tmpl.node :=
  Eval vm_compute in List.tl (straight (List.tl (straight connector_ast).2)).2.

(** What a template is executed on *)
Record params := {
  pTable : string; pTopic : string; pPort : string; pHost : string; pName : string;
  pUser : string; pPassword : string; pFilters : list (gmap string string); pTasks : string;
  pBatch : string; pAge : string; pInsights : bool; pAllow : string; pSSL : string;
  pCert : string; pFactor : Z; pQueue : string
}.

Definition data_of (table topic port host name user password : string) (filters : gvalue)
    (tasks batch age insights allow ssl cert factor queue : string) : gvalue :=
  GMap [("TableName", GString table); ("Topic", GString topic);
        ("DBPort", GString port); ("DBHostname", GString host);
        ("DBName", GString name); ("DBUser", GString user);
        ("DBPassword", GString password);
        ("AdditionalFilters", filters);
        ("TasksMax", GString tasks); ("BatchSize", GString batch);
        ("MaxAge", GString age); ("InsightsOnly", GString insights);
        ("AllowlistSP", GString allow); ("SSLMode", GString ssl);
        ("SSLRootCert", GString cert);
        ("TopicReplicationFactor", GString factor);
        ("DeadLetterQueueTopicName", GString queue)].

Definition data (p : params) : gvalue :=
  data_of (pTable p) (pTopic p) (pPort p) (pHost p) (pName p) (pUser p) (pPassword p)
    (GSlice (string_map <$> pFilters p)) (pTasks p) (pBatch p) (pAge p)
    (Strconv.FormatBool (pInsights p)) (pAllow p) (pSSL p) (pCert p)
    (Strconv.FormatInt (pFactor p)) (pQueue p).

Definition params_of (ephemeral : bool) (c : ConnectorConfiguration) : params :=
  let app := Strings.ToUpper (Strings.ReplaceAll (ccAppName c) "-" "_") in
  let db suffix (v : string) := if ephemeral then v else "${env:" +s+ app +s+ suffix +s+ "}" in
  {| pTable := ccTableName c; pTopic := ccTopic c;
     pPort := db "_DB_PORT" (Port (DB c)); pHost := db "_DB_HOSTNAME" (Host (DB c));
     pName := db "_DB_NAME" (DBName (DB c)); pUser := db "_DB_USERNAME" (User (DB c));
     pPassword := db "_DB_PASSWORD" (Password (DB c));
     pFilters := ccAdditionalFilters c; pTasks := Strconv.FormatInt (TasksMax c);
     pBatch := Strconv.FormatInt (BatchSize c); pAge := Strconv.FormatInt (ccMaxAge c);
     pInsights := ccInsightsOnly c; pAllow := AllowlistSystemProfile c;
     pSSL := SSLMode (DB c); pCert := SSLRootCert (DB c);
     pFactor := ccTopicReplicationFactor c; pQueue := ccDeadLetterQueueTopicName c |}.

Lemma template_values_data ephemeral c :
  template_values ephemeral c = data (params_of ephemeral c).
Proof. by destruct ephemeral. Qed.

(** ** The members that the template writes *)

Definition tab : string := String "009" EmptyString.

(** A string member, with a blank after the colon or without one; in pieces *)
Definition str (k x : string) : string + jmember :=
  inr (JMember tab k " " [Json.dquote; x; Json.dquote] (GString x)).
Definition str' (k x : string) : string + jmember :=
  inr (JMember tab k EmptyString [Json.dquote; x; Json.dquote] (GString x)).
Definition strs (k : string) (l : list string) : string + jmember :=
  inr (JMember tab k " " (Json.dquote :: l ++ [Json.dquote]) (GString (cat l))).
Definition boolean (w k : string) (b : bool) : string + jmember :=
  inr (JMember tab k w [Json.MarshalBool b] (GBool b)).
Definition int (k : string) (z : Z) : string + jmember :=
  inr (JMember tab k " " [Strconv.FormatInt z] (GFloat64 (Float64.of_int z))).
Definition text (k x : string) : string + jmember :=
  inr (JMember tab k " " [Json.MarshalString x] (GString (sanitize x))).
Definition blank : string + jmember := inl tab.

Definition head_stream (p : params) : stream := [
  str "connector.class" "io.confluent.connect.jdbc.JdbcSinkConnector";
  str "tasks.max" (pTasks p);
  str "topics" (pTopic p);
  str "key.converter" "org.apache.kafka.connect.storage.StringConverter";
  str "value.converter" "org.apache.kafka.connect.json.JsonConverter";
  boolean " " "value.converter.schemas.enable" false;
  strs "connection.url" ["jdbc:postgresql://"; pHost p; ":"; pPort p; "/"; pName p;
    "?sslmode="; pSSL p; "&sslrootcert="; pCert p];
  str "connection.user" (pUser p);
  str "connection.password" (pPassword p);
  str "dialect.name" "EnhancedPostgreSqlDatabaseDialect";
  boolean " " "auto.create" false;
  str "insert.mode" "upsert";
  boolean " " "delete.enabled" true;
  str "batch.size" (pBatch p);
  strs "table.name.format" ["inventory."; pTable p];
  str "pk.mode" "record_key";
  str "pk.fields" "id";
  str "fields.whitelist" "account,org_id,display_name,tags,updated,created,last_check_in,stale_timestamp,system_profile,insights_id,reporter,per_reporter_staleness,groups";
  blank].

#[local] Existing Instance Tmpl.entry_le_dec.

(** The entries of a filter in the order of their keys, and its name *)
Definition entries (f : gmap string string) : list (string * string) :=
  (fun kv => (kv.1, match kv.2 with GString s => s | _ => EmptyString end)) <$>
    merge_sort Tmpl.entry_le (prod_map id GString <$> map_to_list f).

Definition filter_name (f : gmap string string) : string :=
  match f !! "name" with Some n => n | None => "<no value>" end.

(** name and where do not configure a transformation. *)
Definition transform_key (k : string) : bool := negb (String.eqb k "name") && negb (String.eqb k "where").

Definition transform (n k : string) : string := "transforms." +s+ n +s+ "." +s+ k.

Definition entry_stream (n : string) (kv : string * string) : stream :=
  blank :: (if transform_key kv.1 then [str' (transform n kv.1) kv.2; blank] else []) ++ [blank].

Definition filter_stream (f : gmap string string) : stream :=
  blank :: List.concat (List.map (entry_stream (filter_name f)) (entries f)) ++ [blank].

Definition names (fs : list (gmap string string)) : string :=
  cat (List.map (fun f => filter_name f +s+ ",") fs).

Definition chain : string :=
  "deleteToTombstone,extractHost,systemProfileFilter,systemProfileToJson,tagsToJson,perReporterStalenessToJson,groupsToJson,injectSchemaKey,injectSchemaValue".

Definition transforms_stream (p : params) : stream :=
  if pInsights p then [
    strs "transforms" ["timestampFilter,insightsFilter,"; names (pFilters p); chain];
    str' "transforms.insightsFilter.type" "com.redhat.insights.kafka.connect.transforms.Filter";
    str "transforms.insightsFilter.if" "record.headers().lastWithName('insights_id').value() && record.headers().lastWithName('insights_id').value() != '00000000-0000-0000-0000-000000000000'";
    blank]
  else [
    strs "transforms" ["timestampFilter,"; names (pFilters p); chain];
    blank].

Definition key_schema : string := Defaults.quoted
  "{`type`:`string`,`optional`:false, `name`: `com.redhat.cloud.inventory.syndication.pgtype=uuid`}".

(** A field of the schema of the values *)
Definition schema_field (optional : bool) (name type : string) : string := Defaults.quoted
  ("{`type`:`string`,`optional`:" +s+ Json.MarshalBool optional +s+ ",`field`:`" +s+ name +s+ "`" +s+
   (if String.eqb type "" then "" else ", `name`: `com.redhat.cloud.inventory.syndication.pgtype=" +s+ type +s+ "`") +s+ "}").

Definition value_schema : string := Defaults.quoted
  ("{`type`:`struct`,`fields`:[" +s+
   Strings.Join [schema_field true "account" ""; schema_field true "org_id" "";
     schema_field false "display_name" ""; schema_field false "tags" "jsonb";
     schema_field false "updated" "timestamptz"; schema_field false "created" "timestamptz";
     schema_field false "last_check_in" "timestamptz";
     schema_field false "stale_timestamp" "timestamptz";
     schema_field false "system_profile" "jsonb"; schema_field true "insights_id" "";
     schema_field false "reporter" ""; schema_field false "per_reporter_staleness" "jsonb";
     schema_field true "groups" "jsonb"] "," +s+ "],`optional`:false}").

Definition to_json (name field : string) : stream :=
  let t s := "transforms." +s+ name +s+ "." +s+ s in [
  str (t "type") "com.redhat.insights.kafka.connect.transforms.FieldToJson$Value";
  str (t "originalField") field;
  str (t "destinationField") field].

Definition tail_stream (p : params) : stream := [
  str' "transforms.timestampFilter.type" "com.redhat.insights.kafka.connect.transforms.Filter";
  strs "transforms.timestampFilter.if"
    ["(Date.now() - record.timestamp()) < "; pAge p; " * 24 * 60 * 60 * 1000"];
  str' "transforms.deleteToTombstone.type" "com.redhat.insights.kafka.connect.transforms.DropIf$Value";
  str "transforms.deleteToTombstone.if" "'delete'.equals(record.headers().lastWithName('event_type').value())";
  str' "transforms.extractHost.type" "org.apache.kafka.connect.transforms.ExtractField$Value";
  str' "transforms.extractHost.field" "host";
  str "transforms.systemProfileFilter.type" "com.redhat.insights.kafka.connect.transforms.FilterFields$Value";
  str "transforms.systemProfileFilter.field" "system_profile";
  str "transforms.systemProfileFilter.allowlist" (pAllow p)] ++
  to_json "systemProfileToJson" "system_profile" ++
  to_json "tagsToJson" "tags" ++
  to_json "perReporterStalenessToJson" "per_reporter_staleness" ++
  to_json "groupsToJson" "groups" ++ [
  str "transforms.injectSchemaKey.type" "com.redhat.insights.kafka.connect.transforms.InjectSchema$Key";
  text "transforms.injectSchemaKey.schema" key_schema;
  str "transforms.injectSchemaValue.type" "com.redhat.insights.kafka.connect.transforms.InjectSchema$Value";
  text "transforms.injectSchemaValue.schema" value_schema;
  str "errors.tolerance" "all";
  str "errors.deadletterqueue.topic.name" (pQueue p);
  int "errors.deadletterqueue.topic.replication.factor" (pFactor p);
  boolean "" "errors.deadletterqueue.context.headers.enable" true;
  int "errors.retry.delay.max.ms" 60000;
  int "errors.retry.timeout" 600000;
  boolean "" "errors.log.enable" true;
  boolean "" "errors.log.include.messages" true;
  int "connection.attempts" 60].

Definition last_member : jmember :=
  JMember tab "connection.backoff.ms" " " [Strconv.FormatInt 10000] (GFloat64 (Float64.of_int 10000)).

Definition connector_stream (p : params) : stream :=
  head_stream p ++ List.concat (List.map filter_stream (pFilters p)) ++
  [blank] ++ transforms_stream p ++ tail_stream p.

(** The configuration that the template describes *)
Definition connector_config (p : params) : list (string * gvalue) :=
  store (stored (connector_stream p) []) last_member.

(** ** The text that the template writes *)

Record plain_params (p : params) : Prop := {
  pp_table : plain_text (pTable p); pp_topic : plain_text (pTopic p);
  pp_port : plain_text (pPort p); pp_host : plain_text (pHost p); pp_name : plain_text (pName p);
  pp_user : plain_text (pUser p); pp_password : plain_text (pPassword p);
  pp_filters f k v : f ∈ pFilters p -> f !! k = Some v -> plain_text k /\ plain_text v;
  pp_tasks : plain_text (pTasks p); pp_batch : plain_text (pBatch p); pp_age : plain_text (pAge p);
  pp_allow : plain_text (pAllow p); pp_ssl : plain_text (pSSL p); pp_cert : plain_text (pCert p);
  pp_factor : Int64.in_range (pFactor p); pp_queue : plain_text (pQueue p)
}.

(** The lines of a list of nodes without line breaks *)
Definition output (dot : gvalue) (env : Tmpl.vars) (ns : list Tmpl.node) : option string :=
  (fun l => strip (cat l)) <$> Tmpl.exec_nodes dot env ns.

(** Execute nodes on known data with unknown strings, which are plain. *)
Ltac exec_tac :=
  match goal with
  | |- (fun l => strip (cat l)) <$> ?e = _ =>
      let v := eval vm_compute in e in
      replace e with v by (vm_compute; reflexivity)
  end;
  cbn [fmap option_fmap option_map]; rewrite strip_cat; cbn [fmap list_fmap];
  repeat match goal with
  | H : plain_text ?x |- context [strip ?x] => rewrite (strip_plain x H)
  end.

Ltac open_params p :=
  destruct p; cbn [pTable pTopic pPort pHost pName pUser pPassword
    pTasks pBatch pAge pInsights pAllow pSSL pCert pFactor pQueue pFilters] in *.

Lemma head_output p env : plain_params p ->
  output (data p) env head_ast = Some ("{" +s+ stream_text (head_stream p)).
Proof.
  intros []. unfold output, data. open_params p.
  generalize (GSlice (string_map <$> pFilters0)) (Strconv.FormatBool pInsights0)
    (Strconv.FormatInt pFactor0). intros fl ins fac. unfold head_stream.
  exec_tac. rewrite <- (append_nil_r (stream_text _)), <- stream_then_eq. vm_compute. reflexivity.
Qed.

Lemma tail_output p env : plain_params p ->
  output (data p) env tail_ast =
    Some (stream_text (tail_stream p) +s+ jm_string last_member +s+ "}").
Proof.
  intros []. unfold output, data. pose proof (plain_FormatInt (pFactor p)) as pp_fac. open_params p.
  generalize (GSlice (string_map <$> pFilters0)) (Strconv.FormatBool pInsights0). intros fl ins.
  remember (Strconv.FormatInt pFactor0) as fac eqn:Ef. unfold tail_stream.
  exec_tac. rewrite Ef. clear. rewrite <- jm_then_eq, <- stream_then_eq. vm_compute. reflexivity.
Qed.

(** *** The entries of the filters *)

Definition line : string := String "010" tab.

(** The nodes inside the two ranges over the filters *)
Definition filters_ast : Tmpl.node :=
  Eval vm_compute in List.hd (Tmpl.NText "") (straight connector_ast).2.
Definition filter_body : list Tmpl.node :=
  Eval vm_compute in match filters_ast with Tmpl.NRange _ _ b _ => b | _ => [] end.
Definition entry_body : list Tmpl.node :=
  Eval vm_compute in
    match filter_body with _ :: Tmpl.NRange _ _ b _ :: _ => b | _ => [] end.

Definition entry_output (n : string) (kv : string * string) : list string :=
  line :: (if transform_key kv.1
           then [line +s+ Json.dquote +s+ "transforms."; n; "."; kv.1;
                 Json.dquote +s+ ":" +s+ Json.dquote; kv.2; Json.dquote +s+ "," +s+ line]
           else []) ++ [line].

Lemma entry_exec (f : gmap string string) k v env :
  Tmpl.exec_nodes (GString v)
    (("value", GString v) :: ("key", GString k) :: ("element", string_map f) :: env) entry_body =
  Some (entry_output (filter_name f) (k, v)).
Proof.
  unfold entry_body. cbn [Tmpl.exec_nodes]. rewrite Tmpl.exec_if.
  unfold entry_output, transform_key. cbn [fst snd].
  assert (E : forall n, n = filter_name f ->
    Tmpl.eval (GString v) (("value", GString v) :: ("key", GString k) :: ("element", string_map f) :: env)
      (Tmpl.EVar "element" ["name"]) ≫= Tmpl.print = Some n).
  { intros n ->. cbn [Tmpl.eval massoc]. cbn [String.eqb Ascii.eqb Bool.eqb].
    cbn [Tmpl.at_path string_map]. rewrite massoc_string_map. unfold filter_name.
    by destruct (f !! "name"). }
  destruct (String.eqb k "name") eqn:E1, (String.eqb k "where") eqn:E2;
    cbn [Tmpl.eval massoc mbind option_bind Tmpl.string_of Tmpl.at_path];
    cbn [String.eqb Ascii.eqb Bool.eqb]; cbn [Tmpl.at_path mbind option_bind Tmpl.string_of];
    rewrite ?E1, ?E2; cbn [negb andb Tmpl.truth Bool.eqb]; try reflexivity.
  cbn [Tmpl.exec_nodes Tmpl.exec]. rewrite (E _ eq_refl). reflexivity.
Qed.

(** The entries are those of the map. *)
Lemma entries_sorted (f : gmap string string) :
  merge_sort Tmpl.entry_le (prod_map id GString <$> map_to_list f) = prod_map id GString <$> entries f.
Proof.
  unfold entries. rewrite <- list_fmap_compose. symmetry. rewrite <- (list_fmap_id (merge_sort _ _)) at 2.
  apply list_fmap_ext. intros i [k v] E%list_elem_of_lookup_2.
  rewrite merge_sort_Permutation in E. apply list_elem_of_fmap in E as ([k' v'] & [= -> ->] & _). done.
Qed.

Lemma elem_of_entries f k v : (k, v) ∈ entries f <-> f !! k = Some v.
Proof.
  rewrite <- elem_of_map_to_list. split; intros I.
  - assert (J : prod_map id GString (k, v) ∈ prod_map id GString <$> entries f)
      by (by apply list_elem_of_fmap_2).
    rewrite <- entries_sorted, merge_sort_Permutation in J.
    apply list_elem_of_fmap in J as ([k' v'] & [= -> ->] & ?). done.
  - assert (J : prod_map id GString (k, v) ∈ prod_map id GString <$> map_to_list f)
      by (by apply list_elem_of_fmap_2).
    rewrite <- (merge_sort_Permutation Tmpl.entry_le), entries_sorted in J.
    apply list_elem_of_fmap in J as ([k' v'] & [= -> ->] & ?). done.
Qed.

Definition filter_output (f : gmap string string) : list string :=
  line :: List.concat (List.map (entry_output (filter_name f)) (entries f)) ++ [line].

Lemma filter_exec (f : gmap string string) env :
  Tmpl.exec_nodes (string_map f) (("element", string_map f) :: env) filter_body = Some (filter_output f).
Proof.
  change filter_body with
    [Tmpl.NText line; Tmpl.NRange ["key"; "value"] (Tmpl.EVar "element" []) entry_body []; Tmpl.NText line].
  cbn [Tmpl.exec_nodes].
  set (g := fun kv : gvalue * gvalue => match kv with
            | (GString k, GString v) => entry_output (filter_name f) (k, v)
            | _ => []
            end).
  rewrite (Tmpl.exec_range _ _ _ _ _
    ((fun kv => (GString kv.1, GString kv.2)) <$> entries f) g).
  - unfold filter_output. cbn [Tmpl.exec app].
    assert (M : List.map g ((fun kv => (GString kv.1, GString kv.2)) <$> entries f) =
                List.map (entry_output (filter_name f)) (entries f)).
    { clear. induction (entries f) as [|[k v] l IH]; [done|].
      rewrite fmap_cons. cbn [List.map fst snd]. by rewrite <- IH. }
    by rewrite M.
  - cbn [Tmpl.eval massoc]. cbn [String.eqb Ascii.eqb Bool.eqb]. cbn [Tmpl.at_path mbind option_bind].
    unfold string_map. cbn [Tmpl.visits]. f_equal. rewrite entries_sorted, <- list_fmap_compose.
    by apply list_fmap_ext.
  - intros k v ([k' v'] & [= -> ->] & _)%list_elem_of_fmap. cbn [Tmpl.bind_vars g]. apply entry_exec.
Qed.

(** The lines of all filters *)
Lemma filters_exec p env :
  Tmpl.exec (data p) env filters_ast =
    Some (List.concat (List.map filter_output (pFilters p))).
Proof.
  change filters_ast with
    (Tmpl.NRange ["element"] (Tmpl.EField ["AdditionalFilters"]) filter_body []).
  set (g := fun kv : gvalue * gvalue =>
    match Tmpl.exec_nodes kv.2 (("element", kv.2) :: env) filter_body with Some l => l | None => [] end).
  rewrite (Tmpl.exec_range _ _ _ _ _
    (imap (fun i x => (GInt64 (Z.of_nat i), x)) (string_map <$> pFilters p)) g); [|done|].
  - f_equal. f_equal.
    assert (M : forall h : nat -> gvalue -> gvalue * gvalue, (forall i x, (h i x).2 = x) ->
      List.map g (imap h (string_map <$> pFilters p)) = List.map filter_output (pFilters p));
      [|by apply M].
    intros h Hh. induction (pFilters p) as [|f fs IH] in h, Hh |- *; [done|].
    cbn [fmap list_fmap imap List.map]. rewrite IH by (intros; apply Hh).
    unfold g at 1. by rewrite Hh, filter_exec.
  - intros k v (i & x & [= -> ->] & E%list_elem_of_lookup_2)%elem_of_lookup_imap_1.
    apply list_elem_of_fmap in E as (f & -> & _). unfold g. cbn [snd Tmpl.bind_vars].
    by rewrite filter_exec.
Qed.

Definition plain_filter (f : gmap string string) : Prop :=
  forall k v, f !! k = Some v -> plain_text k /\ plain_text v.

Lemma plain_name f : plain_filter f -> plain_text (filter_name f).
Proof.
  intros P. unfold filter_name. destruct (f !! "name") as [n|] eqn:E; [by apply (P "name")|].
  apply plain_of_ascii. vm_compute. reflexivity.
Qed.

Lemma entry_text n k v : plain_text n -> plain_text k -> plain_text v ->
  strip (cat (entry_output n (k, v))) = stream_text (entry_stream n (k, v)).
Proof.
  intros Pn Pk Pv. unfold entry_output, entry_stream. cbn [fst snd].
  rewrite <- (append_nil_r (stream_text _)), <- stream_then_eq.
  destruct (transform_key k); cbn [app]; rewrite strip_cat; cbn [fmap list_fmap];
    rewrite ?(strip_plain n), ?(strip_plain k), ?(strip_plain v) by done; [|reflexivity].
  unfold transform. cbn [stream_then blank str' cat]. unfold jm_then.
  cbn [jm_pre jm_key jm_mid jm_text cat_then]. rewrite !append_assoc. reflexivity.
Qed.

Lemma strip_concat {A} (f : A -> list string) (g : A -> stream) (l : list A) :
  (forall x, x ∈ l -> strip (cat (f x)) = stream_text (g x)) ->
  strip (cat (List.concat (List.map f l))) = stream_text (List.concat (List.map g l)).
Proof.
  induction l as [|x l IH]; intros H; [done|]. cbn [List.map List.concat].
  rewrite cat_app, strip_text_app, stream_text_app, IH by (intros; apply H; by right).
  by rewrite H by left.
Qed.

Lemma filter_text f : plain_filter f -> strip (cat (filter_output f)) = stream_text (filter_stream f).
Proof.
  intros P. unfold filter_output, filter_stream. cbn [cat stream_text].
  rewrite strip_text_app, cat_app, strip_text_app, stream_text_app.
  rewrite (strip_concat _ (entry_stream (filter_name f))); [reflexivity|].
  intros [k v] I%elem_of_entries. destruct (P k v I). by apply entry_text; [apply plain_name|..].
Qed.

(** *** The chain of transformations *)

Definition transforms_ast : Tmpl.node :=
  Eval vm_compute in
    List.hd (Tmpl.NText "") (straight (List.tl (straight connector_ast).2)).2.

Definition names_ast : Tmpl.node :=
  Tmpl.NRange ["element"] (Tmpl.EField ["AdditionalFilters"])
    [Tmpl.NText ""; Tmpl.NAction (Tmpl.EVar "element" ["name"]); Tmpl.NText ","] [].

Lemma names_exec p env :
  exists l, Tmpl.exec (data p) env names_ast = Some l /\ cat l = names (pFilters p).
Proof.
  set (g := fun kv : gvalue * gvalue => [EmptyString;
    match kv.2 with GMap m => match massoc "name" m with Some (GString s) => s | _ => "<no value>" end
                  | _ => EmptyString end; ","]).
  exists (List.concat (List.map g (imap (fun i x => (GInt64 (Z.of_nat i), x)) (string_map <$> pFilters p)))).
  split.
  - apply Tmpl.exec_range; [done|].
    intros k v (i & x & [= -> ->] & E%list_elem_of_lookup_2)%elem_of_lookup_imap_1.
    apply list_elem_of_fmap in E as (f & -> & _). cbn [Tmpl.bind_vars Tmpl.exec_nodes Tmpl.exec].
    cbn [Tmpl.eval massoc]. cbn [String.eqb Ascii.eqb Bool.eqb]. unfold g. cbn [snd string_map Tmpl.at_path].
    rewrite massoc_string_map. by destruct (f !! "name").
  - assert (M : forall h : nat -> gvalue -> gvalue * gvalue, (forall i x, (h i x).2 = x) ->
      cat (List.concat (List.map g (imap h (string_map <$> pFilters p)))) = names (pFilters p));
      [|by apply M].
    intros h Hh. unfold names. induction (pFilters p) as [|f fs IH] in h, Hh |- *; [done|].
    cbn [fmap list_fmap imap List.map List.concat]. rewrite cat_app, IH by (intros; apply Hh).
    unfold g at 1. rewrite Hh. cbn [string_map]. rewrite massoc_string_map. cbn [cat].
    rewrite !append_assoc. unfold filter_name. by destruct (f !! "name").
Qed.

Lemma plain_names fs : (forall f, f ∈ fs -> plain_filter f) -> plain_text (names fs).
Proof.
  unfold names. induction fs as [|f fs IH]; intros P; cbn [List.map cat];
    [by apply plain_of_ascii|].
  apply plain_app; [|by apply IH; intros; apply P; right].
  apply plain_app; [apply plain_name, P; left|by apply plain_of_ascii].
Qed.

Lemma transforms_output p env : plain_params p ->
  output (data p) env [transforms_ast] = Some (stream_text (transforms_stream p)).
Proof.
  intros Pp. pose proof (plain_names (pFilters p) (fun f I k v => pp_filters p Pp f k v I)) as Pn.
  destruct (names_exec p env) as (l & En & El).
  unfold output, transforms_ast. cbn [Tmpl.exec_nodes]. rewrite Tmpl.exec_if.
  unfold transforms_stream.
  assert (C : Tmpl.eval (data p) env
    (Tmpl.ECall Tmpl.FEq [Tmpl.EField ["InsightsOnly"]; Tmpl.EString "true"]) ≫= Tmpl.truth =
    Some (pInsights p)) by (cbn; by destruct (pInsights p)).
  rewrite C. rewrite <- (append_nil_r (stream_text _)), <- stream_then_eq.
  destruct (pInsights p); cbn [Tmpl.exec_nodes]; fold names_ast; rewrite En; cbn [Tmpl.exec app];
    cbn [fmap option_fmap option_map]; f_equal; rewrite app_nil_r; cbn [cat]; rewrite strip_text_app, cat_app, strip_text_app, El, (strip_plain _ Pn);
    vm_compute; reflexivity.
Qed.

(** ** What the decoder makes of it *)

Lemma connector_ast_parts :
  connector_ast = head_ast ++ [filters_ast] ++ [Tmpl.NText (String "010" line)] ++ [transforms_ast] ++ tail_ast.
Proof. reflexivity. Qed.

Lemma output_app dot env a b x y :
  output dot env a = Some x -> output dot env b = Some y -> output dot env (a ++ b) = Some (x +s+ y).
Proof.
  unfold output. rewrite Tmpl.exec_nodes_app.
  destruct (Tmpl.exec_nodes dot env a), (Tmpl.exec_nodes dot env b); try done.
  intros [= <-] [= <-]. cbn [fmap option_fmap option_map]. by rewrite cat_app, strip_text_app.
Qed.

Lemma connector_output p env : plain_params p ->
  output (data p) env connector_ast =
    Some ("{" +s+ stream_text (connector_stream p) +s+ jm_string last_member +s+ "}").
Proof.
  intros P. rewrite connector_ast_parts.
  assert (F : output (data p) env [filters_ast] =
    Some (stream_text (List.concat (List.map filter_stream (pFilters p))))).
  { unfold output. cbn [Tmpl.exec_nodes]. rewrite filters_exec.
    cbn [fmap option_fmap option_map]. rewrite app_nil_r. f_equal.
    apply strip_concat. intros f I. apply filter_text. intros k v. by apply (pp_filters p P). }
  assert (G : output (data p) env [Tmpl.NText (String "010" line)] = Some tab) by reflexivity.
  rewrite (output_app _ _ _ _ _ _ (head_output p env P)
    (output_app _ _ _ _ _ _ F (output_app _ _ _ _ _ _ G
      (output_app _ _ _ _ _ _ (transforms_output p env P) (tail_output p env P))))).
  unfold connector_stream. rewrite !stream_text_app, !append_assoc. reflexivity.
Qed.

(** *** The members can be read *)

Ltac plain_tac :=
  solve [assumption | apply plain_of_ascii; vm_compute; reflexivity
        | apply plain_FormatInt | by apply plain_env].

Lemma str_ok k x : plain_text k -> plain_text x -> piece_ok (str k x).
Proof.
  intros [] []. split_and!; try done. cbn [jm_text cat jm_value]. rewrite append_nil_r.
  by apply reads_string.
Qed.

Lemma str'_ok k x : plain_text k -> plain_text x -> piece_ok (str' k x).
Proof.
  intros [] []. split_and!; try done. cbn [jm_text cat jm_value]. rewrite append_nil_r.
  by apply reads_string.
Qed.

Lemma plain_cat l : Forall plain_text l -> plain_text (cat l).
Proof. induction 1; [by apply plain_of_ascii|by apply plain_app]. Qed.

Lemma strs_ok k l : plain_text k -> Forall plain_text l -> piece_ok (strs k l).
Proof.
  intros [] [U V]%plain_cat. split_and!; try done. cbn [jm_text cat jm_value].
  rewrite cat_app. cbn [cat]. rewrite append_nil_r. by apply reads_string.
Qed.

Lemma boolean_ok w k b : plain_text k -> all_chars is_space w = true -> piece_ok (boolean w k b).
Proof.
  intros [] W. split_and!; try done. cbn [jm_text cat jm_value]. rewrite append_nil_r.
  apply reads_bool.
Qed.

Lemma int_ok k z : plain_text k -> Int64.in_range z -> piece_ok (int k z).
Proof.
  intros [] R. split_and!; try done. cbn [jm_text cat jm_value]. rewrite append_nil_r.
  by apply reads_int.
Qed.

Lemma text_ok k x : plain_text k -> piece_ok (text k x).
Proof.
  intros []. split_and!; try done. cbn [jm_text cat jm_value]. rewrite append_nil_r.
  apply reads_escaped.
Qed.

Ltac piece_tac :=
  lazymatch goal with
  | |- piece_ok (str _ _) => apply str_ok; plain_tac
  | |- piece_ok (str' _ _) => apply str'_ok; plain_tac
  | |- piece_ok (strs _ _) =>
      apply strs_ok; [plain_tac|repeat (apply List.Forall_cons; [plain_tac|]); apply List.Forall_nil]
  | |- piece_ok (boolean _ _ _) => apply boolean_ok; [plain_tac|reflexivity]
  | |- piece_ok (int _ _) => apply int_ok; [plain_tac|first [assumption|by vm_compute]]
  | |- piece_ok (text _ _) => apply text_ok; plain_tac
  | |- piece_ok blank => reflexivity
  end.

Ltac pieces_tac := repeat (apply List.Forall_cons; [piece_tac|]); apply List.Forall_nil.

Lemma connector_stream_ok p : plain_params p -> Forall piece_ok (connector_stream p).
Proof.
  intros P. pose proof (plain_names (pFilters p) (fun f I k v => pp_filters p P f k v I)) as Pn.
  pose proof (plain_FormatInt (pFactor p)) as Pf.
  unfold connector_stream. rewrite !Forall_app. split_and!.
  - destruct P. unfold head_stream. pieces_tac.
  - apply Forall_concat, Forall_fmap, Forall_forall. intros f I%list_elem_of_In. simpl.
    unfold filter_stream. apply List.Forall_cons; [reflexivity|]. apply Forall_app.
    split; [|pieces_tac]. apply Forall_concat, Forall_fmap, Forall_forall.
    intros [k v] J%list_elem_of_In%elem_of_entries. simpl.
    destruct (pp_filters p P f k v I J) as [Pk Pv].
    pose proof (plain_name f (fun k v => pp_filters p P f k v I)) as Pn'.
    assert (plain_text (transform (filter_name f) k)).
    { unfold transform. repeat apply plain_app; plain_tac. }
    unfold entry_stream. cbn [fst snd]. destruct (transform_key k); cbn [app]; pieces_tac.
  - pieces_tac.
  - destruct P. unfold transforms_stream, chain. destruct (pInsights p); pieces_tac.
  - destruct P. unfold tail_stream, to_json. cbn [app]. pieces_tac.
Qed.

(** Every piece has a character. *)
Lemma connector_stream_length p :
  (List.length (connector_stream p) <= 2 * String.length (stream_text (connector_stream p)))%nat.
Proof.
  assert (L : forall st, Forall (fun x => match x with inl w => w <> EmptyString | inr _ => True end) st ->
    (List.length st <= String.length (stream_text st))%nat).
  { induction 1 as [|[w|m] st H _ IH]; [done|..]; cbn [List.length stream_text piece_text];
      rewrite !append_length; [destruct w; [done|]|]; cbn [String.length]; lia. }
  enough (H : Forall (fun x => match x with inl w => w <> EmptyString | inr _ => True end)
    (connector_stream p)) by (apply L in H; lia).
  unfold connector_stream. rewrite !Forall_app. split_and!.
  - by repeat constructor.
  - apply Forall_concat, Forall_fmap, Forall_forall. intros f I. simpl.
    unfold filter_stream. apply List.Forall_cons; [done|]. apply Forall_app.
    split; [|by repeat constructor]. apply Forall_concat, Forall_fmap, Forall_forall.
    intros [k v] _. unfold entry_stream. simpl. by destruct (transform_key k); repeat constructor.
  - by repeat constructor.
  - unfold transforms_stream. by destruct (pInsights p); repeat constructor.
  - by repeat constructor.
Qed.

Lemma last_member_ok : jm_ok last_member.
Proof.
  assert (plain_text (jm_key last_member)) as [] by plain_tac.
  split_and!; try done. cbn [last_member jm_text cat jm_value]. rewrite append_nil_r.
  apply reads_int. by vm_compute.
Qed.

(** The default template on plain parameters: what is written, and decoded *)
Lemma connector_decoded p : plain_params p ->
  exists s, Tmpl.render Defaults.defaultConnectorTemplate (data p) = Some s /\
    json_Unmarshal (Strings.ReplaceAll s newline EmptyString) = inr (GMap (connector_config p)).
Proof.
  intros P. unfold Tmpl.render. rewrite connector_parse. cbn [mbind option_bind]. unfold Tmpl.execute.
  pose proof (connector_output p [(EmptyString, data p)] P) as O. unfold output in O.
  destruct (Tmpl.exec_nodes _ _ _) as [l|]; [|done]. cbn [fmap option_fmap option_map] in *.
  exists (cat l). split; [done|]. rewrite ReplaceAll_newline. apply (inj Some) in O. rewrite O.
  apply Unmarshal_stream; [by apply connector_stream_ok|apply last_member_ok|apply connector_stream_length].
Qed.

End Rendering.

Module RenderingProps.
Import Rendering.

(** *** Looking members up *)

(** The value of the last member with a key *)
Fixpoint latest (k : string) (st : stream) : option gvalue :=
  match st with
  | [] => None
  | x :: st =>
      match latest k st, x with
      | Some v, _ => Some v
      | None, inr m => if String.eqb (jm_key m) k then Some (jm_value m) else None
      | None, inl _ => None
      end
  end.

Lemma latest_app k a b : latest k (a ++ b) = match latest k b with Some v => Some v | None => latest k a end.
Proof.
  induction a as [|x a IH]; cbn [app latest]; [by destruct (latest k b)|].
  rewrite IH. by destruct (latest k b).
Qed.

Lemma latest_none k st : Forall (fun x => has_key k x = false) st -> latest k st = None.
Proof.
  induction 1 as [|[w|m] st H _ IH]; [done|..]; cbn [latest]; rewrite IH; [done|].
  simpl in H. by rewrite H.
Qed.

Lemma massoc_stored_latest k st acc :
  massoc k (stored st acc) = match latest k st with Some v => Some v | None => massoc k acc end.
Proof.
  revert acc. induction st as [|[w|m] st IH]; intros acc; [done|..];
    cbn [stored fold_left latest] in IH |- *; rewrite IH; [by destruct (latest k st)|].
  unfold store. rewrite massoc_set_member. destruct (latest k st); [done|].
  by destruct (String.eqb (jm_key m) k).
Qed.

Lemma massoc_config k p :
  massoc k (connector_config p) =
    if String.eqb "connection.backoff.ms" k then Some (GFloat64 (Float64.of_int 10000))
    else
      match latest k (tail_stream p), latest k (transforms_stream p),
            latest k (List.concat (List.map filter_stream (pFilters p))) with
      | Some v, _, _ | None, Some v, _ | None, None, Some v => Some v
      | None, None, None => latest k (head_stream p)
      end.
Proof.
  unfold connector_config, store. rewrite massoc_set_member. cbn [jm_key jm_value last_member].
  destruct (String.eqb _ k); [done|]. rewrite massoc_stored_latest. unfold connector_stream.
  rewrite !latest_app. change (latest k [blank]) with (@None gvalue). change (massoc k []) with (@None gvalue).
  repeat match goal with |- context [match latest ?a ?b with _ => _ end] => destruct (latest a b) end;
    done.
Qed.

(** *** Transformations *)

(** The transformation that a key configures *)
Fixpoint until_dot (s : string) : string :=
  match s with
  | EmptyString => EmptyString
  | String c s' => if Ascii.eqb c "." then EmptyString else String c (until_dot s')
  end.

Definition stage (k : string) : option string :=
  match after "transforms." k with Some s => Some (until_dot s) | None => None end.

Definition dotless (n : string) : Prop := until_dot n = n.

Lemma until_dot_app n s : dotless n -> until_dot (n +s+ "." +s+ s) = n.
Proof.
  unfold dotless. induction n as [|c n IH]; [done|]. cbn [until_dot String.append].
  destruct (Ascii.eqb c "."); [done|]. intros [= E]. f_equal. by apply IH.
Qed.

Lemma stage_transform n k : dotless n -> stage (transform n k) = Some n.
Proof.
  intros D. unfold stage, transform.
  change (after "transforms." ("transforms." +s+ ?x)) with (Some x). cbn iota. f_equal. by apply until_dot_app.
Qed.

Lemma transform_inj n k k' : transform n k = transform n k' -> k = k'.
Proof. unfold transform. intros E. by do 3 apply append_inj_l in E. Qed.

Definition stages (st : stream) : list (option string) :=
  omap (fun x => match x with inl _ => None | inr m => Some (stage (jm_key m)) end) st.

Lemma other_stage n k st :
  dotless n -> Some n ∉ stages st -> Forall (fun x => has_key (transform n k) x = false) st.
Proof.
  intros D. induction st as [|[w|m] st IH]; intros N; constructor; try done; simpl.
  - by apply IH.
  - apply String.eqb_neq. intros E. apply N. cbn. rewrite E, stage_transform by done. left.
  - apply IH. intros I. apply N. by right.
Qed.

(** The transformations of the template itself *)
Definition reserved : list string :=
  ["timestampFilter"; "insightsFilter"; "deleteToTombstone"; "extractHost"; "systemProfileFilter";
   "systemProfileToJson"; "tagsToJson"; "perReporterStalenessToJson"; "groupsToJson";
   "injectSchemaKey"; "injectSchemaValue"].

Lemma reserved_stages p n : n ∉ reserved ->
  Some n ∉ stages (tail_stream p) /\ Some n ∉ stages (transforms_stream p).
Proof.
  intros N.
  assert (S : forall l, Forall (fun o : option string => o = None \/ exists s, o = Some s /\ s ∈ reserved) l ->
            Some n ∉ l).
  { intros l H I. rewrite List.Forall_forall in H. apply list_elem_of_In in I.
    destruct (H _ I) as [[=]|(s & [= <-] & ?)]. done. }
  assert (B : forall l, forallb (fun o : option string => match o with None => true
      | Some s => bool_decide (s ∈ reserved) end) l = true ->
    Forall (fun o : option string => o = None \/ exists s, o = Some s /\ s ∈ reserved) l).
  { intros l H. apply List.Forall_forall. rewrite forallb_forall in H. intros [s|] I; [right|by left].
    exists s. split; [done|]. specialize (H _ I). by apply bool_decide_eq_true in H. }
  split; apply S, B; [|unfold transforms_stream; destruct (pInsights p)]; vm_compute; reflexivity.
Qed.

Lemma stages_app a b : stages (a ++ b) = stages a ++ stages b.
Proof. apply omap_app. Qed.

Lemma filter_stages f o :
  dotless (filter_name f) -> o ∈ stages (filter_stream f) -> o = Some (filter_name f).
Proof.
  intros D. unfold filter_stream. change (blank :: ?l ++ ?m) with ([blank] ++ l ++ m).
  rewrite !stages_app, !elem_of_app. intros [I|[I|I]]; try by apply elem_of_nil in I.
  induction (entries f) as [|[k v] l IH]; [by apply elem_of_nil in I|].
  cbn [List.map List.concat] in I. rewrite stages_app, elem_of_app in I. destruct I as [I|I]; [|by apply IH].
  unfold entry_stream in I. cbn [fst snd] in I.
  destruct (transform_key k); cbn [app stages omap list_omap blank str' jm_key] in I;
    [|by apply elem_of_nil in I].
  apply list_elem_of_singleton in I as ->. by rewrite stage_transform.
Qed.

(** A filter's entry among the others *)
Lemma filters_latest (fs : list (gmap string string)) f k v :
  (forall g, g ∈ fs -> dotless (filter_name g)) -> NoDup (filter_name <$> fs) ->
  f ∈ fs -> f !! k = Some v -> transform_key k = true ->
  latest (transform (filter_name f) k) (List.concat (List.map filter_stream fs)) = Some (GString v).
Proof.
  intros D N I E T. apply list_elem_of_split in I as (f1 & f2 & ->).
  assert (Df : dotless (filter_name f)) by (apply D, elem_of_app; right; left).
  rewrite List.map_app, List.concat_app. cbn [List.map List.concat]. rewrite !latest_app.
  rewrite (latest_none _ (List.concat (List.map filter_stream f2))).
  - assert (In : (k, v) ∈ entries f) by by apply elem_of_entries.
    assert (Nk : NoDup (entries f).*1).
    { assert (P : (entries f).*1 ≡ₚ (map_to_list f).*1); [|rewrite P; apply NoDup_fst_map_to_list].
      assert (G : (prod_map id GString <$> entries f).*1 = (entries f).*1)
        by (rewrite <- list_fmap_compose; by apply list_fmap_ext).
      rewrite <- G, <- entries_sorted, merge_sort_Permutation, <- list_fmap_compose. done. }
    apply list_elem_of_split in In as (l1 & l2 & El). unfold filter_stream. rewrite El in Nk |- *.
    change (blank :: ?l ++ ?m) with ([blank] ++ l ++ m). rewrite List.map_app, List.concat_app.
    cbn [List.map List.concat]. rewrite !latest_app. cbn [latest blank].
    rewrite (latest_none _ (List.concat (List.map _ l2))).
    + unfold entry_stream at 1. cbn [fst snd]. rewrite T. cbn [app latest blank str' jm_key jm_value].
      by rewrite String.eqb_refl.
    + rewrite fmap_app, fmap_cons in Nk. apply list.NoDup_app in Nk as (_ & _ & Nk). cbn [fst] in Nk.
      apply list.NoDup_cons in Nk as [Nk _].
      apply Forall_concat, Forall_fmap, List.Forall_forall. intros [k' v'] J%list_elem_of_In. simpl.
      assert (k' <> k) by (intros ->; apply Nk, list_elem_of_fmap; by exists (k, v')).
      unfold entry_stream. cbn [fst snd]. constructor; [done|].
      destruct (transform_key k'); cbn [app]; repeat constructor.
      apply String.eqb_neq. by intros X%transform_inj.
  - apply other_stage; [done|]. intros I.
    rewrite fmap_app, fmap_cons in N. apply list.NoDup_app in N as (_ & _ & N).
    apply list.NoDup_cons in N as [N _]. apply N. clear N E T.
    induction f2 as [|g f2 IH]; [by apply elem_of_nil in I|].
    cbn [List.map List.concat] in I. rewrite stages_app, elem_of_app in I.
    rewrite fmap_cons, elem_of_cons. destruct I as [I|I].
    + apply filter_stages in I; [|apply D, elem_of_app; right; right; left]. left. congruence.
    + right. apply IH; [|done]. intros g' G. apply D. rewrite !elem_of_app, !elem_of_cons in *. tauto.
Qed.

(** Keys that do not configure a transformation come from the template. *)
Lemma filters_no_key fs k : after "transforms." k = None ->
  latest k (List.concat (List.map filter_stream fs)) = None.
Proof.
  intros A. apply latest_none, Forall_concat, Forall_fmap, List.Forall_forall. intros f _. simpl.
  unfold filter_stream. constructor; [done|]. apply Forall_app. split; [|by repeat constructor].
  apply Forall_concat, Forall_fmap, List.Forall_forall. intros [k' v'] _. simpl.
  unfold entry_stream. cbn [fst snd]. constructor; [done|].
  destruct (transform_key k'); cbn [app]; repeat constructor.
  apply String.eqb_neq. intros <-. cbn [jm_key] in A. unfold transform in A.
  by change (after "transforms." ("transforms." +s+ ?x)) with (Some x) in A.
Qed.

(** The settings of the connector that depend on the pipeline *)
Definition settings (p : params) : list (string * gvalue) :=
  [("tasks.max", GString (pTasks p));
   ("topics", GString (pTopic p));
   ("batch.size", GString (pBatch p));
   ("connection.url", GString (cat ["jdbc:postgresql://"; pHost p; ":"; pPort p; "/"; pName p;
      "?sslmode="; pSSL p; "&sslrootcert="; pCert p]));
   ("connection.user", GString (pUser p));
   ("connection.password", GString (pPassword p));
   ("table.name.format", GString (cat ["inventory."; pTable p]));
   ("transforms", GString (cat [if pInsights p then "timestampFilter,insightsFilter," else "timestampFilter,";
      names (pFilters p); chain]));
   ("transforms.timestampFilter.if", GString (cat ["(Date.now() - record.timestamp()) < "; pAge p;
      " * 24 * 60 * 60 * 1000"]));
   ("transforms.systemProfileFilter.allowlist", GString (pAllow p));
   ("errors.deadletterqueue.topic.name", GString (pQueue p));
   ("errors.deadletterqueue.topic.replication.factor", GFloat64 (Float64.of_int (pFactor p)))].

Lemma settings_configured p k v : (k, v) ∈ settings p -> massoc k (connector_config p) = Some v.
Proof.
  intros I. unfold settings in I. rewrite massoc_config.
  repeat (apply elem_of_cons in I as [[= -> ->]|I];
    [unfold transforms_stream; destruct (pInsights p); rewrite ?filters_no_key by reflexivity;
       try reflexivity|]).
  by apply elem_of_nil in I.
Qed.

(** *** Which parameters are plain *)

Record plain_configuration (c : ConnectorConfiguration) : Prop := {
  pc_app : plain_text (ccAppName c); pc_table : plain_text (ccTableName c);
  pc_topic : plain_text (ccTopic c); pc_filters f k v : f ∈ ccAdditionalFilters c ->
    f !! k = Some v -> plain_text k /\ plain_text v;
  pc_db : Forall plain_text [DBName (DB c); Host (DB c); Port (DB c); User (DB c); Password (DB c);
    SSLMode (DB c); SSLRootCert (DB c)];
  pc_allow : plain_text (AllowlistSystemProfile c);
  pc_factor : Int64.in_range (ccTopicReplicationFactor c);
  pc_queue : plain_text (ccDeadLetterQueueTopicName c)
}.

Lemma plain_params_of ephemeral c : plain_configuration c -> plain_params (params_of ephemeral c).
Proof.
  intros []. repeat match goal with H : Forall _ (_ :: _) |- _ => apply Forall_cons_1 in H as [? H] end.
  assert (E : forall s v, plain_text s -> plain_text v -> plain_text
    (if ephemeral then v else "${env:" +s+
       Strings.ToUpper (Strings.ReplaceAll (ccAppName c) "-" "_") +s+ s +s+ "}")).
  { intros s v Ps Pv. destruct ephemeral; [done|]. repeat apply plain_app; plain_tac. }
  split; unfold params_of; cbn [pTable pTopic pPort pHost pName pUser pPassword pTasks pBatch pAge
    pInsights pAllow pSSL pCert pFactor pQueue pFilters];
    first [apply E; plain_tac | plain_tac | done].
Qed.

Section Props.
Context {US : Unstructured} {USOK : UnstructuredOk} {TE : TemplateEngine} {TEOK : TemplateEngineOk}.

Lemma default_connector_runs (name ns env : string) (c : ConnectorConfiguration) :
  Template c = Defaults.defaultConnectorTemplate ->
  plain_params (params_of (is_ephemeral env) c) ->
  exists o, runs (newConnectorResource name ns c) [Obs (Getenv "EPHEMERAL") env] (Some (inr o)) /\
    field o ["spec"; "config"] = Some (GMap (connector_config (params_of (is_ephemeral env) c))).
Proof.
  intros T P. destruct (connector_decoded _ P) as (s & Rs & Js).
  destruct (template_renders _ _ _ Rs) as (t & Pt & Xt).
  exists (SetGroupVersionKind (connector_object name ns c
    (GMap (connector_config (params_of (is_ephemeral env) c)))) connectorGVK). split.
  - unfold newConnectorResource. apply runs_call. cbn [pbind]. rewrite T, Pt.
    rewrite template_values_data, Xt, Js. apply runs_ret.
  - by rewrite SetGroupVersionKind_frame.
Qed.

(** C31: The default connector. When the texts of the configuration contain no
    quote, backslash or control character, the default template renders to
    JSON whatever the number of filters, and the connector is configured as
    follows: topic, table, number of tasks, batch size, maximum age, connection,
    dead letter queue and the list of transformations (the filters in their
    order, and the Insights filter when only such hosts are wanted) are those
    of the configuration; and each entry of a filter other than its name and
    its where condition (a join condition too) is a setting of the
    transformation with its name, provided these names are distinct, without
    dots and none of the template's own. *)
Theorem default_connector_config (name ns env : string) (c : ConnectorConfiguration) :
  let p := params_of (is_ephemeral env) c in
  Template c = Defaults.defaultConnectorTemplate -> plain_params p ->
  exists o m, runs (newConnectorResource name ns c) [Obs (Getenv "EPHEMERAL") env] (Some (inr o)) /\
    field o ["spec"; "config"] = Some (GMap m) /\
    (forall k v, (k, v) ∈ settings p -> massoc k m = Some v) /\
    ((forall f, f ∈ ccAdditionalFilters c -> dotless (filter_name f) /\ filter_name f ∉ reserved) ->
     NoDup (filter_name <$> ccAdditionalFilters c) ->
     forall f k v, f ∈ ccAdditionalFilters c -> f !! k = Some v -> k ∉ ["name"; "where"] ->
       massoc ("transforms." +s+ filter_name f +s+ "." +s+ k) m = Some (GString v)).
Proof.
  intros p T P. destruct (default_connector_runs name ns env c T P) as (o & Rn & F).
  exists o, (connector_config p). split_and!; [done|done|apply settings_configured|].
  intros D N f k v I E Nk. change ("transforms." +s+ ?n +s+ "." +s+ k) with (transform n k).
  destruct (D f I) as [Df Nf]. destruct (reserved_stages p _ Nf) as [S1 S2].
  rewrite massoc_config. unfold transform. change (String.eqb "connection.backoff.ms" ("transforms." +s+ ?x)) with false.
  cbn iota. fold (transform (filter_name f) k).
  rewrite (latest_none _ (tail_stream p)) by by apply other_stage.
  rewrite (latest_none _ (transforms_stream p)) by by apply other_stage.
  change (pFilters p) with (ccAdditionalFilters c).
  rewrite (filters_latest _ f k v); [done|intros; by apply D|done..|].
  rewrite !not_elem_of_cons in Nk. destruct Nk as (N1 & N2 & _). unfold transform_key.
  by rewrite (proj2 (String.eqb_neq _ _) N1), (proj2 (String.eqb_neq _ _) N2).
Qed.

End Props.

(** *** A concrete configuration, with a filter that has a join condition *)

Existing Instances Ref.unstructured Ref.unstructured_ok Tmpl.engine.

Definition filter1 : gmap string string :=
  list_to_map [("name", "rhel"); ("where", "sps.os = 'RHEL'"); ("type", "Filter");
               ("join", "LEFT JOIN sps ON sps.host_id = h.id")].

Definition conf1 : ConnectorConfiguration :=
  {| ccAppName := "advisor-backend"; ccAdditionalFilters := [filter1]; ccInsightsOnly := true;
     Paused := false; Cluster := "cluster"; ccTopic := "topic"; ccTableName := "hosts_v1_1";
     DB := {| DBName := "insights"; Host := "db"; Port := "5432"; User := "cyndi";
              Password := "secret"; SSLMode := "disable"; SSLRootCert := EmptyString |};
     TasksMax := 16; BatchSize := 100; ccMaxAge := 45;
     Template := Defaults.defaultConnectorTemplate;
     AllowlistSystemProfile := "os"; ccTopicReplicationFactor := 1;
     ccDeadLetterQueueTopicName := "dlq" |}.

Lemma conf1_plain : plain_configuration conf1.
Proof.
  split; try plain_tac.
  - intros f k v ->%list_elem_of_singleton E.
    apply elem_of_list_to_map_2 in E.
    repeat (apply elem_of_cons in E as [[= -> ->]|E]; [split; plain_tac|]). by apply elem_of_nil in E.
  - repeat (apply List.Forall_cons; [plain_tac|]). apply List.Forall_nil.
  - by vm_compute.
Qed.

Lemma default_connector_config_witness :
  exists o m, runs (newConnectorResource "c" "test" conf1) [Obs (Getenv "EPHEMERAL") "false"] (Some (inr o)) /\
    field o ["spec"; "config"] = Some (GMap m) /\
    massoc "table.name.format" m = Some (GString "inventory.hosts_v1_1") /\
    massoc "transforms.rhel.join" m = Some (GString "LEFT JOIN sps ON sps.host_id = h.id").
Proof.
  destruct (default_connector_config "c" "test" "false" conf1 eq_refl
    (plain_params_of _ _ conf1_plain)) as (o & m & Rn & F & S & Tr).
  exists o, m. split; [exact Rn|]. split; [exact F|]. split.
  - apply (S "table.name.format"). vm_compute. by repeat constructor.
  - apply (Tr ltac:(intros f ->%list_elem_of_singleton; split;
        [vm_compute; reflexivity|by apply (bool_decide_unpack _); vm_compute])
      (NoDup_singleton _) filter1 "join").
    + left.
    + vm_compute. reflexivity.
    + by apply (bool_decide_unpack _); vm_compute.
Defined.

End RenderingProps.
