(* ===== verification/Iteration.v ===== *)
(** * One reconcile iteration

    [ReconcileIteration] (iteration.go) is the state both controllers work on:
    the pipeline, the copy it was fetched as, the configuration and the
    databases. The methods here are those of iteration.go, config.go,
    probes.go, diff.go and metrics.go. A method that assigns to the iteration
    returns the new one. *)

From Stdlib Require Import ZArith Lia String.
From stdpp Require Import sorting.
From S2P Require Import Prelude GoStd Float GoJson Lang K8sLib Api State Utils Config Effects.
From S2P Require Import Database Connect.
Import Api State Config Database.

(** The libraries that the controllers need, and what is known of them. *)
Class Libs := {
  #[global] lib_conditions :: StatusConditions;
  #[global] lib_finalizers :: Finalizers;
  #[global] lib_templates :: TemplateEngine;
  #[global] lib_unstructured :: Unstructured;
  #[global] lib_cmp :: GoCmp CyndiPipelineStatus;
  #[global] lib_diff :: GoDiff
}.

Class LibsOk (L : Libs) : Prop := {
  #[global] lib_conditions_ok :: StatusConditionsOk;
  #[global] lib_finalizers_ok :: FinalizersOk;
  #[global] lib_unstructured_ok :: UnstructuredOk;
  #[global] lib_cmp_ok :: GoCmpOk CyndiPipelineStatus;
  #[global] lib_diff_ok :: GoDiffOk
}.

Module Iteration.

(** ** The record *)

(** The closure GetRequeueInterval: the standard interval of the pipeline
    controller, or the interval of the validation controller. *)
Inductive requeue := StandardRequeue | ValidationRequeue.

(** The zero iteration of the Go code is represented by its absence: see
    [Pipeline.setup]. [config] is nil until the configuration is parsed. *)
Record ReconcileIteration := {
  Instance : CyndiPipeline;
  OriginalInstance : CyndiPipeline;
  config : option CyndiConfiguration;
  HBIDBParams : DBParams;
  AppDBParams : DBParams;
  AppDb : BaseDatabase;
  InventoryDb : option BaseDatabase;
  GetRequeueInterval : requeue
}.

Definition set_Instance (p : CyndiPipeline) (i : ReconcileIteration) : ReconcileIteration :=
  {| Instance := p; OriginalInstance := OriginalInstance i; config := config i;
     HBIDBParams := HBIDBParams i; AppDBParams := AppDBParams i; AppDb := AppDb i;
     InventoryDb := InventoryDb i; GetRequeueInterval := GetRequeueInterval i |}.

Definition set_config (c : CyndiConfiguration) (i : ReconcileIteration) : ReconcileIteration :=
  {| Instance := Instance i; OriginalInstance := OriginalInstance i; config := Some c;
     HBIDBParams := HBIDBParams i; AppDBParams := AppDBParams i; AppDb := AppDb i;
     InventoryDb := InventoryDb i; GetRequeueInterval := GetRequeueInterval i |}.

Definition set_HBIDBParams (p : DBParams) (i : ReconcileIteration) : ReconcileIteration :=
  {| Instance := Instance i; OriginalInstance := OriginalInstance i; config := config i;
     HBIDBParams := p; AppDBParams := AppDBParams i; AppDb := AppDb i;
     InventoryDb := InventoryDb i; GetRequeueInterval := GetRequeueInterval i |}.

(** The application database keeps a pointer to AppDBParams, so that a change of
    its Config is a change of AppDBParams. *)
Definition set_AppDb (db : BaseDatabase) (i : ReconcileIteration) : ReconcileIteration :=
  {| Instance := Instance i; OriginalInstance := OriginalInstance i; config := config i;
     HBIDBParams := HBIDBParams i; AppDBParams := Database.Config db; AppDb := db;
     InventoryDb := InventoryDb i; GetRequeueInterval := GetRequeueInterval i |}.

Definition set_InventoryDb (db : BaseDatabase) (i : ReconcileIteration) : ReconcileIteration :=
  {| Instance := Instance i; OriginalInstance := OriginalInstance i; config := config i;
     HBIDBParams := HBIDBParams i; AppDBParams := AppDBParams i; AppDb := AppDb i;
     InventoryDb := Some db; GetRequeueInterval := GetRequeueInterval i |}.

Definition set_GetRequeueInterval (r : requeue) (i : ReconcileIteration) : ReconcileIteration :=
  {| Instance := Instance i; OriginalInstance := OriginalInstance i; config := config i;
     HBIDBParams := HBIDBParams i; AppDBParams := AppDBParams i; AppDb := AppDb i;
     InventoryDb := InventoryDb i; GetRequeueInterval := r |}.

(** i.Instance.Method() *)
Definition on_instance (f : CyndiPipeline -> CyndiPipeline) (i : ReconcileIteration)
  : ReconcileIteration := set_Instance (f (Instance i)) i.

(** reconcile.Result (its RequeueAfter, in nanoseconds) and the error *)
Definition Result : Type := Z * option gerror.

Definition failure (e : gerror) : Result := (0%Z, Some e).

(** ** iteration.go *)

Definition Close (i : ReconcileIteration) : prog unit :=
  Database.Close (AppDb i) ;;
  match InventoryDb i with
  | Some db => Database.Close db ;; Ret tt
  | None => Ret tt
  end.

Definition eventNormal (reason messageFmt : string) (args : list string) : prog unit :=
  call (Eventf "Normal" reason messageFmt args).

Definition eventWarning (reason messageFmt : string) (args : list string) : prog unit :=
  call (Eventf "Warning" reason messageFmt args).

(** i.error(err, prefixes...): the message is the event's format string *)
Definition error (err : gerror) (prefixes : list string) : prog gerror :=
  let msg := Error err in
  let msg :=
    if Nat.ltb 0 (List.length prefixes) then Strings.Join prefixes ", " +s+ ": " +s+ msg
    else msg in
  eventWarning "Failed" msg [] ;;
  Ret err.

(** return reconcile.Result{}, i.error(err, prefix) *)
Definition fail_with (err : gerror) (prefix : string) : prog Result :=
  err <- error err [prefix] ;;
  Ret (failure err).

Definition getValidationConfig (i : ReconcileIteration) : option ValidationConfiguration :=
  match config i with
  | Some cfg =>
      if Bool.eqb (InitialSyncInProgress (Status (Instance i))) true
      then Some (ValidationConfigInit cfg) else Some (Config.ValidationConfig cfg)
  | None => None
  end.

(** i.GetRequeueInterval(i); [None]: the configuration is nil *)
Definition requeue_interval (i : ReconcileIteration) : option Z :=
  match GetRequeueInterval i with
  | StandardRequeue =>
      match config i with Some cfg => Some (StandardInterval cfg) | None => None end
  | ValidationRequeue =>
      match getValidationConfig i with Some vc => Some (Interval vc) | None => None end
  end.

Definition Second : Z := 1000000000.

Section WithLibs.
Context {L : Libs}.

Definition updateStatusAndRequeue (i : ReconcileIteration) : prog Result :=
  r <- GetCurrentTable (AppDb i) ;;
  match r with
  | inl err => fail_with err "Error determining current table"
  | inr table =>
      let i :=
        match table with
        | None => on_instance (upd (set_ActiveTableName EmptyString)) i
        | Some t => on_instance (upd (set_ActiveTableName t)) i
        end in
      r <- (if negb (cmp_Equal (Status (Instance i)) (Status (OriginalInstance i)))
            then call (KUpdateStatus (Instance i))
            else Ret (inr (Instance i))) ;;
      match r with
      | inl err =>
          if IsConflict err then Ret (failure err)
          else fail_with err "Error updating pipeline status"
      | inr p =>
          let i := set_Instance p i in
          deref (requeue_interval i) (fun interval =>
          let delay := Int64.mul Second interval in
          Ret (delay, None))
      end
  end.

End WithLibs.

(** ** config.go *)

Definition configMapName : string := "cyndi".
Definition globalConfigNamespace : string := "cyndi".

(** utils/k8s.go *)
Definition FetchConfigMap (namespace name : string) : prog (result (gmap string string)) :=
  call (KGetConfigMap namespace name).
Definition FetchSecret (namespace name : string) : prog (result Secret) :=
  call (KGetSecret namespace name).
Definition FetchCyndiPipeline (namespace name : string) : prog (result CyndiPipeline) :=
  call (KGetPipeline namespace name).
(** The namespace is not used: the list has no such option. *)
Definition FetchCyndiPipelines (namespace : string) : prog (result (list CyndiPipeline)) :=
  call KListPipelines.

(** for _, namespace := range [...] { FetchConfigMap } *)
Fixpoint fetch_config_maps (namespaces : list string) (configMaps : list (gmap string string))
  : prog (result (list (gmap string string))) :=
  match namespaces with
  | [] => Ret (inr configMaps)
  | namespace :: rest =>
      r <- FetchConfigMap namespace configMapName ;;
      match r with
      | inl err =>
          if negb (IsNotFound err) then Ret (inl err) else fetch_config_maps rest configMaps
      | inr data => fetch_config_maps rest (configMaps ++ [data])
      end
  end.

Definition parseConfig (i : ReconcileIteration) : prog (ReconcileIteration * option gerror) :=
  r <- fetch_config_maps [globalConfigNamespace; Namespace (Meta (Instance i))] [] ;;
  match r with
  | inl err => Ret (i, Some err)
  | inr configMaps =>
      match BuildCyndiConfig (Some (Instance i)) (Lang.Merge configMaps) with
      | inl err =>
          Ret (i, Some (Errorf_wrap ("Error parsing " +s+ configMapName +s+ " configmap in " +s+
                          Namespace (Meta (Instance i)) +s+ ": ") err))
      | inr cfg => Ret (set_config cfg i, None)
      end
  end.

(** config.LoadDBSecret (controllers/config/config.go) *)
Definition LoadDBSecret (cfg : option CyndiConfiguration) (namespace name : string)
  : prog (result DBParams) :=
  try secret <- FetchSecret namespace name ;;
  Ret (db_params_of cfg secret).

(** ** metrics.go *)

Definition InitLabels (p : CyndiPipeline) : prog unit :=
  let appName := AppName (Spec p) in
  call (Metric (GaugeInit hostCount [appName])) ;;
  call (Metric (GaugeInit inconsistencyThreshold [appName])) ;;
  call (Metric (GaugeInit inconsistencyRatio [appName])) ;;
  call (Metric (GaugeInit inconsistencyAbsolute [appName])) ;;
  call (Metric (CounterInit validationFailedCount [appName])) ;;
  call (Metric (CounterInit refreshCount [appName; "invalid"])) ;;
  call (Metric (CounterInit refreshCount [appName; "deviation"])).

Definition AppHostCount (p : CyndiPipeline) (value : Z) : prog unit :=
  call (Metric (GaugeSet hostCount [AppName (Spec p)] (Float64.of_int value))).

Definition ValidationFinished (p : CyndiPipeline) (threshold : Z) (ratio : float64)
    (inconsistentTotal : Z) (isValid : bool) : prog unit :=
  let app := [AppName (Spec p)] in
  call (Metric (GaugeSet inconsistencyThreshold app
                  (Float64.div (Float64.of_int threshold) Float64.hundred))) ;;
  call (Metric (GaugeSet inconsistencyRatio app ratio)) ;;
  call (Metric (GaugeSet inconsistencyAbsolute app (Float64.of_int inconsistentTotal))) ;;
  if negb isValid then call (Metric (CounterInc validationFailedCount app)) else Ret tt.

Definition PipelineRefreshed (p : CyndiPipeline) (reason : string) : prog unit :=
  call (Metric (CounterInc refreshCount [AppName (Spec p); reason])).

(** ** probes.go *)

Definition probeStartingInitialSync (i : ReconcileIteration) : prog unit :=
  eventNormal "InitialSync" "Starting data synchronization to %s"
    [TableName_ (Status (Instance i))].

Definition probeStateDeviationRefresh (i : ReconcileIteration) (reason : string) : prog unit :=
  PipelineRefreshed (Instance i) "deviation" ;;
  eventWarning "Refreshing" "Refreshing pipeline due to state deviation: %s" [reason].

Definition probePipelineDidNotBecomeValid (i : ReconcileIteration) : prog unit :=
  eventWarning "Refreshing" "Pipeline failed to become valid within the given threshold" [] ;;
  PipelineRefreshed (Instance i) "invalid".

(** ** diff.go *)

Definition key_le (x y : string * string) : Prop := String.leb x.1 y.1 = true.
#[export] Instance key_le_dec : RelDecision key_le.
Proof. intros x y. unfold key_le. apply _. Defined.

(** fmt.Sprintf("%v", in) *)
Fixpoint sprint_v (v : gvalue) : string :=
  match v with
  | GNil => "<nil>"
  | GBool b => Strconv.FormatBool b
  | GString s => s
  | GInt64 z => Strconv.FormatInt z
  | GFloat64 x => Float64.FormatV x
  | GSlice l => "[" +s+ Strings.Join (sprint_v <$> l) " " +s+ "]"
  | GMap m =>
      "map[" +s+
      Strings.Join ((fun kv => kv.1 +s+ ":" +s+ kv.2) <$>
        merge_sort key_le ((fun kv => (kv.1, sprint_v kv.2)) <$> m)) " " +s+ "]"
  end.

(** The filter of NumberNormalizer: utils.IsNumber(x) || utils.IsNumber(y) *)
Definition number_filter (x y : gvalue) : option bool :=
  match Lang.IsNumber x with
  | Some true => Some true
  | Some false => Lang.IsNumber y
  | None => None
  end.

(** cmp.Diff(x, y, NumberNormalizer) *)
Definition diff_normalized {L : Libs} (x y : option (list (string * gvalue))) : option string :=
  cmp_Diff number_filter sprint_v x y.

End Iteration.
