(* ===== verification/Validate.v ===== *)
(** * controllers/validate.go: does the application table hold the right hosts?

    First the numbers of hosts are compared; when they are far apart the
    validation fails at once. Otherwise the host identifiers of both sides are
    compared, and the pipeline is valid when the proportion of identifiers
    present on one side only is within the configured percentage. *)

From Stdlib Require Import ZArith Lia String SpecFloat.
From S2P Require Import Prelude GoStd Float GoJson Lang K8sLib Api State Utils Config Effects.
From S2P Require Import Database Connect Iteration.
Import Api State Config Database Iteration.

Module Validate.

(** 0.5 *)
Definition countMismatchThreshold : float64 := Float64.half.

(** The outcome of a validation: isValid, mismatchRatio, mismatchCount, hostCount *)
Record verdict := {
  isValid : bool;
  mismatchRatio : float64;
  mismatchCount : Z;
  hostCount : Z
}.

(** float64(mismatch) / math.Max(float64(total), 1) *)
Definition ratio (mismatch total : Z) : float64 :=
  Float64.div (Float64.of_int mismatch) (Float64.max (Float64.of_int total) Float64.one).

Definition percentage_threshold (i : ReconcileIteration) : option Z :=
  match getValidationConfig i with Some vc => Some (PercentageThreshold vc) | None => None end.

Definition validate (i : ReconcileIteration) (hbiSchema : string) : prog (result verdict) :=
  let appTable := Utils.AppFullTableName (TableName_ (Status (Instance i))) in
  try appHostCount <- CountHosts (AppDb i) appTable false [] ;;
  let inventoryTableName := hbiSchema +s+ ".hosts" in
  let spec := Spec (Instance i) in
  deref (InventoryDb i) (fun inventoryDb =>
  try hbiHostCount <- CountHosts inventoryDb inventoryTableName (InsightsOnly spec)
                        (AdditionalFilters spec) ;;
  AppHostCount (Instance i) appHostCount ;;
  let countMismatch := Lang.Abs (Int64.sub hbiHostCount appHostCount) in
  let countMismatchRatio := ratio countMismatch hbiHostCount in
  if Float64.ltb countMismatchThreshold countMismatchRatio then
    deref (percentage_threshold i) (fun threshold =>
    ValidationFinished (Instance i) threshold countMismatchRatio countMismatch false ;;
    Ret (inr {| isValid := false; mismatchRatio := countMismatchRatio;
                mismatchCount := countMismatch; hostCount := appHostCount |}))
  else
    try hbiIds <- GetHostIds inventoryDb inventoryTableName (InsightsOnly spec)
                    (AdditionalFilters spec) ;;
    try appIds <- GetHostIds (AppDb i) appTable false [] ;;
    let inHbiOnly := Lang.Difference hbiIds appIds in
    let inAppOnly := Lang.Difference appIds hbiIds in
    let mismatchCount := Z.of_nat (List.length inHbiOnly + List.length inAppOnly) in
    deref (percentage_threshold i) (fun validationThresholdPercent =>
    let idMismatchRatio := ratio mismatchCount (Z.of_nat (List.length hbiIds)) in
    let result := Float64.leb (Float64.mul idMismatchRatio Float64.hundred)
                    (Float64.of_int validationThresholdPercent) in
    ValidationFinished (Instance i) validationThresholdPercent idMismatchRatio mismatchCount
      result ;;
    Ret (inr {| isValid := result; mismatchRatio := idMismatchRatio;
                mismatchCount := mismatchCount; hostCount := appHostCount |}))).

End Validate.
