(* ===== verification/Pipeline.v ===== *)
(** * controllers/cyndipipeline_controller.go: the pipeline controller

    [setup] fetches everything an iteration needs, [Reconcile] drives the
    pipeline through its states, [deleteStaleDependencies] removes tables and
    connectors that no version needs any more. [map_config_map] is the
    function that turns a change of a config map into reconcile requests. *)

From Stdlib Require Import ZArith Lia String.
From S2P Require Import Prelude GoStd Float GoJson Lang K8sLib Api State Utils Config Effects.
From S2P Require Import Database Connect Iteration.
Import Api State Config Database Connect Iteration.

Module Pipeline.

Definition cyndipipelineFinalizer : string := "cyndi.cloud.redhat.com/finalizer".

(** The zero values of Go's DBParams and AppDatabase *)
Definition zero_DBParams : DBParams :=
  {| DBName := EmptyString; Host := EmptyString; Port := EmptyString; User := EmptyString;
     Password := EmptyString; SSLMode := EmptyString; SSLRootCert := EmptyString |}.

(** The iteration right after the pipeline has been fetched *)
Definition new_iteration (instance : CyndiPipeline) : ReconcileIteration :=
  {| Instance := instance; OriginalInstance := instance; config := None;
     HBIDBParams := zero_DBParams; AppDBParams := zero_DBParams;
     AppDb := NewBaseDatabase zero_DBParams; InventoryDb := None;
     GetRequeueInterval := StandardRequeue |}.

(** setup, for the request (namespace, name). [None] in the first component is
    the zero iteration, whose Instance is nil. The parameters left behind by a
    failing LoadDBSecret are not modelled: they are not read after an error. *)
Definition setup (namespace name : string)
  : prog (option ReconcileIteration * option gerror) :=
  r <- FetchCyndiPipeline namespace name ;;
  match r with
  | inl err => if IsNotFound err then Ret (None, None) else Ret (None, Some err)
  | inr instance =>
      let i := new_iteration instance in
      ' (i, err) <- parseConfig i ;;
      match err, config i with
      | Some e, _ => Ret (Some i, Some e)
      | None, None => Panic
      | None, Some cfg =>
          r <- LoadDBSecret (Some cfg) (Namespace (Meta (Instance i)))
                 (cfgInventoryDbSecret cfg) ;;
          match r with
          | inl e => Ret (Some i, Some e)
          | inr hbi =>
              let i := set_HBIDBParams hbi i in
              r <- LoadDBSecret (Some cfg) (Namespace (Meta (Instance i)))
                     (Utils.AppDbSecretName (Spec (Instance i))) ;;
              match r with
              | inl e => Ret (Some i, Some e)
              | inr app =>
                  ' (db, err) <- AppConnect (NewAppDatabase app) ;;
                  Ret (Some (set_AppDb db i), err)
              end
          end
      end
  end.

Section WithLibs.
Context {L : Libs}.

(** ** Dependencies *)

(** for _, connector := range connectors.Items { ... } *)
Fixpoint delete_connectors (namespace : string) (keep : list string) (items : list gvalue)
    (errors : list gerror) : prog (list gerror) :=
  match items with
  | [] => Ret errors
  | connector :: rest =>
      if negb (Lang.ContainsString keep (GetName connector)) then
        err <- DeleteConnector (GetName connector) namespace ;;
        match err with
        | Some e => delete_connectors namespace keep rest (errors ++ [e])
        | None => delete_connectors namespace keep rest errors
        end
      else delete_connectors namespace keep rest errors
  end.

(** for _, table := range tables { ... } *)
Fixpoint delete_tables (db : BaseDatabase) (keep : list string) (tables : list string)
    (errors : list gerror) : prog (list gerror) :=
  match tables with
  | [] => Ret errors
  | table :: rest =>
      if negb (Lang.ContainsString keep table) then
        err <- DeleteTable db table ;;
        match err with
        | Some e => delete_tables db keep rest (errors ++ [e])
        | None => delete_tables db keep rest errors
        end
      else delete_tables db keep rest errors
  end.

Definition not_removed (i : ReconcileIteration) : bool :=
  negb (bool_decide (GetState (Instance i) = STATE_REMOVED)).

(** What is kept because of the status alone: tables and connectors *)
Definition kept_by_status (i : ReconcileIteration) : list string * list string :=
  let st := Status (Instance i) in
  let managed := ConnectorsManaged (Instance i) in
  let '(tables, connectors) :=
    if not_removed i && negb (String.eqb (PipelineVersion st) EmptyString) then
      ([TableName (PipelineVersion st)],
       if managed then [ConnectorName (PipelineVersion st) (AppName (Spec (Instance i)))] else [])
    else ([], []) in
  let tables :=
    if not_removed i && negb managed && negb (String.eqb (TableName_ st) EmptyString)
    then tables ++ [TableName_ st] else tables in
  (tables, connectors).

(** deleteStaleDependencies; [Panic] when the table of the view has a name that
    TableNameToConnectorName cannot cut. *)
Definition deleteStaleDependencies (i : ReconcileIteration) : prog (list gerror) :=
  let '(tablesToKeep, connectorsToKeep) := kept_by_status i in
  r <- GetCurrentTable (AppDb i) ;;
  let rest errors tablesToKeep connectorsToKeep :=
    r <- GetConnectorsForOwner (Namespace (Meta (Instance i))) (GetUIDString (Instance i)) ;;
    errors <- match r with
              | inl err => Ret (errors ++ [err])
              | inr items =>
                  delete_connectors (Namespace (Meta (Instance i))) connectorsToKeep items errors
              end ;;
    r <- GetCyndiTables (AppDb i) ;;
    match r with
    | inl err => Ret (errors ++ [err])
    | inr tables => delete_tables (AppDb i) tablesToKeep tables errors
    end in
  match r with
  | inl err => rest [err] tablesToKeep connectorsToKeep
  | inr (Some currentTable) =>
      if not_removed i then
        if ConnectorsManaged (Instance i) then
          deref (TableNameToConnectorName currentTable (AppName (Spec (Instance i)))) (fun c =>
          rest [] (tablesToKeep ++ [currentTable]) (connectorsToKeep ++ [c]))
        else rest [] (tablesToKeep ++ [currentTable]) connectorsToKeep
      else rest [] tablesToKeep connectorsToKeep
  | inr None => rest [] tablesToKeep connectorsToKeep
  end.

(** ** Finalizers *)

Definition addFinalizer (i : ReconcileIteration) : prog (ReconcileIteration * option gerror) :=
  let fs := Finalizers_of (Meta (Instance i)) in
  if negb (Lang.ContainsString fs cyndipipelineFinalizer) then
    let i := on_instance (fun p => with_Finalizers p (AddFinalizer fs cyndipipelineFinalizer)) i in
    r <- call (KUpdatePipeline (Instance i)) ;;
    match r with
    | inl err => Ret (i, Some err)
    | inr p => Ret (set_Instance p i, None)
    end
  else Ret (i, None).

Definition removeFinalizer (i : ReconcileIteration) : prog (option gerror) :=
  let fs := Finalizers_of (Meta (Instance i)) in
  let i := on_instance (fun p => with_Finalizers p (RemoveFinalizer fs cyndipipelineFinalizer)) i in
  r <- call (KUpdatePipeline (Instance i)) ;;
  match r with
  | inl err => Ret (Some err)
  | inr _ => Ret None
  end.

(** ** Connector, view and deviation *)

Definition connector_config (i : ReconcileIteration) (cfg : CyndiConfiguration)
  : ConnectorConfiguration :=
  let spec := Spec (Instance i) in
  {| ccAppName := AppName spec;
     ccAdditionalFilters := AdditionalFilters spec;
     ccInsightsOnly := InsightsOnly spec;
     Paused := ConnectorPaused spec;
     Cluster := cfgConnectCluster cfg;
     ccTopic := cfgTopic cfg;
     ccTableName := TableName_ (Status (Instance i));
     DB := AppDBParams i;
     TasksMax := ConnectorTasksMax cfg;
     BatchSize := ConnectorBatchSize cfg;
     ccMaxAge := ConnectorMaxAge cfg;
     Template := ConnectorTemplate cfg;
     AllowlistSystemProfile := ConnectorAllowlistSystemProfile cfg;
     ccTopicReplicationFactor := TopicReplicationFactor cfg;
     ccDeadLetterQueueTopicName := DeadLetterQueueTopicName cfg |}.

Definition createConnector (i : ReconcileIteration) (name : string) (dryRun : bool)
  : prog (result gvalue) :=
  deref (config i) (fun cfg =>
  CreateConnector name (Namespace (Meta (Instance i))) (connector_config i cfg)
    (Some (Meta (Instance i))) dryRun).

Definition recreateViewIfNeeded (i : ReconcileIteration) : prog (result bool) :=
  if negb (ConnectorsManaged (Instance i)) then Ret (inr false)
  else
    try table <- GetCurrentTable (AppDb i) ;;
    let wanted := TableName_ (Status (Instance i)) in
    if bool_decide (table = Some wanted) then Ret (inr false)
    else
      err <- UpdateView (AppDb i) wanted ;;
      match err with
      | Some e => Ret (inl e)
      | None => Ret (inr true)
      end.

Definition label (connector : gvalue) (key : string) : string :=
  default EmptyString (GetLabels connector !! key).

(** The checks that compare the labels of the connector, in order *)
Definition label_problem (i : ReconcileIteration) (cfg : CyndiConfiguration) (connector : gvalue)
  : option string :=
  let spec := Spec (Instance i) in
  if negb (String.eqb (label connector LabelAppName) (AppName spec)) then
    Some ("App name disagrees (" +s+ label connector LabelAppName +s+ " vs " +s+
          AppName spec +s+ ")")
  else if negb (String.eqb (label connector LabelInsightsOnly)
                  (Strconv.FormatBool (InsightsOnly spec))) then
    Some "InsightsOnly changed"
  else if negb (String.eqb (label connector LabelStrimziCluster) (cfgConnectCluster cfg)) then
    Some ("ConnectCluster changed from " +s+ label connector LabelStrimziCluster +s+ " to " +s+
          cfgConnectCluster cfg)
  else if negb (String.eqb (label connector LabelMaxAge)
                  (Strconv.FormatInt (ConnectorMaxAge cfg))) then
    Some ("MaxAge changed from " +s+ label connector LabelMaxAge +s+ " to " +s+
          Strconv.FormatInt (ConnectorMaxAge cfg))
  else None.

(** The comparison of the configurations; [None]: the comparison panics *)
Definition config_problem (connector newConnector : gvalue) : option (option string) :=
  match NestedMap connector ["spec"; "config"], NestedMap newConnector ["spec"; "config"] with
  | inl _, _ | _, inl _ => Some None
  | inr current, inr new =>
      (* a map that is not found is a nil map *)
      match diff_normalized current new with
      | None => None
      | Some diff =>
          if Nat.ltb 0 (String.length diff)
          then Some (Some ("Connector configuration has changed: " +s+ diff)) else Some None
      end
  end.

(** checkForDeviation: [inl err] an error, [inr (Some msg)] a problem *)
Definition checkForDeviation (i : ReconcileIteration) : prog (result (option string)) :=
  let st := Status (Instance i) in
  deref (config i) (fun cfg =>
  if negb (String.eqb (CyndiConfigVersion st) (ConfigMapVersion cfg)) then
    Ret (inr (Some ("ConfigMap changed. New version is " +s+ ConfigMapVersion cfg)))
  else if negb (String.eqb (SpecHash st) (cfgSpecHash cfg)) then
    Ret (inr (Some ("Spec changed. New hash is " +s+ cfgSpecHash cfg)))
  else
    try dbTableExists <- CheckIfTableExists (AppDb i) (TableName_ st) ;;
    if Bool.eqb dbTableExists false then
      Ret (inr (Some ("Database table " +s+ TableName_ st +s+ " not found")))
    else if negb (ConnectorsManaged (Instance i)) then Ret (inr None)
    else
      r <- GetConnector (ConnectorName_ st) (Namespace (Meta (Instance i))) ;;
      match r with
      | inl err =>
          if IsNotFound err then
            Ret (inr (Some ("Connector " +s+ ConnectorName_ st +s+ " not found in " +s+
                            Namespace (Meta (Instance i)))))
          else Ret (inl err)
      | inr connector =>
          if IsFailed connector then
            Ret (inr (Some ("Connector " +s+ ConnectorName_ st +s+ " is in the FAILED state")))
          else
            match label_problem i cfg connector with
            | Some problem => Ret (inr (Some problem))
            | None =>
                try newConnector <- createConnector i (ConnectorName_ st) true ;;
                deref (config_problem connector newConnector) (fun problem => Ret (inr problem))
            end
      end).

(** updateViewIfHealthier; the iteration keeps the inventory database it opens *)
Definition updateViewIfHealthier (i : ReconcileIteration)
  : prog (ReconcileIteration * option gerror) :=
  if negb (ConnectorsManaged (Instance i)) then Ret (i, None)
  else
    let wanted := TableName_ (Status (Instance i)) in
    let update i :=
      err <- UpdateView (AppDb i) wanted ;;
      Ret (i, err) in
    r <- GetCurrentTable (AppDb i) ;;
    match r with
    | inl err => Ret (i, Some (Errorf_wrap "Failed to determine active table " err))
    | inr None => update i
    | inr (Some table) =>
        if String.eqb table wanted then Ret (i, None)
        else
          ' (db, err) <- Connect (NewBaseDatabase (HBIDBParams i)) ;;
          let i := set_InventoryDb db i in
          match err with
          | Some e => Ret (i, Some e)
          | None =>
              deref (config i) (fun cfg =>
              let inventoryTableName := InventoryDbSchema cfg +s+ ".hosts" in
              let spec := Spec (Instance i) in
              r <- CountHosts db inventoryTableName (InsightsOnly spec) (AdditionalFilters spec) ;;
              match r with
              | inl err =>
                  Ret (i, Some (Errorf_wrap "Failed to get host count from inventory " err))
              | inr hbiHostCount =>
                  r <- CountHosts (AppDb i) (Utils.AppFullTableName table) false [] ;;
                  match r with
                  | inl err =>
                      Ret (i, Some (Errorf_wrap "Failed to get host count from active table " err))
                  | inr activeTableHostCount =>
                      r <- CountHosts (AppDb i) (Utils.AppFullTableName wanted) false [] ;;
                      match r with
                      | inl err =>
                          Ret (i, Some (Errorf_wrap
                                 "Failed to get host count from application table " err))
                      | inr latestTableHostCount =>
                          if Z.ltb (Lang.Abs (Int64.sub hbiHostCount activeTableHostCount))
                                   (Lang.Abs (Int64.sub hbiHostCount latestTableHostCount))
                          then Ret (i, None)
                          else update i
                      end
                  end
              end)
          end
    end.

(** ** Reconcile *)

(** STATE_NEW, once the table exists: the connector, then the status *)
Definition start_connector (i : ReconcileIteration) (pipelineVersion : string)
    (tableExists : bool) : prog Result :=
  if ConnectorsManaged (Instance i) then
    r <- createConnector i
           (ConnectorName pipelineVersion (AppName (Spec (Instance i)))) false ;;
    match r with
    | inl e => fail_with e "Error creating connector"
    | inr _ => updateStatusAndRequeue i
    end
  else if negb tableExists then
    eventWarning "ExternalConnectorUpdate"
      "External connector must be updated to target new table: inventory.%s"
      [TableName_ (Status (Instance i))] ;;
    updateStatusAndRequeue i
  else updateStatusAndRequeue i.

(** STATE_NEW, with the new version in the status: the table *)
Definition start_table (i : ReconcileIteration) (cfg : CyndiConfiguration)
    (pipelineVersion : string) : prog Result :=
  let table := TableName_ (Status (Instance i)) in
  r <- CheckIfTableExists (AppDb i) table ;;
  match r with
  | inl e => fail_with e "Error checking table existence"
  | inr tableExists =>
      err <- (if negb tableExists
              then CreateTable (AppDb i) table (DBTableInitScript cfg +s+ cfgDBTableIndexSQL cfg)
              else Ret None) ;;
      match err with
      | Some e => fail_with e "Error creating table"
      | None => start_connector i pipelineVersion tableExists
      end
  end.

(** STATE_NEW, after the finalizer: start the synchronisation of a new version *)
Definition start_version (i : ReconcileIteration) (cfg : CyndiConfiguration) : prog Result :=
  let i := on_instance (upd (set_CyndiConfigVersion (ConfigMapVersion cfg))) i in
  let i := on_instance (upd (set_SpecHash (cfgSpecHash cfg))) i in
  now <- call NowUnixNano ;;
  let pipelineVersion := "1_" +s+ Strconv.FormatInt now in
  (* the error of TransitionToInitialSync is dropped *)
  let i := on_instance (fun p => (TransitionToInitialSync pipelineVersion p).1) i in
  probeStartingInitialSync i ;;
  start_table i cfg pipelineVersion.

(** STATE_NEW *)
Definition reconcile_new (i : ReconcileIteration) : prog Result :=
  ' (i, err) <- addFinalizer i ;;
  match err with
  | Some e => fail_with e "Error adding finalizer"
  | None => deref (config i) (fun cfg => start_version i cfg)
  end.

(** STATE_VALID: the view points to the table of this pipeline *)
Definition reconcile_valid (i : ReconcileIteration) : prog Result :=
  r <- recreateViewIfNeeded i ;;
  match r with
  | inl err => fail_with err "Error updating hosts view"
  | inr true =>
      eventNormal "ValidationSucceeded"
        "Pipeline became valid. inventory.hosts view now points to %s"
        [TableName_ (Status (Instance i))] ;;
      updateStatusAndRequeue i
  | inr false => updateStatusAndRequeue i
  end.

(** STATE_INITIAL_SYNC or STATE_INVALID: give up after too many failed validations *)
Definition reconcile_invalid (i : ReconcileIteration) : prog (ReconcileIteration * Result) :=
  let finish i :=
    res <- updateStatusAndRequeue i ;;
    Ret (i, res) in
  if bool_decide (GetValid (Instance i) = ConditionFalse) then
    deref (getValidationConfig i) (fun vc =>
    if Z.leb (AttemptsThreshold vc) (ValidationFailedCount (Status (Instance i))) then
      i <- (if bool_decide (GetState (Instance i) = STATE_INITIAL_SYNC)
            then ' (i, _) <- updateViewIfHealthier i ;; Ret i
            else Ret i) ;;
      let i := on_instance TransitionToNew i in
      probePipelineDidNotBecomeValid i ;;
      finish i
    else finish i)
  else finish i.

(** The part of Reconcile for a pipeline that is neither removed nor new *)
Definition reconcile_running (i : ReconcileIteration) : prog (ReconcileIteration * Result) :=
  let keep p := (res <- p ;; Ret (i, res)) in
  r <- checkForDeviation i ;;
  match r with
  | inl err => keep (fail_with err "Error checking for state deviation")
  | inr (Some problem) =>
      probeStateDeviationRefresh i problem ;;
      keep (updateStatusAndRequeue (on_instance TransitionToNew i))
  | inr None =>
      err <- (if ConnectorsManaged (Instance i)
              then SetConnectorState (ConnectorName_ (Status (Instance i)))
                     (Namespace (Meta (Instance i))) (ConnectorPaused (Spec (Instance i)))
              else Ret None) ;;
      match err with
      | Some e => keep (fail_with e "Error setting connector state")
      | None =>
          if bool_decide (GetState (Instance i) = STATE_VALID) then keep (reconcile_valid i)
          else reconcile_invalid i
      end
  end.

(** for _, err := range setupErrors { _ = i.error(err, ...) } *)
Fixpoint report_errors (errors : list gerror) : prog unit :=
  match errors with
  | [] => Ret tt
  | err :: rest =>
      error err ["Error deleting stale dependency"] ;;
      report_errors rest
  end.

(** The body of Reconcile once the iteration exists: the iteration at the end
    (whose databases are closed) and the result *)
Definition reconcile_body (i : ReconcileIteration) (setup_error : option gerror)
  : prog (ReconcileIteration * Result) :=
  let keep p := (res <- p ;; Ret (i, res)) in
  setupErrors <- match setup_error with
                 | Some err => error err [] ;; Ret [err]
                 | None => Ret []
                 end ;;
  stale <- deleteStaleDependencies i ;;
  let setupErrors := setupErrors ++ stale in
  report_errors setupErrors ;;
  env <- call (Getenv "EPHEMERAL") ;;
  let ephemeral := is_ephemeral env in
  if bool_decide (GetState (Instance i) = STATE_REMOVED) then
    match setupErrors with
    | first :: _ =>
        if negb ephemeral then Ret (i, failure first)
        else
          keep (err <- removeFinalizer i ;;
                match err with
                | Some e => fail_with e "Error removing finalizer"
                | None => Ret (0%Z, None)
                end)
    | [] =>
        keep (err <- removeFinalizer i ;;
              match err with
              | Some e => fail_with e "Error removing finalizer"
              | None => Ret (0%Z, None)
              end)
    end
  else
    match setupErrors with
    | first :: _ => Ret (i, failure first)
    | [] =>
        InitLabels (Instance i) ;;
        if bool_decide (GetState (Instance i) = STATE_NEW) then keep (reconcile_new i)
        else reconcile_running i
    end.

(** Reconcile; closing happens last, on every return *)
Definition Reconcile (namespace name : string) : prog Result :=
  ' (i, err) <- setup namespace name ;;
  match i, err with
  | None, Some _ => Panic (* i.error: the logger of the zero iteration is nil *)
  | None, None => Ret (0%Z, None)
  | Some i, err =>
      ' (i, res) <- reconcile_body i err ;;
      Close i ;;
      Ret res
  end.

End WithLibs.

(** ** Requests caused by a config map (SetupWithManager) *)

Definition map_config_map (namespace name : string) : prog (list (string * string)) :=
  if negb (String.eqb name configMapName) then Ret []
  else
    r <- FetchCyndiPipelines namespace ;;
    match r with
    | inl _ => Ret []
    | inr pipelines => Ret ((fun p => (namespace, Name (Meta p))) <$> pipelines)
    end.

End Pipeline.
