(* ===== verification/Validation.v ===== *)
(** * controllers/validation_controller.go: the validation controller

    It shares the iteration and the deviation check with the pipeline
    controller, compares the inventory with the application table and records
    the outcome in the status. [UpdateFunc] decides which updates of a
    pipeline start a validation. *)

From Stdlib Require Import ZArith Lia String.
From S2P Require Import Prelude GoStd Float GoJson Lang K8sLib Api State Utils Config Effects.
From S2P Require Import Database Connect Iteration Validate Pipeline.
Import Api State Config Database Connect Iteration Validate.

Module Validation.

Definition setup (namespace name : string)
  : prog (option ReconcileIteration * option gerror) :=
  ' (i, err) <- Pipeline.setup namespace name ;;
  match i, err with
  | Some i, None =>
      let i := set_GetRequeueInterval ValidationRequeue i in
      ' (db, err) <- Connect (NewBaseDatabase (HBIDBParams i)) ;;
      Ret (Some (set_InventoryDb db i), err)
  | _, _ => Ret (i, err)
  end.

(** fmt.Sprintf of "%v hosts (%.2f%%) do not match" *)
Definition mismatch_message (v : verdict) : string :=
  Strconv.FormatInt (mismatchCount v) +s+ " hosts (" +s+
  Float64.Format2 (Float64.mul (mismatchRatio v) Float64.hundred) +s+ "%) do not match".

Section WithLibs.
Context {L : Libs}.

(** The outcome of a validation goes into the status. *)
Definition record_verdict (i : ReconcileIteration) (v : verdict) : prog ReconcileIteration :=
  if isValid v then
    let msg := mismatch_message v in
    (if bool_decide (GetState (Instance i) = STATE_INVALID)
     then eventNormal "Valid" "Pipeline is valid again" [] else Ret tt) ;;
    Ret (on_instance (SetValid ConditionTrue "ValidationSucceeded"
           ("Validation succeeded - " +s+ msg) (hostCount v)) i)
  else
    let msg := "Validation failed - " +s+ mismatch_message v in
    call (Event "Warning" "ValidationFailed" msg) ;;
    Ret (on_instance (SetValid ConditionFalse "ValidationFailed" msg (hostCount v)) i).

Definition run_validation (i : ReconcileIteration) : prog Result :=
  deref (config i) (fun cfg =>
  r <- validate i (InventoryDbSchema cfg) ;;
  match r with
  | inl err => fail_with err "Error validating pipeline"
  | inr v =>
      i <- record_verdict i v ;;
      updateStatusAndRequeue i
  end).

Definition reconcile_body (CheckResourceDeviation : bool) (i : ReconcileIteration)
  : prog Result :=
  if bool_decide (GetState (Instance i) = STATE_REMOVED) ||
     bool_decide (GetState (Instance i) = STATE_NEW)
  then Ret (0%Z, None)
  else if CheckResourceDeviation then
    r <- Pipeline.checkForDeviation i ;;
    match r with
    | inl err => fail_with err "Error checking for state deviation"
    | inr (Some problem) =>
        probeStateDeviationRefresh i problem ;;
        updateStatusAndRequeue (on_instance TransitionToNew i)
    | inr None => run_validation i
    end
  else run_validation i.

Definition Reconcile (CheckResourceDeviation : bool) (namespace name : string) : prog Result :=
  ' (i, err) <- setup namespace name ;;
  match i, err with
  | None, Some _ => Panic (* i.error: the logger of the zero iteration is nil *)
  | None, None => Ret (0%Z, None)
  | Some i, Some e =>
      e <- error e [] ;;
      Close i ;;
      Ret (failure e)
  | Some i, None =>
      res <- reconcile_body CheckResourceDeviation i ;;
      Close i ;;
      Ret res
  end.

End WithLibs.

(** ** eventFilterPredicate: UpdateFunc; [None] is an object of another type *)
Definition UpdateFunc (oldGeneration newGeneration : Z)
    (oldPipeline newPipeline : option CyndiPipeline) : bool :=
  if negb (Z.eqb oldGeneration newGeneration) then true
  else
    match oldPipeline, newPipeline with
    | Some o, Some n =>
        Bool.eqb (InitialSyncInProgress (Status o)) false &&
        Bool.eqb (InitialSyncInProgress (Status n)) true
    | _, _ => false
    end.

End Validation.
