(* ===== verification/Sim.v ===== *)
(** * A small cluster to run the controllers in

    [World] holds what the controllers see: one pipeline, config maps,
    secrets, connectors, the tables of the application database with their
    hosts, the view, and the hosts of the inventory. [world_handler] answers
    every effect from it. It is used to run the controllers on concrete
    inputs: the witnesses of the theorems, and scenarios of the integration
    tests. It assumes nothing that the theorems rely on.

    Connection 1 is the application database, connection 2 the inventory. *)

From Stdlib Require Import ZArith Lia Ascii String.
From S2P Require Import Prelude GoStd Float GoJson Lang K8sLib Template Defaults Api State Utils Config Effects.
From S2P Require Import Database Connect Iteration Validate Pipeline Validation.
Import Api State Config Database Connect Iteration.

Module Sim.

(** The reference implementations of the libraries *)
#[export] Instance cmp_status : GoCmp CyndiPipelineStatus := Ref.cmp_of_eq_dec.
#[export] Instance cmp_status_ok : GoCmpOk CyndiPipelineStatus := Ref.cmp_of_eq_dec_ok.

Record World := {
  w_pipeline : option CyndiPipeline;
  w_configmaps : list (string * gmap string string);
  w_secrets : list Secret;
  w_connectors : list (string * gvalue);
  w_tables : list (string * list string);
  w_view : option string;
  w_inventory : list string;
  w_env : string;
  w_clock : Z;
  w_app_down : bool
}.

Definition set_w_pipeline p w := {|
  w_pipeline := p; w_configmaps := w_configmaps w; w_secrets := w_secrets w;
  w_connectors := w_connectors w; w_tables := w_tables w; w_view := w_view w;
  w_inventory := w_inventory w; w_env := w_env w; w_clock := w_clock w;
  w_app_down := w_app_down w |}.

Definition set_w_connectors cs w := {|
  w_pipeline := w_pipeline w; w_configmaps := w_configmaps w; w_secrets := w_secrets w;
  w_connectors := cs; w_tables := w_tables w; w_view := w_view w;
  w_inventory := w_inventory w; w_env := w_env w; w_clock := w_clock w;
  w_app_down := w_app_down w |}.

Definition set_w_tables ts w := {|
  w_pipeline := w_pipeline w; w_configmaps := w_configmaps w; w_secrets := w_secrets w;
  w_connectors := w_connectors w; w_tables := ts; w_view := w_view w;
  w_inventory := w_inventory w; w_env := w_env w; w_clock := w_clock w;
  w_app_down := w_app_down w |}.

Definition set_w_view v w := {|
  w_pipeline := w_pipeline w; w_configmaps := w_configmaps w; w_secrets := w_secrets w;
  w_connectors := w_connectors w; w_tables := w_tables w; w_view := v;
  w_inventory := w_inventory w; w_env := w_env w; w_clock := w_clock w;
  w_app_down := w_app_down w |}.

Definition set_w_configmaps cm w := {|
  w_pipeline := w_pipeline w; w_configmaps := cm; w_secrets := w_secrets w;
  w_connectors := w_connectors w; w_tables := w_tables w; w_view := w_view w;
  w_inventory := w_inventory w; w_env := w_env w; w_clock := w_clock w;
  w_app_down := w_app_down w |}.

Definition set_w_app_down b w := {|
  w_pipeline := w_pipeline w; w_configmaps := w_configmaps w; w_secrets := w_secrets w;
  w_connectors := w_connectors w; w_tables := w_tables w; w_view := w_view w;
  w_inventory := w_inventory w; w_env := w_env w; w_clock := w_clock w;
  w_app_down := b |}.

Definition tick w := {|
  w_pipeline := w_pipeline w; w_configmaps := w_configmaps w; w_secrets := w_secrets w;
  w_connectors := w_connectors w; w_tables := w_tables w; w_view := w_view w;
  w_inventory := w_inventory w; w_env := w_env w; w_clock := w_clock w + 1;
  w_app_down := w_app_down w |}.

Definition not_found : gerror := GError RNotFound "not found".
Definition sql_error : gerror := Errorf "ERROR (SQLSTATE 42601)".
Definition no_rows : gerror := Errorf "no rows in result set".

(** *** The API server *)

Definition named {A} (n : string) (l : list (string * A)) : option A :=
  match List.find (fun x => String.eqb x.1 n) l with Some x => Some x.2 | None => None end.

Definition without {A} (n : string) (l : list (string * A)) : list (string * A) :=
  List.filter (fun x => negb (String.eqb x.1 n)) l.

(** An update of the resource keeps the stored status; the object goes away
    when it is being deleted and its last finalizer is removed. *)
Definition update_pipeline (p : CyndiPipeline) (w : World) : result CyndiPipeline * World :=
  match w_pipeline w with
  | None => (inl not_found, w)
  | Some old =>
      let p' := with_Status p (Status old) in
      (inr p', set_w_pipeline
         (if bool_decide (DeletionTimestamp (Meta p') <> None) &&
             bool_decide (Finalizers_of (Meta p') = []) then None else Some p') w)
  end.

Definition update_status (p : CyndiPipeline) (w : World) : result CyndiPipeline * World :=
  match w_pipeline w with
  | None => (inl not_found, w)
  | Some old =>
      let p' := with_Status old (Status p) in
      (inr p', set_w_pipeline (Some p') w)
  end.

Definition of_owner (owner : string) (c : gvalue) : bool :=
  bool_decide (@GetLabels Ref.unstructured c !! LabelOwner = Some owner).

(** *** The databases *)

(** The word after the prefix of a CREATE TABLE statement *)
Fixpoint first_word (s : string) : string :=
  match s with
  | EmptyString => EmptyString
  | String c s' => if Ascii.eqb c " "%char then EmptyString else String c (first_word s')
  end.

Definition create_prefix : string := "CREATE TABLE inventory.".

Definition pg_exec (q : string) (w : World) : option gerror * World :=
  match List.find (fun t => String.eqb q (drop_query t.1)) (w_tables w) with
  | Some t => (None, set_w_tables (without t.1 (w_tables w))
                 (if bool_decide (w_view w = Some t.1) then set_w_view None w else w))
  | None =>
      match List.find (fun t => String.eqb q (viewTemplate t.1)) (w_tables w) with
      | Some t => (None, set_w_view (Some t.1) w)
      | None =>
          if String.eqb q grant_query then (None, w)
          else if String.prefix create_prefix q then
            let n := first_word (String.substring (String.length create_prefix)
                                   (String.length q) q) in
            (None, set_w_tables (w_tables w ++ [(n, [])]) w)
          else (Some sql_error, w)
      end
  end.

Definition hosts_of (conn : nat) (q : string) (query : string -> string) (w : World)
  : list string :=
  match conn with
  | 1 =>
      match List.find (fun t => String.eqb q (query (Utils.AppFullTableName t.1))) (w_tables w) with
      | Some t => t.2
      | None => []
      end
  | _ => w_inventory w
  end.

Definition pg_query (conn : nat) (q : string) (s : scan_ty) (w : World)
  : result (rows (scan_val s)) :=
  if w_app_down w && Nat.eqb conn 1 then inl (Errorf "connection reset") else
  match s with
  | ScanBool =>
      let found := List.existsb (fun t => String.eqb q (table_exists_query t.1)) (w_tables w) in
      inr (Rows [inr found] None no_rows)
  | ScanInt64 =>
      let n := List.length (hosts_of conn q (fun t => hostCountQuery t false []) w) in
      inr (Rows [inr (Z.of_nat n)] None no_rows)
  | ScanString =>
      if String.eqb q cyndi_tables_query
      then inr (Rows (inr <$> (w_tables w).*1) None no_rows)
      else inr (Rows (inr <$> hosts_of conn q (fun t => hostIdQuery t false []) w) None no_rows)
  | ScanStringPtr =>
      inr (Rows (match w_view w with Some v => [inr (Some v)] | None => [] end) None no_rows)
  end.

Definition world_handler : handler World := fun X e w =>
  match e in eff X return X * World with
  | KGetPipeline ns name =>
      (match w_pipeline w with
       | Some p => if String.eqb (Name (Meta p)) name && String.eqb (Namespace (Meta p)) ns
                   then inr p else inl not_found
       | None => inl not_found
       end, w)
  | KListPipelines => (inr (option_list (w_pipeline w)), w)
  | KGetConfigMap ns _ =>
      (match named ns (w_configmaps w) with Some m => inr m | None => inl not_found end, w)
  | KGetSecret _ name =>
      (match List.find (fun s => String.eqb (SecretName s) name) (w_secrets w) with
       | Some s => inr s
       | None => inl not_found
       end, w)
  | KUpdatePipeline p => update_pipeline p w
  | KUpdateStatus p => update_status p w
  | KGetConnector name _ =>
      (match named name (w_connectors w) with Some c => inr c | None => inl not_found end, w)
  | KListConnectors _ owner =>
      (inr (List.filter (of_owner owner) (snd <$> w_connectors w)), w)
  | KCreateConnector obj =>
      (None, set_w_connectors (w_connectors w ++ [(@GetName Ref.unstructured obj, obj)]) w)
  | KUpdateConnector obj =>
      let n := @GetName Ref.unstructured obj in
      (None, set_w_connectors ((fun c => if String.eqb c.1 n then (n, obj) else c) <$>
                                 w_connectors w) w)
  | KDeleteConnector name _ =>
      (match named name (w_connectors w) with Some _ => None | None => Some not_found end,
       set_w_connectors (without name (w_connectors w)) w)
  | Event _ _ _ | Eventf _ _ _ _ => (tt, w)
  | PgConnect s => (inr (if Strings.Contains s "inventory-db" then 2 else 1), w)
  | PgClose _ => (None, w)
  | PgQuery conn q s => (pg_query conn q s w, w)
  | PgExec _ q => pg_exec q w
  | Getenv _ => (w_env w, w)
  | NowUnixNano => (w_clock w, tick w)
  | Metric _ => (tt, w)
  end.

(** cmp.Diff, as far as the examples need it: the filter is asked about the maps
    and the values of every key, and the first unequal value is reported. *)
Definition asked (filter : gvalue -> gvalue -> option bool) (m m' : list (string * gvalue)) : bool :=
  bool_decide (filter (GMap m) (GMap m') <> None) &&
  forallb (fun kv => match massoc kv.1 m, massoc kv.1 m' with
                     | Some v, Some v' => bool_decide (filter v v' <> None)
                     | _, _ => true
                     end) m.

Fixpoint first_difference (filter : gvalue -> gvalue -> option bool) (f : gvalue -> string)
    (m m' : list (string * gvalue)) : string :=
  match m with
  | [] => "+"
  | (k, v) :: rest =>
      match massoc k m' with
      | None => "-" +s+ k
      | Some v' =>
          if agree filter f v v' then first_difference filter f rest m'
          else "-" +s+ k +s+ f v +s+ "+" +s+ f v'
      end
  end.

Lemma first_difference_nonempty filter f m m' : first_difference filter f m m' <> EmptyString.
Proof.
  induction m as [|[k v] m IH]; simpl; [done|].
  destruct (massoc k m') as [v'|]; [|done]. by destruct (agree filter f v v').
Qed.

#[export] Instance diff : GoDiff := {
  cmp_Diff filter f x y :=
    match x, y with
    | None, None => Some EmptyString
    | Some m, Some m' =>
        if asked filter m m' then
          if agree filter f (GMap m) (GMap m') then Some EmptyString
          else Some (first_difference filter f m m')
        else None
    | _, _ => Some "-nil"
    end
}.

#[export] Instance diff_ok : GoDiffOk.
Proof.
  split.
  - intros filter f m m' r. cbn [cmp_Diff diff]. destruct (asked _ _ _); [|done].
    destruct (agree filter f (GMap m) (GMap m')); intros [= <-]; [done|]. split; [|done].
    intros E. by apply first_difference_nonempty in E.
  - intros filter f m m' F P P'. cbn [cmp_Diff diff].
    destruct (asked filter m m') eqn:A; [by destruct (agree filter f (GMap m) (GMap m'))|].
    exfalso. apply not_true_iff_false in A. apply A. unfold asked. apply andb_true_iff. split.
    + apply bool_decide_eq_true. by apply F.
    + apply forallb_forall. intros [k x] _. cbn [fst].
      destruct (massoc k m) as [v|] eqn:V, (massoc k m') as [v'|] eqn:V'; try done.
      apply bool_decide_eq_true.
      apply F; [exact (plain_massoc _ _ _ P V)|exact (plain_massoc _ _ _ P' V')].
  - intros filter f [m|] [m'|] r _ [[=]|[=]]; simpl; intros [= <-]; naive_solver.
Qed.

#[export] Instance libs : Libs := {|
  lib_conditions := Ref.conditions;
  lib_finalizers := Ref.finalizers;
  lib_templates := Tmpl.engine;
  lib_unstructured := Ref.unstructured;
  lib_cmp := cmp_status;
  lib_diff := diff
|}.

#[export] Instance libs_ok : LibsOk libs.
Proof.
  split; [exact Ref.conditions_ok|exact Ref.finalizers_ok|exact Ref.unstructured_ok
         |exact cmp_status_ok|exact diff_ok].
Qed.

(** ** Running the controllers *)

Definition Result_of (w : World) (p : prog Result) : option Result := result_of world_handler p w.
Definition after_run (p : prog Result) (w : World) : World := (exec world_handler p w).1.2.

Definition reconcile (w : World) : World :=
  after_run (Pipeline.Reconcile "test" "test-pipeline-01") w.
Definition validate (w : World) : World :=
  after_run (Validation.Reconcile true "test" "test-pipeline-01") w.

(** ** A first world: nothing has happened yet *)

Definition secret (name host : string) : Secret :=
  {| SecretName := name;
     SecretData := list_to_map [("db.host", host); ("db.port", "5432"); ("db.name", "insights");
                                ("db.user", "cyndi"); ("db.password", "secret")] |}.

(** A connector template with three members *)
Definition small_template : string := Defaults.quoted
  "{`table.name.format`: `inventory.{{.TableName}}`, `topics`: `{{.Topic}}`, `connection.user`: `{{.DBUser}}`}".

Definition configmap : gmap string string :=
  list_to_map [("connector.config", small_template);
               ("db.schema", "CREATE TABLE inventory.{{.TableName}} (id uuid)");
               ("init.validation.attempts.threshold", "2")].

Definition world0 : World := {|
  w_pipeline := Some Sample.new_pipeline;
  w_configmaps := [("test", configmap)];
  w_secrets := [secret "test-pipeline-01-db" "app-db"; secret "host-inventory-read-only-db" "inventory-db"];
  w_connectors := [];
  w_tables := [];
  w_view := None;
  w_inventory := ["h1"; "h2"; "h3"];
  w_env := EmptyString;
  w_clock := 1;
  w_app_down := false
|}.

(** What the scenarios look at *)
Definition summary (w : World)
  : option (PipelineState * string * bool) * list string * list string * option string :=
  (match w_pipeline w with
   | Some p => Some (GetState p, ActiveTableName (Status p),
                     Lang.ContainsString (Finalizers_of (Meta p)) Pipeline.cyndipipelineFinalizer)
   | None => None
   end, (w_connectors w).*1, (w_tables w).*1, w_view w).

(** The sink connector copies the hosts into the newest table. *)
Definition replicate (w : World) : World :=
  set_w_tables ((fun t => (t.1, w_inventory w)) <$> w_tables w) w.

(** ** Scenarios *)

(** Synchronised, validated, and the view switched to the table *)
Definition world_valid : World := reconcile (validate (replicate (reconcile world0))).

(** The configuration changes: the pipeline is to be refreshed. *)
Definition world_changed : World :=
  reconcile (set_w_configmaps [("test", <["connector.topic" := "other"]> configmap)] world_valid).

(** The new version is being synchronised next to the old one. *)
Definition world_refreshing : World := reconcile world_changed.

(** The resource is deleted. *)
Definition delete_resource (w : World) : World :=
  match w_pipeline w with
  | Some p =>
      let m := Meta p in
      set_w_pipeline (Some {|
        Meta := {| Name := Name m; Namespace := Namespace m; UID := UID m;
                   ResourceVersion := ResourceVersion m; Generation := Generation m;
                   DeletionTimestamp := Some 1%Z; Finalizers_of := Finalizers_of m |};
        Spec := Spec p; Status := Status p |}) w
  | None => w
  end.

Example sync_and_validate :
  summary (reconcile world0) =
    (Some (STATE_INITIAL_SYNC, EmptyString, true), ["cyndi-test-pipeline-01-1-1"],
     ["hosts_v1_1"], None) /\
  summary world_valid =
    (Some (STATE_VALID, "hosts_v1_1", true), ["cyndi-test-pipeline-01-1-1"], ["hosts_v1_1"],
     Some "hosts_v1_1").
Proof. vm_compute. split; reflexivity. Qed.

(** The old version serves the view until the new one is valid; then it is
    removed. *)
Example refresh :
  summary world_refreshing =
    (Some (STATE_INITIAL_SYNC, "hosts_v1_1", true),
     ["cyndi-test-pipeline-01-1-1"; "cyndi-test-pipeline-01-1-2"],
     ["hosts_v1_1"; "hosts_v1_2"], Some "hosts_v1_1") /\
  summary (reconcile (reconcile (validate (replicate world_refreshing)))) =
    (Some (STATE_VALID, "hosts_v1_2", true), ["cyndi-test-pipeline-01-1-2"], ["hosts_v1_2"],
     Some "hosts_v1_2").
Proof. vm_compute. split; reflexivity. Qed.

(** Deleting the resource removes everything, then the resource. *)
Example deletion :
  summary (reconcile (delete_resource world_refreshing)) = (None, [], [], None).
Proof. vm_compute. reflexivity. Qed.

(** Two failed validations, the threshold of this configuration, and the
    pipeline starts over with a new version. *)
Example never_valid :
  (summary (reconcile (validate (validate (reconcile world0))))).1.1.1 =
    Some (STATE_NEW, "hosts_v1_1", true).
Proof. vm_compute. reflexivity. Qed.

(** The iteration that setup prepares in a world *)
Definition iteration_of (w : World) : ReconcileIteration :=
  match result_of world_handler (Pipeline.setup "test" "test-pipeline-01") w with
  | Some (Some i, _) => i
  | _ => Pipeline.new_iteration Sample.new_pipeline
  end.

End Sim.
