(* ===== verification/Manager.v ===== *)
(** * The process: main.go and the wiring of the controllers

    [Metrics]: the vectors of controllers/metrics/metrics.go and their
    registration. [Manager]: the scheme (groupversion_info.go), the builders of
    the two controllers (SetupWithManager) and main, whose calls of
    controller-runtime are the steps of a program of their own, since they
    happen once and before any reconciliation. [ManagerProps]: what a start of
    the process does for a given command line. *)

From Stdlib Require Import ZArith Lia Ascii String.
From S2P Require Import Prelude GoStd Float GoJson Lang Flags K8sLib Api State Utils Config Effects.
From S2P Require Import Database Connect Iteration Validate Pipeline Validation Sim.
Import Api State Config Iteration Flag.

(** ** metrics.go *)

Module Metrics.

Record Vec := { vec_name : string; vec_help : string; vec_labels : list string }.

Definition gauge_vec (g : gauge) : Vec :=
  match g with
  | hostCount => {| vec_name := "cyndi_hosts_total";
      vec_help := "Total number of hosts in the given table in the application database";
      vec_labels := ["app"] |}
  | inconsistencyRatio => {| vec_name := "cyndi_inconsistency_ratio";
      vec_help := "The ratio of inconsistency of data between the source database and the application replica";
      vec_labels := ["app"] |}
  | inconsistencyAbsolute => {| vec_name := "cyndi_inconsistency_total";
      vec_help := "The total number of hosts that are not consistent with the origin";
      vec_labels := ["app"] |}
  | inconsistencyThreshold => {| vec_name := "cyndi_inconsistency_threshold";
      vec_help := "The threshold of inconsistency below which the pipeline is considered valid";
      vec_labels := ["app"] |}
  end.

Definition counter_vec (c : counter) : Vec :=
  match c with
  | validationFailedCount => {| vec_name := "cyndi_validation_failed_total";
      vec_help := "The number of validation iterations that failed"; vec_labels := ["app"] |}
  | refreshCount => {| vec_name := "cyndi_refresh_total";
      vec_help := "The number of times this pipeline has been refreshed";
      vec_labels := ["app"; "reason"] |}
  end.

Definition REFRESH_INVALID_PIPELINE : string := "invalid".
Definition REFRESH_STATE_DEVIATION : string := "deviation".

(** Init: the arguments of MustRegister *)
Definition Init : list Vec :=
  [gauge_vec hostCount; gauge_vec inconsistencyRatio; gauge_vec inconsistencyAbsolute;
   gauge_vec inconsistencyThreshold; counter_vec validationFailedCount; counter_vec refreshCount].

(** The vector of an operation and the label values it supplies *)
Definition op_vec (m : metric_op) : Vec * list string :=
  match m with
  | GaugeInit g ls | GaugeSet g ls _ => (gauge_vec g, ls)
  | CounterInit c ls | CounterInc c ls => (counter_vec c, ls)
  end.

End Metrics.

(** ** Objects, events and builders of controller-runtime *)

Module Manager.

(** group, kind and version *)
Definition kind : Type := string * string * string.

(** groupversion_info.go *)
Definition GroupVersion : string * string := ("cyndi.cloud.redhat.com", "v1alpha1").

(** scheme.Builder: the types it adds *)
Record SchemeBuilder_ := { sb_GroupVersion : string * string; sb_types : list string }.

Definition Register (b : SchemeBuilder_) (types : list string) : SchemeBuilder_ :=
  {| sb_GroupVersion := sb_GroupVersion b; sb_types := sb_types b ++ types |}.

(** The builder after init of cyndipipeline_types.go *)
Definition SchemeBuilder : SchemeBuilder_ :=
  Register {| sb_GroupVersion := GroupVersion; sb_types := [] |}
    ["CyndiPipeline"; "CyndiPipelineList"].

Definition CyndiPipelineKind : kind := (GroupVersion.1, "CyndiPipeline", GroupVersion.2).
Definition ConfigMapKind : kind := (EmptyString, "ConfigMap", "v1").

Definition request : Type := string * string.

(** What events show of an object; [obj_pipeline] is the pipeline itself when
    the object is one. *)
Record Object := {
  obj_kind : kind;
  obj_namespace : string;
  obj_name : string;
  obj_generation : Z;
  obj_controller : option (kind * string);
  obj_pipeline : option CyndiPipeline
}.

Inductive Event :=
| CreateEvent (o : Object)
| UpdateEvent (ObjectOld ObjectNew : Object)
| DeleteEvent (o : Object)
| GenericEvent (o : Object).

Definition event_objects (ev : Event) : list Object :=
  match ev with
  | CreateEvent o | DeleteEvent o | GenericEvent o => [o]
  | UpdateEvent o n => [o; n]
  end.

(** predicate.Funcs *)
Record Funcs := {
  CreateFunc : option (Object -> bool);
  DeleteFunc : option (Object -> bool);
  UpdateFunc : option (Object -> Object -> bool);
  GenericFunc : option (Object -> bool)
}.

(** ctrl.NewControllerManagedBy(mgr)...Complete(r) *)
Record Builder := {
  Named : string;
  For : kind;
  Owns : list kind;
  Watches : list (kind * (string -> string -> prog (list request)));
  WithEventFilter : option Funcs;
  reconciler : string -> string -> prog Result
}.

(** ** validation_controller.go, cyndipipeline_controller.go *)

Definition eventFilterPredicate : Funcs := {|
  CreateFunc := None; DeleteFunc := None; GenericFunc := None;
  UpdateFunc := Some (fun o n =>
    Validation.UpdateFunc (obj_generation o) (obj_generation n) (obj_pipeline o) (obj_pipeline n))
|}.

(** The clients and the scheme of a reconciler are those of the manager, which
    every call of the model goes through; left are the names of its logger and
    of its event recorder. *)
Record CyndiPipelineReconciler := { Log : list string; Recorder : string }.

Definition NewCyndiReconciler (log : list string) (recorder : string) : CyndiPipelineReconciler :=
  {| Log := log; Recorder := recorder |}.

Record ValidationReconciler := {
  embedded : CyndiPipelineReconciler;
  CheckResourceDeviation : bool
}.

Definition NewValidationReconciler (log : list string) (recorder : string)
    (checkResourceDeviation : bool) : ValidationReconciler :=
  {| embedded := NewCyndiReconciler log recorder; CheckResourceDeviation := checkResourceDeviation |}.

Section WithLibs.
Context {L : Libs}.

Definition ValidationSetupWithManager (r : ValidationReconciler) : Builder := {|
  Named := "cyndi-validation";
  For := CyndiPipelineKind;
  Owns := [];
  Watches := [];
  WithEventFilter := Some eventFilterPredicate;
  reconciler := Validation.Reconcile (CheckResourceDeviation r)
|}.

Definition CyndiSetupWithManager (r : CyndiPipelineReconciler) : Builder := {|
  Named := "cyndi-controller";
  For := CyndiPipelineKind;
  Owns := [Connect.connectorGVK];
  Watches := [(ConfigMapKind, Pipeline.map_config_map)];
  WithEventFilter := None;
  reconciler := Pipeline.Reconcile
|}.

(** ** main.go *)

Definition Second : Z := 1000000000.

(** ctrl.Options; durations in nanoseconds. The scheme is the one that init
    has filled. *)
Record Options := {
  MetricsBindAddress : string;
  Port : Z;
  LeaderElection : bool;
  LeaderElectionID : string;
  HealthProbeBindAddress : string;
  RenewDeadline : Z;
  LeaseDuration : Z
}.

(** The calls main makes, up to the one that runs the manager *)
Inductive step :=
| AddClientGoToScheme
| AddToScheme (b : SchemeBuilder_)
| SetLogger (devMode : bool)
| GetConfigOrDie
| NewManager (o : Options)
| NewForConfig
| Complete (b : Builder)
| MustRegister (vs : list Metrics.Vec)
| AddHealthzCheck (name : string)
| AddReadyzCheck (name : string)
| SetupSignalHandler
| Start.

(** A process: [Do] is a call that answers with an error or without. *)
Inductive process :=
| Exit (code : Z)
| Do (s : step) (k : option gerror -> process).

(** What main gets from outside: the flags that imported packages define, the
    exit status of ctrl.GetConfigOrDie when it dies; a Go panic exits with 2. *)
Class Environment := {
  imported_flags : FlagSet;
  die_status : Z
}.
Definition panic_status : Z := 2.

Context {E : Environment}.

(** The flags of main; [None]: a flag is defined twice *)
Definition define_flags (f : FlagSet) : option FlagSet :=
  match Var "metrics-addr" (StringFlag ":8080") f with
  | None => None
  | Some f =>
      match Var "health-probe-bind-address" (StringFlag ":8081") f with
      | None => None
      | Some f => Var "enable-leader-election" (BoolFlag false) f
      end
  end.

(** The variables the flags are bound to *)
Definition string_var (f : FlagSet) (name : string) : string :=
  match f !! name with Some (StringFlag s) => s | _ => EmptyString end.
Definition bool_var (f : FlagSet) (name : string) : bool :=
  match f !! name with Some (BoolFlag b) => b | _ => false end.

Definition options (f : FlagSet) : Options := {|
  MetricsBindAddress := string_var f "metrics-addr";
  Port := 9443;
  LeaderElection := bool_var f "enable-leader-election";
  LeaderElectionID := "212d6419.cloud.redhat.com";
  HealthProbeBindAddress := string_var f "health-probe-bind-address";
  RenewDeadline := 60 * Second;
  LeaseDuration := 90 * Second
|}.

(** if err != nil { os.Exit(1) } *)
Definition or_exit (code : Z) (s : step) (k : process) : process :=
  Do s (fun err => match err with Some _ => Exit code | None => k end).

(** main after flag.Parse *)
Definition run_manager (f : FlagSet) (devMode : bool) : process :=
  Do (SetLogger devMode) (fun _ =>
  or_exit die_status GetConfigOrDie (
  or_exit 1 (NewManager (options f)) (
  or_exit die_status GetConfigOrDie (
  or_exit 1 NewForConfig (
  or_exit 1 (Complete (ValidationSetupWithManager
    (NewValidationReconciler ["controllers"; "validation"] "validation" true))) (
  or_exit 1 (Complete (CyndiSetupWithManager (NewCyndiReconciler ["controllers"; "cyndi"] "cyndi"))) (
  or_exit panic_status (MustRegister Metrics.Init) (
  or_exit 1 (AddHealthzCheck "healthz") (
  or_exit 1 (AddReadyzCheck "readyz") (
  Do SetupSignalHandler (fun _ =>
  or_exit 1 Start (Exit 0)))))))))))).

Definition main (args : list string) (DEV_MODE : string) : process :=
  match define_flags imported_flags with
  | None => Exit panic_status
  | Some f =>
      match Parse f args with
      | Help => Exit 0
      | Invalid => Exit 2
      | Parsed f _ => run_manager f (String.eqb DEV_MODE "true")
      end
  end.

(** init: utilruntime.Must panics *)
Definition init (k : process) : process :=
  or_exit panic_status AddClientGoToScheme (
  or_exit panic_status (AddToScheme SchemeBuilder) k).

Definition operator (args : list string) (DEV_MODE : string) : process :=
  init (main args DEV_MODE).

(** Calls with their answers, and the exit status *)
Inductive exits : process -> list (step * option gerror) -> Z -> Prop :=
| exits_exit code : exits (Exit code) [] code
| exits_do s k e t code : exits (k e) t code -> exits (Do s k) ((s, e) :: t) code.

End WithLibs.
End Manager.

Module ManagerProps.
Import Manager.

Section Props.
Context {L : Libs} {E : Environment}.

(** The calls of a start in their order; with a status: what the process exits
    with when the call fails. *)
Definition plan (f : FlagSet) (devMode : bool) : list (step * option Z) :=
  [(AddClientGoToScheme, Some panic_status); (AddToScheme SchemeBuilder, Some panic_status);
   (SetLogger devMode, None); (GetConfigOrDie, Some die_status);
   (NewManager (options f), Some 1%Z); (GetConfigOrDie, Some die_status);
   (NewForConfig, Some 1%Z);
   (Complete (ValidationSetupWithManager
     (NewValidationReconciler ["controllers"; "validation"] "validation" true)), Some 1%Z);
   (Complete (CyndiSetupWithManager (NewCyndiReconciler ["controllers"; "cyndi"] "cyndi")), Some 1%Z);
   (MustRegister Metrics.Init, Some panic_status);
   (AddHealthzCheck "healthz", Some 1%Z); (AddReadyzCheck "readyz", Some 1%Z);
   (SetupSignalHandler, None); (Start, Some 1%Z)].

Inductive follows : list (step * option Z) -> list (step * option gerror) -> Z -> Prop :=
| follows_end : follows [] [] 0
| follows_step s c p t code : follows p t code -> follows ((s, c) :: p) ((s, None) :: t) code
| follows_ignored s e p t code : follows p t code -> follows ((s, None) :: p) ((s, Some e) :: t) code
| follows_failed s c e p : follows ((s, Some c) :: p) [(s, Some e)] c.

Lemma follows_or_exit s c k p t code :
  (forall t code, exits k t code -> follows p t code) ->
  exits (or_exit c s k) t code -> follows ((s, Some c) :: p) t code.
Proof.
  intros H R. inversion R as [|? ? e t' ? R']; subst. destruct e as [e|].
  - inversion R'; subst. apply follows_failed.
  - apply follows_step, H, R'.
Qed.

Lemma follows_do s k p t code :
  (forall t code, exits k t code -> follows p t code) ->
  exits (Do s (fun _ => k)) t code -> follows ((s, None) :: p) t code.
Proof.
  intros H R. inversion R as [|? ? e t' ? R']; subst.
  destruct e as [e|]; [apply follows_ignored|apply follows_step]; by apply H.
Qed.

Lemma follows_manager f devMode t code :
  exits (run_manager f devMode) t code -> follows (drop 2 (plan f devMode)) t code.
Proof.
  unfold run_manager. simpl drop. revert t code.
  repeat first [refine (fun t code => follows_or_exit _ _ _ _ t code _); clear t code
               |refine (fun t code => follows_do _ _ _ t code _); clear t code].
  intros t code R. inversion R; subst. constructor.
Qed.

(** Once a call has been made, all before it have succeeded. *)
Lemma follows_before p q s c t code e :
  follows (p ++ (s, c) :: q) t code -> (s, e) ∈ t -> (forall d, (s, d) ∉ p) ->
  forall s' d, (s', Some d) ∈ p -> (s', None) ∈ t.
Proof.
  revert t. induction p as [|[s1 c1] p IH]; intros t F I N s' d I'; [by apply elem_of_nil in I'|].
  assert (N1 : s <> s1) by (intros ->; apply (N c1); by left).
  assert (Np : forall d, (s, d) ∉ p) by (intros d' Id; apply (N d'); by right).
  inversion F as [|? ? ? t' ? F'|? e' ? t' ? F'|]; subst.
  - apply elem_of_cons in I as [[= -> _]|I]; [done|].
    apply elem_of_cons in I' as [[= -> _]|I']; [by left|right; by eapply IH].
  - apply elem_of_cons in I as [[= -> _]|I]; [done|].
    apply elem_of_cons in I' as [[= ]|I']. right; by eapply IH.
  - apply list_elem_of_singleton in I as [= -> _]. done.
Qed.

Lemma define_flags_lookup f g : define_flags f = Some g ->
  g !! "metrics-addr" = Some (StringFlag ":8080") /\
  g !! "health-probe-bind-address" = Some (StringFlag ":8081") /\
  g !! "enable-leader-election" = Some (BoolFlag false).
Proof.
  unfold define_flags, Var. destruct (f !! "metrics-addr"); [done|].
  destruct (<["metrics-addr" := _]> f !! "health-probe-bind-address"); [done|].
  case_match; [done|]. intros [= <-].
  split_and!; [do 2 rewrite lookup_insert_ne by done|rewrite lookup_insert_ne by done|];
    apply lookup_insert_eq.
Qed.

Lemma assigned_string g l f n s : assigns g l = Some f -> g !! n = Some (StringFlag s) ->
  string_var f n = default s (last_value n l).
Proof.
  intros A D. pose proof (assigns_lookup l g f n _ A D) as H. unfold string_var.
  destruct (last_value n l) as [x|]; [|by rewrite H].
  destruct H as (w & -> & _ & S & _). destruct (S s eq_refl) as [s' ->]. done.
Qed.

Lemma assigned_bool g l f n b : assigns g l = Some f -> g !! n = Some (BoolFlag b) ->
  bool_var f n = match last_value n l with
                 | Some v => bool_decide (ParseBool v = Some true)
                 | None => b
                 end.
Proof.
  intros A D. pose proof (assigns_lookup l g f n _ A D) as H. unfold bool_var.
  destruct (last_value n l) as [x|]; [|by rewrite H].
  destruct H as (w & -> & _ & _ & B). destruct (B b eq_refl) as [b' ->].
  simpl. destruct (ParseBool x) as [[]|]; done.
Qed.

(** C16: A start of the operator. However the flags are spelled on the command
    line, the process makes the calls of the plan in their order, with the
    addresses and the leader election that the last assignments (or the
    defaults) say; it stops at the first call that fails, with the status of
    that call, and exits with 0 only when the manager has ended without an
    error. The manager is started only once both controllers, the metrics and
    both probes are in place. *)
Theorem start_up (DEV_MODE : string) (g f : FlagSet) (l : list (string * string))
    (cs : list (list string)) (t : list (step * option gerror)) (code : Z) :
  define_flags imported_flags = Some g ->
  Forall2 (fun a c => spells (is_bool_flag g a.1) a c /\ nameable a.1 = true) l cs ->
  assigns g l = Some f ->
  exits (operator (List.concat cs) DEV_MODE) t code ->
  follows (plan f (String.eqb DEV_MODE "true")) t code /\
  MetricsBindAddress (options f) = default ":8080" (last_value "metrics-addr" l) /\
  HealthProbeBindAddress (options f) = default ":8081" (last_value "health-probe-bind-address" l) /\
  LeaderElection (options f) =
    match last_value "enable-leader-election" l with
    | Some v => bool_decide (ParseBool v = Some true)
    | None => false
    end /\
  (forall e, (Start, e) ∈ t -> forall s c, (s, Some c) ∈ removelast (plan f (String.eqb DEV_MODE "true")) ->
     (s, None) ∈ t).
Proof.
  intros D S A R. destruct (define_flags_lookup _ _ D) as (D1 & D2 & D3).
  assert (F : follows (plan f (String.eqb DEV_MODE "true")) t code).
  { revert R. unfold operator, init. revert t code.
    do 2 (refine (fun t code => follows_or_exit _ _ _ _ t code _); clear t code).
    intros t code. unfold main. rewrite D.
    rewrite <- (app_nil_r (List.concat cs)), (Parse_assigns l g f cs [] S A). apply follows_manager. }
  split_and!; [done|by apply (assigned_string g l)|by apply (assigned_string g l)
              |by apply (assigned_bool g l)|].
  intros e I s c Is. eapply (follows_before (removelast (plan f (String.eqb DEV_MODE "true"))) [] Start (Some 1%Z));
    [exact F|exact I| |exact Is].
  intros d Id. repeat (apply elem_of_cons in Id as [[= ]|Id]; try done). by apply elem_of_nil in Id.
Qed.

End Props.

(** *** The command line of config/default/manager_auth_proxy_patch.yaml *)

Existing Instances Sim.libs Sim.libs_ok.

(** controller-runtime defines the flag kubeconfig. *)
#[local] Instance environment : Environment :=
  {| imported_flags := {[ "kubeconfig" := OtherFlag false (fun _ => true) ]}; die_status := 1 |}.

Definition deployed_args : list (list string) :=
  [["--metrics-addr=127.0.0.1:8080"]; ["--enable-leader-election"];
   ["--health-probe-bind-address=:8081"]].

Definition deployed : list (string * string) :=
  [("metrics-addr", "127.0.0.1:8080"); ("enable-leader-election", "true");
   ("health-probe-bind-address", ":8081")].

Definition get_flags (f : option FlagSet) : FlagSet := default ∅ f.

Definition main_flags : FlagSet := get_flags (define_flags imported_flags).
Definition deployed_flags : FlagSet := get_flags (assigns main_flags deployed).

(** The API server cannot be reached. *)
Definition failed_start : list (step * option gerror) :=
  [(AddClientGoToScheme, None); (AddToScheme SchemeBuilder, None); (SetLogger true, None);
   (GetConfigOrDie, None); (NewManager (options deployed_flags), Some Connect.ConnectProps.no_table)].

Lemma start_up_witness :
  follows (plan deployed_flags true) failed_start 1 /\
  MetricsBindAddress (options deployed_flags) = "127.0.0.1:8080".
Proof.
  edestruct (start_up "true" main_flags deployed_flags deployed deployed_args failed_start 1)
    as (F & M & _); [reflexivity| |reflexivity| |split; [exact F|exact M]].
  - constructor; [split; [|reflexivity]|constructor; [split; [|reflexivity]|constructor;
      [split; [|reflexivity]|constructor]]].
    + apply (spell_equals _ "--" "metrics-addr"). right; left.
    + apply (spell_alone _ "--" "enable-leader-election"); [right; left|reflexivity].
    + apply (spell_equals _ "--" "health-probe-bind-address"). right; left.
  - repeat constructor.
Defined.

End ManagerProps.
