(* ===== verification/StatusUpdate.v ===== *)
(** * How an iteration ends: the status update and the next run

    Lemmas and properties of updateStatusAndRequeue (iteration.go), through
    which both controllers leave a successful iteration. *)

From Stdlib Require Import ZArith Lia String.
From S2P Require Import Prelude GoStd Float GoJson Lang K8sLib Api State Utils Config Effects.
From S2P Require Import Database Connect Iteration Validate Pipeline Validation Sim.
Import Api State Config Database Connect Iteration.

Module StatusUpdate.

Section StatusUpdate.
Context {L : Libs}.

(** The instance with the table reported by the database *)
Definition with_active (cur : option string) (p : CyndiPipeline) : CyndiPipeline :=
  upd (set_ActiveTableName (default EmptyString cur)) p.

Lemma error_runs err prefixes t r :
  runs (error err prefixes) t r ->
  wlog t = [] /\ r = Some err.
Proof.
  intros R. pattern t, r. apply (runs_wp _ _ _ _ R). unfold error, eventWarning.
  simpl. intros _. done.
Qed.

Lemma fail_with_runs err prefix t r :
  runs (fail_with err prefix) t r -> wlog t = [] /\ r = Some (failure err).
Proof.
  intros R. unfold fail_with in R.
  apply runs_bind_inv in R as [(t1 & t2 & e & -> & R1 & R2)|[R _]].
  - apply error_runs in R1 as [W [= ->]]. apply runs_ret_inv in R2 as [-> ->].
    by rewrite app_nil_r.
  - by apply error_runs in R as [_ ?].
Qed.

(** The ways updateStatusAndRequeue can go. *)
Inductive ended (i : ReconcileIteration) (t : list obs) : option Result -> Prop :=
| e_unknown t1 t2 err :
    t = t1 ++ t2 -> runs (GetCurrentTable (AppDb i)) t1 (Some (inl err)) -> wlog t = [] ->
    ended i t (Some (failure err))
| e_unchanged t1 t2 cur d :
    t = t1 ++ t2 -> runs (GetCurrentTable (AppDb i)) t1 (Some (inr cur)) -> wlog t = [] ->
    cmp_Equal (Status (with_active cur (Instance i))) (Status (OriginalInstance i)) = true ->
    requeue_interval (set_Instance (with_active cur (Instance i)) i) = Some d ->
    ended i t (Some (Int64.mul Second d, None))
| e_updated t1 t2 cur p' d :
    t = t1 ++ t2 -> runs (GetCurrentTable (AppDb i)) t1 (Some (inr cur)) ->
    wlog t = [Obs (KUpdateStatus (with_active cur (Instance i))) (inr p')] ->
    cmp_Equal (Status (with_active cur (Instance i))) (Status (OriginalInstance i)) = false ->
    requeue_interval (set_Instance p' i) = Some d ->
    ended i t (Some (Int64.mul Second d, None))
| e_refused t1 t2 cur err :
    t = t1 ++ t2 -> runs (GetCurrentTable (AppDb i)) t1 (Some (inr cur)) ->
    wlog t = [Obs (KUpdateStatus (with_active cur (Instance i))) (inl err)] ->
    cmp_Equal (Status (with_active cur (Instance i))) (Status (OriginalInstance i)) = false ->
    ended i t (Some (failure err))
| e_no_config : config i = None -> ended i t None.

Lemma requeue_interval_None i p : requeue_interval (set_Instance p i) = None -> config i = None.
Proof.
  unfold requeue_interval, getValidationConfig, set_Instance. simpl.
  destruct (GetRequeueInterval i), (config i) as [cfg|]; [done..| |done].
  by destruct (Bool.eqb _ _).
Qed.

Lemma on_instance_active cur i :
  match cur with
  | None => on_instance (upd (set_ActiveTableName EmptyString)) i
  | Some t => on_instance (upd (set_ActiveTableName t)) i
  end = set_Instance (with_active cur (Instance i)) i.
Proof. by destruct cur. Qed.

Lemma updateStatusAndRequeue_runs i t r :
  runs (updateStatusAndRequeue i) t r -> ended i t r.
Proof.
  intros R. unfold updateStatusAndRequeue in R.
  apply runs_bind_inv in R as [(t1 & t2 & cur & -> & R1 & R)|[R _]];
    [|by apply safe_runs in R; [|auto with cyndi_prog]].
  assert (W1 : wlog t1 = []) by (apply read_only_wlog;
    exact (runs_wp _ _ _ _ R1 (only_wp _ _ (GetCurrentTable_read_only _)))).
  destruct cur as [err|cur].
  { apply fail_with_runs in R as [W ->]. eapply e_unknown; [done|done|].
    by rewrite wlog_app, W1, W. }
  rewrite on_instance_active in R. set (p := with_active cur (Instance i)) in *.
  cbn zeta in R. simpl Instance in R. simpl OriginalInstance in R.
  destruct (cmp_Equal (Status p) (Status (OriginalInstance i))) eqn:C; cbn [negb] in R.
  - apply runs_bind_inv in R as [(t3 & t4 & x & -> & R2 & R)|[R _]];
      [|by apply runs_ret_inv in R as [_ ?]].
    apply runs_ret_inv in R2 as [-> [= ->]]. simpl in R.
    destruct (requeue_interval _) as [d|] eqn:D; simpl in R.
    + apply runs_ret_inv in R as [-> ->].
      eapply e_unchanged; [done|done|by rewrite app_nil_r|done|exact D].
    + apply runs_panic_inv in R as [-> ->]. apply e_no_config. by eapply requeue_interval_None.
  - apply runs_bind_inv in R as [(t3 & t4 & x & -> & R2 & R)|[R _]];
      [|by apply runs_call_inv in R as (? & _ & ?)].
    apply runs_call_inv in R2 as (x' & -> & [= ->]).
    assert (W : forall t, wlog t = [] ->
      wlog (t1 ++ [Obs (KUpdateStatus p) x'] ++ t) = [Obs (KUpdateStatus p) x']).
    { intros t W. by rewrite !wlog_app, W1, W. }
    destruct x' as [err|p'].
    + assert (R' : wlog t4 = [] /\ r = Some (failure err)).
      { destruct (IsConflict err); [apply runs_ret_inv in R as [-> ->]; done|].
        by apply fail_with_runs in R. }
      destruct R' as [W4 ->]. eapply e_refused; [done|done|by apply W|done].
    + simpl in R. destruct (requeue_interval _) as [d|] eqn:D; simpl in R.
      * apply runs_ret_inv in R as [-> ->].
        eapply e_updated; [done|done|by apply W|done|exact D].
      * apply runs_panic_inv in R as [-> ->]. apply e_no_config. by eapply requeue_interval_None.
Qed.

(** What may be written while ending: at most the status. *)
Lemma ended_log i t r :
  ended i t r -> r <> None ->
  wlog t = [] \/ exists cur x, wlog t = [Obs (KUpdateStatus (with_active cur (Instance i))) x].
Proof. destruct 1; naive_solver. Qed.

(** With a configuration, at most one status is sent, with the active table the
    database reported. *)
Lemma updateStatusAndRequeue_status i t r :
  config i <> None -> runs (updateStatusAndRequeue i) t r ->
  status_updates t = [] \/
  exists cur x, answered t (GetCurrentTable (AppDb i)) (inr cur) /\
    status_updates t = [(with_active cur (Instance i), x)].
Proof.
  intros C R. apply updateStatusAndRequeue_runs in R.
  inversion R as [t1 t2 e ? R1 W|t1 t2 cur d ? R1 W|t1 t2 cur p d ? R1 W|t1 t2 cur e ? R1 W|];
    subst; [left|left|right|right|done].
  1, 2: by rewrite status_wlog, W.
  - exists cur, (inr p). split; [by apply (answered_here [])|]. by rewrite status_wlog, W.
  - exists cur, (inl e). split; [by apply (answered_here [])|]. by rewrite status_wlog, W.
Qed.

End StatusUpdate.
End StatusUpdate.

(** ** Properties *)

Module StatusUpdateProps.
Import StatusUpdate.

Section Props.
Context {L : Libs} {LOK : LibsOk L}.

(** C24: The status is written when, and only when, the iteration changed it. A
    successful iteration records the table the view uses, as the database
    reports it, sends the status exactly when it differs from the fetched one,
    and writes nothing else; when the database cannot say, nothing is written. *)
Theorem status_written_iff_changed (i : ReconcileIteration) (t : list obs) (res : Result) :
  runs (updateStatusAndRequeue i) t (Some res) ->
  exists t1 t2 answer, t = t1 ++ t2 /\ runs (GetCurrentTable (AppDb i)) t1 (Some answer) /\
    match answer with
    | inl err => wlog t = [] /\ res = failure err
    | inr cur =>
        let p := with_active cur (Instance i) in
        if decide (Status p = Status (OriginalInstance i)) then wlog t = [] /\ res.2 = None
        else exists x, wlog t = [Obs (KUpdateStatus p) x] /\
               res.2 = match x with inl e => Some e | inr _ => None end
    end.
Proof.
  intros R. apply updateStatusAndRequeue_runs in R.
  inversion R as [t1 t2 err ? R1 W|t1 t2 cur d ? R1 W C D|t1 t2 cur p' d ? R1 W C D
                 |t1 t2 cur err ? R1 W C|]; subst; exists t1, t2.
  - exists (inl err). done.
  - exists (inr cur). split_and!; [done..|]. apply cmp_Equal_iff in C. simpl.
    by rewrite decide_True.
  - exists (inr cur). split_and!; [done..|]. simpl. rewrite decide_False; [by eexists|].
    intros E%cmp_Equal_iff.
    change (cmp_Equal (Status (with_active cur (Instance i))) (Status (OriginalInstance i)) = true) in E.
    congruence.
  - exists (inr cur). split_and!; [done..|]. simpl. rewrite decide_False; [by eexists|].
    intros E%cmp_Equal_iff.
    change (cmp_Equal (Status (with_active cur (Instance i))) (Status (OriginalInstance i)) = true) in E.
    congruence.
Qed.

(** C40: The delay until the next run is the configured number of seconds,
    multiplied in 64 bits: it is right exactly for intervals of at most
    9223372036 seconds in either direction, and always an int64. The interval is
    that of the pipeline with the active table the database reported or, when
    the status was sent, of the one the API server answered with. *)
Theorem requeue_delay_bounds (i : ReconcileIteration) (t : list obs) (delay : Z) :
  runs (updateStatusAndRequeue i) t (Some (delay, None)) ->
  exists cur p d, answered t (GetCurrentTable (AppDb i)) (inr cur) /\
    (p = with_active cur (Instance i) /\ wlog t = [] \/
     Obs (KUpdateStatus (with_active cur (Instance i))) (inr p) ∈ t) /\
    requeue_interval (set_Instance p i) = Some d /\ Int64.in_range delay /\
    (delay = Second * d <-> - 9223372036 <= d <= 9223372036)%Z.
Proof.
  intros R. apply updateStatusAndRequeue_runs in R.
  assert (E : exists cur p d, answered t (GetCurrentTable (AppDb i)) (inr cur) /\
    (p = with_active cur (Instance i) /\ wlog t = [] \/
     Obs (KUpdateStatus (with_active cur (Instance i))) (inr p) ∈ t) /\
    requeue_interval (set_Instance p i) = Some d /\ delay = Int64.mul Second d).
  { inversion R as [|t1 t2 cur d ? R1 W _ D|t1 t2 cur p d ? R1 W _ D| |]; subst;
      [exists cur, (with_active cur (Instance i)), d|exists cur, p, d];
      (split; [by apply (answered_here [])|]); (split; [|done]); [by left|].
    right. apply elem_of_wlog. rewrite W. by left. }
  destruct E as (cur & p & d & A & P & E & ->). exists cur, p, d. do 3 (split; [done|]).
  split; [apply Int64.wrap_in_range|]. unfold Int64.mul, Second. split.
  - intros W. pose proof (Int64.wrap_in_range (1000000000 * d)) as B. rewrite W in B.
    unfold Int64.in_range, Int64.min_value, Int64.max_value in B. lia.
  - intros B. apply Int64.wrap_id.
    unfold Int64.in_range, Int64.min_value, Int64.max_value. lia.
Qed.

End Props.

(** *** Concrete runs *)

Existing Instances Sim.libs Sim.libs_ok.

(** The iteration that [world0] leads to *)
Definition it0 : ReconcileIteration := Sim.iteration_of Sim.world0.

Lemma status_written_iff_changed_witness :
  let p := updateStatusAndRequeue (set_Instance (TransitionToNew Sample.new_pipeline) it0) in
  exists res t, runs p t (Some res) /\ wlog t <> [] /\ res.2 = None.
Proof.
  set (i := set_Instance (TransitionToNew Sample.new_pipeline) it0).
  pose (t := trace_of Sim.world_handler (updateStatusAndRequeue i) Sim.world0).
  exists (120000000000%Z, None), t.
  assert (R : runs (updateStatusAndRequeue i) t (Some (120000000000%Z, None)))
    by (apply runs_exec; vm_compute; reflexivity).
  split; [exact R|]. split; [vm_compute; discriminate|].
  destruct (status_written_iff_changed i t _ R) as (t1 & t2 & answer & _ & _ & _).
  reflexivity.
Defined.

Lemma requeue_delay_bounds_witness :
  exists t d, runs (updateStatusAndRequeue it0) t (Some (120000000000%Z, None)) /\
    (120000000000 = Second * d <-> - 9223372036 <= d <= 9223372036)%Z.
Proof.
  assert (R : runs (updateStatusAndRequeue it0)
                (trace_of Sim.world_handler (updateStatusAndRequeue it0) Sim.world0)
                (Some (120000000000%Z, None))) by (apply runs_exec; vm_compute; reflexivity).
  destruct (requeue_delay_bounds it0 _ _ R) as (cur & p & d & _ & _ & _ & _ & H).
  exists (trace_of Sim.world_handler (updateStatusAndRequeue it0) Sim.world0), d.
  split; [exact R|exact H].
Defined.

End StatusUpdateProps.
