(* ===== verification/Stale.v ===== *)
(** * Removal of stale tables and connectors

    What deleteStaleDependencies (cyndipipeline_controller.go) removes and what
    it leaves alone: the lemmas describe its two loops as a sequence of
    deletions, the properties state which names are safe and that nothing
    stale remains unhandled. *)

From Stdlib Require Import ZArith Lia String.
From S2P Require Import Prelude GoStd Float GoJson Lang K8sLib Api State Utils Config Effects.
From S2P Require Import Database Connect Iteration Pipeline Sim.
Import Api State Config Database Connect Iteration Pipeline.

Module Stale.

Section Stale.
Context {L : Libs}.

(** ** What is kept *)

(** The table GetCurrentTable reported *)
Definition view_table (r : result (option string)) : option string :=
  match r with inr (Some x) => Some x | _ => None end.

Definition kept_tables (i : ReconcileIteration) (cur : option string) : list string :=
  (kept_by_status i).1 ++ (if not_removed i then option_list cur else []).

Definition kept_connectors (i : ReconcileIteration) (cur : option string) : list string :=
  (kept_by_status i).2 ++
  (if not_removed i && ConnectorsManaged (Instance i) then
     option_list (match cur with
                  | Some x => TableNameToConnectorName x (AppName (Spec (Instance i)))
                  | None => None
                  end)
   else []).

(** The entries of [l] that are not in [keep], in order *)
Definition stale (keep l : list string) : list string := filter (fun x => x ∉ keep) l.

Definition items_of {A} (r : result (list A)) : list A := match r with inr l => l | inl _ => [] end.

(** ** The loops *)

(** One deletion of a connector *)
Definition delete_obs (namespace name : string) (x : option gerror) : obs :=
  Obs (KDeleteConnector name namespace) x.

(** The error a deletion leaves *)
Definition delete_error (x : option gerror) : option gerror :=
  match x with Some e => if IsNotFound e then None else Some e | None => None end.

Lemma DeleteConnector_runs name ns t r :
  runs (DeleteConnector name ns) t r ->
  exists x, t = [delete_obs ns name x] /\ r = Some (delete_error x).
Proof.
  intros R. pattern t, r. apply (runs_wp _ _ _ _ R). unfold DeleteConnector. simpl.
  intros [e|]; simpl; [|by eexists].
  destruct (IsNotFound e) eqn:N; simpl; exists (Some e); simpl; by rewrite N.
Qed.

Lemma delete_connectors_runs ns keep items errs t r :
  runs (delete_connectors ns keep items errs) t r ->
  exists xs, List.length xs = List.length (stale keep (GetName <$> items)) /\
    t = zip_with (delete_obs ns) (stale keep (GetName <$> items)) xs /\
    r = Some (errs ++ omap delete_error xs).
Proof.
  revert errs t r. induction items as [|c items IH]; intros errs t r R; cbn [delete_connectors] in R.
  - run_inv R. subst. exists []. simpl. by rewrite app_nil_r.
  - unfold stale. csimpl. fold (stale keep (GetName <$> items)).
    destruct (Lang.ContainsString keep (GetName c)) eqn:C; cbn [negb] in R.
    + apply Lang.ContainsString_spec in C. rewrite filter_cons_False by auto. by apply IH.
    + apply Lang.ContainsString_false in C. rewrite filter_cons_True by done.
      fold (stale keep (GetName <$> items)).
      run_inv R; [|by apply DeleteConnector_runs in R0 as (? & ? & ?)].
      apply DeleteConnector_runs in R0 as (x & -> & [= ->]).
      assert (R' : runs (delete_connectors ns keep items
                           (errs ++ option_list (delete_error x))) t1 r).
      { destruct (delete_error x); simpl; [done|]. by rewrite app_nil_r. }
      apply IH in R' as (xs & Hl & -> & ->). exists (x :: xs). simpl.
      split_and!; [by rewrite Hl|done|]. f_equal. rewrite <- app_assoc. f_equal.
      by destruct (delete_error x).
Qed.

(** Each stale table is handed to DeleteTable, in order. *)
Inductive dropped_in_turn (db : BaseDatabase) : list string -> list obs -> list gerror -> Prop :=
| dt_nil : dropped_in_turn db [] [] []
| dt_cons n l t1 t2 err es :
    runs (DeleteTable db n) t1 (Some err) -> dropped_in_turn db l t2 es ->
    dropped_in_turn db (n :: l) (t1 ++ t2) (option_list err ++ es).

Lemma delete_tables_runs db keep tables errs t r :
  runs (delete_tables db keep tables errs) t r ->
  exists es, dropped_in_turn db (stale keep tables) t es /\ r = Some (errs ++ es).
Proof.
  revert errs t r. induction tables as [|n tables IH]; intros errs t r R; cbn [delete_tables] in R.
  - run_inv R. subst. exists []. rewrite app_nil_r. split; [constructor|done].
  - unfold stale. destruct (Lang.ContainsString keep n) eqn:C; cbn [negb] in R.
    + apply Lang.ContainsString_spec in C. rewrite filter_cons_False by auto. by apply IH.
    + apply Lang.ContainsString_false in C. rewrite filter_cons_True by done.
      fold (stale keep tables).
      run_inv R; [|by apply safe_runs in R0; [|auto with cyndi_prog]].
      assert (R' : runs (delete_tables db keep tables (errs ++ option_list a)) t1 r).
      { destruct a; simpl; [done|]. by rewrite app_nil_r. }
      apply IH in R' as (es & Hd & ->). eexists. split; [by constructor|].
      by rewrite app_assoc.
Qed.

(** Every log entry of the loop is a drop of one of the tables. *)
Lemma dropped_in_turn_log db l t es :
  dropped_in_turn db l t es ->
  forall o, o ∈ wlog t -> exists c n res, n ∈ l /\ o = Obs (PgExec c (drop_query n)) res.
Proof.
  induction 1 as [|n l t1 t2 err es R D IH]; intros o; [by intros ?%elem_of_nil|].
  rewrite wlog_app, elem_of_app. intros [I|I].
  - apply DeleteTable_runs in R as (err' & _ & [[W _]|(c & res & W & _)]); rewrite W in I.
    + by apply elem_of_nil in I.
    + apply list_elem_of_singleton in I as ->. exists c, n, res. split; [by left|done].
  - destruct (IH o I) as (c & m & res & ? & ->). exists c, m, res. split; [by right|done].
Qed.

(** When no error is left, every table was dropped or reported missing. *)
Lemma dropped_in_turn_done db l t es :
  dropped_in_turn db l t es -> es = [] ->
  forall n, n ∈ l ->
    (exists c, Obs (PgExec c (drop_query n)) None ∈ t) \/
    (exists t1 t2 t3, t = t1 ++ t2 ++ t3 /\ runs (CheckIfTableExists db n) t2 (Some (inr false))).
Proof.
  induction 1 as [|m l t1 t2 err es R D IH]; intros E n; [by intros ?%elem_of_nil|].
  apply app_eq_nil in E as [E1 E2]. destruct err; [done|].
  intros [->|I]%elem_of_cons.
  - apply DeleteTable_runs in R as (err & [= <-] & [[_ M]|(c & res & W & F)]).
    + right. exists [], t1, t2. eauto.
    + left. exists c. apply elem_of_app. left.
      destruct F as [F _]. specialize (F eq_refl). subst res.
      assert (I : Obs (PgExec c (drop_query m)) None ∈ wlog t1) by (rewrite W; by left).
      apply list_elem_of_In, filter_In in I as [I _]. by apply list_elem_of_In.
  - destruct (IH E2 n I) as [[c Hc]|(a & b & d & -> & Hr)].
    + left. exists c. apply elem_of_app. by right.
    + right. exists (t1 ++ a), b, d. by rewrite app_assoc.
Qed.

(** ** The whole method *)

Definition err_of {A} (r : result A) : list gerror := match r with inl e => [e] | inr _ => [] end.

(** A run of deleteStaleDependencies: three questions (the table of the view,
    the connectors of the owner, the tables) and the deletions. *)
Definition cleanup (i : ReconcileIteration) (t : list obs) (errs : list gerror)
    (cur : result (option string)) (conns : result (list gvalue))
    (tables : result (list string)) : Prop :=
  let ns := Namespace (Meta (Instance i)) in
  let gone := stale (kept_connectors i (view_table cur)) (GetName <$> items_of conns) in
  exists t1 t2 t3 xs es,
    t = t1 ++ [Obs (KListConnectors ns (UID (Meta (Instance i)))) conns] ++
        zip_with (delete_obs ns) gone xs ++ t2 ++ t3 /\
    runs (GetCurrentTable (AppDb i)) t1 (Some cur) /\
    List.length xs = List.length gone /\
    runs (GetCyndiTables (AppDb i)) t2 (Some tables) /\
    dropped_in_turn (AppDb i) (stale (kept_tables i (view_table cur)) (items_of tables)) t3 es /\
    errs = err_of cur ++ err_of conns ++ omap delete_error xs ++ err_of tables ++ es.

(** The part of the method after the first question *)
Definition cleanup_rest (i : ReconcileIteration) (errors : list gerror)
    (tablesToKeep connectorsToKeep : list string) : prog (list gerror) :=
  r <- GetConnectorsForOwner (Namespace (Meta (Instance i))) (GetUIDString (Instance i)) ;;
  errors <- match r with
            | inl err => Ret (errors ++ [err])
            | inr items =>
                delete_connectors (Namespace (Meta (Instance i))) connectorsToKeep items errors
            end ;;
  r <- GetCyndiTables (AppDb i) ;;
  match r with
  | inl err => Ret (errors ++ [err])
  | inr tables => delete_tables (AppDb i) tablesToKeep tables errors
  end.

Lemma cleanup_rest_runs i errs kt kc t r :
  runs (cleanup_rest i errs kt kc) t r ->
  exists conns tables t2 t3 xs es,
    let ns := Namespace (Meta (Instance i)) in
    let gone := stale kc (GetName <$> items_of conns) in
    t = [Obs (KListConnectors ns (UID (Meta (Instance i)))) conns] ++
        zip_with (delete_obs ns) gone xs ++ t2 ++ t3 /\
    List.length xs = List.length gone /\
    runs (GetCyndiTables (AppDb i)) t2 (Some tables) /\
    dropped_in_turn (AppDb i) (stale kt (items_of tables)) t3 es /\
    r = Some (errs ++ err_of conns ++ omap delete_error xs ++ err_of tables ++ es).
Proof.
  intros R. unfold cleanup_rest, GetConnectorsForOwner in R.
  apply runs_bind_inv in R as [(? & t' & conns & -> & R0 & R)|[R _]];
    [|by apply runs_call_inv in R as (? & _ & ?)].
  apply runs_call_inv in R0 as (conns' & -> & [= <-]).
  apply runs_bind_inv in R as [(td & t'' & errs' & -> & Rd & R)|[R _]].
  2: { destruct conns; [by run_inv R|]. by apply delete_connectors_runs in R as (? & _ & _ & ?). }
  assert (C : exists xs, List.length xs = List.length (stale kc (GetName <$> items_of conns)) /\
    td = zip_with (delete_obs (Namespace (Meta (Instance i))))
           (stale kc (GetName <$> items_of conns)) xs /\
    errs' = errs ++ err_of conns ++ omap delete_error xs).
  { destruct conns as [e|items]; simpl.
    - run_inv Rd. simplify_eq. exists []. done.
    - apply delete_connectors_runs in Rd as (xs & ? & -> & [= ->]). eauto. }
  destruct C as (xs & Hl & -> & ->).
  apply runs_bind_inv in R as [(t2 & t3 & tables & -> & Rt & R)|[R _]];
    [|by apply safe_runs in R; [|auto with cyndi_prog]].
  destruct tables as [e|tables].
  - run_inv R. subst. exists conns, (inl e), t2, [], xs, [].
    split_and!; [done|done|done|constructor|]. simpl. by rewrite <- !app_assoc.
  - apply delete_tables_runs in R as (es & D & ->).
    exists conns, (inr tables), t2, t3, xs, es. split_and!; [done..|].
    simpl. by rewrite <- !app_assoc.
Qed.

Lemma deleteStaleDependencies_runs i t r :
  runs (deleteStaleDependencies i) t r ->
  (exists x t1, r = None /\ runs (GetCurrentTable (AppDb i)) t1 (Some (inr (Some x))) /\
     t = t1 /\ not_removed i = true /\ ConnectorsManaged (Instance i) = true /\
     TableNameToConnectorName x (AppName (Spec (Instance i))) = None) \/
  exists errs cur conns tables, r = Some errs /\ cleanup i t errs cur conns tables.
Proof.
  intros R. unfold deleteStaleDependencies in R.
  destruct (kept_by_status i) as [kt kc] eqn:K.
  apply runs_bind_inv in R as [(t0 & t1 & a & -> & R0 & R1)|[R _]];
    [|by apply safe_runs in R; [|auto with cyndi_prog]].
  assert (S : forall errs kt' kc',
    kt' = kept_tables i (view_table a) -> kc' = kept_connectors i (view_table a) ->
    errs = err_of a ->
    runs (cleanup_rest i errs kt' kc') t1 r ->
    exists errs cur conns tables, r = Some errs /\ cleanup i (t0 ++ t1) errs cur conns tables).
  { intros errs kt' kc' -> -> -> R'.
    apply cleanup_rest_runs in R' as (conns & tables & t2 & t3 & xs & es & -> & ? & ? & ? & ->).
    exists (err_of a ++ err_of conns ++ omap delete_error xs ++ err_of tables ++ es), a, conns, tables.
    split; [done|]. exists t0, t2, t3, xs, es. done. }
  unfold kept_tables, kept_connectors in S. rewrite K in S. simpl in S.
  destruct a as [e|[x|]]; simpl in S.
  - right. eapply (S [e]); [..|exact R1]; [|by repeat case_match; rewrite app_nil_r|done].
    by case_match; rewrite app_nil_r.
  - destruct (not_removed i) eqn:N; simpl in S.
    + destruct (ConnectorsManaged (Instance i)) eqn:M; simpl in S.
      * destruct (TableNameToConnectorName x _) as [c|] eqn:T; simpl in R1.
        -- right. by eapply (S []); [..|exact R1].
        -- run_inv R1. subst. left. exists x, t0. rewrite app_nil_r. done.
      * right. eapply (S []); [..|exact R1]; [done| |done]. by rewrite app_nil_r.
    + right. eapply (S []); [..|exact R1]; [| |done]; by rewrite app_nil_r.
  - right. eapply (S []); [..|exact R1]; [|by repeat case_match; rewrite app_nil_r|done].
    by case_match; rewrite app_nil_r.
Qed.

(** ** Consequences for the trace *)

Lemma wlog_deletes ns l xs :
  List.length xs = List.length l ->
  execs (zip_with (delete_obs ns) l xs) = [] /\
  conn_deletes (zip_with (delete_obs ns) l xs) = zip l xs.
Proof.
  revert xs. induction l as [|n l IH]; intros [|x xs]; try done. intros [= E].
  destruct (IH xs E) as [E1 E2]. unfold execs, conn_deletes in *. csimpl. by rewrite E1, E2.
Qed.

Lemma dropped_in_turn_deletes db l t es :
  dropped_in_turn db l t es -> conn_deletes t = [].
Proof.
  intros D. destruct (projections_wlog t) as (_ & <- & _).
  pose proof (dropped_in_turn_log _ _ _ _ D) as F. unfold conn_deletes.
  induction (wlog t) as [|o w IH]; [done|]. csimpl.
  destruct (F o) as (c & n & res & _ & ->); [by left|]. simpl.
  apply IH. intros o' ?. apply F. by right.
Qed.

Lemma dropped_in_turn_execs db l t es q res :
  dropped_in_turn db l t es -> (q, res) ∈ execs t -> exists n, n ∈ l /\ q = drop_query n.
Proof.
  intros D. destruct (projections_wlog t) as (<- & _).
  pose proof (dropped_in_turn_log _ _ _ _ D) as F. unfold execs.
  intros (o & Ho & E)%list_elem_of_omap. apply F in Ho as (c & n & res' & ? & ->).
  simpl in E. injection E as <- <-. eauto.
Qed.

Lemma cleanup_trace i t errs cur conns tables :
  cleanup i t errs cur conns tables ->
  (exists xs, conn_deletes t = zip (stale (kept_connectors i (view_table cur))
                                      (GetName <$> items_of conns)) xs /\
     List.length xs = List.length (stale (kept_connectors i (view_table cur))
                                      (GetName <$> items_of conns)) /\
     incl (omap delete_error xs) errs) /\
  (forall q res, (q, res) ∈ execs t ->
     exists n, n ∈ stale (kept_tables i (view_table cur)) (items_of tables) /\ q = drop_query n).
Proof.
  intros (t1 & t2 & t3 & xs & es & -> & R1 & Hl & R2 & D & ->).
  pose proof (reader_wlog _ _ _ (GetCurrentTable_read_only _) R1) as (E1 & C1 & _)%wlog_nil.
  pose proof (reader_wlog _ _ _ (GetCyndiTables_read_only _) R2) as (E2 & C2 & _)%wlog_nil.
  destruct (wlog_deletes (Namespace (Meta (Instance i))) _ _ Hl) as [W Cd]. split.
  - exists xs. split_and!; [|done|].
    + autorewrite with cyndi_trace. rewrite C1, C2, Cd, (dropped_in_turn_deletes _ _ _ _ D).
      simpl. by rewrite app_nil_r.
    + intros e He. rewrite !in_app_iff. auto.
  - intros q res. autorewrite with cyndi_trace. rewrite E1, E2. simpl. rewrite elem_of_app.
    intros [I|I].
    + rewrite W in I. by apply elem_of_nil in I.
    + by eapply dropped_in_turn_execs.
Qed.

Lemma drop_query_inj n m : drop_query n = drop_query m -> n = m.
Proof.
  unfold drop_query, Utils.AppFullTableName. intros E.
  apply append_inj_l, append_inj_r in E. by do 2 apply append_inj_l in E.
Qed.

Lemma kept_removed i cur :
  GetState (Instance i) = STATE_REMOVED -> kept_tables i cur = [] /\ kept_connectors i cur = [].
Proof.
  intros E. unfold kept_tables, kept_connectors, kept_by_status, not_removed. by rewrite E.
Qed.

Lemma elem_of_kept_tables i cur n :
  not_removed i = true ->
  n ∈ kept_tables i cur <->
    (PipelineVersion (Status (Instance i)) <> EmptyString /\
       n = TableName (PipelineVersion (Status (Instance i)))) \/
    (ConnectorsManaged (Instance i) = false /\ TableName_ (Status (Instance i)) <> EmptyString /\
       n = TableName_ (Status (Instance i))) \/
    cur = Some n.
Proof.
  intros N. unfold kept_tables, kept_by_status. rewrite N. simpl.
  destruct (String.eqb_spec (PipelineVersion (Status (Instance i))) EmptyString),
    (ConnectorsManaged (Instance i)),
    (String.eqb_spec (TableName_ (Status (Instance i))) EmptyString), cur; simpl;
    set_solver.
Qed.

Lemma elem_of_kept_connectors i cur n :
  not_removed i = true ->
  n ∈ kept_connectors i cur <->
    ConnectorsManaged (Instance i) = true /\
    ((PipelineVersion (Status (Instance i)) <> EmptyString /\
       n = ConnectorName (PipelineVersion (Status (Instance i))) (AppName (Spec (Instance i)))) \/
     exists x, cur = Some x /\
       TableNameToConnectorName x (AppName (Spec (Instance i))) = Some n).
Proof.
  intros N. unfold kept_connectors, kept_by_status. rewrite N. simpl.
  destruct (String.eqb_spec (PipelineVersion (Status (Instance i))) EmptyString),
    (ConnectorsManaged (Instance i)), cur as [x|]; simpl;
    try destruct (TableNameToConnectorName x _) eqn:T; simpl; set_solver.
Qed.

Lemma stale_nil l : stale [] l = l.
Proof.
  unfold stale. induction l as [|x l IH]; [done|].
  rewrite filter_cons_True by apply not_elem_of_nil. by rewrite IH.
Qed.

Lemma elem_of_stale keep l x : x ∈ stale keep l <-> x ∈ l /\ x ∉ keep.
Proof. unfold stale. rewrite list_elem_of_filter. naive_solver. Qed.

End Stale.
End Stale.

(** ** Properties *)

Module StaleProps.
Import Stale.

Section Props.
Context {L : Libs}.

(** C4: Cleaning up never removes what is in use. In a run for a pipeline that
    is not being deleted: the table of its current version stays, and the table
    of an external connector; when the connectors are managed, the connector of
    the current version stays too; and when the database reports the table the
    view uses, that table stays, and for managed connectors the connector that
    feeds it. *)
Theorem used_dependencies_stay (i : ReconcileIteration) (t : list obs) (errs : list gerror) :
  runs (deleteStaleDependencies i) t (Some errs) ->
  GetState (Instance i) <> STATE_REMOVED ->
  let st := Status (Instance i) in
  let app := AppName (Spec (Instance i)) in
  let managed := ConnectorsManaged (Instance i) in
  let table_stays n := drop_query n ∉ (execs t).*1 in
  let connector_stays n := n ∉ (conn_deletes t).*1 in
  (PipelineVersion st <> EmptyString ->
     table_stays (TableName (PipelineVersion st)) /\
     (managed = true -> connector_stays (ConnectorName (PipelineVersion st) app))) /\
  (managed = false -> TableName_ st <> EmptyString -> table_stays (TableName_ st)) /\
  exists t1 t2 cur, t = t1 ++ t2 /\ runs (GetCurrentTable (AppDb i)) t1 (Some cur) /\
    forall x, cur = inr (Some x) ->
      table_stays x /\
      (managed = true -> forall c, TableNameToConnectorName x app = Some c -> connector_stays c).
Proof.
  intros R N st app managed table_stays connector_stays.
  apply deleteStaleDependencies_runs in R
    as [(? & ? & ? & _)|(? & cur & conns & tables & [= <-] & C)]; [done|].
  assert (NR : not_removed i = true) by (unfold not_removed; by rewrite bool_decide_eq_false_2).
  destruct (cleanup_trace _ _ _ _ _ _ C) as [(xs & Ed & _ & _) Et].
  assert (T : forall n, n ∈ kept_tables i (view_table cur) -> table_stays n).
  { intros n K ([q res] & Eq & I)%list_elem_of_fmap. simpl in Eq. subst q.
    apply Et in I as (m & Im & Em). apply drop_query_inj in Em as <-.
    apply elem_of_stale in Im. naive_solver. }
  assert (Cn : forall n, n ∈ kept_connectors i (view_table cur) -> connector_stays n).
  { intros n K ([m res] & Eq & I)%list_elem_of_fmap. simpl in Eq. subst m. rewrite Ed in I.
    apply elem_of_zip_l in I. apply elem_of_stale in I. naive_solver. }
  setoid_rewrite elem_of_kept_tables in T; [|done].
  setoid_rewrite elem_of_kept_connectors in Cn; [|done].
  split_and!.
  - intros V. split; [apply T; auto|]. intros M. apply Cn. auto.
  - intros M E. apply T. auto.
  - destruct C as (t1 & t2 & t3 & xs' & es & -> & R1 & _).
    eexists t1, _, cur. split; [reflexivity|]. split; [done|]. intros x ->.
    split; [apply T; auto|]. intros M c E. apply Cn. eauto.
Qed.

(** Everything stale has been dealt with. *)
Definition fully_cleaned (i : ReconcileIteration) (t : list obs) : Prop :=
  exists cur items tables,
    answered t (GetCurrentTable (AppDb i)) (inr cur) /\
    Obs (KListConnectors (Namespace (Meta (Instance i))) (UID (Meta (Instance i)))) (inr items) ∈ t /\
    answered t (GetCyndiTables (AppDb i)) (inr tables) /\
    (forall c, c ∈ items -> GetName c ∉ kept_connectors i cur ->
       exists x, (GetName c, x) ∈ conn_deletes t /\
         match x with Some e => IsNotFound e = true | None => True end) /\
    (forall n, n ∈ tables -> n ∉ kept_tables i cur ->
       (exists c, Obs (PgExec c (drop_query n)) None ∈ t) \/
       answered t (CheckIfTableExists (AppDb i) n) (inr false)) /\
    (GetState (Instance i) = STATE_REMOVED ->
       kept_connectors i cur = [] /\ kept_tables i cur = []).

(** C5: Cleaning up is complete: when it reports no error, all three questions
    were answered, every connector of the owner that need not be kept has been
    deleted or was already gone, and every table that need not be kept has been
    dropped or was reported missing. For a pipeline being deleted nothing needs
    to be kept. *)
Theorem cleanup_complete (i : ReconcileIteration) (t : list obs) :
  runs (deleteStaleDependencies i) t (Some []) ->
  fully_cleaned i t.
Proof.
  intros R. apply deleteStaleDependencies_runs in R
    as [(? & ? & ? & _)|(? & cur & conns & tables & [= <-] & C)]; [done|].
  destruct (cleanup_trace _ _ _ _ _ _ C) as [(xs & Ed & Hl & Er) _].
  destruct C as (t1 & t2 & t3 & xs' & es & Et & R1 & _ & R2 & D & E).
  symmetry in E. apply app_eq_nil in E as [E1 E]. apply app_eq_nil in E as [E2 E].
  apply app_eq_nil in E as [_ E]. apply app_eq_nil in E as [E4 E5].
  destruct cur as [|cur]; [done|]. destruct conns as [|items]; [done|].
  destruct tables as [|tables]; [done|]. 
  assert (Ev : view_table (inr cur) = cur) by (by destruct cur). rewrite Ev in *.
  cbn [items_of] in Ed, Hl, D.
  exists cur, items, tables. split_and!.
  - rewrite Et. by apply (answered_here []).
  - rewrite Et. set_solver.
  - rewrite Et. simpl. rewrite app_comm_cons, !app_assoc, <- (app_assoc _ t2 t3).
    by apply answered_here.
  - intros c I N. assert (J : GetName c ∈ stale (kept_connectors i cur) (GetName <$> items)).
    { apply elem_of_stale. split; [|done]. apply list_elem_of_fmap; eauto. }
    rewrite Ed. apply list_elem_of_lookup in J as [k Hk].
    destruct (lookup_lt_is_Some_2 xs k) as [x Hx].
    { rewrite Hl. by eapply lookup_lt_Some. }
    exists x. split.
    + apply list_elem_of_lookup. exists k. by rewrite lookup_zip_with, Hk, Hx.
    + destruct x as [e|]; [|done]. destruct (IsNotFound e) eqn:F; [done|]. exfalso.
      apply (Er e). apply list_elem_of_In, list_elem_of_omap. exists (Some e).
      split; [by eapply list_elem_of_lookup_2|]. simpl. by rewrite F.
  - intros n I N.
    destruct (dropped_in_turn_done _ _ _ _ D E5 n) as [[c Hc]|(a & b & d & -> & Rb)].
    { by apply elem_of_stale. }
    + left. exists c. rewrite Et. set_solver.
    + right. rewrite Et. simpl. rewrite !app_comm_cons, !app_assoc, <- (app_assoc _ b d).
      by apply answered_here.
  - intros S. destruct (kept_removed i cur S). done.
Qed.

(** When the database does not say which table the view uses, the
    connector of that table is not protected: with no current version (a
    refresh has just begun) every connector of the pipeline is deleted, the one
    that feeds the active table included. *)
Theorem unknown_view_loses_connectors (i : ReconcileIteration) (t : list obs)
    (errs : list gerror) :
  runs (deleteStaleDependencies i) t (Some errs) ->
  PipelineVersion (Status (Instance i)) = EmptyString ->
  exists t1 t2 cur conns, t = t1 ++ t2 /\ runs (GetCurrentTable (AppDb i)) t1 (Some cur) /\
    Obs (KListConnectors (Namespace (Meta (Instance i))) (UID (Meta (Instance i)))) conns ∈ t /\
    forall err, cur = inl err ->
      err ∈ errs /\ (conn_deletes t).*1 = (GetName <$> items_of conns).
Proof.
  intros R V. apply deleteStaleDependencies_runs in R
    as [(? & ? & ? & _)|(? & cur & conns & tables & [= <-] & C)]; [done|].
  destruct (cleanup_trace _ _ _ _ _ _ C) as [(xs & Ed & Hl & _) _].
  destruct C as (t1 & t2 & t3 & xs' & es & Et & R1 & _ & _ & _ & Ee).
  exists t1, (drop (List.length t1) t), cur, conns. split_and!; [|done| |].
  - rewrite Et at 2. rewrite drop_app_length. by rewrite Et at 1.
  - rewrite Et. set_solver.
  - intros err ->. split; [rewrite Ee; set_solver|]. rewrite Ed, fst_zip by lia.
    assert (K : kept_connectors i (view_table (inl err)) = []).
    { unfold kept_connectors, kept_by_status. rewrite V. simpl.
      by destruct (not_removed i), (ConnectorsManaged (Instance i)). }
    by rewrite K, stale_nil.
Qed.

End Props.

(** *** Concrete runs *)

Existing Instances Sim.libs Sim.libs_ok.

(** A refresh, with leftovers of an older version *)
Definition littered : Sim.World :=
  let w := Sim.world_refreshing in
  Sim.set_w_tables (("hosts_v0", []) :: Sim.w_tables w) w.

Definition run_of (w : Sim.World) : list obs :=
  trace_of Sim.world_handler (deleteStaleDependencies (Sim.iteration_of w)) w.

Lemma littered_runs :
  runs (deleteStaleDependencies (Sim.iteration_of littered)) (run_of littered) (Some []).
Proof. apply runs_exec. vm_compute. reflexivity. Defined.

Lemma used_dependencies_stay_witness :
  (execs (run_of littered)).*1 = [drop_query "hosts_v0"] /\
  drop_query "hosts_v1_2" ∉ (execs (run_of littered)).*1.
Proof.
  split; [vm_compute; reflexivity|].
  assert (N : PipelineVersion (Status (Instance (Sim.iteration_of littered))) = "1_2")
    by (vm_compute; reflexivity).
  destruct (used_dependencies_stay _ _ _ littered_runs) as [H _]; [vm_compute; discriminate|].
  rewrite N in H. apply H. discriminate.
Defined.

Lemma cleanup_complete_witness :
  conn_deletes (run_of littered) = [] /\ fully_cleaned (Sim.iteration_of littered) (run_of littered).
Proof.
  split; [vm_compute; reflexivity|].
  apply cleanup_complete. exact littered_runs.
Defined.

(** The configuration changed, and now the database refuses queries. *)
Definition outage : Sim.World := Sim.set_w_app_down true Sim.world_changed.

Lemma unknown_view_loses_connectors_witness :
  (conn_deletes (run_of outage)).*1 = ["cyndi-test-pipeline-01-1-1"] /\
  exists t1 t2 cur conns, run_of outage = t1 ++ t2 /\
    runs (GetCurrentTable (AppDb (Sim.iteration_of outage))) t1 (Some cur) /\
    Obs (KListConnectors "test" "uid-1") conns ∈ run_of outage.
Proof.
  split; [vm_compute; reflexivity|].
  assert (R : exists errs, result_of Sim.world_handler
    (deleteStaleDependencies (Sim.iteration_of outage)) outage = Some errs)
    by (eexists; vm_compute; reflexivity).
  destruct R as [errs R]. apply runs_exec in R.
  destruct (unknown_view_loses_connectors _ _ _ R) as (t1 & t2 & cur & conns & E & Rc & I & _);
    [vm_compute; reflexivity|].
  exists t1, t2, cur, conns. split; [exact E|]. split; [exact Rc|].
  assert (M : Namespace (Meta (Instance (Sim.iteration_of outage))) = "test" /\
              UID (Meta (Instance (Sim.iteration_of outage))) = "uid-1")
    by (vm_compute; split; reflexivity).
  destruct M as [M1 M2]. rewrite <- M1, <- M2. exact I.
Defined.

End StaleProps.
