(* ===== verification/Deviation.v ===== *)
(** * The deviation check

    checkForDeviation (cyndipipeline_controller.go) compares what the status
    records and what exists with what the configuration and the resource ask
    for. Both controllers refresh the pipeline when it finds a problem. *)

From Stdlib Require Import ZArith Lia String.
From S2P Require Import Prelude GoStd Float GoJson Lang K8sLib JsonDecode Api State Utils Config Effects.
From S2P Require Import Database Connect Iteration Validate Pipeline Validation Sim.
From S2P Require Import StatusUpdate.
Import Api State Config Database Connect Iteration Pipeline.

Module Deviation.

Section Deviation.
Context {L : Libs}.

(** A read-only program leaves no write. *)
Lemma createConnector_dry_read_only i name : only read_only (createConnector i name true).
Proof.
  unfold createConnector. destruct (config i); [|done]. apply CreateConnector_dry_read_only.
Qed.

Lemma CreateConnector_safe name ns cfg o dry : safe (CreateConnector name ns cfg o dry).
Proof.
  unfold CreateConnector, newConnectorResource. simpl. intros env.
  destruct (template_Parse _); [done|]. destruct (template_Execute _ _); [done|].
  destruct (json_Unmarshal _); [done|]. simpl.
  destruct o as [o|]; [destruct (SetControllerReference _ _)|]; simpl; [done|..];
    destruct dry; simpl; try done; by intros [|].
Qed.

Lemma checkForDeviation_read_only i : only read_only (checkForDeviation i).
Proof.
  unfold checkForDeviation. destruct (config i) as [cfg|]; [|done]. cbn [deref].
  destruct (negb _); [done|]. destruct (negb _); [done|].
  apply only_bind; [auto with cyndi_prog|]. intros [e|b]; [done|].
  destruct (Bool.eqb b false); [done|]. destruct (negb _); [done|].
  apply only_bind; [done|]. intros [e|c]; [by destruct (IsNotFound e)|].
  destruct (IsFailed c); [done|]. destruct (label_problem i cfg c); [done|].
  apply only_bind; [apply createConnector_dry_read_only|]. intros [e|n]; [done|].
  by destruct (config_problem c n).
Qed.

(** *** What the absence of a problem means *)

Record label_match (i : ReconcileIteration) (cfg : CyndiConfiguration) (c : gvalue) : Prop := {
  lm_app : label c LabelAppName = AppName (Spec (Instance i));
  lm_insights : label c LabelInsightsOnly = Strconv.FormatBool (InsightsOnly (Spec (Instance i)));
  lm_cluster : label c LabelStrimziCluster = cfgConnectCluster cfg;
  lm_age : label c LabelMaxAge = Strconv.FormatInt (ConnectorMaxAge cfg)
}.

Lemma label_problem_None i cfg c : label_problem i cfg c = None <-> label_match i cfg c.
Proof.
  unfold label_problem. split.
  - intros H. repeat match type of H with
    | (if negb (String.eqb ?a ?b) then _ else _) = _ =>
        destruct (String.eqb_spec a b); [|done]; cbn [negb] in H
    end. by split.
  - intros [-> -> -> ->]. by rewrite !String.eqb_refl.
Qed.

(** A dry run returns the connector that would be created now, in the
    environment it read. *)
Lemma dry_run_created `{!LibsOk L} i cfg name t n :
  config i = Some cfg -> runs (createConnector i name true) t (Some (inr n)) ->
  exists env, Obs (Getenv "EPHEMERAL") env ∈ t /\
    created n name (connector_config i cfg) (Meta (Instance i)) (is_ephemeral env).
Proof.
  intros C R. unfold createConnector in R. rewrite C in R. cbn [deref] in R.
  apply (runs_wp _ _ _ (fun t r => forall n, r = Some (inr n) -> exists env,
    Obs (Getenv "EPHEMERAL") env ∈ t /\
    created n name (connector_config i cfg) (Meta (Instance i)) (is_ephemeral env)) R); [|done].
  apply CreateConnector_wp; [|done]. intros env r H m [= ->]. exists env.
  split; [by left|by apply H].
Qed.

(** The answer of the API server about the connector of the status *)
Definition looked_up (i : ReconcileIteration) (tr : list obs) (x : result gvalue) : Prop :=
  Obs (KGetConnector (ConnectorName_ (Status (Instance i))) (Namespace (Meta (Instance i)))) x ∈ tr.

(** The outcomes of the check, in the order in which it looks *)
Inductive verdict (i : ReconcileIteration) (cfg : CyndiConfiguration) (tr : list obs)
  : option (result (option string)) -> Prop :=
| v_config msg : CyndiConfigVersion (Status (Instance i)) <> ConfigMapVersion cfg ->
    verdict i cfg tr (Some (inr (Some msg)))
| v_spec msg : SpecHash (Status (Instance i)) <> cfgSpecHash cfg ->
    verdict i cfg tr (Some (inr (Some msg)))
| v_error e : verdict i cfg tr (Some (inl e))
| v_table msg :
    answered tr (CheckIfTableExists (AppDb i) (TableName_ (Status (Instance i)))) (inr false) ->
    verdict i cfg tr (Some (inr (Some msg)))
| v_external :
    CyndiConfigVersion (Status (Instance i)) = ConfigMapVersion cfg ->
    SpecHash (Status (Instance i)) = cfgSpecHash cfg ->
    answered tr (CheckIfTableExists (AppDb i) (TableName_ (Status (Instance i)))) (inr true) ->
    ConnectorsManaged (Instance i) = false ->
    verdict i cfg tr (Some (inr None))
| v_missing e msg : ConnectorsManaged (Instance i) = true -> IsNotFound e = true ->
    looked_up i tr (inl e) ->
    verdict i cfg tr (Some (inr (Some msg)))
| v_failed c msg : ConnectorsManaged (Instance i) = true -> looked_up i tr (inr c) ->
    IsFailed c = true ->
    verdict i cfg tr (Some (inr (Some msg)))
| v_label c msg : ConnectorsManaged (Instance i) = true -> looked_up i tr (inr c) -> ~ label_match i cfg c ->
    verdict i cfg tr (Some (inr (Some msg)))
| v_diff c n msg : ConnectorsManaged (Instance i) = true -> looked_up i tr (inr c) ->
    answered tr (createConnector i (ConnectorName_ (Status (Instance i))) true) (inr n) ->
    config_problem c n = Some (Some msg) -> verdict i cfg tr (Some (inr (Some msg)))
| v_panic c n : looked_up i tr (inr c) ->
    answered tr (createConnector i (ConnectorName_ (Status (Instance i))) true) (inr n) ->
    config_problem c n = None -> verdict i cfg tr None
| v_same c n :
    CyndiConfigVersion (Status (Instance i)) = ConfigMapVersion cfg ->
    SpecHash (Status (Instance i)) = cfgSpecHash cfg ->
    answered tr (CheckIfTableExists (AppDb i) (TableName_ (Status (Instance i)))) (inr true) ->
    ConnectorsManaged (Instance i) = true -> looked_up i tr (inr c) ->
    IsFailed c = false -> label_match i cfg c ->
    answered tr (createConnector i (ConnectorName_ (Status (Instance i))) true) (inr n) ->
    config_problem c n = Some None ->
    verdict i cfg tr (Some (inr None)).

(** The connector the API server returned has a configuration that cannot be
    compared with the one rendered in the dry run. *)
Definition incomparable (i : ReconcileIteration) (tr : list obs) : Prop :=
  exists c n, looked_up i tr (inr c) /\
    answered tr (createConnector i (ConnectorName_ (Status (Instance i))) true) (inr n) /\
    config_problem c n = None.

Lemma incomparable_within i t1 t2 t3 : incomparable i t2 -> incomparable i (t1 ++ t2 ++ t3).
Proof.
  intros (c & n & I & A & P). exists c, n. split; [|by split; [apply answered_within|]].
  unfold looked_up in *. rewrite !elem_of_app. auto.
Qed.

Lemma incomparable_right i t1 t2 : incomparable i t2 -> incomparable i (t1 ++ t2).
Proof. intros I. apply (incomparable_within i t1 t2 []) in I. by rewrite app_nil_r in I. Qed.

Lemma checkForDeviation_runs i cfg t r :
  config i = Some cfg -> runs (checkForDeviation i) t r -> verdict i cfg t r.
Proof.
  intros C R. unfold checkForDeviation in R. rewrite C in R. cbn [deref] in R.
  destruct (String.eqb_spec (CyndiConfigVersion (Status (Instance i))) (ConfigMapVersion cfg))
    as [E1|N]; cbn [negb] in R; [|apply runs_ret_inv in R as [_ ->]; by apply v_config].
  destruct (String.eqb_spec (SpecHash (Status (Instance i))) (cfgSpecHash cfg))
    as [E2|N]; cbn [negb] in R; [|apply runs_ret_inv in R as [_ ->]; by apply v_spec].
  apply runs_bind_inv in R as [(t1 & t2 & b & -> & R1 & R)|[R _]];
    [|by apply safe_runs in R; [|auto with cyndi_prog]].
  destruct b as [e|[]]; cbn [Bool.eqb] in R.
  { apply runs_ret_inv in R as [_ ->]. apply v_error. }
  2: apply runs_ret_inv in R as [_ ->]; by apply v_table, (answered_here []).
  assert (T : answered (t1 ++ t2) (CheckIfTableExists (AppDb i) (TableName_ (Status (Instance i))))
                (inr true)) by (by apply (answered_here [])).
  destruct (ConnectorsManaged (Instance i)) eqn:M; cbn [negb] in R;
    [|apply runs_ret_inv in R as [_ ->]; by apply v_external].
  apply runs_bind_inv in R as [(t3 & t4 & c & -> & R2 & R)|[R _]];
    [|by apply runs_call_inv in R as (? & _ & ?)].
  apply runs_call_inv in R2 as (c' & -> & [= <-]).
  assert (I : looked_up i (t1 ++ [Obs (KGetConnector (ConnectorName_ (Status (Instance i)))
                                         (Namespace (Meta (Instance i)))) c] ++ t4) c)
    by (unfold looked_up; set_solver).
  destruct c as [e|c].
  { destruct (IsNotFound e) eqn:F; apply runs_ret_inv in R as [_ ->];
      [by eapply v_missing|apply v_error]. }
  destruct (IsFailed c) eqn:F; [apply runs_ret_inv in R as [_ ->]; by eapply v_failed|].
  destruct (label_problem i cfg c) as [m|] eqn:Lp.
  { apply runs_ret_inv in R as [_ ->]. eapply v_label; [done|exact I|].
    intros X%label_problem_None. rewrite Lp in X. done. }
  apply label_problem_None in Lp.
  apply runs_bind_inv in R as [(t5 & t6 & n & -> & R3 & R)|[R _]].
  2: { unfold createConnector in R. rewrite C in R.
       by apply safe_runs in R; [|apply CreateConnector_safe]. }
  destruct n as [e|n]; [apply runs_ret_inv in R as [_ ->]; apply v_error|].
  assert (N : answered (t1 ++ [Obs (KGetConnector (ConnectorName_ (Status (Instance i)))
                                      (Namespace (Meta (Instance i)))) (inr c)] ++ t5 ++ t6)
                (createConnector i (ConnectorName_ (Status (Instance i))) true) (inr n))
    by (rewrite app_assoc; by apply answered_here).
  destruct (config_problem c n) as [[m|]|] eqn:P; cbn [deref] in R.
  - apply runs_ret_inv in R as [_ ->]. by eapply v_diff.
  - apply runs_ret_inv in R as [_ ->]. by eapply v_same.
  - apply runs_panic_inv in R as [_ ->]. by eapply v_panic.
Qed.

(** *** The comparison of configurations *)

Definition is_number (v : gvalue) : bool :=
  match v with GInt64 _ | GFloat64 _ => true | _ => false end.

(** Two values of a configuration that mean the same: numbers, of whatever Go
    type, by what they are printed as, everything else as it is *)
Definition same_setting : gvalue -> gvalue -> bool :=
  structural (fun v w =>
    if is_number v || is_number w then Some (String.eqb (sprint_v v) (sprint_v w)) else None).

Lemma number_filter_cases v w :
  number_filter v w = Some (is_number v || is_number w) \/ number_filter v w = None.
Proof. destruct v, w; auto. Qed.

Lemma number_filter_plain v w :
  plain v = true -> plain w = true -> number_filter v w = Some (is_number v || is_number w).
Proof. by destruct v, w. Qed.

Lemma normalized_sound v w : agree number_filter sprint_v v w = true -> same_setting v w = true.
Proof.
  apply structural_mono. intros x y. unfold transformed.
  destruct (number_filter_cases x y) as [-> | ->]; [|by right].
  left. by destruct (is_number x || is_number y).
Qed.

Lemma normalized_plain v w :
  plain v = true -> plain w = true -> agree number_filter sprint_v v w = same_setting v w.
Proof.
  apply structural_plain. intros x y Px Py. unfold transformed.
  rewrite number_filter_plain by done. by destruct (is_number x || is_number y).
Qed.

(** The comparison of two readable configurations without nil *)
Lemma config_problem_plain `{!LibsOk L} c n m m' :
  field c ["spec"; "config"] = Some (GMap m) -> field n ["spec"; "config"] = Some (GMap m') ->
  plain (GMap m) = true -> plain (GMap m') = true ->
  exists p, config_problem c n = Some p /\ (p = None <-> same_setting (GMap m) (GMap m') = true).
Proof.
  intros Fc Fn P P'. apply NestedMap_field in Fc, Fn. unfold config_problem. rewrite Fc, Fn.
  unfold diff_normalized.
  destruct (cmp_Diff number_filter sprint_v (Some m) (Some m')) as [r|] eqn:D.
  - pose proof (cmp_Diff_empty _ _ _ _ _ D) as E. rewrite normalized_plain in E by done.
    destruct r as [|a r]; simpl; (eexists; split; [reflexivity|]); naive_solver.
  - exfalso. revert D. apply cmp_Diff_returns; [|done..]. intros v w Pv Pw.
    by rewrite number_filter_plain.
Qed.

(** No problem with a configuration that decodes to an object *)
Lemma config_problem_sound `{!LibsOk L} c n m' :
  config_problem c n = Some None -> field n ["spec"; "config"] = Some (GMap m') ->
  (exists e, NestedMap c ["spec"; "config"] = inl e) \/
  exists m, field c ["spec"; "config"] = Some (GMap m) /\ same_setting (GMap m) (GMap m') = true.
Proof.
  intros P Fn. apply NestedMap_field in Fn. unfold config_problem in P. rewrite Fn in P.
  destruct (NestedMap c ["spec"; "config"]) as [e|x] eqn:Fc; [by left; exists e|right].
  unfold diff_normalized in P.
  destruct (cmp_Diff number_filter sprint_v x (Some m')) as [r|] eqn:D; [|done].
  assert (r = EmptyString) as -> by (by destruct r).
  destruct x as [m|].
  - exists m. split; [by apply NestedMap_field|]. apply normalized_sound.
    by apply (cmp_Diff_empty _ _ _ _ _ D).
  - apply (cmp_Diff_nil _ _ _ _ _) in D; [naive_solver|done|by left].
Qed.

(** The configuration that rendering the template yields *)
Definition renders (i : ReconcileIteration) (cfg : CyndiConfiguration) (eph : bool) (v : gvalue)
  : Prop :=
  exists tm text, template_Parse (ConnectorTemplate cfg) = inr tm /\
    template_Execute tm (template_values eph (connector_config i cfg)) = inr text /\
    json_Unmarshal (Strings.ReplaceAll text newline EmptyString) = inr v.

Lemma created_renders c name i cfg o eph :
  created c name (connector_config i cfg) o eph ->
  exists v, renders i cfg eph v /\ field c ["spec"; "config"] = Some v.
Proof.
  intros [B _]. destruct (bf_config _ _ _ _ B) as (tm & text & v & P & X & J & F).
  exists v. split; [by exists tm, text|done].
Qed.

Lemma renders_unique i cfg eph v v' : renders i cfg eph v -> renders i cfg eph v' -> v = v'.
Proof. intros (tm & x & P & X & J) (tm' & x' & P' & X' & J'). congruence. Qed.

(** Two connectors built from the same settings in the same environment *)
Lemma same_source_same_config `{!LibsOk L} c n name cfg eph m :
  built_from c name cfg eph -> built_from n name cfg eph ->
  field c ["spec"; "config"] = Some (GMap m) -> plain (GMap m) = true ->
  config_problem c n = Some None.
Proof.
  intros Bc Bn F P.
  destruct (bf_config _ _ _ _ Bc) as (t & text & v & P1 & X1 & J1 & F1).
  destruct (bf_config _ _ _ _ Bn) as (t' & text' & v' & P2 & X2 & J2 & F2).
  rewrite P1 in P2. injection P2 as <-. rewrite X1 in X2. injection X2 as <-.
  rewrite J1 in J2. injection J2 as <-. rewrite F in F1. injection F1 as <-.
  destruct (config_problem_plain c n m m F F2 P P) as (p & -> & E).
  f_equal. apply E. rewrite <- normalized_plain by done. apply structural_refl; [|done].
  intros x Px. unfold transformed. rewrite number_filter_plain by done.
  destruct (is_number x || is_number x); [right; by rewrite String.eqb_refl|by left].
Qed.

(** The four labels the check looks at are those of the creation. *)
Lemma created_label_match i cfg c name o eph :
  created c name (connector_config i cfg) o eph -> label_match i cfg c.
Proof.
  intros [_ Lb]. split; unfold label; rewrite Lb; done.
Qed.

Lemma label_match_labels i cfg c0 c :
  GetLabels c = GetLabels c0 -> label_match i cfg c0 -> label_match i cfg c.
Proof. intros E [A I S G]. split; unfold label in *; by rewrite E. Qed.

Lemma renders_same i0 i cfg eph v :
  connector_config i0 cfg = connector_config i cfg -> renders i0 cfg eph v -> renders i cfg eph v.
Proof. unfold renders. by intros ->. Qed.

(** What a creation that succeeded sent, in the environment it read *)
Lemma created_by_run `{!LibsOk L} i cfg name t env c :
  config i = Some cfg -> runs (createConnector i name false) t (Some (inr c)) ->
  Obs (Getenv "EPHEMERAL") env ∈ t ->
  created c name (connector_config i cfg) (Meta (Instance i)) (is_ephemeral env) /\
  wlog t = [Obs (KCreateConnector c) None].
Proof.
  intros C R. unfold createConnector in R. rewrite C in R. cbn [deref] in R.
  apply (runs_wp _ _ _ (fun t r => forall c, r = Some (inr c) -> Obs (Getenv "EPHEMERAL") env ∈ t ->
    created c name (connector_config i cfg) (Meta (Instance i)) (is_ephemeral env) /\
    wlog t = [Obs (KCreateConnector c) None]) R); [|done].
  apply CreateConnector_wp.
  - intros e r' H c' [= ->]. by destruct (H c' eq_refl).
  - intros e c' [x|] _ H ? [= <-] I; [done..|].
    apply elem_of_cons in I as [I|I]; [|by apply list_elem_of_singleton in I].
    split; [|done]. apply (f_equal getenv_of) in I. by injection I as ->.
Qed.

End Deviation.
End Deviation.

(** ** Properties *)

Module DeviationProps.
Import Deviation.

Section Props.
Context {L : Libs} {LOK : LibsOk L}.

(** C22: The check only reads, and finds no problem only when there is none:
    the status records the current configuration and specification, the
    database reported the table when asked during the check, and, for a managed
    connector, the API server returned one that has not failed, carries the
    labels of this pipeline and whose spec.config means the same, key by key,
    as the object that rendering the template yields now, in the environment
    the check read. The exceptions are those of the code: a spec.config that is
    not readable as a map, or a template that renders to something other than
    an object, is not reported. *)
Theorem no_deviation_sound (i : ReconcileIteration) (cfg : CyndiConfiguration) (t : list obs)
    (r : option (result (option string))) :
  config i = Some cfg -> runs (checkForDeviation i) t r ->
  wlog t = [] /\
  (r = Some (inr None) ->
   CyndiConfigVersion (Status (Instance i)) = ConfigMapVersion cfg /\
   SpecHash (Status (Instance i)) = cfgSpecHash cfg /\
   answered t (CheckIfTableExists (AppDb i) (TableName_ (Status (Instance i)))) (inr true) /\
   (ConnectorsManaged (Instance i) = true ->
    exists c env v, looked_up i t (inr c) /\ IsFailed c = false /\ label_match i cfg c /\
      Obs (Getenv "EPHEMERAL") env ∈ t /\ renders i cfg (is_ephemeral env) v /\
      ((exists m m', field c ["spec"; "config"] = Some (GMap m) /\ v = GMap m' /\
          same_setting (GMap m) (GMap m') = true) \/
       (exists e, NestedMap c ["spec"; "config"] = inl e) \/
       (forall m', v <> GMap m')))).
Proof.
  intros C R. split; [exact (reader_wlog _ _ _ (checkForDeviation_read_only i) R)|].
  intros ->. apply (checkForDeviation_runs _ _ _ _ C) in R.
  inversion R as [| | | |? ? ? M| | | | | |c n ? ? ? M I F Lm (t1 & t2 & t3 & -> & Rn) P]; subst.
  - split_and!; eauto. congruence.
  - split_and!; [done..|]. intros _. destruct (dry_run_created _ _ _ _ _ C Rn) as (env & I2 & Cr).
    destruct (created_renders _ _ _ _ _ _ Cr) as (v & V & Fn).
    exists c, env, v. split_and!; try done; [rewrite !elem_of_app; auto|].
    destruct v as [| | | | | |m']; try (by right; right).
    destruct (config_problem_sound _ _ _ P Fn) as [E|(m & Fc & S)]; [by right; left|].
    left. by exists m, m'.
Qed.

(** A changed configuration or specification is a problem whatever the
    cluster and the database say: it is found before either is asked. *)
Theorem changed_settings_deviate (i : ReconcileIteration) (cfg : CyndiConfiguration)
    (t : list obs) (r : option (result (option string))) :
  config i = Some cfg ->
  CyndiConfigVersion (Status (Instance i)) <> ConfigMapVersion cfg \/
  SpecHash (Status (Instance i)) <> cfgSpecHash cfg ->
  runs (checkForDeviation i) t r ->
  t = [] /\ exists msg, r = Some (inr (Some msg)).
Proof.
  intros C D R. unfold checkForDeviation in R. rewrite C in R. cbn [deref] in R.
  destruct (String.eqb_spec (CyndiConfigVersion (Status (Instance i))) (ConfigMapVersion cfg));
    cbn [negb] in R; [|apply runs_ret_inv in R as [-> ->]; eauto].
  destruct (String.eqb_spec (SpecHash (Status (Instance i))) (cfgSpecHash cfg));
    cbn [negb] in R; [|apply runs_ret_inv in R as [-> ->]; eauto].
  naive_solver.
Qed.

(** C23: The connector that CreateConnector sends does not deviate. Let the
    pipeline be up to date and its connector managed, and let the API server
    return a connector that has not failed, with the labels of the created one
    and a configuration without nil. In the environment of the creation, the
    check of an iteration that renders from the same settings does not crash,
    and unless the table is missing it finds a problem exactly when the
    configuration read means something else than the one created: numbers are
    compared by how they print, whatever their Go type, the rest as it is. *)
Theorem created_connector_conforms (i0 i : ReconcileIteration) (cfg : CyndiConfiguration)
    (name env : string) (t0 t : list obs) (c0 c : gvalue) (m0 m : list (string * gvalue))
    (r : option (result (option string))) :
  config i0 = Some cfg -> config i = Some cfg -> connector_config i0 cfg = connector_config i cfg ->
  ConnectorsManaged (Instance i) = true ->
  CyndiConfigVersion (Status (Instance i)) = ConfigMapVersion cfg ->
  SpecHash (Status (Instance i)) = cfgSpecHash cfg ->
  runs (createConnector i0 name false) t0 (Some (inr c0)) ->
  Obs (Getenv "EPHEMERAL") env ∈ t0 -> field c0 ["spec"; "config"] = Some (GMap m0) ->
  GetLabels c = GetLabels c0 -> IsFailed c = false ->
  field c ["spec"; "config"] = Some (GMap m) ->
  plain (GMap m0) = true -> plain (GMap m) = true ->
  runs (checkForDeviation i) t r ->
  (forall x, looked_up i t x -> x = inr c) ->
  (forall e, Obs (Getenv "EPHEMERAL") e ∈ t -> e = env) ->
  wlog t0 = [Obs (KCreateConnector c0) None] /\ r <> None /\
  forall p, r = Some (inr p) ->
    answered t (CheckIfTableExists (AppDb i) (TableName_ (Status (Instance i)))) (inr false) \/
    (p = None <-> same_setting (GMap m) (GMap m0) = true).
Proof.
  intros C0 C Cc M E1 E2 R0 E0 F0 Lb F Fc P0 P R Only Env.
  destruct (created_by_run _ _ _ _ _ _ C0 R0 E0) as [Cr W]. split; [exact W|]. clear W.
  destruct (created_renders _ _ _ _ _ _ Cr) as (v0 & V0 & Fv0).
  assert (v0 = GMap m0) as -> by congruence.
  rewrite Cc in Cr. apply (renders_same _ _ _ _ _ Cc) in V0.
  assert (K : label_match i cfg c)
    by (apply (label_match_labels i cfg c0); [done|by eapply created_label_match]).
  assert (Q : forall n, answered t (createConnector i (ConnectorName_ (Status (Instance i))) true) (inr n) ->
    exists p, config_problem c n = Some p /\ (p = None <-> same_setting (GMap m) (GMap m0) = true)).
  { intros n (u1 & u2 & u3 & -> & Rn).
    destruct (dry_run_created _ _ _ _ _ C Rn) as (e & I & Cn).
    rewrite (Env e) in Cn by (rewrite !elem_of_app; auto).
    destruct (created_renders _ _ _ _ _ _ Cn) as (v & V & Fn).
    rewrite <- (renders_unique _ _ _ _ _ V0 V) in Fn. by eapply config_problem_plain. }
  apply (checkForDeviation_runs _ _ _ _ C) in R. 
  inversion R as [| | | |? ? ? M'|e ? ? ? I|c' ? ? I F'|c' ? ? I N|c' n ? ? I A D|c' n I A D
    |c' n ? ? ? ? I ? ? A D]; subst;
    try (apply Only in I; simplify_eq); try congruence; try (split; [done|]; intros p [= <-]); auto;
    destruct (Q n A) as (p' & D' & E); rewrite D in D'; simplify_eq; naive_solver.
Qed.

(** A null in a connector's configuration crashes the comparison as soon as
    the filter is asked about it: IsNumber takes the kind of a nil value. *)
Theorem null_in_config_panics (v : gvalue) :
  number_filter GNil v = None /\
  (number_filter v GNil = None <-> Lang.IsNumber v <> Some true).
Proof.
  unfold number_filter. simpl. split; [done|].
  destruct (Lang.IsNumber v) as [[]|]; naive_solver.
Qed.

End Props.

(** *** Concrete runs *)

Existing Instances Sim.libs Sim.libs_ok.

Definition it1 : ReconcileIteration := Sim.iteration_of Sim.world_valid.
Definition cfg1 : CyndiConfiguration :=
  match config it1 with Some c => c | None => ConfigProps.built ∅ end.
Definition check (w : Sim.World) : list obs :=
  trace_of Sim.world_handler (checkForDeviation (Sim.iteration_of w)) w.

Lemma no_deviation_sound_witness :
  runs (checkForDeviation it1) (check Sim.world_valid) (Some (inr None)) /\
  CyndiConfigVersion (Status (Instance it1)) = ConfigMapVersion cfg1.
Proof.
  assert (R : runs (checkForDeviation it1) (check Sim.world_valid) (Some (inr None)))
    by (apply runs_exec; vm_compute; reflexivity).
  split; [exact R|].
  apply (no_deviation_sound it1 cfg1 (check Sim.world_valid) (Some (inr None))); [vm_compute; reflexivity|exact R|reflexivity].
Defined.

(** The configuration of [it1] with another version of the config map *)
Definition it2 : ReconcileIteration :=
  set_Instance (upd (set_CyndiConfigVersion "other") (Instance it1)) it1.

Lemma changed_settings_deviate_witness :
  exists t msg, runs (checkForDeviation it2) t (Some (inr (Some msg))) /\ t = [].
Proof.
  assert (R : exists msg, result_of Sim.world_handler (checkForDeviation it2) Sim.world_valid =
                          Some (inr (Some msg))) by (eexists; vm_compute; reflexivity).
  destruct R as [msg R]. apply runs_exec in R.
  assert (C : config it2 = Some cfg1) by (vm_compute; reflexivity).
  assert (D : CyndiConfigVersion (Status (Instance it2)) <> ConfigMapVersion cfg1)
    by (vm_compute; discriminate).
  destruct (changed_settings_deviate it2 cfg1 _ _ C (or_introl D) R) as [E _].
  eexists _, msg. split; [exact R|exact E].
Defined.

(** The connector of [Sim.world_valid] was created in the first iteration; the
    same settings, name and environment give the object below again. *)
Definition name1 : string := ConnectorName_ (Status (Instance it1)).
Definition stored1 : gvalue := default GNil (Sim.named name1 (Sim.w_connectors Sim.world_valid)).
Definition creation1 : list obs :=
  trace_of Sim.world_handler (createConnector it1 name1 false) Sim.world_valid.
Definition sent1 : gvalue := default GNil (head (omap (fun o =>
  match o with Obs (KCreateConnector c) _ => Some c | _ => None end) creation1)).
Definition config1 : list (string * gvalue) :=
  match field stored1 ["spec"; "config"] with Some (GMap m) => m | _ => [] end.

Definition connector_of (o : obs) : option (result gvalue) :=
  match o with Obs (KGetConnector _ _) x => Some x | _ => None end.

Lemma check1_looked_up x : looked_up it1 (check Sim.world_valid) x -> x = inr stored1.
Proof.
  intros I. assert (E : omap connector_of (check Sim.world_valid) = [inr stored1])
    by (vm_compute; reflexivity).
  apply list_elem_of_singleton. rewrite <- E. apply list_elem_of_omap.
  eexists. split; [exact I|reflexivity].
Qed.

Lemma check1_environment e : Obs (Getenv "EPHEMERAL") e ∈ check Sim.world_valid -> e = EmptyString.
Proof.
  intros I. assert (E : omap getenv_of (check Sim.world_valid) = [("EPHEMERAL", EmptyString)])
    by (vm_compute; reflexivity).
  assert (J : ("EPHEMERAL", e) ∈ omap getenv_of (check Sim.world_valid))
    by (apply list_elem_of_omap; eexists; split; [exact I|reflexivity]).
  rewrite E in J. apply list_elem_of_singleton in J. congruence.
Qed.

Lemma created_connector_conforms_witness :
  same_setting (GMap config1) (GMap config1) = true /\
  wlog creation1 = [Obs (KCreateConnector sent1) None].
Proof.
  assert (R0 : runs (createConnector it1 name1 false) creation1 (Some (inr sent1)))
    by (apply runs_exec; vm_compute; reflexivity).
  assert (R : runs (checkForDeviation it1) (check Sim.world_valid) (Some (inr None)))
    by (apply runs_exec; vm_compute; reflexivity).
  assert (E0 : Obs (Getenv "EPHEMERAL") EmptyString ∈ creation1)
    by (apply (list_elem_of_lookup_2 _ 0); vm_compute; reflexivity).
  assert (C : config it1 = Some cfg1) by (vm_compute; reflexivity).
  assert (F0 : field sent1 ["spec"; "config"] = Some (GMap config1)) by (vm_compute; reflexivity).
  assert (F : field stored1 ["spec"; "config"] = Some (GMap config1)) by (vm_compute; reflexivity).
  assert (P : plain (GMap config1) = true) by (vm_compute; reflexivity).
  split; [vm_compute; reflexivity|].
  apply (created_connector_conforms it1 it1 cfg1 name1 EmptyString creation1
    (check Sim.world_valid) sent1 stored1 config1 config1 (Some (inr None)));
    [exact C|exact C|reflexivity|vm_compute; reflexivity|vm_compute; reflexivity
    |vm_compute; reflexivity|exact R0|exact E0|exact F0|vm_compute; reflexivity
    |vm_compute; reflexivity|exact F|exact P|exact P|exact R|exact check1_looked_up
    |exact check1_environment].
Defined.

End DeviationProps.
