(* ===== verification/Reconcile.v ===== *)
(** * What the pipeline controller writes

    Lemmas that bound the effects of each step of Reconcile
    (cyndipipeline_controller.go), and the properties of whole iterations:
    when the view is switched, when the finalizer is removed, in which order a
    new version comes into being, and that every status written follows the
    state diagram. *)

From Stdlib Require Import ZArith Lia String.
From S2P Require Import Prelude GoStd Float GoJson Lang K8sLib Api State Utils Config Effects.
From S2P Require Import Database Connect Iteration Validate Pipeline Validation Sim.
From S2P Require Import StatusUpdate Stale Deviation.
Import Api State Config Database Connect Iteration Pipeline StatusUpdate Stale Deviation.

Module Reconcile.

Section Steps.
Context {L : Libs} (P : forall X, eff X -> Prop) (RO : allows_reads P).

Lemma only_error err prefixes : only P (error err prefixes).
Proof. unfold error, eventWarning. simpl. split; [by apply RO|done]. Qed.

Lemma only_fail_with err prefix : only P (fail_with err prefix).
Proof. unfold fail_with. apply only_bind; [apply only_error|done]. Qed.

Lemma only_status i :
  (forall cur, P _ (KUpdateStatus (with_active cur (Instance i)))) ->
  only P (updateStatusAndRequeue i).
Proof.
  intros S. unfold updateStatusAndRequeue.
  apply only_bind; [apply only_reads; auto with cyndi_prog|].
  intros [e|cur]; [apply only_fail_with|].
  rewrite on_instance_active. cbn zeta. cbn [set_Instance Instance OriginalInstance].
  apply only_bind.
  - destruct (cmp_Equal _ _); simpl; [done|]. split; [apply S|done].
  - intros [e|p]; [destruct (IsConflict e); [done|apply only_fail_with]|].
    by destruct (requeue_interval _).
Qed.

Lemma only_exec db q : (forall c, P _ (PgExec c q)) -> only P (Exec db q).
Proof.
  intros H. unfold Exec. destruct (connection db); [|done]. simpl. split; [apply H|].
  by intros [|].
Qed.

Lemma only_view db n :
  (forall c, P _ (PgExec c (viewTemplate n))) -> (forall c, P _ (PgExec c grant_query)) ->
  only P (UpdateView db n).
Proof.
  intros H1 H2. unfold UpdateView. apply only_bind; [by apply only_exec|]. intros [e|]; [done|].
  apply only_bind; [by apply only_exec|]. by intros [|].
Qed.

Lemma only_connector_state name ns paused :
  (forall c, P _ (KUpdateConnector c)) -> only P (SetConnectorState name ns paused).
Proof.
  intros H. unfold SetConnectorState. apply only_bind; [split; [by apply RO|done]|].
  intros [e|c]; [done|]. destruct (String.eqb _ _); [done|].
  destruct (SetNestedField _ _ _); [done|]. by split.
Qed.

Lemma only_create i name :
  (forall c, P _ (KCreateConnector c)) -> only P (createConnector i name false).
Proof.
  intros H. unfold createConnector. destruct (config i) as [cfg|]; [|done]. cbn [deref].
  unfold CreateConnector. apply only_bind.
  - unfold newConnectorResource. simpl. split; [by apply RO|done].
  - intros [e|c]; [done|]. destruct (SetControllerReference _ _); [done|]. simpl.
    split; [apply H|]. by intros [|].
Qed.

Lemma only_probe_deviation i m : only P (probeStateDeviationRefresh i m).
Proof. unfold probeStateDeviationRefresh, PipelineRefreshed, eventWarning. simpl. split; [by apply RO|]. intros _. split; [by apply RO|done]. Qed.

Lemma only_probe_invalid i : only P (probePipelineDidNotBecomeValid i).
Proof. unfold probePipelineDidNotBecomeValid, PipelineRefreshed, eventWarning. simpl. split; [by apply RO|]. intros _. split; [by apply RO|done]. Qed.

Lemma only_InitLabels p : only P (InitLabels p).
Proof. unfold InitLabels. simpl. by repeat (split; [by apply RO|]; intros _). Qed.

Lemma only_Close i : only P (Close i).
Proof.
  unfold Close. apply only_bind; [apply only_reads; auto with cyndi_prog|]. intros _.
  destruct (InventoryDb i); [|done].
  apply only_bind; [apply only_reads; auto with cyndi_prog|done].
Qed.

(** updateViewIfHealthier changes the iteration's inventory database only *)
Lemma only_healthier i :
  (ConnectorsManaged (Instance i) = true ->
     forall c, P _ (PgExec c (viewTemplate (TableName_ (Status (Instance i))))) /\
               P _ (PgExec c grant_query)) ->
  only P (updateViewIfHealthier i).
Proof.
  intros H. unfold updateViewIfHealthier.
  destruct (ConnectorsManaged (Instance i)) eqn:M; [|done]. cbn [negb].
  assert (U : forall i', AppDb i' = AppDb i ->
    only P (err <- UpdateView (AppDb i') (TableName_ (Status (Instance i))) ;; Ret (i', err))).
  { intros i' ->. apply only_bind; [|done]. apply only_view; intros c; by apply H. }
  apply only_bind; [apply only_reads; auto with cyndi_prog|].
  intros [e|[x|]]; [done| |by apply U].
  destruct (String.eqb _ _); [done|].
  apply only_bind; [apply only_reads; auto with cyndi_prog|]. intros [db [e|]]; [done|].
  destruct (config (set_InventoryDb db i)); [|done]. cbn [deref].
  apply only_bind; [apply only_reads; auto with cyndi_prog|]. intros [e|h]; [done|].
  apply only_bind; [apply only_reads; auto with cyndi_prog|]. intros [e|a]; [done|].
  apply only_bind; [apply only_reads; auto with cyndi_prog|]. intros [e|l]; [done|].
  destruct (Z.ltb _ _); [done|]. by apply U.
Qed.

End Steps.

(** ** A pipeline that is neither new nor being removed *)

Section Running.
Context {L : Libs}.

(** The two situations in which the view may be switched *)
Definition gave_up (i : ReconcileIteration) : Prop :=
  GetValid (Instance i) = ConditionFalse /\
  exists vc, getValidationConfig i = Some vc /\
    (AttemptsThreshold vc <= ValidationFailedCount (Status (Instance i)))%Z.

Definition may_switch (i : ReconcileIteration) : Prop :=
  GetState (Instance i) = STATE_VALID \/
  (GetState (Instance i) = STATE_INITIAL_SYNC /\ gave_up i).

Definition running_effect (i : ReconcileIteration) (X : Type) (e : eff X) : Prop :=
  match e with
  | KUpdateStatus p =>
      exists cur, p = with_active cur (Instance i) \/
                  p = with_active cur (TransitionToNew (Instance i))
  | PgExec _ q =>
      ConnectorsManaged (Instance i) = true /\ may_switch i /\
      (q = viewTemplate (TableName_ (Status (Instance i))) \/ q = grant_query)
  | KUpdateConnector _ => ConnectorsManaged (Instance i) = true
  | KUpdatePipeline _ | KCreateConnector _ | KDeleteConnector _ _ => False
  | _ => True
  end.

Lemma running_reads i : allows_reads (running_effect i).
Proof. intros X e W. by destruct e. Qed.

Lemma healthier_instance i :
  returns (fun r => Instance r.1 = Instance i) (updateViewIfHealthier i).
Proof.
  unfold updateViewIfHealthier. destruct (negb _); [done|].
  apply returns_bind. intros [e|[x|]]; [done| |].
  - destruct (String.eqb _ _); [done|]. apply returns_bind. intros [db [e|]]; [done|].
    destruct (config _); [|done]. cbn [deref].
    apply returns_bind. intros [e|h]; [done|]. apply returns_bind. intros [e|a]; [done|].
    apply returns_bind. intros [e|l]; [done|]. destruct (Z.ltb _ _); [done|].
    by apply returns_bind.
  - by apply returns_bind.
Qed.

Lemma reconcile_invalid_only i : only (running_effect i) (reconcile_invalid i).
Proof.
  pose proof (running_reads i) as RO. unfold reconcile_invalid.
  assert (F : forall i', Instance i' = Instance i \/ Instance i' = TransitionToNew (Instance i) ->
    only (running_effect i) (res <- updateStatusAndRequeue i' ;; Ret (i', res))).
  { intros i' E. apply only_bind; [|done]. apply only_status; [done|].
    intros cur. exists cur. destruct E as [-> | ->]; auto. }
  case_bool_decide as V; [|by apply F; left].
  destruct (getValidationConfig i) as [vc|] eqn:G; [|done]. cbn [deref].
  destruct (Z.leb_spec (AttemptsThreshold vc) (ValidationFailedCount (Status (Instance i))));
    [|by apply F; left].
  apply only_bind_post.
  - case_bool_decide as S; [|done]. apply only_bind.
    + apply only_healthier; [done|]. intros M c.
      assert (may_switch i) by (right; split; [done|]; split; [done|]; eauto). simpl. auto.
    + by intros [? ?].
  - intros t i' R.
    assert (E : Instance i' = Instance i).
    { case_bool_decide as S; [|by apply runs_ret_inv in R as [_ [= ->]]].
      apply runs_bind_inv in R as [(t1 & t2 & [i2 err] & -> & R1 & R2)|[_ ?]]; [|done].
      apply runs_ret_inv in R2 as [_ [= ->]].
      exact (runs_returns _ _ _ _ (healthier_instance i) R1). }
    apply only_bind; [by apply only_probe_invalid|]. intros _. apply F. right. simpl. by rewrite E.
Qed.

Lemma reconcile_valid_only i :
  GetState (Instance i) = STATE_VALID -> only (running_effect i) (reconcile_valid i).
Proof.
  pose proof (running_reads i) as RO. intros V. unfold reconcile_valid.
  assert (F : only (running_effect i) (updateStatusAndRequeue i)).
  { apply only_status; [done|]. intros cur. exists cur. auto. }
  apply only_bind.
  - unfold recreateViewIfNeeded. destruct (ConnectorsManaged (Instance i)) eqn:M; [|done].
    cbn [negb]. apply only_bind; [apply only_reads; auto with cyndi_prog|].
    intros [e|cur]; [done|]. case_bool_decide; [done|]. apply only_bind; [|by intros [|]].
    apply only_view; intros c; simpl; (split; [done|]); (split; [by left|]); auto.
  - intros [e|[]]; [by apply only_fail_with| |exact F].
    apply only_bind; [done|]. intros _. exact F.
Qed.

Lemma reconcile_running_only i : only (running_effect i) (reconcile_running i).
Proof.
  pose proof (running_reads i) as RO. unfold reconcile_running.
  apply only_bind; [apply only_reads; [done|apply checkForDeviation_read_only]|].
  intros [e|[m|]].
  - apply only_bind; [by apply only_fail_with|done].
  - apply only_bind; [by apply only_probe_deviation|]. intros _.
    apply only_bind; [|done]. apply only_status; [done|]. intros cur. exists cur. auto.
  - apply only_bind.
    + destruct (ConnectorsManaged (Instance i)) eqn:M; [|done].
      by apply only_connector_state.
    + intros [e|]; [apply only_bind; [by apply only_fail_with|done]|].
      case_bool_decide as V; [|apply reconcile_invalid_only].
      apply only_bind; [by apply reconcile_valid_only|done].
Qed.

End Running.

(** ** The body of an iteration *)

Section Body.
Context {L : Libs}.

Definition finalize (i : ReconcileIteration) : prog Result :=
  err <- removeFinalizer i ;;
  match err with
  | Some e => fail_with e "Error removing finalizer"
  | None => Ret (0%Z, None)
  end.

(** What follows the cleanup, given the errors so far and the environment *)
Inductive proceeds (i : ReconcileIteration) (errors : list gerror) (env : string)
  : list obs -> option (ReconcileIteration * Result) -> Prop :=
| pr_removed t res :
    GetState (Instance i) = STATE_REMOVED -> errors = [] \/ is_ephemeral env = true ->
    runs (finalize i) t (Some res) -> proceeds i errors env t (Some (i, res))
| pr_failed e es :
    errors = e :: es -> GetState (Instance i) <> STATE_REMOVED \/ is_ephemeral env = false ->
    proceeds i errors env [] (Some (i, failure e))
| pr_new t0 t r :
    errors = [] -> GetState (Instance i) = STATE_NEW -> wlog t0 = [] ->
    runs (reconcile_new i) t r ->
    proceeds i errors env (t0 ++ t) (match r with Some res => Some (i, res) | None => None end)
| pr_running t0 t r :
    errors = [] -> GetState (Instance i) <> STATE_REMOVED -> GetState (Instance i) <> STATE_NEW ->
    wlog t0 = [] -> runs (reconcile_running i) t r -> proceeds i errors env (t0 ++ t) r.

Lemma report_errors_runs errs t r : runs (report_errors errs) t r -> wlog t = [] /\ r = Some tt.
Proof.
  revert t r. induction errs as [|e errs IH]; intros t r R; cbn [report_errors] in R.
  - by apply runs_ret_inv in R as [-> ->].
  - apply runs_bind_inv in R as [(t1 & t2 & a & -> & R1 & R2)|[R _]];
      [|by apply error_runs in R as [_ ?]].
    apply error_runs in R1 as [W _]. apply IH in R2 as [W2 ->]. by rewrite wlog_app, W, W2.
Qed.

Lemma InitLabels_runs p t r : runs (InitLabels p) t r -> wlog t = [] /\ r = Some tt.
Proof.
  intros R. pattern t, r. apply (runs_wp _ _ _ _ R). unfold InitLabels. simpl.
  intros [] [] [] [] [] [] []. done.
Qed.

Lemma safe_fail_with e p : safe (fail_with e p).
Proof. unfold fail_with, error, eventWarning. simpl. done. Qed.

Lemma finalize_safe i : safe (finalize i).
Proof.
  unfold finalize, removeFinalizer. apply safe_bind; [simpl; by intros [|]|].
  intros [e|]; [apply safe_fail_with|done].
Qed.

(** [keep p] of the Go code's early returns *)
Lemma keep_runs {A B} (i : B) (p : prog A) t r :
  runs (res <- p ;; Ret (i, res)) t r ->
  exists r', runs p t r' /\ r = match r' with Some res => Some (i, res) | None => None end.
Proof.
  intros R. apply runs_bind_inv in R as [(t1 & t2 & a & -> & R1 & R2)|[R ->]].
  - apply runs_ret_inv in R2 as [-> ->]. rewrite app_nil_r. by exists (Some a).
  - by exists None.
Qed.

Lemma reconcile_body_runs i serr t r :
  runs (reconcile_body i serr) t r ->
  (r = None /\ exists t0 t1, t = t0 ++ t1 /\ wlog t0 = [] /\
     runs (deleteStaleDependencies i) t1 None) \/
  exists t0 td t1 env t2 stale,
    t = t0 ++ td ++ t1 ++ [Obs (Getenv "EPHEMERAL") env] ++ t2 /\
    wlog t0 = [] /\ wlog t1 = [] /\
    runs (deleteStaleDependencies i) td (Some stale) /\
    proceeds i (option_list serr ++ stale) env t2 r.
Proof.
  intros R. unfold reconcile_body in R.
  apply runs_bind_inv in R as [(t0 & t' & es & -> & R0 & R)|[R _]].
  2: { destruct serr as [e|]; [|by apply runs_ret_inv in R as [_ ?]].
       apply runs_bind_inv in R as [(? & ? & ? & _ & _ & R)|[R _]];
         [by apply runs_ret_inv in R as [_ ?]|by apply error_runs in R as [_ ?]]. }
  assert (E0 : wlog t0 = [] /\ es = option_list serr).
  { destruct serr as [e|]; [|by apply runs_ret_inv in R0 as [-> [= ->]]].
    apply runs_bind_inv in R0 as [(? & ? & ? & -> & R1 & R2)|[R1 _]];
      [|by apply error_runs in R1 as [_ ?]].
    apply error_runs in R1 as [W _]. apply runs_ret_inv in R2 as [-> [= ->]].
    by rewrite app_nil_r, W. }
  destruct E0 as [W0 ->].
  apply runs_bind_inv in R as [(td & t'' & stale & -> & Rd & R)|[R ->]].
  2: { left. split; [done|]. exists t0, t'. done. }
  apply runs_bind_inv in R as [(t1 & t3 & u & -> & R1 & R)|[R _]];
    [|by apply report_errors_runs in R as [_ ?]].
  apply report_errors_runs in R1 as [W1 _].
  apply runs_bind_inv in R as [(t4 & t2 & env & -> & R2 & R)|[R _]];
    [|by apply runs_call_inv in R as (? & _ & ?)].
  apply runs_call_inv in R2 as (env' & -> & [= <-]).
  right. exists t0, td, t1, env, t2, stale. split_and!; [done..|].
  set (errors := option_list serr ++ stale) in *. cbn zeta in R.
  case_bool_decide as S.
  - assert (Fin : forall t r, runs (res <- finalize i ;; Ret (i, res)) t r ->
      exists res, r = Some (i, res) /\ runs (finalize i) t (Some res)).
    { intros t r' F. apply keep_runs in F as ([res|] & F & ->); [eauto|].
      by apply safe_runs in F; [|apply finalize_safe]. }
    destruct errors as [|e es] eqn:E.
    + apply Fin in R as (res & -> & R). apply pr_removed; auto.
    + destruct (is_ephemeral env) eqn:Ep; cbn [negb] in R.
      * apply Fin in R as (res & -> & R). apply pr_removed; auto.
      * apply runs_ret_inv in R as [-> ->]. eapply pr_failed; auto.
  - destruct errors as [|e es] eqn:E.
    + apply runs_bind_inv in R as [(t5 & t6 & u' & -> & R3 & R)|[R _]];
        [|by apply InitLabels_runs in R as [_ ?]].
      apply InitLabels_runs in R3 as [W3 _].
      case_bool_decide as N; [|by apply pr_running].
      apply keep_runs in R as (r' & R & ->). by apply pr_new.
    + apply runs_ret_inv in R as [-> ->]. eapply pr_failed; auto.
Qed.

(** *** Writes of the cleanup *)

Definition deletion_effect (i : ReconcileIteration) (X : Type) (e : eff X) : Prop :=
  match e with
  | KDeleteConnector _ ns => ns = Namespace (Meta (Instance i))
  | PgExec _ q => exists n, q = drop_query n
  | KUpdatePipeline _ | KUpdateStatus _ | KCreateConnector _ | KUpdateConnector _ => False
  | _ => True
  end.

Lemma deleteStaleDependencies_only i : only (deletion_effect i) (deleteStaleDependencies i).
Proof.
  assert (RO : allows_reads (deletion_effect i)) by (intros X e W; by destruct e).
  assert (Dc : forall keep items errs, only (deletion_effect i)
    (delete_connectors (Namespace (Meta (Instance i))) keep items errs)).
  { intros keep items. induction items as [|c items IH]; intros errs; [done|].
    cbn [delete_connectors]. destruct (negb _); [|apply IH].
    apply only_bind; [|intros [|]; apply IH].
    unfold DeleteConnector. simpl. split; [done|]. intros [e|]; [|done].
    by destruct (IsNotFound e). }
  assert (Dt : forall keep tables errs, only (deletion_effect i)
    (delete_tables (AppDb i) keep tables errs)).
  { intros keep tables. induction tables as [|n tables IH]; intros errs; [done|].
    cbn [delete_tables]. destruct (negb _); [|apply IH].
    apply only_bind; [|intros [|]; apply IH].
    unfold DeleteTable. apply only_bind; [apply only_reads; auto with cyndi_prog|].
    intros [e|[]]; [done| |done]. cbn [negb Bool.eqb]. apply only_exec. intros c. simpl. eauto. }
  assert (Rest : forall errs kt kc, only (deletion_effect i) (cleanup_rest i errs kt kc)).
  { intros errs kt kc. unfold cleanup_rest. apply only_bind; [split; [done|done]|].
    intros conns. apply only_bind; [destruct conns; [done|apply Dc]|]. intros es.
    apply only_bind; [apply only_reads; auto with cyndi_prog|]. intros [e|ts]; [done|apply Dt]. }
  unfold deleteStaleDependencies. destruct (kept_by_status i) as [kt kc].
  apply only_bind; [apply only_reads; auto with cyndi_prog|].
  intros [e|[x|]]; [apply Rest| |apply Rest].
  destruct (not_removed i); [|apply Rest]. destruct (ConnectorsManaged _); [|apply Rest].
  destruct (TableNameToConnectorName _ _); [|done]. apply Rest.
Qed.

End Body.

(** ** A new version *)

Section New.
Context {L : Libs} {LOK : LibsOk L}.

(** The instance at the start of the synchronisation of version [v] *)
Definition started (p : CyndiPipeline) (cfg : CyndiConfiguration) (v : string) : CyndiPipeline :=
  (TransitionToInitialSync v
     (upd (set_SpecHash (cfgSpecHash cfg))
        (upd (set_CyndiConfigVersion (ConfigMapVersion cfg)) p))).1.

(** The writes of a start from an iteration [j] that has version [v], in a run
    with the calls [seen]: the connector, in the environment that was read, then
    the status, which is only written once the connector, if managed, has been
    created. *)
Record connector_log (j : ReconcileIteration) (cfg : CyndiConfiguration) (v : string)
    (seen connector status : list obs) : Prop := {
  cl_connector : connector = [] \/
    exists o x env, connector = [Obs (KCreateConnector o) x] /\
      ConnectorsManaged (Instance j) = true /\
      created o (ConnectorName v (AppName (Spec (Instance j)))) (connector_config j cfg)
        (Meta (Instance j)) (is_ephemeral env) /\
      (x <> None -> status = []) /\ Obs (Getenv "EPHEMERAL") env ∈ seen;
  cl_status : status = [] \/
    exists cur x, status = [Obs (KUpdateStatus (with_active cur (Instance j))) x] /\
      (ConnectorsManaged (Instance j) = true -> exists o, connector = [Obs (KCreateConnector o) None])
}.

(** The configured script, rendered for the table [n] *)
Definition table_script (cfg : CyndiConfiguration) (n q : string) : Prop :=
  exists tm, template_Parse (DBTableInitScript cfg +s+ cfgDBTableIndexSQL cfg) = inr tm /\
    template_Execute tm (GMap [("TableName", GString n)]) = inr q.

(** Before them the table, if the database did not say that it exists. *)
Record start_log (j : ReconcileIteration) (cfg : CyndiConfiguration) (v : string)
    (seen table connector status : list obs) : Prop := {
  sl_table : table = [] \/ exists c q x, table = [Obs (PgExec c q) x] /\
    table_script cfg (TableName_ (Status (Instance j))) q /\
    (x <> None -> connector = [] /\ status = []);
  sl_rest : connector_log j cfg v seen connector status;
  sl_exists : status <> [] -> table = [] ->
    answered seen (CheckIfTableExists (AppDb j) (TableName_ (Status (Instance j)))) (inr true)
}.

Lemma no_connector_log j cfg v seen : connector_log j cfg v seen [] [].
Proof. split; by left. Qed.

Lemma connector_log_right j cfg v s s' connector status :
  connector_log j cfg v s' connector status -> connector_log j cfg v (s ++ s') connector status.
Proof.
  intros [[->|(o & x & env & ? & ? & ? & ? & ?)] St]; split; auto.
  right. exists o, x, env. rewrite elem_of_app. auto 10.
Qed.

Lemma start_log_right j cfg v s s' table connector status :
  start_log j cfg v s' table connector status -> start_log j cfg v (s ++ s') table connector status.
Proof.
  intros [T R E]. split; [done|by apply connector_log_right|]. intros N1 N2.
  rewrite <- (app_nil_r s'). by apply answered_within, E.
Qed.

Lemma CreateTable_runs db n script t r :
  runs (CreateTable db n script) t r ->
  (wlog t = [] /\ r <> Some None \/
   exists c q x, wlog t = [Obs (PgExec c q) x] /\ (r = Some None <-> x = None) /\
     exists tm, template_Parse script = inr tm /\
       template_Execute tm (GMap [("TableName", GString n)]) = inr q) /\
  r <> None.
Proof.
  intros R. split; [|by apply safe_runs in R; [|auto with cyndi_prog]].
  unfold CreateTable in R. destruct (template_Parse script) as [e|tm];
    [apply runs_ret_inv in R as [-> ->]; by left|].
  destruct (template_Execute _ _) as [e|q] eqn:Ex; [apply runs_ret_inv in R as [-> ->]; by left|].
  apply Exec_runs in R as [(_ & -> & ->)|(c & x & _ & -> & ->)]; [by left|].
  right. exists c, q, x. split; [done|]. split; [destruct x; split; congruence|eauto].
Qed.

(** Creating the connector of a version *)
Lemma createConnector_runs i cfg name t r :
  config i = Some cfg -> runs (createConnector i name false) t r ->
  exists a, r = Some a /\
    ((exists e, a = inl e /\ wlog t = []) \/
     exists o x env, wlog t = [Obs (KCreateConnector o) x] /\
       created o name (connector_config i cfg) (Meta (Instance i)) (is_ephemeral env) /\
       a = match x with Some e => inl e | None => inr o end /\ Obs (Getenv "EPHEMERAL") env ∈ t).
Proof.
  intros C R. unfold createConnector in R. rewrite C in R. cbn [deref] in R.
  pattern t, r. apply (runs_wp _ _ _ _ R). apply CreateConnector_wp; simpl.
  - intros env [e|c] H; [|by destruct (H c eq_refl)]. eexists. split; [done|]. left. eauto.
  - intros env c x _ Cr. eexists. split; [done|]. right. exists c, x, env. split_and!; [done..|]. left.
Qed.

Lemma ended_status i t r :
  ended i t r -> config i <> None ->
  exists res, r = Some res /\
    (wlog t = [] \/ exists cur x, wlog t = [Obs (KUpdateStatus (with_active cur (Instance i))) x]).
Proof. intros E C. destruct E; naive_solver. Qed.

Lemma start_connector_runs j cfg v ex t r :
  config j = Some cfg -> runs (start_connector j v ex) t r ->
  exists res connector status, r = Some res /\ wlog t = connector ++ status /\
    connector_log j cfg v t connector status.
Proof.
  intros C R. unfold start_connector in R.
  assert (Fin : forall s r', runs (updateStatusAndRequeue j) s r' ->
    exists res, r' = Some res /\
      (wlog s = [] \/ exists cur x, wlog s = [Obs (KUpdateStatus (with_active cur (Instance j))) x])).
  { intros s r' Rs%updateStatusAndRequeue_runs. apply ended_status in Rs; [done|congruence]. }
  destruct (ConnectorsManaged (Instance j)) eqn:M.
  - apply runs_bind_inv in R as [(t6 & t7 & a & -> & R4 & R)|[R ->]].
    2: by apply (createConnector_runs _ _ _ _ _ C) in R as (? & ? & _).
    apply (createConnector_runs _ _ _ _ _ C) in R4
      as (a' & [= <-] & [(e & -> & W6)|(o & [e|] & env & W6 & Cr & -> & I)]).
    + apply fail_with_runs in R as [W ->]. exists (failure e), [], [].
      rewrite wlog_app, W6, W. split_and!; [done..|apply no_connector_log].
    + apply fail_with_runs in R as [W ->]. exists (failure e), [Obs (KCreateConnector o) (Some e)], [].
      rewrite wlog_app, W6, W. split_and!; [done..|]. split; [|by left].
      right. exists o, (Some e), env. rewrite elem_of_app. auto 10.
    + apply Fin in R as (res & -> & Ws). exists res, [Obs (KCreateConnector o) None], (wlog t7).
      rewrite wlog_app, W6. split_and!; [done..|]. split.
      * right. exists o, None, env. rewrite elem_of_app. split_and!; try done. by left.
      * destruct Ws as [->|(cur & x & ->)]; [by left|]. right. eauto.
  - assert (R' : exists s, wlog t = wlog s /\ runs (updateStatusAndRequeue j) s r).
    { destruct (negb ex); [|by exists t].
      apply runs_bind_inv in R as [(? & s & u2 & -> & Re & R)|[R _]];
        [|by apply runs_call_inv in R as (? & _ & ?)].
      apply runs_call_inv in Re as (? & -> & _). by exists s. }
    destruct R' as (s & -> & R'). apply Fin in R' as (res & -> & Ws).
    exists res, [], (wlog s). split_and!; [done..|]. split; [by left|].
    destruct Ws as [->|(cur & x & ->)]; [by left|]. right. exists cur, x. split; [done|congruence].
Qed.

Lemma start_table_runs j cfg v t r :
  config j = Some cfg -> runs (start_table j cfg v) t r ->
  exists res table connector status, r = Some res /\ wlog t = table ++ connector ++ status /\
    start_log j cfg v t table connector status.
Proof.
  intros C R. unfold start_table in R. cbn zeta in R.
  apply runs_bind_inv in R as [(t2 & t3 & ex & -> & R2 & R)|[R _]];
    [|by apply safe_runs in R; [|auto with cyndi_prog]].
  pose proof (reader_wlog _ _ _ (CheckIfTableExists_read_only _ _) R2) as W2.
  rewrite wlog_app, W2. cbn [app].
  destruct ex as [e|ex].
  { apply fail_with_runs in R as [W ->]. exists (failure e), [], [], [].
    split_and!; [done|by rewrite W|]. split; [by left|apply no_connector_log|done]. }
  apply runs_bind_inv in R as [(t4 & t5 & err & -> & R3 & R)|[R _]].
  2: { destruct ex; cbn [negb] in R; [by apply runs_ret_inv in R as [_ ?]|].
       by apply CreateTable_runs in R as [_ ?]. }
  assert (T : wlog t4 = [] /\ (ex = true \/ err <> None) \/
    exists c q x, wlog t4 = [Obs (PgExec c q) x] /\ (Some err = Some None <-> x = None) /\
      table_script cfg (TableName_ (Status (Instance j))) q).
  { destruct ex; cbn [negb] in R3; [apply runs_ret_inv in R3 as [-> _]; left; auto|].
    apply CreateTable_runs in R3 as [[[W N]|X] _]; [left; naive_solver|by right]. }
  rewrite wlog_app. destruct err as [e|].
  - apply fail_with_runs in R as [W ->]. exists (failure e), (wlog t4), [], [].
    split_and!; [done|by rewrite W|]. split; [|apply no_connector_log|done].
    destruct T as [[-> _]|(c & q & x & -> & _ & ?)]; [by left|]. right. by exists c, q, x.
  - apply (start_connector_runs _ _ _ _ _ _ C) in R as (res & connector & status & -> & -> & Cl).
    exists res, (wlog t4), connector, status. split_and!; [done..|].
    split; [|by do 2 apply connector_log_right|].
    + destruct T as [[-> _]|(c & q & x & -> & F & ?)]; [by left|]. right. exists c, q, x. naive_solver.
    + intros _ N. destruct T as [[_ [-> |?]]|(c & q & x & W & _)]; [|done|by rewrite W in N].
      by apply (answered_here []).
Qed.

Lemma start_version_runs i cfg t r :
  config i = Some cfg -> runs (start_version i cfg) t r ->
  exists res now table connector status, r = Some res /\
    wlog t = table ++ connector ++ status /\
    Obs NowUnixNano now ∈ t /\
    let v := "1_" +s+ Strconv.FormatInt now in
    start_log (set_Instance (started (Instance i) cfg v) i) cfg v t table connector status.
Proof.
  intros C R. unfold start_version in R. cbn zeta in R.
  apply runs_bind_inv in R as [(? & t' & now & -> & R0 & R)|[R _]];
    [|by apply runs_call_inv in R as (? & _ & ?)].
  apply runs_call_inv in R0 as (now' & -> & [= <-]).
  apply runs_bind_inv in R as [(? & t'' & u & -> & R1 & R)|[R _]];
    [|by apply runs_call_inv in R as (? & _ & ?)].
  apply runs_call_inv in R1 as (u' & -> & _).
  apply start_table_runs in R as (res & table & connector & status & -> & W & S); [|done].
  exists res, now, table, connector, status. split_and!; [done|by rewrite !wlog_app|left|].
  do 2 apply start_log_right. exact S.
Qed.

(** *** The finalizer *)

Lemma addFinalizer_runs i t r :
  runs (addFinalizer i) t r ->
  (cyndipipelineFinalizer ∈ Finalizers_of (Meta (Instance i)) /\ t = [] /\ r = Some (i, None)) \/
  exists p x, t = [Obs (KUpdatePipeline p) x] /\
    cyndipipelineFinalizer ∉ Finalizers_of (Meta (Instance i)) /\
    p = with_Finalizers (Instance i)
          (AddFinalizer (Finalizers_of (Meta (Instance i))) cyndipipelineFinalizer) /\
    match x with
    | inl e => exists i', r = Some (i', Some e)
    | inr q => r = Some (set_Instance q i, None)
    end.
Proof.
  intros R. unfold addFinalizer in R.
  destruct (Lang.ContainsString _ _) eqn:F; cbn [negb] in R.
  - apply Lang.ContainsString_spec in F. apply runs_ret_inv in R as [-> ->]. by left.
  - apply Lang.ContainsString_false in F. right.
    apply runs_bind_inv in R as [(? & t2 & x & -> & R1 & R)|[R _]];
      [|by apply runs_call_inv in R as (? & _ & ?)].
    apply runs_call_inv in R1 as (x' & -> & [= <-]).
    destruct x as [e|q]; apply runs_ret_inv in R as [-> ->]; eexists _, _;
      (split; [done|]); (split; [done|]); (split; [done|]); [eauto|done].
Qed.

(** The instance with which the synchronisation starts: the fetched one, or the
    API server's answer to the update that added the finalizer. *)
Inductive protected (i : ReconcileIteration) : list obs -> CyndiPipeline -> Prop :=
| pt_present : cyndipipelineFinalizer ∈ Finalizers_of (Meta (Instance i)) ->
    protected i [] (Instance i)
| pt_added q :
    cyndipipelineFinalizer ∉ Finalizers_of (Meta (Instance i)) ->
    protected i [Obs (KUpdatePipeline (with_Finalizers (Instance i)
        (AddFinalizer (Finalizers_of (Meta (Instance i))) cyndipipelineFinalizer))) (inr q)] q.

Lemma reconcile_new_runs i cfg t r :
  config i = Some cfg -> runs (reconcile_new i) t r ->
  exists res, r = Some res /\
    ((exists e, wlog t = [Obs (KUpdatePipeline (with_Finalizers (Instance i)
          (AddFinalizer (Finalizers_of (Meta (Instance i))) cyndipipelineFinalizer))) (inl e)] /\
        res = failure e) \/
     exists fin q now table connector status,
       protected i fin q /\ wlog t = fin ++ table ++ connector ++ status /\
       Obs NowUnixNano now ∈ t /\
       let v := "1_" +s+ Strconv.FormatInt now in
       start_log (set_Instance (started q cfg v) i) cfg v t table connector status).
Proof.
  intros C R. unfold reconcile_new in R.
  apply runs_bind_inv in R as [(t1 & t2 & [i' err] & -> & R1 & R)|[R _]].
  2: { apply addFinalizer_runs in R as [(_ & _ & ?)|(? & [] & _ & _ & _ & E)]; naive_solver. }
  rewrite wlog_app. apply addFinalizer_runs in R1
    as [(F & -> & [= -> ->])|(p & [e|q] & -> & F & Ep & E)].
  - rewrite C in R. cbn [deref] in R.
    apply start_version_runs in R as (res & now & table & cs & ss & -> & W & Now & S); [|done].
    exists res. split; [done|]. right. eexists [], _, now, table, cs, ss.
    split; [by constructor|]. by rewrite W.
  - destruct E as (? & [= <- ->]). apply fail_with_runs in R as [W ->].
    exists (failure e). split; [done|]. left. exists e. by rewrite W, <- Ep.
  - injection E as -> ->. cbn [set_Instance config] in R. rewrite C in R. cbn [deref] in R.
    apply start_version_runs in R as (res & now & table & cs & ss & -> & W & Now & S); [|done].
    exists res. split; [done|]. right. subst p. eexists _, q, now, table, cs, ss.
    split; [by constructor|]. rewrite W. split; [done|]. split; [by right|].
    by apply (start_log_right _ _ _ [_]).
Qed.

End New.

End Reconcile.
