(* ===== verification/ReconcileProps.v ===== *)
(** * Properties of the pipeline controller's iterations

    When the view is switched, when the finalizer is removed and in which order
    a new version comes into being. *)

From Stdlib Require Import ZArith Lia String.
From S2P Require Import Prelude GoStd Float GoJson Lang K8sLib Api State Utils Config Effects.
From S2P Require Import Database Connect Iteration Validate Pipeline Validation Sim.
From S2P Require Import StatusUpdate Stale Deviation Reconcile.
Import Api State Config Database Connect Iteration Pipeline StatusUpdate Stale Deviation Reconcile.

Module ReconcileLemmas.

Lemma only_runs {A} P (p : prog A) t r : only P p -> runs p t r -> all_obs P t.
Proof. intros O R. exact (runs_wp _ _ _ _ R (only_wp _ _ O)). Qed.

Lemma all_obs_elem P t o : all_obs P t -> o ∈ t -> P _ (obs_eff o).
Proof. unfold all_obs. rewrite List.Forall_forall. intros A I. by apply A, list_elem_of_In. Qed.

(** Membership in a projection of a trace whose effects satisfy [P] *)
Lemma all_obs_execs P t q x : all_obs P t -> (q, x) ∈ execs t -> exists c, P _ (PgExec c q).
Proof.
  intros A (o & Io & E)%list_elem_of_omap. apply (all_obs_elem _ _ _ A) in Io as A'.
  destruct o as [X e y]. destruct e; try done. simpl in E. injection E as -> ->. by eexists.
Qed.

Lemma all_obs_status P t p x :
  all_obs P t -> (p, x) ∈ status_updates t -> P _ (KUpdateStatus p).
Proof.
  intros A (o & Io & E)%list_elem_of_omap. apply (all_obs_elem _ _ _ A) in Io as A'.
  destruct o as [X e y]. destruct e; try done. simpl in E. injection E as -> ->. exact A'.
Qed.

(** Projections that an effect predicate rules out *)
Lemma all_obs_none {A} (f : obs -> option A) (P : forall X, eff X -> Prop) t :
  (forall o, P _ (obs_eff o) -> f o = None) -> all_obs P t -> omap f t = [].
Proof.
  intros H F. unfold all_obs in F. induction F as [|o t Ho Ft IH]; [done|]. csimpl.
  by rewrite (H _ Ho).
Qed.

Section Finalize.
Context {L : Libs} {LOK : LibsOk L}.

(** Removing the finalizer: one update, of the resource without it *)
Lemma finalize_update i t res :
  runs (finalize i) t (Some res) ->
  exists x, wlog t = [Obs (KUpdatePipeline (with_Finalizers (Instance i)
                (RemoveFinalizer (Finalizers_of (Meta (Instance i))) cyndipipelineFinalizer))) x] /\
    res = match x with inl e => failure e | inr _ => (0%Z, None) end.
Proof.
  intros R. unfold finalize, removeFinalizer in R.
  apply runs_bind_inv in R as [(t1 & t2 & err & -> & R1 & R)|[_ ?]]; [|done].
  apply runs_bind_inv in R1 as [(t3 & t4 & x & -> & R3 & R1)|[_ ?]]; [|done].
  apply runs_call_inv in R3 as (x' & -> & [= <-]).
  exists x. rewrite !wlog_app.
  destruct x as [e|q]; apply runs_ret_inv in R1 as [-> [= ->]].
  - apply fail_with_runs in R as [W [= ->]]. by rewrite W.
  - by apply runs_ret_inv in R as [-> [= ->]].
Qed.

Lemma finalize_runs i t res :
  runs (finalize i) t (Some res) ->
  exists p x, wlog t = [Obs (KUpdatePipeline p) x] /\
    cyndipipelineFinalizer ∉ Finalizers_of (Meta p) /\
    res = match x with inl e => failure e | inr _ => (0%Z, None) end.
Proof.
  intros R. apply finalize_update in R as (x & W & E). eexists _, x. split; [exact W|].
  split; [|done]. simpl. rewrite elem_of_RemoveFinalizer. naive_solver.
Qed.

(** The cleanup of a run never touches the resource or its status. *)
Lemma cleanup_log i t r :
  runs (deleteStaleDependencies i) t r ->
  conn_creates t = [] /\ conn_updates t = [] /\ pipeline_updates t = [] /\ status_updates t = [].
Proof.
  intros R. pose proof (only_runs _ _ _ _ (deleteStaleDependencies_only i) R) as A.
  split_and!; (eapply all_obs_none; [|exact A]); intros [X e x]; by destruct e.
Qed.

(** *** Panics *)

Lemma healthier_safe i : config i <> None -> safe (updateViewIfHealthier i).
Proof.
  intros C. unfold updateViewIfHealthier. destruct (negb _); [done|].
  apply safe_bind; [auto with cyndi_prog|]. intros [e|[x|]]; [done| |].
  2: { apply safe_bind; [auto with cyndi_prog|done]. }
  destruct (String.eqb _ _); [done|].
  apply safe_bind; [auto with cyndi_prog|]. intros [db [e|]]; [done|].
  cbn [set_InventoryDb config]. destruct (config i) as [cfg|]; [|done]. cbn [deref].
  apply safe_bind; [auto with cyndi_prog|]. intros [e|h]; [done|].
  apply safe_bind; [auto with cyndi_prog|]. intros [e|a]; [done|].
  apply safe_bind; [auto with cyndi_prog|]. intros [e|l]; [done|].
  destruct (Z.ltb _ _); [done|]. apply safe_bind; [auto with cyndi_prog|done].
Qed.

Lemma healthier_config i :
  returns (fun r => config r.1 = config i) (updateViewIfHealthier i).
Proof.
  unfold updateViewIfHealthier. destruct (negb _); [done|].
  apply returns_bind. intros [e|[x|]]; [done| |].
  - destruct (String.eqb _ _); [done|]. apply returns_bind. intros [db [e|]]; [done|].
    destruct (config _) as [cfg|] eqn:C; [|done]. cbn [deref].
    apply returns_bind. intros [e|h]; [done|]. apply returns_bind. intros [e|a]; [done|].
    apply returns_bind. intros [e|l]; [done|]. destruct (Z.ltb _ _); [done|].
    by apply returns_bind.
  - by apply returns_bind.
Qed.

Lemma update_panic i t : runs (updateStatusAndRequeue i) t None -> config i = None.
Proof. intros R%updateStatusAndRequeue_runs. by inversion R. Qed.

Lemma SetConnectorState_safe name ns paused : safe (SetConnectorState name ns paused).
Proof.
  unfold SetConnectorState. apply safe_bind; [done|]. intros [e|c]; [done|].
  destruct (String.eqb _ _); [done|]. by destruct (SetNestedField _ _ _).
Qed.

Lemma reconcile_valid_panic i t : runs (reconcile_valid i) t None -> config i = None.
Proof.
  intros R. unfold reconcile_valid in R.
  apply runs_bind_inv in R as [(t1 & t2 & a & -> & _ & R)|[R _]].
  - destruct a as [e|[]].
    + by apply fail_with_runs in R as [_ ?].
    + apply runs_bind_inv in R as [(t3 & t4 & u & -> & _ & R)|[R _]];
        [by eapply update_panic|by apply runs_call_inv in R as (? & _ & ?)].
    + by eapply update_panic.
  - exfalso. apply safe_runs in R; [done|]. unfold recreateViewIfNeeded.
    destruct (negb _); [done|]. apply safe_bind; [auto with cyndi_prog|]. intros [e|x]; [done|].
    case_bool_decide; [done|]. apply safe_bind; [auto with cyndi_prog|]. by intros [|].
Qed.

Lemma probes_safe i m :
  safe (probeStateDeviationRefresh i m) /\ safe (probePipelineDidNotBecomeValid i).
Proof. split; simpl; done. Qed.

Lemma reconcile_invalid_panic i t : runs (reconcile_invalid i) t None -> config i = None.
Proof.
  intros R. unfold reconcile_invalid in R.
  assert (F : forall j t, config j = config i ->
    runs (res <- updateStatusAndRequeue j ;; Ret (j, res)) t None -> config i = None).
  { intros j t' <- R'. apply keep_runs in R' as ([res|] & R' & ?); [done|].
    by eapply update_panic. }
  case_bool_decide; [|by eapply F].
  destruct (getValidationConfig i) as [vc|] eqn:G; cbn [deref] in R.
  2: { unfold getValidationConfig in G. destruct (config i); [|done]. by destruct (Bool.eqb _ _). }
  destruct (Z.leb _ _); [|by eapply F].
  destruct (config i) as [cfg|] eqn:C; [|done]. exfalso.
  apply runs_bind_inv in R as [(t1 & t2 & j & -> & R1 & R)|[R _]].
  - assert (Cj : config j = config i).
    { case_bool_decide; [|by apply runs_ret_inv in R1 as [_ [= ->]]].
      apply runs_bind_inv in R1 as [(t3 & t4 & [k err] & -> & R3 & R4)|[_ ?]]; [|done].
      apply runs_ret_inv in R4 as [_ [= ->]]. exact (runs_returns _ _ _ _ (healthier_config i) R3). }
    apply runs_bind_inv in R as [(t3 & t4 & u & -> & _ & R)|[R _]].
    + apply F in R; [done|]. simpl. by rewrite Cj.
    + by apply safe_runs in R; [|exact (proj2 (probes_safe j EmptyString))].
  - case_bool_decide; [|by apply runs_ret_inv in R as [_ ?]].
    apply runs_bind_inv in R as [(t3 & t4 & [k err] & -> & _ & R)|[R _]];
      [by apply runs_ret_inv in R as [_ ?]|].
    apply safe_runs in R; [done|]. apply healthier_safe. by rewrite C.
Qed.

Lemma reconcile_running_panic i cfg t :
  config i = Some cfg -> runs (reconcile_running i) t None ->
  incomparable i t.
Proof.
  intros C R. unfold reconcile_running in R. cbn zeta in R.
  apply runs_bind_inv in R as [(t1 & t2 & a & -> & _ & R)|[R _]].
  2: { apply (checkForDeviation_runs _ _ _ _ C) in R. inversion R. by do 2 eexists. }
  exfalso. destruct a as [e|[m|]].
  - apply keep_runs in R as ([res|] & R & ?); [done|]. by apply fail_with_runs in R as [_ ?].
  - apply runs_bind_inv in R as [(t3 & t4 & u & -> & _ & R)|[R _]].
    + apply keep_runs in R as ([res|] & R & ?); [done|]. apply update_panic in R.
      simpl in R. congruence.
    + by apply safe_runs in R; [|exact (proj1 (probes_safe i m))].
  - apply runs_bind_inv in R as [(t3 & t4 & [e|] & -> & _ & R)|[R _]].
    + apply keep_runs in R as ([res|] & R & ?); [done|]. by apply fail_with_runs in R as [_ ?].
    + case_bool_decide.
      * apply keep_runs in R as ([res|] & R & ?); [done|]. apply reconcile_valid_panic in R.
        congruence.
      * apply reconcile_invalid_panic in R. congruence.
    + destruct (ConnectorsManaged _); [|by apply runs_ret_inv in R as [_ ?]].
      by apply safe_runs in R; [|apply SetConnectorState_safe].
Qed.

(** *** Which table is healthier *)

Lemma UpdateView_done db n t :
  runs (UpdateView db n) t (Some None) ->
  execs t = [(viewTemplate n, None); (grant_query, None)].
Proof.
  intros R. unfold UpdateView in R.
  apply runs_bind_inv in R as [(t1 & t2 & [e|] & -> & R1 & R)|[_ ?]]; [|idtac|done].
  { by apply runs_ret_inv in R as [_ ?]. }
  apply runs_bind_inv in R as [(t3 & t4 & [e|] & -> & R3 & R)|[_ ?]]; [|idtac|done].
  { by apply runs_ret_inv in R as [_ ?]. }
  apply runs_ret_inv in R as [-> _].
  apply Exec_runs in R1 as [(_ & _ & ?)|(c & [e|] & _ & -> & ?)]; [done..|].
  apply Exec_runs in R3 as [(_ & _ & ?)|(c' & [e|] & _ & -> & ?)]; [done..|]. done.
Qed.

Lemma reader_execs {A} (p : prog A) t r : only read_only p -> runs p t r -> execs t = [].
Proof. intros O R. apply (reader_wlog _ _ _ O) in R. by apply wlog_nil in R as (-> & _). Qed.

End Finalize.
End ReconcileLemmas.

Module ReconcileProps.
Import ReconcileLemmas.

Section Props.
Context {L : Libs} {LOK : LibsOk L}.

(** How the iteration of a pipeline being deleted goes *)
Definition removal (i : ReconcileIteration) (setup_error : option gerror) (t : list obs)
    (res : Result) : Prop :=
  exists t0 td t1 env t2 stale,
    t = t0 ++ td ++ t1 ++ [Obs (Getenv "EPHEMERAL") env] ++ t2 /\
    runs (deleteStaleDependencies i) td (Some stale) /\
    conn_creates t = [] /\ conn_updates t = [] /\ status_updates t = [] /\
    let clean := bool_decide (setup_error = None /\ stale = []) in
    pipeline_updates (t0 ++ td ++ t1) = [] /\
    if clean || is_ephemeral env
    then exists p x, pipeline_updates t2 = [(p, x)] /\
           cyndipipelineFinalizer ∉ Finalizers_of (Meta p) /\
           res = match x with inl e => failure e | inr _ => (0%Z, None) end
    else t2 = [] /\ exists e, head (option_list setup_error ++ stale) = Some e /\ res = failure e.

(** C10: A pipeline being deleted. The finalizer goes only after the cleanup,
    and only when neither the setup nor the cleanup left an error (so that
    everything is gone, see the completeness of the cleanup) or the environment
    is ephemeral; in that case it does go. Otherwise the first error is
    returned and the resource stays. Nothing is created on the way. *)
Theorem finalizer_removed_after_cleanup (i j : ReconcileIteration) (setup_error : option gerror)
    (t : list obs) (res : Result) :
  runs (reconcile_body i setup_error) t (Some (j, res)) ->
  GetState (Instance i) = STATE_REMOVED ->
  removal i setup_error t res.
Proof.
  intros R S. apply reconcile_body_runs in R
    as [(? & _)|(t0 & td & t1 & env & t2 & st & -> & W0 & W1 & Rd & Pr)]; [done|].
  exists t0, td, t1, env, t2, st. split; [done|]. split; [done|].
  destruct (wlog_nil _ W0) as (_ & _ & A1 & A2 & A3 & A4).
  destruct (wlog_nil _ W1) as (_ & _ & B1 & B2 & B3 & B4).
  destruct (cleanup_log _ _ _ Rd) as (D1 & D2 & D3 & D4).
  autorewrite with cyndi_trace. rewrite A1, A2, A3, A4, B1, B2, B3, B4, D1, D2, D3, D4. simpl.
  inversion Pr as [t' res' _ C F|e es E Ep|? ? ? _ N|? ? ? _ N]; subst; try congruence.
  - destruct (finalize_runs _ _ _ F) as (p & x & W & Hp & Hr).
    destruct (projections_wlog t2) as (_ & _ & P1 & P2 & P3 & P4).
    rewrite <- P1, <- P2, <- P3, <- P4, W. split_and!; [done..|].
    assert (O : bool_decide (setup_error = None /\ st = []) || is_ephemeral env = true).
    { destruct C as [C| ->]; [|by rewrite orb_true_r].
      rewrite bool_decide_eq_true_2; [done|]. by destruct setup_error. }
    rewrite O. exists p, x. split_and!; done.
  - split_and!; [done..|]. destruct Ep as [|Ep]; [done|]. rewrite Ep, orb_false_r.
    rewrite bool_decide_eq_false_2.
    + split; [done|]. exists e. by rewrite E.
    + intros [-> ->]. done.
Qed.

(** C9: The order in which a new version comes into being, and what a failure
    in between leaves behind. First the finalizer is on the resource: it was
    there, or the API server has accepted it. Then come the table (the
    configured script, rendered for its name), the connector and the status,
    each at most once and each only when the one before did not fail. The
    version is the time the clock returned. A status with it is only written
    when its table has been created or was reported to exist, and its
    connector, if managed, has been created, under the name and with the table
    the status records. *)
Theorem new_version_ordered (i : ReconcileIteration) (cfg : CyndiConfiguration) (t : list obs)
    (r : option Result) :
  config i = Some cfg -> runs (reconcile_new i) t r ->
  exists res, r = Some res /\
    ((exists p e, wlog t = [Obs (KUpdatePipeline p) (inl e)] /\ res = failure e) \/
     exists fin q now table connector status,
       wlog t = fin ++ table ++ connector ++ status /\
       protected i fin q /\ Obs NowUnixNano now ∈ t /\
       let v := "1_" +s+ Strconv.FormatInt now in
       let p := started q cfg v in
       (table = [] \/ exists c sql x, table = [Obs (PgExec c sql) x] /\
          table_script cfg (TableName_ (Status p)) sql /\
          (x <> None -> connector = [] /\ status = [])) /\
       (connector = [] \/ exists o x env, connector = [Obs (KCreateConnector o) x] /\
          Obs (Getenv "EPHEMERAL") env ∈ t /\
          created o (ConnectorName v (AppName (Spec p)))
            (connector_config (set_Instance p i) cfg) (Meta p) (is_ephemeral env) /\
          (x <> None -> status = [])) /\
       (status = [] \/ exists cur x, status = [Obs (KUpdateStatus (with_active cur p)) x] /\
          (table = [] ->
             answered t (CheckIfTableExists (AppDb i) (TableName_ (Status p))) (inr true)) /\
          (ConnectorsManaged p = true -> exists o, connector = [Obs (KCreateConnector o) None]))).
Proof.
  intros C R. destruct (reconcile_new_runs _ _ _ _ C R)
    as (res & -> & [F|(fin & q & now & table & cs & ss & Pt & W & Now & [T [Cn St] Ex])]);
    exists res; (split; [done|]); [left; by destruct F as (e & W & ->); eauto|right].
  exists fin, q, now, table, cs, ss. do 3 (split; [done|]).
  cbn zeta. split; [exact T|]. split.
  - destruct Cn as [->|(o & x & env & -> & _ & Cr & F & I)]; [by left|].
    right. by exists o, x, env.
  - destruct St as [->|(cur & x & -> & Cm)]; [by left|]. right. exists cur, x.
    split; [done|]. split; [|done]. intros E. by apply Ex.
Qed.

(** The body of an iteration whose configuration was parsed panics in two
    situations only: the database said that the view uses a table whose name is
    shorter than the prefix of table names, or the connector the API server
    returned has a configuration that cannot be compared. *)
Theorem panics_explained (i : ReconcileIteration) (cfg : CyndiConfiguration)
    (setup_error : option gerror) (t : list obs) :
  config i = Some cfg -> runs (reconcile_body i setup_error) t None ->
  (exists x, answered t (GetCurrentTable (AppDb i)) (inr (Some x)) /\
     TableNameToConnectorName x (AppName (Spec (Instance i))) = None) \/
  incomparable i t.
Proof.
  intros C R. apply reconcile_body_runs in R
    as [(_ & t0 & t1 & -> & _ & R)|(t0 & td & t1 & env & t2 & st & -> & _ & _ & _ & Pr)].
  - apply deleteStaleDependencies_runs in R
      as [(x & t' & _ & R & -> & _ & _ & T)|(? & ? & ? & ? & ? & _)]; [|done]. left.
    exists x. split; [|done]. exists t0, t', []. by rewrite app_nil_r.
  - right. inversion Pr as [| |ta tb r _ S _ Rn Et Er|ta tb r _ _ _ _ Rr]; subst.
    + destruct (reconcile_new_runs _ _ _ _ C Rn) as (res & -> & _). done.
    + apply (reconcile_running_panic _ _ _ C) in Rr.
      by repeat first [exact Rr | apply incomparable_right].
Qed.

(** C27: Giving up on a refresh picks the lesser evil. When the step succeeds
    for a managed pipeline, the view is left alone exactly when it already uses
    the pipeline's table or when the table it uses is strictly closer, in its
    number of hosts, to the inventory; otherwise it is switched. The numbers are
    those this step was told, in this order: the inventory, to which it has just
    connected, then the table the view uses, then the pipeline's. *)
Theorem healthier_table_wins (i j : ReconcileIteration) (t : list obs) :
  runs (updateViewIfHealthier i) t (Some (j, None)) ->
  ConnectorsManaged (Instance i) = true ->
  let wanted := TableName_ (Status (Instance i)) in
  let switched := [(viewTemplate wanted, None); (grant_query, None)] in
  exists t1 t' cur, t = t1 ++ t' /\ runs (GetCurrentTable (AppDb i)) t1 (Some (inr cur)) /\
    match cur with
    | None => execs t = switched
    | Some x =>
        if String.eqb x wanted then t' = [] /\ execs t = []
        else
          exists inv cfg tc t2 t3 t4 t5 hbi active latest,
            config i = Some cfg /\ t' = tc ++ t2 ++ t3 ++ t4 ++ t5 /\
            runs (Connect (NewBaseDatabase (HBIDBParams i))) tc (Some (inv, None)) /\
            runs (CountHosts inv (InventoryDbSchema cfg +s+ ".hosts")
                    (InsightsOnly (Spec (Instance i))) (AdditionalFilters (Spec (Instance i))))
              t2 (Some (inr hbi)) /\
            runs (CountHosts (AppDb i) (Utils.AppFullTableName x) false []) t3
              (Some (inr active)) /\
            runs (CountHosts (AppDb i) (Utils.AppFullTableName wanted) false []) t4
              (Some (inr latest)) /\
            execs t =
              if Z.ltb (Lang.Abs (Int64.sub hbi active)) (Lang.Abs (Int64.sub hbi latest))
              then [] else switched
    end.
Proof.
  intros R M wanted switched. unfold updateViewIfHealthier in R. rewrite M in R.
  cbn [negb] in R. cbn zeta in R. fold wanted in R.
  assert (U : forall k t, runs (err <- UpdateView (AppDb k) wanted ;; Ret (k, err)) t
                            (Some (j, None)) -> execs t = switched).
  { intros k t' R'. apply runs_bind_inv in R' as [(ta & tb & a & -> & Ra & Rb)|[_ ?]]; [|done].
    apply runs_ret_inv in Rb as [-> [= -> <-]]. rewrite app_nil_r. by eapply UpdateView_done. }
  apply runs_bind_inv in R as [(t1 & t' & [e|cur] & -> & R1 & R)|[_ ?]]; [|idtac|done].
  { by apply runs_ret_inv in R as [_ ?]. }
  exists t1, t', cur. split; [done|]. split; [done|].
  rewrite execs_app, (reader_execs _ _ _ (GetCurrentTable_read_only _) R1). simpl.
  destruct cur as [x|]; [|by eapply U].
  destruct (String.eqb x wanted); [by apply runs_ret_inv in R as [-> _]|].
  apply runs_bind_inv in R as [(t2 & t'' & [inv [e|]] & -> & R2 & R)|[_ ?]]; [|idtac|done].
  { by apply runs_ret_inv in R as [_ ?]. }
  rewrite execs_app, (reader_execs _ _ _ (Connect_read_only _) R2). simpl.
  cbn [set_InventoryDb config AppDb] in R.
  destruct (config i) as [cfg|]; cbn [deref] in R; [|by apply runs_panic_inv in R as [_ ?]].
  apply runs_bind_inv in R as [(t3 & t3' & [e|hbi] & -> & R3 & R)|[_ ?]]; [|idtac|done].
  { by apply runs_ret_inv in R as [_ ?]. }
  apply runs_bind_inv in R as [(t4 & t4' & [e|act] & -> & R4 & R)|[_ ?]]; [|idtac|done].
  { by apply runs_ret_inv in R as [_ ?]. }
  apply runs_bind_inv in R as [(t5 & t5' & [e|lat] & -> & R5 & R)|[_ ?]]; [|idtac|done].
  { by apply runs_ret_inv in R as [_ ?]. }
  rewrite !execs_app, (reader_execs _ _ _ (CountHosts_read_only _ _ _ _) R3),
    (reader_execs _ _ _ (CountHosts_read_only _ _ _ _) R4),
    (reader_execs _ _ _ (CountHosts_read_only _ _ _ _) R5). simpl.
  exists inv, cfg, t2, t3, t4, t5, t5', hbi, act, lat. split_and!; [done..|].
  destruct (Z.ltb _ _); [by apply runs_ret_inv in R as [-> _]|].
  by apply (U (set_InventoryDb inv i)).
Qed.

End Props.

(** *** Concrete runs *)

Existing Instances Sim.libs Sim.libs_ok.

(** Validated, but the view does not point to the table yet *)
Definition validated : Sim.World := Sim.validate (Sim.replicate (Sim.reconcile Sim.world0)).
Definition deleted : Sim.World := Sim.delete_resource Sim.world_refreshing.

Definition body (w : Sim.World) : prog (ReconcileIteration * Result) :=
  reconcile_body (Sim.iteration_of w) None.
Definition body_trace (w : Sim.World) : list obs := trace_of Sim.world_handler (body w) w.

Lemma body_runs w :
  runs (reconcile_body (Sim.iteration_of w) None) (body_trace w)
    (result_of Sim.world_handler (body w) w).
Proof. by apply runs_exec. Defined.

Lemma finalizer_removed_after_cleanup_witness :
  List.length (pipeline_updates (body_trace deleted)) = 1 /\
  exists res, removal (Sim.iteration_of deleted) None (body_trace deleted) res.
Proof.
  split; [vm_compute; reflexivity|].
  assert (E : exists j res, result_of Sim.world_handler (body deleted) deleted = Some (j, res))
    by (do 2 eexists; vm_compute; reflexivity).
  destruct E as (j & res & E). exists res. pose proof (body_runs deleted) as R. rewrite E in R.
  apply (finalizer_removed_after_cleanup _ _ _ _ _ R). vm_compute. reflexivity.
Defined.

Lemma new_version_ordered_witness :
  exists res, runs (reconcile_new (Sim.iteration_of Sim.world0))
    (trace_of Sim.world_handler (reconcile_new (Sim.iteration_of Sim.world0)) Sim.world0)
    (Some res) /\
  List.length (wlog (trace_of Sim.world_handler
                       (reconcile_new (Sim.iteration_of Sim.world0)) Sim.world0)) = 4.
Proof.
  set (i := Sim.iteration_of Sim.world0).
  assert (C : exists cfg, config i = Some cfg) by (eexists; vm_compute; reflexivity).
  destruct C as [cfg C].
  destruct (new_version_ordered i cfg _ _ C
    (runs_exec Sim.world_handler (reconcile_new i) Sim.world0 _ eq_refl)) as (res & E & _).
  exists res. split; [apply runs_exec; exact E|vm_compute; reflexivity].
Defined.

(** A view over a table with a foreign name *)
Definition odd_view : Sim.World := Sim.set_w_view (Some "hosts") Sim.world_valid.

Lemma panics_explained_witness :
  result_of Sim.world_handler (body odd_view) odd_view = None /\
  ((exists x, answered (trace_of Sim.world_handler (body odd_view) odd_view)
                (GetCurrentTable (AppDb (Sim.iteration_of odd_view))) (inr (Some x)) /\
      TableNameToConnectorName x (AppName (Spec (Instance (Sim.iteration_of odd_view)))) = None) \/
   incomparable (Sim.iteration_of odd_view)
     (trace_of Sim.world_handler (body odd_view) odd_view)).
Proof.
  assert (E : result_of Sim.world_handler (body odd_view) odd_view = None)
    by (vm_compute; reflexivity).
  split; [exact E|].
  assert (C : exists cfg, config (Sim.iteration_of odd_view) = Some cfg)
    by (eexists; vm_compute; reflexivity).
  destruct C as [cfg C]. pose proof (body_runs odd_view) as R. rewrite E in R.
  exact (panics_explained _ cfg None _ C R).
Defined.

(** The active table holds all hosts, the new one none. *)
Definition choose : prog (ReconcileIteration * option gerror) :=
  updateViewIfHealthier (Sim.iteration_of Sim.world_refreshing).

Lemma healthier_table_wins_witness :
  exists t j, runs choose t (Some (j, None)) /\ execs t = [] /\
    exists x, answered t (GetCurrentTable (AppDb (Sim.iteration_of Sim.world_refreshing)))
      (inr (Some x)).
Proof.
  assert (E : exists j, result_of Sim.world_handler choose Sim.world_refreshing = Some (j, None))
    by (eexists; vm_compute; reflexivity).
  destruct E as [j E]. pose proof (runs_exec _ _ _ _ E) as R.
  exists (trace_of Sim.world_handler choose Sim.world_refreshing), j.
  split; [exact R|]. split; [vm_compute; reflexivity|].
  assert (N : execs (trace_of Sim.world_handler choose Sim.world_refreshing) = [])
    by (vm_compute; reflexivity).
  destruct (healthier_table_wins (Sim.iteration_of Sim.world_refreshing) j _ R)
    as (t1 & t' & cur & Et & R1 & H); [vm_compute; reflexivity|].
  destruct cur as [x|]; [|rewrite N in H; discriminate].
  exists x. rewrite Et. by apply (answered_here []).
Defined.

End ReconcileProps.
