(* ===== verification/ValidationProps.v ===== *)
(** * Properties of the validation

    What a verdict says about the two databases, and what the validation
    controller may write. *)

From Stdlib Require Import ZArith Lia String SpecFloat.
From S2P Require Import Prelude GoStd Float GoJson Lang K8sLib Api State Utils Config Effects.
From S2P Require Import Database Connect Iteration Validate Pipeline Validation Sim.
From S2P Require Import StatusUpdate Stale Deviation Reconcile ReconcileProps.
Import Api State Config Database Connect Iteration StatusUpdate Deviation Reconcile
  ReconcileLemmas.

Module ValidationLemmas.
Import Validate Validation.

Lemma ValidationFinished_read_only p th ratio n b :
  only read_only (ValidationFinished p th ratio n b).
Proof. unfold ValidationFinished. simpl. by destruct b. Qed.

Lemma validate_read_only i schema : only read_only (validate i schema).
Proof.
  unfold validate. apply only_bind; [auto with cyndi_prog|]. intros [e|app]; [done|].
  destruct (InventoryDb i) as [inv|]; [|done]. cbn [deref].
  apply only_bind; [auto with cyndi_prog|]. intros [e|hbi]; [done|].
  apply only_bind; [done|]. intros _.
  destruct (Float64.ltb _ _).
  - destruct (percentage_threshold i); [|done]. cbn [deref].
    apply only_bind; [apply ValidationFinished_read_only|done].
  - apply only_bind; [auto with cyndi_prog|]. intros [e|hids]; [done|].
    apply only_bind; [auto with cyndi_prog|]. intros [e|aids]; [done|].
    destruct (percentage_threshold i); [|done]. cbn [deref].
    apply only_bind; [apply ValidationFinished_read_only|done].
Qed.

(** The questions of a validation *)
Definition app_count (i : ReconcileIteration) : prog (result Z) :=
  CountHosts (AppDb i) (Utils.AppFullTableName (TableName_ (Status (Instance i)))) false [].
Definition hbi_count (i : ReconcileIteration) (inv : BaseDatabase) (schema : string)
  : prog (result Z) :=
  CountHosts inv (schema +s+ ".hosts") (InsightsOnly (Spec (Instance i)))
    (AdditionalFilters (Spec (Instance i))).
Definition app_ids (i : ReconcileIteration) : prog (result (list string)) :=
  GetHostIds (AppDb i) (Utils.AppFullTableName (TableName_ (Status (Instance i)))) false [].
Definition hbi_ids (i : ReconcileIteration) (inv : BaseDatabase) (schema : string)
  : prog (result (list string)) :=
  GetHostIds inv (schema +s+ ".hosts") (InsightsOnly (Spec (Instance i)))
    (AdditionalFilters (Spec (Instance i))).

(** Hosts on one side only, counted with their multiplicities *)
Definition one_sided (a b : list string) : Z :=
  Z.of_nat (List.length (filter (fun k => k ∉ b) a) + List.length (filter (fun k => k ∉ a) b)).

Definition far_apart (hbi app : Z) : bool :=
  Float64.ltb countMismatchThreshold (ratio (Lang.Abs (Int64.sub hbi app)) hbi).

Definition within (mismatch total threshold : Z) : bool :=
  Float64.leb (Float64.mul (ratio mismatch total) Float64.hundred) (Float64.of_int threshold).

(** How a verdict comes about *)
Inductive judged (i : ReconcileIteration) (inv : BaseDatabase) (schema : string) (threshold : Z)
    (t : list obs) : verdict -> Prop :=
| j_counts app hbi :
    answered t (app_count i) (inr app) -> answered t (hbi_count i inv schema) (inr hbi) ->
    far_apart hbi app = true ->
    judged i inv schema threshold t
      {| isValid := false; mismatchRatio := ratio (Lang.Abs (Int64.sub hbi app)) hbi;
         mismatchCount := Lang.Abs (Int64.sub hbi app); hostCount := app |}
| j_ids app hbi hids aids :
    answered t (app_count i) (inr app) -> answered t (hbi_count i inv schema) (inr hbi) ->
    far_apart hbi app = false ->
    answered t (hbi_ids i inv schema) (inr hids) -> answered t (app_ids i) (inr aids) ->
    judged i inv schema threshold t
      {| isValid := within (one_sided hids aids) (Z.of_nat (List.length hids)) threshold;
         mismatchRatio := ratio (one_sided hids aids) (Z.of_nat (List.length hids));
         mismatchCount := one_sided hids aids; hostCount := app |}.

Lemma validate_runs i schema t v :
  runs (validate i schema) t (Some (inr v)) ->
  exists inv threshold, InventoryDb i = Some inv /\ percentage_threshold i = Some threshold /\
    judged i inv schema threshold t v.
Proof.
  intros R. unfold validate in R. cbn zeta in R.
  apply runs_bind_inv in R as [(ta & t1 & [e|app] & -> & Ra & R)|[_ ?]]; [|idtac|done].
  { by apply runs_ret_inv in R as [_ ?]. }
  destruct (InventoryDb i) as [inv|]; cbn [deref] in R; [|by apply runs_panic_inv in R as [_ ?]].
  apply runs_bind_inv in R as [(th & t2 & [e|hbi] & -> & Rh & R)|[_ ?]]; [|idtac|done].
  { by apply runs_ret_inv in R as [_ ?]. }
  apply runs_bind_inv in R as [(tm & t3 & u & -> & _ & R)|[_ ?]]; [|done].
  assert (Aa : forall t', answered (ta ++ th ++ tm ++ t') (app_count i) (inr app))
    by (intros; by eapply (answered_here [])).
  assert (Ah : forall t', answered (ta ++ th ++ tm ++ t') (hbi_count i inv schema) (inr hbi))
    by (intros; by apply answered_here).
  destruct (Float64.ltb _ _) eqn:F.
  - destruct (percentage_threshold i) as [thr|]; cbn [deref] in R;
      [|by apply runs_panic_inv in R as [_ ?]].
    apply runs_bind_inv in R as [(? & ? & ? & _ & _ & R)|[_ ?]]; [|done].
    apply runs_ret_inv in R as [_ [= ->]]. exists inv, thr. split_and!; [done..|]. by apply j_counts.
  - apply runs_bind_inv in R as [(t4 & t5 & [e|hids] & -> & R4 & R)|[_ ?]]; [|idtac|done].
    { by apply runs_ret_inv in R as [_ ?]. }
    apply runs_bind_inv in R as [(t6 & t7 & [e|aids] & -> & R6 & R)|[_ ?]]; [|idtac|done].
    { by apply runs_ret_inv in R as [_ ?]. }
    destruct (percentage_threshold i) as [thr|]; cbn [deref] in R;
      [|by apply runs_panic_inv in R as [_ ?]].
    apply runs_bind_inv in R as [(? & ? & ? & _ & _ & R)|[_ ?]]; [|done].
    apply runs_ret_inv in R as [_ [= ->]]. exists inv, thr. split_and!; [done..|].
    rewrite !Lang.Difference_filter. eapply j_ids; [done|done|done| |].
    + exists (ta ++ th ++ tm), t4. eexists. split; [by rewrite <- !app_assoc|exact R4].
    + exists (ta ++ th ++ tm ++ t4), t6. eexists. split; [by rewrite <- !app_assoc|exact R6].
Qed.

Lemma judged_within i inv schema threshold t0 t t' v :
  judged i inv schema threshold t v -> judged i inv schema threshold (t0 ++ t ++ t') v.
Proof. intros []; econstructor; try done; by apply answered_within. Qed.

Lemma one_sided_zero a b : one_sided a b = 0%Z <-> (forall k, k ∈ a <-> k ∈ b).
Proof.
  unfold one_sided. split.
  - intros E k.
    assert (E1 : filter (fun k => k ∉ b) a = []) by (apply nil_length_inv; lia).
    assert (E2 : filter (fun k => k ∉ a) b = []) by (apply nil_length_inv; lia).
    split; intros I; apply dec_stable; intros N.
    + assert (J : k ∈ filter (fun k => k ∉ b) a) by (by apply list_elem_of_filter).
      rewrite E1 in J. by apply elem_of_nil in J.
    + assert (J : k ∈ filter (fun k => k ∉ a) b) by (by apply list_elem_of_filter).
      rewrite E2 in J. by apply elem_of_nil in J.
  - intros E.
    assert (Em : forall l l' : list string, (forall k, k ∈ l -> k ∈ l') -> filter (fun k => k ∉ l') l = []).
    { intros l l' S. destruct (filter _ l) as [|x ?] eqn:F; [done|]. exfalso.
      assert (J : x ∈ filter (fun k => k ∉ l') l) by (rewrite F; by left).
      apply list_elem_of_filter in J as [N J]. auto. }
    rewrite !Em by (intros k; apply E). done.
Qed.

(** No mismatch is within every threshold that is not negative. *)
Lemma within_zero total threshold : (0 <= threshold)%Z -> within 0 total threshold = true.
Proof.
  intros H. unfold within, ratio.
  destruct (Float64.div_zero_max (Float64.of_int total)) as [s ->].
  destruct (Float64.mul_zero_hundred s) as [s' ->].
  by apply Float64.leb_zero, Float64.of_int_nonneg.
Qed.

End ValidationLemmas.

(** ** The validation controller and the state machine *)

Module Refinement.
Import Validate Validation State.

Section Refinement.
Context {L : Libs} {LOK : LibsOk L}.

(** What the state of a pipeline depends on *)
Record same_core (p q : CyndiPipeline) : Prop := {
  sc_deletion : DeletionTimestamp (Meta q) = DeletionTimestamp (Meta p);
  sc_version : PipelineVersion (Status q) = PipelineVersion (Status p);
  sc_sync : InitialSyncInProgress (Status q) = InitialSyncInProgress (Status p);
  sc_conditions : Conditions (Status q) = Conditions (Status p);
  sc_count : ValidationFailedCount (Status q) = ValidationFailedCount (Status p)
}.

Lemma same_core_valid p q : same_core p q -> GetValid q = GetValid p.
Proof. intros [_ _ _ E _]. unfold GetValid. by rewrite E. Qed.

Lemma same_core_state p q : same_core p q -> GetState q = GetState p.
Proof.
  intros S. pose proof (same_core_valid _ _ S) as V. destruct S as [D Ve Sy Co _].
  unfold GetState, IsValid. by rewrite D, Ve, Sy, Co, V.
Qed.

Lemma same_core_wf p q : same_core p q -> wf p -> wf q.
Proof.
  intros S [W1 W2 W3 W4]. pose proof (same_core_valid _ _ S) as V.
  destruct S as [D Ve Sy Co Cn]. split; rewrite ?Ve, ?Sy, ?V, ?Cn; auto.
Qed.

Lemma same_core_live p q : same_core p q -> live p -> live q.
Proof. intros []. unfold live. congruence. Qed.

Lemma same_core_active cur p : same_core p (with_active cur p).
Proof. by split. Qed.

(** A status operation followed by bookkeeping is a step of the diagram. *)
Lemma step_follows p q a cur :
  live p -> wf p -> same_core p q -> enabled q a ->
  wf (with_active cur (act a q)) /\ live (with_active cur (act a q)) /\
  diagram (GetState p) a (GetState (with_active cur (act a q))).
Proof.
  intros Lv W S E.
  pose proof (same_core_live _ _ S Lv) as Lq. pose proof (same_core_wf _ _ S W) as Wq.
  pose proof (act_wf q a Lq Wq E) as [Wa La].
  pose proof (same_core_active cur (act a q)) as Sa.
  split_and!; [by eapply same_core_wf|by eapply same_core_live|].
  rewrite (same_core_state _ _ Sa), <- (same_core_state _ _ S). by apply act_step.
Qed.

(** *** The writes of the validation controller *)

Definition validation_effect (i : ReconcileIteration) (X : Type) (e : eff X) : Prop :=
  match e with
  | KUpdateStatus p =>
      exists cur a, p = with_active cur (act a (Instance i)) /\
        (a = Refreshed \/ exists ok r m h, a = Validated ok r m h)
  | KUpdatePipeline _ | KCreateConnector _ | KUpdateConnector _ | KDeleteConnector _ _
  | PgExec _ _ => False
  | _ => True
  end.

Lemma record_verdict_only i v : only (validation_effect i) (record_verdict i v).
Proof.
  unfold record_verdict. destruct (isValid v).
  - apply only_bind; [|done]. case_bool_decide; [|done]. by split.
  - by split.
Qed.

Lemma record_verdict_returns i v :
  returns (fun j => exists ok r m h, Instance j = act (Validated ok r m h) (Instance i))
    (record_verdict i v).
Proof.
  unfold record_verdict. destruct (isValid v).
  - apply returns_bind. intros u. simpl. by exists true, "ValidationSucceeded",
      ("Validation succeeded - " +s+ mismatch_message v), (hostCount v).
  - intros u. simpl. by exists false, "ValidationFailed",
      ("Validation failed - " +s+ mismatch_message v), (hostCount v).
Qed.

Lemma validation_body_only check i : only (validation_effect i) (Validation.reconcile_body check i).
Proof.
  assert (RO : allows_reads (validation_effect i)) by (intros X e W; by destruct e).
  unfold Validation.reconcile_body. destruct (_ || _); [done|].
  assert (V : only (validation_effect i) (run_validation i)).
  { unfold run_validation. destruct (config i) as [cfg|]; [|done]. cbn [deref].
    apply only_bind; [by apply only_reads, ValidationLemmas.validate_read_only|].
    intros [e|v]; [by apply only_fail_with|].
    apply only_bind_post; [apply record_verdict_only|]. intros t j R.
    destruct (runs_returns _ _ _ _ (record_verdict_returns i v) R) as (ok & r & m & h & E).
    apply only_status; [done|]. intros cur. exists cur, (Validated ok r m h).
    rewrite E. eauto 10. }
  destruct check; [|done].
  apply only_bind; [apply only_reads; [done|apply checkForDeviation_read_only]|].
  intros [e|[m|]]; [by apply only_fail_with| |exact V].
  apply only_bind; [by apply only_probe_deviation|]. intros _.
  apply only_status; [done|]. intros cur. exists cur, Refreshed. auto.
Qed.

(** The action that records a verdict *)
Definition recorded (v : verdict) : action :=
  if isValid v
  then Validated true "ValidationSucceeded" ("Validation succeeded - " +s+ mismatch_message v)
         (hostCount v)
  else Validated false "ValidationFailed" ("Validation failed - " +s+ mismatch_message v)
         (hostCount v).

Lemma record_verdict_runs i v t j :
  runs (record_verdict i v) t j ->
  status_updates t = [] /\ j = Some (on_instance (act (recorded v)) i).
Proof.
  intros R. unfold record_verdict in R. unfold recorded.
  destruct (isValid v); [case_bool_decide|]; simpl in R; by inversion_runs R.
Qed.

(** The status written with the verdict *)
Definition verdict_sent (i : ReconcileIteration) (t : list obs) : Prop :=
  exists cfg v cur x, config i = Some cfg /\
    answered t (validate i (InventoryDbSchema cfg)) (inr v) /\
    answered t (GetCurrentTable (AppDb i)) (inr cur) /\
    status_updates t = [(with_active cur (act (recorded v) (Instance i)), x)].

Lemma run_validation_status i t r :
  runs (run_validation i) t r -> status_updates t = [] \/ verdict_sent i t.
Proof.
  intros R. unfold run_validation in R.
  destruct (config i) as [cfg|] eqn:C; [|apply runs_panic_inv in R as [-> _]; by left].
  cbn [deref] in R. pose proof (ValidationLemmas.validate_read_only i (InventoryDbSchema cfg)) as O.
  apply runs_bind_inv in R as [(t1 & t2 & [e|v] & -> & R1 & R)|[R _]].
  - left. apply fail_with_runs in R as [W _].
    by rewrite status_updates_app, (reader_status _ _ _ O R1), (status_wlog t2), W.
  - apply runs_bind_inv in R as [(t3 & t4 & j & -> & R3 & R)|[R _]].
    2: { left. apply record_verdict_runs in R as [_ ?]. done. }
    apply record_verdict_runs in R3 as [S3 [= ->]].
    apply updateStatusAndRequeue_status in R as [S4|(cur & x & A & S4)]; [| |by simpl; congruence].
    + left. by rewrite !status_updates_app, (reader_status _ _ _ O R1), S3, S4.
    + right. exists cfg, v, cur, x. split_and!; [done|by apply (answered_here [])| |].
      * rewrite app_assoc, <- (app_nil_r t4). by apply answered_within.
      * by rewrite !status_updates_app, (reader_status _ _ _ O R1), S3, S4.
  - left. exact (reader_status _ _ _ O R).
Qed.

(** The status written because of a deviation *)
Definition refresh_sent (i : ReconcileIteration) (t : list obs) : Prop :=
  exists problem cur x,
    answered t (Pipeline.checkForDeviation i) (inr (Some problem)) /\
    answered t (GetCurrentTable (AppDb i)) (inr cur) /\
    status_updates t = [(with_active cur (act Refreshed (Instance i)), x)].

Lemma validation_body_status check i t r :
  runs (Validation.reconcile_body check i) t r ->
  status_updates t = [] \/ verdict_sent i t \/ check = true /\ refresh_sent i t.
Proof.
  intros R. unfold Validation.reconcile_body in R.
  destruct (_ || _); [apply runs_ret_inv in R as [-> _]; by left|].
  destruct check; [|apply run_validation_status in R; tauto].
  pose proof (checkForDeviation_read_only i) as O.
  apply runs_bind_inv in R as [(t1 & t2 & [e|[m|]] & -> & R1 & R)|[R _]].
  - left. apply fail_with_runs in R as [W _].
    by rewrite status_updates_app, (reader_status _ _ _ O R1), (status_wlog t2), W.
  - apply runs_bind_inv in R as [(t3 & t4 & u & -> & R3 & R)|[R _]];
      [|left; by inversion_runs R].
    assert (S3 : status_updates t3 = []) by (by inversion_runs R3).
    apply updateStatusAndRequeue_status in R as [S4|(cur & x & A & S4)].
    + left. by rewrite !status_updates_app, (reader_status _ _ _ O R1), S3, S4.
    + right. right. split; [done|]. exists m, cur, x. split_and!.
      * by apply (answered_here []).
      * rewrite app_assoc, <- (app_nil_r t4). by apply answered_within.
      * by rewrite !status_updates_app, (reader_status _ _ _ O R1), S3, S4.
    + simpl. intros N. unfold Pipeline.checkForDeviation in R1. rewrite N in R1.
      by apply runs_panic_inv in R1 as [_ ?].
  - apply run_validation_status in R as [S|(cfg & v & cur & x & C & A & B & S)].
    + left. by rewrite status_updates_app, (reader_status _ _ _ O R1), S.
    + right. left. exists cfg, v, cur, x. rewrite <- (app_nil_r t2).
      split_and!; [done|by apply answered_within..|].
      by rewrite !status_updates_app, (reader_status _ _ _ O R1), S.
  - left. exact (reader_status _ _ _ O R).
Qed.

(** *** The writes of the pipeline controller *)

(** The API server keeps the stored status when the resource is updated. *)
Definition server_keeps_status (t : list obs) : Prop :=
  forall p q, (p, inr q) ∈ pipeline_updates t -> same_core p q.

Lemma started_act q cfg v :
  started q cfg v =
  act (SyncStarted v) (upd (set_SpecHash (cfgSpecHash cfg))
                         (upd (set_CyndiConfigVersion (ConfigMapVersion cfg)) q)).
Proof. done. Qed.

Lemma protected_core i fin q :
  protected i fin q -> (forall p q', (p, inr q') ∈ pipeline_updates fin -> same_core p q') ->
  same_core (Instance i) q.
Proof.
  intros [|q' N] K; [by split|].
  destruct (K (with_Finalizers (Instance i)
    (AddFinalizer (Finalizers_of (Meta (Instance i))) Pipeline.cyndipipelineFinalizer)) q');
    [left|by split].
Qed.

(** The status updates of a start *)
Lemma new_status_updates i cfg t r p x :
  config i = Some cfg -> runs (Pipeline.reconcile_new i) t r -> (p, x) ∈ status_updates t ->
  exists q now cur, (server_keeps_status t -> same_core (Instance i) q) /\
    p = with_active cur (started q cfg ("1_" +s+ Strconv.FormatInt now)).
Proof.
  intros C R I. destruct (reconcile_new_runs _ _ _ _ C R)
    as (res & -> & [(? & W & _)|(fin & q & now & table & cs & ss & Pt & W & _ & [T [Cn St] _])]).
  { rewrite status_wlog, W in I. by apply elem_of_nil in I. }
  rewrite status_wlog, W in I. rewrite !status_updates_app in I.
  assert (F : status_updates fin = []) by (destruct Pt; done).
  assert (Ft : status_updates table = [])
    by (destruct T as [->|(? & ? & ? & -> & _)]; done).
  assert (Fc : status_updates cs = [])
    by (destruct Cn as [->|(? & ? & ? & -> & _)]; done).
  rewrite F, Ft, Fc in I. simpl in I.
  destruct St as [->|(cur & y & -> & _)]; [by apply elem_of_nil in I|].
  apply list_elem_of_singleton in I as [= -> ->].
  exists q, now, cur. split; [|done]. intros K.
  eapply protected_core; [exact Pt|]. intros p' q' I. apply K.
  rewrite pipeline_wlog, W, pipeline_updates_app. set_solver.
Qed.

(** *** Where a written status comes from *)

Inductive status_source (i : ReconcileIteration) (kept : Prop) : CyndiPipeline -> Prop :=
| ss_started q v cur :
    GetState (Instance i) = STATE_NEW -> v <> EmptyString -> (kept -> same_core (Instance i) q) ->
    status_source i kept (with_active cur (act (SyncStarted v) q))
| ss_kept cur : GetState (Instance i) <> STATE_NEW -> status_source i kept (with_active cur (Instance i))
| ss_acted a cur :
    GetState (Instance i) <> STATE_NEW -> (a = Refreshed \/ exists ok r m h, a = Validated ok r m h) ->
    status_source i kept (with_active cur (act a (Instance i))).

Lemma pipeline_status_source i cfg serr t r p x :
  config i = Some cfg -> live (Instance i) -> runs (Pipeline.reconcile_body i serr) t r ->
  (p, x) ∈ status_updates t -> status_source i (server_keeps_status t) p.
Proof.
  intros C Lv R I. apply reconcile_body_runs in R
    as [(_ & t0 & t1 & -> & W0 & R)|(t0 & td & t1 & env & t2 & st & -> & W0 & W1 & Rd & Pr)].
  { rewrite status_updates_app, (status_wlog t0), W0 in I.
    apply cleanup_log in R as (_ & _ & _ & E). rewrite E in I. by apply elem_of_nil in I. }
  apply cleanup_log in Rd as (_ & _ & _ & Ed).
  rewrite !status_updates_app, (status_wlog t0), (status_wlog t1), W0, W1, Ed in I. simpl in I.
  inversion Pr as [t' res S _ _| |ta tb r' _ S Wa Rn|ta tb r' _ _ S Wa Rr]; subst.
  - apply GetState_removed in S. done.
  - by apply elem_of_nil in I.
  - rewrite status_updates_app, (status_wlog ta), Wa in I. simpl in I.
    destruct (new_status_updates _ _ _ _ _ _ C Rn I) as (q & now & cur & Sq & ->).
    rewrite started_act. apply ss_started; [done|done|].
    intros K. destruct Sq as [S1 S2 S3 S4 S5]; [|by split].
    intros p' q' Iq. apply K. rewrite !pipeline_updates_app. set_solver.
  - rewrite status_updates_app, (status_wlog ta), Wa in I. simpl in I.
    pose proof (only_runs _ _ _ _ (reconcile_running_only i) Rr) as A.
    destruct (all_obs_status _ _ _ _ A I) as [cur [-> | ->]]; [by apply ss_kept|].
    apply (ss_acted _ _ Refreshed); auto.
Qed.

Lemma validation_status_source i K check t r p x :
  runs (Validation.reconcile_body check i) t r -> (p, x) ∈ status_updates t -> status_source i K p.
Proof.
  intros R I. destruct (decide (GetState (Instance i) = STATE_NEW)) as [N|N].
  { unfold Validation.reconcile_body in R. rewrite N in R. simpl in R.
    apply runs_ret_inv in R as [-> _]. by apply elem_of_nil in I. }
  pose proof (only_runs _ _ _ _ (validation_body_only check i) R) as A.
  destruct (all_obs_status _ _ _ _ A I) as (cur & a & -> & Ha). by apply ss_acted.
Qed.

End Refinement.
End Refinement.

(** ** Properties *)

Module ValidationProps.
Import Validate Validation State ValidationLemmas Refinement.

Section Props.
Context {L : Libs} {LOK : LibsOk L}.

(** C12: Tables with the same hosts pass: with a threshold that is not
    negative, a verdict is only negative when it counts a mismatch; and when
    the identifiers were compared, no mismatch means the same set of hosts. *)
Theorem same_hosts_pass (i : ReconcileIteration) (schema : string) (t : list obs) (v : verdict)
    (threshold : Z) :
  runs (validate i schema) t (Some (inr v)) ->
  percentage_threshold i = Some threshold -> (0 <= threshold)%Z ->
  (isValid v = false -> mismatchCount v <> 0%Z) /\
  (mismatchCount v = 0%Z -> isValid v = true /\
     exists inv hids aids, InventoryDb i = Some inv /\
       answered t (hbi_ids i inv schema) (inr hids) /\ answered t (app_ids i) (inr aids) /\
       forall k, k ∈ hids <-> k ∈ aids).
Proof.
  intros R Th Pos. apply validate_runs in R as (inv & thr & Inv & Th' & J).
  assert (thr = threshold) as -> by congruence.
  assert (K : mismatchCount v = 0%Z -> isValid v = true /\
     exists inv hids aids, InventoryDb i = Some inv /\
       answered t (hbi_ids i inv schema) (inr hids) /\ answered t (app_ids i) (inr aids) /\
       forall k, k ∈ hids <-> k ∈ aids).
  { destruct J as [app hbi _ _ F|app hbi hids aids _ _ _ Ah Aa]; simpl; intros E.
    - exfalso. unfold far_apart in F. rewrite E in F. unfold ratio in F.
      destruct (Float64.div_zero_max (Float64.of_int hbi)) as [[] Z]; by rewrite Z in F.
    - split; [rewrite E; by apply within_zero|]. exists inv, hids, aids.
      split_and!; [done..|]. by apply one_sided_zero. }
  split; [|exact K]. intros N E. destruct (K E) as [V _]. congruence.
Qed.

(** At the threshold itself the rounding decides: with 100 hosts, 7
    mismatches are not within 7 percent (0.07 * 100 rounds to a number above
    7), although 5 are within 5 percent and 6 within 6. *)
Theorem threshold_rounding :
  within 7 100 7 = false /\ within 5 100 5 = true /\ within 6 100 6 = true /\
  within 14 100 14 = false.
Proof. vm_compute. done. Qed.

(** C1: Both controllers refine the state diagram. From a well-formed pipeline
    that is not being deleted, every status either of them writes is
    well-formed, and its state is the old one or one step of the diagram away.
    The API server is assumed to keep the status when the finalizer is added. *)
Theorem controllers_follow_diagram (i : ReconcileIteration) (cfg : CyndiConfiguration)
    (t : list obs) (p : CyndiPipeline) (x : result CyndiPipeline) :
  config i = Some cfg -> live (Instance i) -> wf (Instance i) ->
  (exists serr r, runs (Pipeline.reconcile_body i serr) t r) /\ server_keeps_status t \/
  (exists check r, runs (Validation.reconcile_body check i) t r) ->
  (p, x) ∈ status_updates t ->
  wf p /\ live p /\
  (GetState p = GetState (Instance i) \/
   exists a, diagram (GetState (Instance i)) a (GetState p)).
Proof.
  intros C Lv W R I.
  assert (S : status_source i True p).
  { destruct R as [[(serr & r & R) K]|(check & r & R)]; [|by eapply validation_status_source].
    destruct (pipeline_status_source _ _ _ _ _ _ _ C Lv R I); econstructor; eauto. }
  destruct S as [q v cur N Nv Sq|cur N|a cur N Ha].
  - specialize (Sq Logic.I). destruct (step_follows (Instance i) q (SyncStarted v) cur Lv W Sq) as (? & ? & ?);
      [|eauto]. split; [|done]. by rewrite (same_core_state _ _ Sq).
  - pose proof (same_core_active cur (Instance i)) as Sa.
    split_and!; [by eapply same_core_wf|by eapply same_core_live|left]. by apply same_core_state.
  - destruct (step_follows (Instance i) (Instance i) a cur Lv W) as (? & ? & ?);
      [by split| |eauto]. by destruct Ha as [-> |(ok & rs & m & h & ->)].
Qed.

(** Which updates start a validation: those that change the definition,
    and those that start an initial synchronisation. An update that only
    changes other parts of the status (recording a validation, say) does not. *)
Theorem UpdateFunc_spec (og ng : Z) (o n : CyndiPipeline) :
  UpdateFunc og ng (Some o) (Some n) = true <->
  og <> ng \/
  (InitialSyncInProgress (Status o) = false /\ InitialSyncInProgress (Status n) = true).
Proof.
  unfold UpdateFunc. destruct (Z.eqb_spec og ng) as [E|N]; cbn [negb]; [|naive_solver].
  destruct (InitialSyncInProgress (Status o)), (InitialSyncInProgress (Status n)); simpl;
    naive_solver.
Qed.

(** A change of a config map asks for reconciliations only if the map has
    the operator's name. It then asks for one per pipeline of the whole
    cluster, but always in the namespace of the config map: pipelines of other
    namespaces are named in the wrong one, and a change of the global map
    reaches no pipeline outside its own namespace. *)
Theorem config_map_requests (ns name : string) (pipelines : list CyndiPipeline) :
  (name <> configMapName -> runs (Pipeline.map_config_map ns name) [] (Some [])) /\
  (name = configMapName ->
     runs (Pipeline.map_config_map ns name) [Obs KListPipelines (inr pipelines)]
       (Some ((fun p => (ns, Name (Meta p))) <$> pipelines)) /\
     forall p, p ∈ pipelines -> Namespace (Meta p) <> ns ->
       (Namespace (Meta p), Name (Meta p)) ∉ ((fun p => (ns, Name (Meta p))) <$> pipelines)).
Proof.
  unfold Pipeline.map_config_map. split.
  - intros N. rewrite (proj2 (String.eqb_neq _ _) N). apply runs_ret.
  - intros ->. split.
    + simpl. apply runs_call. apply runs_ret.
    + intros p _ N (p' & E & _)%list_elem_of_fmap. congruence.
Qed.

End Props.

(** *** Concrete runs *)

Existing Instances Sim.libs Sim.libs_ok.

Definition viteration (w : Sim.World) : ReconcileIteration :=
  match result_of Sim.world_handler (Validation.setup "test" "test-pipeline-01") w with
  | Some (Some i, _) => i
  | _ => Sim.iteration_of w
  end.

(** The tables hold the same hosts. *)
Definition synced : Sim.World := Sim.replicate (Sim.reconcile Sim.world0).
Definition vi : ReconcileIteration := viteration synced.
Definition vtrace : list obs := trace_of Sim.world_handler (validate vi "public") synced.

Definition good : verdict :=
  {| isValid := true; mismatchRatio := S754_zero false; mismatchCount := 0; hostCount := 3 |}.

Lemma vruns : runs (validate vi "public") vtrace (Some (inr good)).
Proof. apply runs_exec. vm_compute. reflexivity. Defined.

Lemma same_hosts_pass_witness :
  percentage_threshold vi = Some 5%Z /\
  exists inv hids aids, InventoryDb vi = Some inv /\
    answered vtrace (hbi_ids vi inv "public") (inr hids) /\ answered vtrace (app_ids vi) (inr aids) /\
    forall k, k ∈ hids <-> k ∈ aids.
Proof.
  assert (T : percentage_threshold vi = Some 5%Z) by (vm_compute; reflexivity).
  split; [exact T|].
  destruct (same_hosts_pass vi "public" vtrace good 5 vruns T) as [_ H]; [lia|].
  apply H. reflexivity.
Defined.

Definition vbody : prog Result := Validation.reconcile_body true vi.

Lemma vbody_runs :
  runs (Validation.reconcile_body true vi) (trace_of Sim.world_handler vbody synced)
    (result_of Sim.world_handler vbody synced).
Proof. by apply runs_exec. Defined.

(** The status it writes *)
Definition written : CyndiPipeline * result CyndiPipeline :=
  default (Sample.new_pipeline, inl Sim.not_found)
    (head (status_updates (trace_of Sim.world_handler vbody synced))).

Lemma head_elem {A} (l : list A) x : head l = Some x -> x ∈ l.
Proof. destruct l; [done|]. intros [= ->]. left. Qed.

Lemma written_in : (written.1, written.2) ∈ status_updates (trace_of Sim.world_handler vbody synced).
Proof. apply head_elem. vm_compute. reflexivity. Qed.

Lemma syncing_wf (p : CyndiPipeline) (v : string) :
  PipelineVersion (Status p) = v -> v <> EmptyString -> InitialSyncInProgress (Status p) = true ->
  GetValid p = ConditionUnknown -> ValidationFailedCount (Status p) = 0%Z -> wf p.
Proof. intros <- V S G C. split; intros; congruence. Qed.

Lemma controllers_follow_diagram_witness :
  GetState written.1 = STATE_VALID /\ wf written.1.
Proof.
  assert (C : exists cfg, config vi = Some cfg) by (eexists; vm_compute; reflexivity).
  destruct C as [cfg C].
  assert (Lv : live (Instance vi)) by (vm_compute; reflexivity).
  assert (E1 : PipelineVersion (Status (Instance vi)) = "1_1") by (vm_compute; reflexivity).
  assert (E2 : InitialSyncInProgress (Status (Instance vi)) = true) by (vm_compute; reflexivity).
  assert (E3 : GetValid (Instance vi) = ConditionUnknown) by (vm_compute; reflexivity).
  assert (E4 : ValidationFailedCount (Status (Instance vi)) = 0%Z) by (vm_compute; reflexivity).
  assert (W : wf (Instance vi)) by (apply (syncing_wf _ "1_1" E1); [discriminate|assumption..]).
  split; [vm_compute; reflexivity|].
  pose proof (controllers_follow_diagram vi cfg (trace_of Sim.world_handler vbody synced)
    written.1 written.2 C Lv W) as H.
  destruct H as [H _]; [right; exists true; eexists; exact vbody_runs|exact written_in|].
  exact H.
Defined.

Definition other_pipeline : CyndiPipeline :=
  {| Meta := {| Name := "p"; Namespace := "other"; UID := "u"; ResourceVersion := "1";
                Generation := 1; DeletionTimestamp := None; Finalizers_of := [] |};
     Spec := Sample.spec; Status := Sample.zero_status |}.

Lemma config_map_requests_witness :
  (Namespace (Meta other_pipeline), Name (Meta other_pipeline)) ∉
    ((fun p => ("test", Name (Meta p))) <$> [other_pipeline]).
Proof.
  apply (proj2 (proj2 (config_map_requests "test" "cyndi" [other_pipeline]) eq_refl)
           other_pipeline); [left|discriminate].
Defined.

Lemma UpdateFunc_spec_witness :
  UpdateFunc 1 2 (Some Sample.new_pipeline) (Some Sample.new_pipeline) = true.
Proof.
  apply (proj2 (UpdateFunc_spec 1 2 Sample.new_pipeline Sample.new_pipeline)). left. discriminate.
Defined.

End ValidationProps.
