(* ===== verification/Accuracy.v ===== *)
(** * How accurate a verdict is

    The verdict of a validation (controllers/validate.go) compares float64
    proportions. With the error bounds of Rounding.v the comparisons are related
    to the integers they are about: the first one, of the two counts, is exact;
    the second one, of the mismatch with the threshold, is off by a relative
    2^-51 at most, and therefore exact unless the mismatch is the threshold to
    the last host. *)

From Stdlib Require Import ZArith Lia String SpecFloat.
From S2P Require Import Prelude GoStd Float Rounding GoJson Lang K8sLib Api State Utils Config Effects.
From S2P Require Import Database Connect Iteration Validate Pipeline Validation Sim ValidationProps.
Import Api State Config Iteration Validate ValidationLemmas Rounding.

Module Accuracy.
Local Open Scope Z_scope.

Lemma of_int_val z m e : float (Float64.of_int z) m e -> m * ulp e = z * ulp 0 ->
  val (Float64.of_int z) = z * ulp 0.
Proof. intros F <-. by apply val_float. Qed.

Lemma ltb_val x y m e m' e' : float x m e -> float y m' e' -> Float64.ltb x y = (val x <? val y).
Proof. intros Fx Fy. unfold Float64.ltb, SFltb. rewrite (compare_float _ _ _ _ _ _ Fx Fy). by destruct (_ ?= _) eqn:E; unfold Z.ltb; rewrite E. Qed.

Lemma leb_val x y m e m' e' : float x m e -> float y m' e' -> Float64.leb x y = (val x <=? val y).
Proof. intros Fx Fy. unfold Float64.leb, SFleb. rewrite (compare_float _ _ _ _ _ _ Fx Fy). by destruct (_ ?= _) eqn:E; unfold Z.leb; rewrite E. Qed.

(** Comparison with an integer *)
Lemma leb_int x m e p : float x m e -> 0 <= p < 2 ^ 53 ->
  Float64.leb x (Float64.of_int p) = (val x <=? p * ulp 0).
Proof.
  intros F B. destruct (Z.eq_dec p 0) as [->|].
  - rewrite (val_float _ _ _ F). destruct F as (-> & Bm & Be). symmetry. apply Z.leb_gt.
    pose proof (ulp_pos e ltac:(lia)). nia.
  - destruct (of_int_float p) as (mp & ep & Fp & _ & Vp); [lia|].
    by rewrite (leb_val _ _ _ _ _ _ F Fp), (of_int_val _ _ _ Fp Vp).
Qed.

(** math.Max(float64(n), 1) *)
Lemma max_one n : 0 <= n < 2 ^ 53 ->
  Float64.max (Float64.of_int n) Float64.one = Float64.of_int (Z.max n 1).
Proof.
  intros B. destruct (Z.le_gt_cases n 1).
  - assert (n = 0 \/ n = 1) as [-> | ->] by lia; by vm_compute.
  - destruct (of_int_float n) as (m & e & F & _ & V); [lia|].
    destruct (of_int_float 1) as (m' & e' & F' & _ & V'); [lia|].
    unfold Float64.max, Float64.one. rewrite (ltb_val _ _ _ _ _ _ F' F).
    rewrite (of_int_val _ _ _ F V), (of_int_val _ _ _ F' V').
    pose proof (ulp_pos 0 ltac:(lia)). destruct (Z.ltb_spec (1 * ulp 0) (n * ulp 0)); [f_equal; lia|nia].
Qed.

(** The proportion of a mismatch *)
Lemma ratio_near m n (N := Z.max n 1) : 0 < m < 2 ^ 53 -> 0 <= n < 2 ^ 53 ->
  exists M E, float (ratio m n) M E /\ -110 <= E <= 10 /\
    Z.abs (2 * (val (ratio m n) * N - m * ulp 0)) <= ulp E * N.
Proof.
  intros Bm Bn. unfold ratio. rewrite max_one by done. fold N.
  destruct (of_int_float m) as (m1 & e1 & F1 & E1 & V1); [lia|].
  destruct (of_int_float N) as (m2 & e2 & F2 & E2 & V2); [lia|].
  destruct (div_near _ _ _ _ _ _ F1 F2) as (M & E & F & Be & H); [lia..|].
  exists M, E. split; [done|]. split; [lia|].
  rewrite (of_int_val _ _ _ F1 V1), (of_int_val _ _ _ F2 V2) in H.
  pose proof (ulp_pos 0 ltac:(lia)). set (v := val _) in *.
  replace (2 * _) with (2 * (v * N - m * ulp 0) * ulp 0) in H by ring.
  rewrite Z.abs_mul, (Z.abs_eq (ulp 0)), Z.mul_assoc in H by lia.
  by apply Z.mul_le_mono_pos_r in H.
Qed.

(** A float is at least 2^52 units in its last place. *)
Lemma float_ulp x m e : float x m e -> 2 ^ 52 * ulp e <= val x < 2 ^ 53 * ulp e.
Proof.
  intros F. rewrite (val_float _ _ _ F). destruct F as (_ & B & E). pose proof (ulp_pos e ltac:(lia)). nia.
Qed.

(** ** The comparison of the counts *)

Lemma ratio_zero n : 0 <= n < 2 ^ 53 -> exists s, ratio 0 n = S754_zero s.
Proof. intros. apply Float64.div_zero_max. Qed.

(** A float m * u around the quotient of [m] by [n], against 1/2 = 2^52 * w *)
Lemma half_compare q u w m n : 2 ^ 52 <= q < 2 ^ 53 -> 0 < u -> 0 < w -> 1 <= n <= 2 ^ 52 ->
  Z.abs (2 * (q * u * n - m * (2 ^ 53 * w))) <= u * n ->
  u = w \/ 2 * w <= u \/ 2 * u <= w ->
  (2 ^ 52 * w <? q * u) = (n <? 2 * m).
Proof.
  intros Bq U W Bn H Rel. change (2 ^ 53) with (2 * 2 ^ 52) in *. set (c := 2 ^ 52) in *.
  assert (C : 4 < c) by done. clearbody c.
  destruct (Z.ltb_spec n (2 * m)) as [L|L]; [apply Z.ltb_lt|apply Z.ltb_ge]; apply Z.nlt_ge || apply Z.nle_gt; intros G.
  - assert (m * (2 * c * w) >= c * (n + 1) * w) by nia. destruct Rel as [->|[R|R]].
    + assert (q <= c) by nia. assert (q = c) as -> by lia. nia.
    + nia.
    + assert (q * u * n <= (2 * c - 1) * (u * n)) by nia. assert (c * (n + 1) * w >= 2 * c * (n + 1) * u) by nia. nia.
  - assert (m * (2 * c * w) <= c * n * w) by nia. destruct Rel as [->|[R|R]].
    + assert (q >= c + 1) by nia. assert (q * w * n >= (c + 1) * (w * n)) by nia. nia.
    + assert (2 * (c * n * w) <= c * n * u) by nia. assert (q * u * n >= c * (u * n)) by nia. nia.
    + nia.
Qed.

(** More than a half *)
Lemma ratio_half m n : 0 <= m < 2 ^ 53 -> 0 <= n < 2 ^ 52 ->
  Float64.ltb countMismatchThreshold (ratio m n) = (Z.max n 1 <? 2 * m).
Proof.
  intros Bm Bn. destruct (Z.eq_dec m 0) as [->|].
  { destruct (ratio_zero n) as [s ->]; [lia|]. symmetry. apply Z.ltb_ge. lia. }
  destruct (ratio_near m n) as (M & E & F & Be & H); [lia..|].
  assert (Hf : float countMismatchThreshold (2 ^ 52) (-53)) by (by repeat split).
  rewrite (ltb_val _ _ _ _ _ _ Hf F), (val_float _ _ _ Hf), (val_float _ _ _ F) in *.
  destruct F as (_ & BM & _). set (N := Z.max n 1) in *. assert (BN : 1 <= N <= 2 ^ 52) by lia.
  pose proof (ulp_pos (-53) ltac:(lia)) as W. pose proof (ulp_pos E ltac:(lia)) as U.
  assert (U0 : ulp 0 = 2 ^ 53 * ulp (-53)) by done.
  rewrite U0 in H. clear U0.
  assert (Rel : E = -53 \/ 2 * ulp (-53) <= ulp E \/ 2 * ulp E <= ulp (-53)).
  { destruct (Z.lt_trichotomy E (-53)) as [L|[L|L]]; [right; right|by left|right; left];
      unfold ulp; rewrite <- Z.pow_succ_r by lia; apply Z.pow_le_mono_r; lia. }
  apply half_compare; auto. destruct Rel as [->|]; auto.
Qed.

(** ** The comparison with the threshold *)

Lemma hundred_float : float Float64.hundred (100 * 2 ^ 46) (-46) /\ val Float64.hundred = 100 * ulp 0.
Proof. split; [by repeat split|]. by vm_compute. Qed.

Lemma abs_scaled c d b : 0 < c -> c * Z.abs d <= b -> - b <= c * d <= b.
Proof. nia. Qed.

(** The proportion in percent, up to two roundings *)
Lemma within_near m n p (N := Z.max n 1) :
  0 < m < 2 ^ 53 -> 0 <= n < 2 ^ 53 -> 0 <= p < 2 ^ 53 ->
  exists y, within m n p = (y <=? p * ulp 0) /\ 0 < y /\
    (2 ^ 53 - 1) * (2 ^ 53 - 1) * (y * N) <= 2 ^ 106 * (100 * m * ulp 0) <= (2 ^ 53 + 1) * (2 ^ 53 + 1) * (y * N).
Proof.
  intros Bm Bn Bp. destruct (ratio_near m n) as (M & E & F & Be & H); [lia..|]. fold N in H.
  destruct hundred_float as [F100 V100].
  destruct (mul_near _ _ _ _ _ _ F F100) as (M' & E' & F' & Be' & H'); [lia..|].
  set (y := val (Float64.mul (ratio m n) Float64.hundred)) in *.
  exists y. split; [unfold within; rewrite (leb_int _ _ _ p F'); [done|lia]|].
  pose proof (float_ulp _ _ _ F) as U. pose proof (float_ulp _ _ _ F') as U'.
  fold y in U'. set (q := val (ratio m n)) in *.
  pose proof (ulp_pos E ltac:(lia)). pose proof (ulp_pos E' ltac:(lia)). pose proof (ulp_pos 0 ltac:(lia)) as K.
  rewrite V100 in H'. set (k := ulp 0) in *. clearbody k q y.
  assert (Hy : Z.abs (2 * (y - 100 * q)) <= ulp E').
  { replace (2 * _) with (2 * (y - 100 * q) * k) in H' by ring.
    rewrite Z.abs_mul, (Z.abs_eq k) in H' by lia. by apply Z.mul_le_mono_pos_r in H'. }
  assert (BN : 1 <= N) by lia. clearbody N.
  assert (Q : 2 ^ 53 * Z.abs (q * N - m * k) <= q * N) by (change (2 ^ 53) with (2 * 2 ^ 52); nia).
  assert (Y : 2 ^ 53 * Z.abs (y - 100 * q) <= y) by (change (2 ^ 53) with (2 * 2 ^ 52); nia).
  split; [nia|]. change (2 ^ 106) with (2 ^ 53 * 2 ^ 53). set (c := 2 ^ 53) in *. assert (C : 4 < c) by done. clearbody c.
  apply abs_scaled in Q, Y; [|lia..].
  assert (Q1 : (c - 1) * (q * N) <= c * (m * k)) by lia.
  assert (Q2 : c * (m * k) <= (c + 1) * (q * N)) by lia.
  assert (Y1 : (c - 1) * y <= c * (100 * q)) by lia.
  assert (Y2 : c * (100 * q) <= (c + 1) * y) by lia.
  split.
  - transitivity ((c - 1) * (c * (100 * q)) * N).
    { replace ((c - 1) * (c - 1) * (y * N)) with ((c - 1) * ((c - 1) * y) * N) by ring.
      apply Z.mul_le_mono_nonneg_r; [lia|]. apply Z.mul_le_mono_nonneg_l; lia. }
    replace ((c - 1) * (c * (100 * q)) * N) with (100 * c * ((c - 1) * (q * N))) by ring.
    replace (c * c * (100 * m * k)) with (100 * c * (c * (m * k))) by ring.
    apply Z.mul_le_mono_nonneg_l; lia.
  - transitivity ((c + 1) * (c * (100 * q)) * N).
    { replace (c * c * (100 * m * k)) with (100 * c * (c * (m * k))) by ring.
      replace ((c + 1) * (c * (100 * q)) * N) with (100 * c * ((c + 1) * (q * N))) by ring.
      apply Z.mul_le_mono_nonneg_l; lia. }
    replace ((c + 1) * (c + 1) * (y * N)) with ((c + 1) * ((c + 1) * y) * N) by ring.
    apply Z.mul_le_mono_nonneg_r; [lia|]. apply Z.mul_le_mono_nonneg_l; lia.
Qed.

Lemma two_roundings_up c x y : 1 < c -> 0 <= y ->
  4 * c * (4 * c) * x <= (4 * c + 1) * (4 * c + 1) * y -> c * x <= (c + 1) * y.
Proof. intros C Y H. apply (Z.mul_le_mono_pos_l _ _ (16 * c)); [lia|]. nia. Qed.

Lemma two_roundings_down c x y : 1 < c -> 0 <= x -> 0 <= y ->
  (4 * c - 1) * (4 * c - 1) * y <= 4 * c * (4 * c) * x -> c * y <= (c + 1) * x.
Proof.
  intros C X Y H. apply (Z.mul_le_mono_pos_l _ _ (16 * c * c)); [nia|].
  transitivity ((4 * c - 1) * (4 * c - 1) * y * (c + 1)); [nia|].
  transitivity (4 * c * (4 * c) * x * (c + 1)); [|nia]. apply Z.mul_le_mono_nonneg_r; lia.
Qed.

(** The comparison is off by a relative 2^-51 at most. *)
Lemma within_relative m n p (N := Z.max n 1) :
  0 <= m < 2 ^ 53 -> 0 <= n < 2 ^ 53 -> 0 <= p < 2 ^ 53 ->
  (within m n p = true -> 2 ^ 51 * (100 * m) <= (2 ^ 51 + 1) * (p * N)) /\
  (within m n p = false -> 2 ^ 51 * (p * N) <= (2 ^ 51 + 1) * (100 * m)).
Proof.
  intros Bm Bn Bp. destruct (Z.eq_dec m 0) as [->|].
  { rewrite within_zero by lia. split; [nia|done]. }
  destruct (within_near m n p) as (y & -> & Y & L & U); [lia..|]. fold N in L, U.
  pose proof (ulp_pos 0 ltac:(lia)) as K. set (k := ulp 0) in *. clearbody k.
  assert (BN : 1 <= N) by lia. clearbody N.
  change (2 ^ 106) with (2 ^ 53 * 2 ^ 53) in *. change (2 ^ 53) with (4 * 2 ^ 51) in *.
  set (c := 2 ^ 51) in *. assert (C : 1 < c) by done. clearbody c.
  split; intros W; [apply Z.leb_le in W|apply Z.leb_gt in W].
  - apply two_roundings_up; [lia..|]. apply (Z.mul_le_mono_pos_r _ _ k); [done|].
    assert (y * N <= p * k * N) by nia. nia.
  - apply two_roundings_down; [nia..|]. apply (Z.mul_le_mono_pos_r _ _ k); [done|].
    assert (p * k * N <= y * N) by nia. nia.
Qed.

(** Below 2^51 host percents only the equality is left to the rounding. *)
Lemma within_exact m n p (N := Z.max n 1) :
  0 <= m < 2 ^ 53 -> 0 <= n < 2 ^ 53 -> 0 <= p -> p * N < 2 ^ 51 ->
  (100 * m < p * N -> within m n p = true) /\ (p * N < 100 * m -> within m n p = false).
Proof.
  intros Bm Bn Bp S. destruct (within_relative m n p) as [T F]; [lia|lia|nia|]. fold N in T, F.
  destruct (within m n p); (split; intros L; [done || exfalso|done || exfalso]).
  - specialize (T eq_refl). lia.
  - specialize (F eq_refl). lia.
Qed.

(** The first comparison, on counts *)
Lemma far_apart_exact hbi app : 0 <= hbi < 2 ^ 52 -> 0 <= app < 2 ^ 52 ->
  Lang.Abs (Int64.sub hbi app) = Z.abs (hbi - app) /\
  far_apart hbi app = (Z.max hbi 1 <? 2 * Z.abs (hbi - app)).
Proof.
  intros Bh Ba. assert (A : Lang.Abs (Int64.sub hbi app) = Z.abs (hbi - app)).
  { unfold Int64.sub. rewrite Int64.wrap_id by (unfold Int64.in_range, Int64.min_value, Int64.max_value; lia).
    apply Lang.Abs_nonneg; unfold Int64.in_range, Int64.min_value, Int64.max_value; lia. }
  split; [done|]. unfold far_apart. rewrite A. apply ratio_half; lia.
Qed.

Lemma one_sided_le a b : 0 <= one_sided a b <= Z.of_nat (List.length a + List.length b).
Proof. unfold one_sided. pose proof (length_filter (fun k => k ∉ b) a). pose proof (length_filter (fun k => k ∉ a) b). lia. Qed.

End Accuracy.

(** ** Properties *)

Module AccuracyProps.
Import Accuracy.
Local Open Scope Z_scope.

(** C21: What a verdict says about the numbers of hosts. Nothing is written on
    the way. With counts below 2^52 the identifiers are compared exactly when
    the counts differ by at most half of the inventory's; otherwise the verdict
    is negative and the mismatch is the difference. When they are compared, the
    mismatch is the number of identifiers on one side only, and as long as
    threshold times hosts stays below 2^51 the float64 arithmetic decides like
    the exact one: positive when the mismatch is less than [threshold] percent
    of the inventory, negative when it is more. (On equality the rounding
    decides.) *)
Theorem verdict_exact {L : Libs} (i : ReconcileIteration) (schema : string) (t : list obs)
    (v : verdict) (threshold : Z) :
  runs (validate i schema) t (Some (inr v)) ->
  percentage_threshold i = Some threshold -> 0 <= threshold ->
  wlog t = [] /\
  exists inv app hbi, InventoryDb i = Some inv /\
    answered t (app_count i) (inr app) /\ answered t (hbi_count i inv schema) (inr hbi) /\
    hostCount v = app /\
    (0 <= hbi < 2 ^ 52 -> 0 <= app < 2 ^ 52 ->
     (Z.max hbi 1 < 2 * Z.abs (hbi - app) ->
        isValid v = false /\ mismatchCount v = Z.abs (hbi - app)) /\
     (2 * Z.abs (hbi - app) <= Z.max hbi 1 ->
        exists hids aids,
          answered t (hbi_ids i inv schema) (inr hids) /\ answered t (app_ids i) (inr aids) /\
          mismatchCount v = one_sided hids aids /\
          let hosts := Z.max (Z.of_nat (List.length hids)) 1 in
          Z.of_nat (List.length hids + List.length aids) < 2 ^ 53 -> threshold * hosts < 2 ^ 51 ->
          (100 * mismatchCount v < threshold * hosts -> isValid v = true) /\
          (threshold * hosts < 100 * mismatchCount v -> isValid v = false))).
Proof.
  intros R Th Pos. split; [exact (reader_wlog _ _ _ (validate_read_only i schema) R)|].
  apply validate_runs in R as (inv & thr & Inv & Th' & J). assert (thr = threshold) as -> by congruence.
  destruct J as [app hbi Aa Ah Far|app hbi hids aids Aa Ah Far Ai Bi]; exists inv, app, hbi;
    (split_and!; [done..|]); intros Bh Ba; destruct (far_apart_exact hbi app Bh Ba) as [A F];
    rewrite F in Far; cbn [isValid mismatchCount].
  - apply Z.ltb_lt in Far. rewrite A. split; [done|lia].
  - apply Z.ltb_ge in Far. split; [lia|]. intros _. exists hids, aids. split_and!; [done..|].
    cbn zeta. intros Bl S. pose proof (one_sided_le hids aids).
    apply within_exact; [lia..|done|done].
Qed.

Existing Instances Sim.libs Sim.libs_ok.

(** Three hosts on both sides *)
Lemma verdict_exact_witness :
  percentage_threshold ValidationProps.vi = Some 5 /\
  exists inv app hbi, InventoryDb ValidationProps.vi = Some inv /\
    answered ValidationProps.vtrace (app_count ValidationProps.vi) (inr app) /\
    answered ValidationProps.vtrace (hbi_count ValidationProps.vi inv "public") (inr hbi) /\ 3 = app.
Proof.
  assert (T : percentage_threshold ValidationProps.vi = Some 5) by (vm_compute; reflexivity).
  split; [exact T|].
  destruct (verdict_exact ValidationProps.vi "public" ValidationProps.vtrace ValidationProps.good 5
    ValidationProps.vruns T ltac:(lia)) as (_ & inv & app & hbi & I & A & H & C & _).
  exists inv, app, hbi. auto.
Defined.

End AccuracyProps.
