(* ===== verification/Routing.v ===== *)
(** * Which events reach which controller

    The builders of Manager.v in an environment that delivers events to them.
    controller-runtime is a parameter: [passes] is what predicate.Funcs decide,
    [deliver] the requests that an event puts into the queue of a controller;
    the laws are what the documentation of the package builder says of For,
    Owns, Watches and WithEventFilter. [RoutingProps] combines them with the
    statuses that the controllers write. *)

From Stdlib Require Import ZArith Lia Ascii String.
From S2P Require Import Prelude GoStd Float GoJson Lang K8sLib JsonDecode Api State Utils Config Effects.
From S2P Require Import Database Connect Iteration Validate Pipeline Validation Sim Manager.
From S2P Require Import StatusUpdate Stale Deviation Reconcile ReconcileProps ValidationProps.
Import Api State Config Connect Iteration Manager Refinement StatusUpdate ReconcileLemmas.

Module Routing.

(** Whether [f] has no function for the kind of event *)
Definition no_function (f : Funcs) (ev : Event) : Prop :=
  match ev with
  | CreateEvent _ => CreateFunc f = None
  | UpdateEvent _ _ => UpdateFunc f = None
  | DeleteEvent _ => DeleteFunc f = None
  | GenericEvent _ => GenericFunc f = None
  end.

Definition key (o : Object) : request := (obj_namespace o, obj_name o).

(** The requests of a mapping function for several objects *)
Fixpoint map_objects (f : string -> string -> prog (list request)) (os : list Object)
  : prog (list request) :=
  match os with
  | [] => Ret []
  | o :: os => rs <- f (obj_namespace o) (obj_name o) ;; rest <- map_objects f os ;; Ret (rs ++ rest)
  end.

Class ControllerRuntime := {
  passes : Funcs -> Event -> bool;
  deliver : Builder -> Event -> prog (list request)
}.

Definition accepted `{ControllerRuntime} (b : Builder) (ev : Event) : bool :=
  match WithEventFilter b with Some f => passes f ev | None => true end.

Class ControllerRuntimeOk (R : ControllerRuntime) : Prop := {
  passes_update f g o n : UpdateFunc f = Some g -> passes f (UpdateEvent o n) = g o n;
  passes_nil f ev : no_function f ev -> passes f ev = true;
  deliver_rejected b ev : accepted b ev = false -> deliver b ev = Ret [];
  deliver_for b ev :
    accepted b ev = true -> (forall o, o ∈ event_objects ev -> obj_kind o = For b) ->
    For b ∉ Owns b -> For b ∉ (Watches b).*1 ->
    exists rs, deliver b ev = Ret rs /\ forall q, q ∈ rs <-> q ∈ key <$> event_objects ev;
  deliver_owned b ev k :
    accepted b ev = true -> (forall o, o ∈ event_objects ev -> obj_kind o = k) ->
    k <> For b -> k ∈ Owns b -> k ∉ (Watches b).*1 ->
    exists rs, deliver b ev = Ret rs /\
      forall q, q ∈ rs <-> exists o, o ∈ event_objects ev /\
                           obj_controller o = Some (For b, q.2) /\ q.1 = obj_namespace o;
  deliver_watched b ev k f :
    accepted b ev = true -> (forall o, o ∈ event_objects ev -> obj_kind o = k) ->
    k <> For b -> k ∉ Owns b -> Watches b = [(k, f)] ->
    deliver b ev = map_objects f (event_objects ev);
  deliver_other b ev k :
    (forall o, o ∈ event_objects ev -> obj_kind o = k) ->
    k <> For b -> k ∉ Owns b -> k ∉ (Watches b).*1 -> deliver b ev = Ret []
}.

(** A pipeline as an object *)
Definition object_of (p : CyndiPipeline) : Object := {|
  obj_kind := CyndiPipelineKind; obj_namespace := Namespace (Meta p); obj_name := Name (Meta p);
  obj_generation := Generation (Meta p); obj_controller := None; obj_pipeline := Some p |}.

(** The group and the version in an API version *)
Fixpoint group_version (s : string) : string * string :=
  match s with
  | EmptyString => (EmptyString, EmptyString)
  | String c s' =>
      if Ascii.eqb c "/"%char then (EmptyString, s')
      else let '(g, v) := group_version s' in (String c g, v)
  end.

(** A connector as an object; controller-runtime reads the owner from its
    controller reference. *)
Definition object_of_connector `{Unstructured} (generation : Z) (c : gvalue) : Object := {|
  obj_kind := Connect.connectorGVK;
  obj_namespace :=
    match field c ["metadata"; "namespace"] with Some (GString s) => s | _ => EmptyString end;
  obj_name := GetName c;
  obj_generation := generation;
  obj_controller :=
    (fun '(a, k, n) => let '(g, v) := group_version a in ((g, k, v), n)) <$> GetControllerOf c;
  obj_pipeline := None |}.

(** A later version of a connector: the same object, with the same owner *)
Record same_object (c c' : gvalue) : Prop := {
  so_namespace : field c' ["metadata"; "namespace"] = field c ["metadata"; "namespace"];
  so_owner : GetControllerOf c' = GetControllerOf c
}.

(** [q] is what the API server stores when [p] is sent as the status of [old]:
    the status of [p]; the generation counts changes of the specification. *)
Record stored_status (old p q : CyndiPipeline) : Prop := {
  ss_status : Status q = Status p;
  ss_namespace : Namespace (Meta q) = Namespace (Meta old);
  ss_name : Name (Meta q) = Name (Meta old);
  ss_generation : Generation (Meta q) = Generation (Meta old)
}.

Section Lemmas.
Context {L : Libs} {LOK : LibsOk L} {R : ControllerRuntime} {ROK : ControllerRuntimeOk R}.

Lemma deliver_pipeline b ev :
  For b = CyndiPipelineKind -> For b ∉ Owns b -> For b ∉ (Watches b).*1 -> accepted b ev = true ->
  (forall o, o ∈ event_objects ev -> obj_kind o = CyndiPipelineKind) ->
  exists rs, deliver b ev = Ret rs /\ forall q, q ∈ rs <-> q ∈ key <$> event_objects ev.
Proof. intros F O W A K. apply deliver_for; [done| |done|done]. intros o I. by rewrite F, (K o I). Qed.

(** The status of a started synchronisation, and of everything else *)
Lemma started_syncing q v cur : GetState q = STATE_NEW -> 
  InitialSyncInProgress (Status (with_active cur (act (SyncStarted v) q))) = true.
Proof.
  intros N. cbn [act]. unfold TransitionToInitialSync, assertState. cbn [assertState_loop].
  rewrite N. cbn. repeat case_match; done.
Qed.

Lemma acted_not_syncing a cur p : (a = Refreshed \/ exists ok r m h, a = Validated ok r m h) ->
  InitialSyncInProgress (Status (with_active cur (act a p))) = true ->
  InitialSyncInProgress (Status p) = true.
Proof. intros [->|(ok & r & m & h & ->)]; [done|]. by destruct ok. Qed.

(** The pipelines that a trace lists *)
Definition listed_of (o : obs) : list CyndiPipeline :=
  match obs_eff o in eff X return X -> list CyndiPipeline with
  | KListPipelines => fun r => match r with inr l => l | inl _ => [] end
  | _ => fun _ => []
  end (obs_res o).
Definition listed (t : list obs) : list CyndiPipeline := t ≫= listed_of.

Lemma map_config_map_runs ns name t r : runs (Pipeline.map_config_map ns name) t r ->
  (name <> configMapName -> t = []) /\
  r = Some ((fun p => (ns, Name (Meta p))) <$> (if String.eqb name configMapName then listed t else [])).
Proof.
  unfold Pipeline.map_config_map. destruct (String.eqb_spec name configMapName) as [->|N]; cbn [negb].
  - intros Rn. split; [done|]. apply runs_bind_inv in Rn as [(t1 & t2 & a & -> & R1 & R2)|[R1 _]];
      apply runs_call_inv in R1 as (y & -> & [= E]). subst y.
    destruct a as [e|l]; apply runs_ret_inv in R2 as [-> ->]; cbn; by rewrite ?app_nil_r.
  - intros [-> ->]%runs_ret_inv. done.
Qed.

Lemma map_objects_runs ns name os t r :
  (forall o, o ∈ os -> obj_namespace o = ns /\ obj_name o = name) ->
  runs (map_objects Pipeline.map_config_map os) t r ->
  (name <> configMapName -> t = []) /\
  r = Some ((fun p => (ns, Name (Meta p))) <$> (if String.eqb name configMapName then listed t else [])).
Proof.
  revert t r. induction os as [|o os IH]; intros t r K Rn; cbn [map_objects] in Rn.
  { apply runs_ret_inv in Rn as [-> ->]. split; [done|]. by destruct (String.eqb _ _). }
  destruct (K o ltac:(by left)) as [Es En]. rewrite Es, En in Rn.
  assert (Ko : forall o, o ∈ os -> obj_namespace o = ns /\ obj_name o = name)
    by (intros; apply K; by right).
  apply runs_bind_inv in Rn as [(t1 & t2 & a & -> & R1 & R2)|[R1 ->]];
    apply map_config_map_runs in R1 as [N1 E1]; [|done].
  apply runs_bind_inv in R2 as [(t3 & t4 & b & -> & R3 & R4)|[R3 ->]];
    apply (IH _ _ Ko) in R3 as [N3 E3]; [|done].
  apply runs_ret_inv in R4 as [-> ->]. split.
  - intros N. by rewrite (N1 N), (N3 N).
  - injection E1 as ->. injection E3 as ->. rewrite app_nil_r, <- fmap_app.
    destruct (String.eqb name configMapName); [|done]. unfold listed. by rewrite bind_app.
Qed.

(** In the namespace of a pipeline, which is its owner *)
Definition belongs_to (p : CyndiPipeline) (c : gvalue) : Prop :=
  field c ["metadata"; "namespace"] = Some (GString (Namespace (Meta p))) /\
  GetControllerOf c = Some ("cyndi.cloud.redhat.com/v1alpha1", "CyndiPipeline", Name (Meta p)).

(** A connector that is created belongs to its pipeline. *)
Lemma created_owner i name t r c x : runs (Pipeline.createConnector i name false) t r ->
  (c, x) ∈ conn_creates t ->
  belongs_to (Instance i) c.
Proof.
  intros Rn. revert c x. set (P := belongs_to (Instance i)).
  refine (runs_wp _ _ _ (fun t _ => forall c x, (c, x) ∈ conn_creates t -> P c) Rn _).
  unfold Pipeline.createConnector. destruct (config i) as [cfg|]; cbn [deref]; [|by intros ? ? ?%elem_of_nil].
  unfold CreateConnector, newConnectorResource. cbn [pbind call wp]. intros env.
  assert (N : forall c x, (c, x) ∈ conn_creates [Obs (Getenv "EPHEMERAL") env] -> P c)
    by (by intros ? ? ?%elem_of_nil).
  destruct (template_Parse _) as [|tm]; [done|]. destruct (template_Execute _ _) as [|text]; [done|].
  destruct (json_Unmarshal _) as [|v]; [done|]. cbn [pbind].
  destruct (SetControllerReference _ _) as [|c'] eqn:S; [done|]. cbn [pbind call wp].
  intros e. enough (K : forall c x, (c, x) ∈ conn_creates [Obs (Getenv "EPHEMERAL") env;
    Obs (KCreateConnector (SetLabels c' (<[LabelOwner := UID (Meta (Instance i))]> (GetLabels c')))) e] -> P c)
    by (by destruct e).
  intros c x [= -> _]%list_elem_of_singleton. split.
  - rewrite SetLabels_metadata by done. rewrite (SetControllerReference_metadata _ _ _ _ _ S) by done.
    by rewrite SetGroupVersionKind_frame.
  - unfold GetControllerOf. rewrite SetLabels_metadata by done. exact (SetControllerReference_owner _ _ _ S).
Qed.

End Lemmas.
End Routing.

Module RoutingProps.
Import Routing.

Section Props.
Context {L : Libs} {LOK : LibsOk L} {R : ControllerRuntime} {ROK : ControllerRuntimeOk R}.

(** C14: How the controllers wake each other. When either of them writes the
    status of a well-formed pipeline, the pipeline controller is asked to
    reconcile it, and the validation controller is asked to validate it if and
    only if the write has started an initial synchronisation: a refresh, and
    what a validation records, do not wake it. *)
Theorem status_wakeups (pr : CyndiPipelineReconciler) (vr : ValidationReconciler)
    (i : ReconcileIteration) (cfg : CyndiConfiguration) (t : list obs)
    (p q : CyndiPipeline) (x : result CyndiPipeline) :
  config i = Some cfg -> live (Instance i) -> wf (Instance i) ->
  (exists serr r, runs (Pipeline.reconcile_body i serr) t r) /\ server_keeps_status t \/
  (exists r, runs (Validation.reconcile_body (CheckResourceDeviation vr) i) t r) ->
  (p, x) ∈ status_updates t -> stored_status (Instance i) p q ->
  let ev := UpdateEvent (object_of (Instance i)) (object_of q) in
  let k := key (object_of (Instance i)) in
  (exists rs, deliver (CyndiSetupWithManager pr) ev = Ret rs /\ k ∈ rs) /\
  exists rs, deliver (ValidationSetupWithManager vr) ev = Ret rs /\
    if decide (GetState (Instance i) = STATE_NEW)
    then InitialSyncInProgress (Status q) = true /\ k ∈ rs
    else rs = [].
Proof.
  intros C Lv W Rn I St ev k.
  assert (S : status_source i True p).
  { destruct Rn as [[(serr & r & Rn) K]|(r & Rn)]; [|by eapply validation_status_source].
    destruct (pipeline_status_source _ _ _ _ _ _ _ C Lv Rn I); econstructor; eauto. }
  assert (Kd : forall o, o ∈ event_objects ev -> obj_kind o = CyndiPipelineKind).
  { intros o [->|[->|[]%elem_of_nil]%elem_of_cons]%elem_of_cons; done. }
  assert (Kk : k ∈ key <$> event_objects ev) by left.
  split.
  { destruct (deliver_pipeline (CyndiSetupWithManager pr) ev) as (rs & D & Q); [done| | |done|done|].
    - intros [E|[]%elem_of_nil]%elem_of_cons. discriminate E.
    - intros [E|[]%elem_of_nil]%elem_of_cons. discriminate E.
    - exists rs. split; [done|by apply Q]. }
  set (b := ValidationSetupWithManager _).
  assert (A : accepted b ev = negb (InitialSyncInProgress (Status (Instance i))) &&
                              InitialSyncInProgress (Status p)).
  { unfold accepted, b, ev. cbn [WithEventFilter ValidationSetupWithManager].
    rewrite (passes_update eventFilterPredicate _ _ _ eq_refl). unfold Validation.UpdateFunc. cbn [object_of obj_generation obj_pipeline].
    destruct St as [-> _ _ ->]. rewrite Z.eqb_refl. cbn [negb].
    by destruct (InitialSyncInProgress (Status (Instance i))), (InitialSyncInProgress (Status p)). }
  destruct (decide (GetState (Instance i) = STATE_NEW)) as [N|N].
  - destruct S as [q' v cur _ Nv Sq|cur N'|a cur N' _]; [|by destruct N'..]. specialize (Sq Logic.I).
    assert (Sy : InitialSyncInProgress (Status (Instance i)) = false).
    { apply GetState_new in N as [_ N]. exact (proj1 (wf_new _ W N)). }
    assert (Ss : InitialSyncInProgress (Status (with_active cur (act (SyncStarted v) q'))) = true)
      by (apply started_syncing; by rewrite (same_core_state _ _ Sq)).
    rewrite Ss, Sy in A.
    destruct (deliver_pipeline b ev) as (rs & D & Q); [done| | |done|done|].
    + by intros []%elem_of_nil.
    + by intros []%elem_of_nil.
    + exists rs. split; [done|]. split; [|by apply Q]. by rewrite (ss_status _ _ _ St).
  - exists []. split; [|done]. apply deliver_rejected. rewrite A.
    destruct S as [q' v cur N' _ _|cur _|a cur _ Ha]; [done| |].
    + cbn. by destruct (InitialSyncInProgress _).
    + destruct (InitialSyncInProgress (Status (with_active _ _))) eqn:E; [|by rewrite andb_false_r].
      by rewrite (acted_not_syncing a cur _ Ha E).
Qed.

(** C39: What a config map asks for. A change of any config map but the one
    with the operator's name asks the pipeline controller for nothing and reads
    nothing. A change of that one asks for exactly one reconciliation per
    pipeline in the answer of the API server, which lists the pipelines of the
    whole cluster, but always in the namespace of the config map: a pipeline of
    another namespace is never asked for under its own name, so a change of the
    global map reaches no pipeline outside its own namespace. *)
Theorem config_map_routing (pr : CyndiPipelineReconciler) (ev : Event) (ns name : string)
    (t : list obs) (r : option (list request)) :
  (forall o, o ∈ event_objects ev ->
     obj_kind o = ConfigMapKind /\ obj_namespace o = ns /\ obj_name o = name) ->
  runs (deliver (CyndiSetupWithManager pr) ev) t r ->
  exists rs, r = Some rs /\
    (if decide (name = configMapName) then rs = (fun p => (ns, Name (Meta p))) <$> listed t
     else t = [] /\ rs = []) /\
    forall p, Namespace (Meta p) <> ns -> (Namespace (Meta p), Name (Meta p)) ∉ rs.
Proof.
  intros K Rn.
  rewrite (deliver_watched _ _ ConfigMapKind Pipeline.map_config_map) in Rn;
    [|done|by intros o [? _]%K|discriminate|by intros [E|[]%elem_of_nil]%elem_of_cons|done].
  apply (map_objects_runs ns name) in Rn as [N ->]; [|by intros o [_ ?]%K].
  eexists. split; [done|]. split.
  - destruct (String.eqb_spec name configMapName) as [->|Ne].
    + by destruct (decide (configMapName = configMapName)).
    + destruct (decide (name = configMapName)); [done|]. auto.
  - intros p Np (p' & E & _)%list_elem_of_fmap. congruence.
Qed.

(** C15: A connector watches over its pipeline. Whatever happens to a connector
    that the operator has created, as long as its owner is left in place (it
    fails, it is edited or deleted), the pipeline controller is asked to
    reconcile exactly the pipeline it was created for; the validation controller
    is asked for nothing. *)
Theorem connector_wakeups (pr : CyndiPipelineReconciler) (vr : ValidationReconciler)
    (i : ReconcileIteration) (name : string) (t : list obs) (r : option (result gvalue))
    (c : gvalue) (x : option gerror) (ev : Event) :
  runs (Pipeline.createConnector i name false) t r -> (c, x) ∈ conn_creates t ->
  (forall o, o ∈ event_objects ev ->
     exists g c', same_object c c' /\ o = object_of_connector g c') ->
  (exists rs, deliver (CyndiSetupWithManager pr) ev = Ret rs /\
     forall q, q ∈ rs <-> q = key (object_of (Instance i))) /\
  deliver (ValidationSetupWithManager vr) ev = Ret [].
Proof.
  intros Rn I Ho. destruct (created_owner _ _ _ _ _ _ Rn I) as [Ns Ow].
  assert (K : forall o, o ∈ event_objects ev -> obj_kind o = Connect.connectorGVK)
    by (by intros o (g & c' & _ & ->)%Ho).
  assert (O : forall o, o ∈ event_objects ev -> obj_namespace o = Namespace (Meta (Instance i)) /\
    obj_controller o = Some (CyndiPipelineKind, Name (Meta (Instance i)))).
  { intros o (g & c' & [E1 E2] & ->)%Ho. cbn [object_of_connector obj_namespace obj_controller]. by rewrite E1, E2, Ns, Ow. }
  assert (F : exists o, o ∈ event_objects ev) by (destruct ev as [o|o ?|o|o]; exists o; left).
  split.
  - destruct (deliver_owned (CyndiSetupWithManager pr) ev Connect.connectorGVK) as (rs & D & Q);
      [done|done|discriminate|by left|by intros [E|[]%elem_of_nil]%elem_of_cons|].
    exists rs. split; [done|]. intros [ns n]. rewrite Q. split.
    + intros (o & Io & E & Ens). destruct (O o Io) as [On Oc]. cbn in *. unfold key. cbn. congruence.
    + intros [= -> ->]. destruct F as [o Io]. exists o. by destruct (O o Io) as [-> ->].
  - apply (deliver_other _ _ Connect.connectorGVK); [done|discriminate|by intros []%elem_of_nil..].
Qed.

End Props.
(** *** A runtime that has the laws, and a pipeline whose first
    synchronisation starts *)

Existing Instances Sim.libs Sim.libs_ok.

Definition first_kind (ev : Event) : kind :=
  match ev with CreateEvent o | UpdateEvent o _ | DeleteEvent o | GenericEvent o => obj_kind o end.

Definition owner_request (k : kind) (o : Object) : option request :=
  match obj_controller o with
  | Some (k', n) => if decide (k' = k) then Some (obj_namespace o, n) else None
  | None => None
  end.

#[local] Instance runtime : ControllerRuntime := {|
  passes f ev :=
    match ev with
    | CreateEvent o => match CreateFunc f with Some g => g o | None => true end
    | UpdateEvent o n => match UpdateFunc f with Some g => g o n | None => true end
    | DeleteEvent o => match DeleteFunc f with Some g => g o | None => true end
    | GenericEvent o => match GenericFunc f with Some g => g o | None => true end
    end;
  deliver b ev :=
    let ok := match WithEventFilter b with
      | Some f =>
          match ev with
          | CreateEvent o => match CreateFunc f with Some g => g o | None => true end
          | UpdateEvent o n => match UpdateFunc f with Some g => g o n | None => true end
          | DeleteEvent o => match DeleteFunc f with Some g => g o | None => true end
          | GenericEvent o => match GenericFunc f with Some g => g o | None => true end
          end
      | None => true
      end in
    if negb ok then Ret []
    else if decide (first_kind ev = For b) then Ret (key <$> event_objects ev)
    else if decide (first_kind ev ∈ Owns b) then Ret (omap (owner_request (For b)) (event_objects ev))
    else match Watches b with
         | [(k, f)] => if decide (first_kind ev = k) then map_objects f (event_objects ev) else Ret []
         | _ => Ret []
         end
|}.

Lemma first_kind_all ev k : (forall o, o ∈ event_objects ev -> obj_kind o = k) -> first_kind ev = k.
Proof. intros K. destruct ev; apply K; left. Qed.

#[local] Instance runtime_ok : ControllerRuntimeOk runtime.
Proof.
  split.
  - intros f g o n E. cbn. by rewrite E.
  - intros f [o|o n|o|o] E; cbn in *; by rewrite E.
  - intros b ev A. unfold accepted in A. cbn in *. by rewrite A.
  - intros b ev A K _ _. unfold accepted in A. cbn in *. rewrite A. cbn [negb].
    rewrite decide_True by by apply first_kind_all. eauto.
  - intros b ev k A K F O _. unfold accepted in A. cbn in *. rewrite A. cbn [negb].
    rewrite (first_kind_all _ _ K), decide_False, decide_True by done. eexists. split; [done|].
    intros [ns n]. rewrite list_elem_of_omap. split.
    + intros (o & I & E). unfold owner_request in E. exists o. split; [done|].
      destruct (obj_controller o) as [[k' n']|]; [|done]. case_decide; by simplify_eq.
    + intros (o & I & E & Ens). exists o. split; [done|]. cbn in E, Ens. unfold owner_request.
      rewrite E, decide_True by done. by rewrite Ens.
  - intros b ev k f A K F O W. unfold accepted in A. cbn in *. rewrite A. cbn [negb].
    rewrite (first_kind_all _ _ K), decide_False, decide_False, W by done. by rewrite decide_True.
  - intros b ev k K F O W. cbn. destruct (negb _); [done|].
    rewrite (first_kind_all _ _ K), !decide_False by done.
    destruct (Watches b) as [|[k' f] [|]]; [done| |done]. rewrite decide_False; [done|].
    intros ->. apply W. by left.
Qed.

(** The connector of the pipeline's first version, and its deletion *)
Definition creating : list obs :=
  trace_of Sim.world_handler (Pipeline.createConnector (Sim.iteration_of Sim.world0) "c" false) Sim.world0.

Definition made : gvalue := default GNil (fst <$> head (conn_creates creating)).

Definition pr0 : CyndiPipelineReconciler := NewCyndiReconciler ["controllers"; "cyndi"] "cyndi".
Definition vr0 : ValidationReconciler :=
  NewValidationReconciler ["controllers"; "validation"] "validation" true.

Definition cyndi_map : Object := {|
  obj_kind := ConfigMapKind; obj_namespace := "cyndi"; obj_name := "cyndi"; obj_generation := 0;
  obj_controller := None; obj_pipeline := None |}.

Definition global_change : list obs := [Obs KListPipelines (inr [Sample.new_pipeline])].

Lemma connector_wakeups_witness :
  exists rs, deliver (CyndiSetupWithManager pr0) (DeleteEvent (object_of_connector 1 made)) = Ret rs /\
    forall q, q ∈ rs <-> q = ("test", "test-pipeline-01").
Proof.
  assert (E : exists x, (made, x) ∈ conn_creates creating).
  { exists None. apply ValidationProps.head_elem. vm_compute. reflexivity. }
  destruct E as [x I].
  destruct (connector_wakeups pr0 vr0 (Sim.iteration_of Sim.world0) "c" creating _ made x
    (DeleteEvent (object_of_connector 1 made)) (runs_exec _ _ _ _ eq_refl) I) as [(rs & D & Q) _].
  - intros o [->|[]%elem_of_nil]%elem_of_cons. exists 1%Z, made. split; [by split|done].
  - exists rs. split; [exact D|exact Q].
Defined.

Lemma config_map_routing_witness :
  ("test", "test-pipeline-01") ∉ [("cyndi", "test-pipeline-01")].
Proof.
  destruct (config_map_routing pr0 (CreateEvent cyndi_map) "cyndi" "cyndi" global_change
    (Some [("cyndi", "test-pipeline-01")])) as (rs & E & _ & N).
  - intros o [->|[]%elem_of_nil]%elem_of_cons. done.
  - cbn. apply runs_call. cbn. apply runs_ret.
  - injection E as <-. by apply (N Sample.new_pipeline).
Defined.

Definition i0 : ReconcileIteration := Sim.iteration_of Sim.world0.
Definition t0 : list obs := ReconcileProps.body_trace Sim.world0.

Definition started0 : CyndiPipeline * result CyndiPipeline :=
  default (Sample.new_pipeline, inl Sim.not_found) (head (status_updates t0)).

Definition stored0 : CyndiPipeline := with_Status (Instance i0) (Status started0.1).

Lemma stored_with_Status old p : stored_status old p (with_Status old (Status p)).
Proof. by split. Qed.

Lemma kept0 : server_keeps_status t0.
Proof.
  assert (E : exists p q, pipeline_updates t0 = [(p, inr q)] /\ DeletionTimestamp (Meta q) = DeletionTimestamp (Meta p) /\ Status q = Status p)
    by (do 2 eexists; vm_compute; split_and!; reflexivity).
  destruct E as (p & q & E & D & S). intros p' q' I. rewrite E in I.
  apply list_elem_of_singleton in I as [= -> ->]. split; by rewrite ?S, ?D.
Qed.

Lemma status_wakeups_witness :
  exists rs, deliver (ValidationSetupWithManager vr0)
      (UpdateEvent (object_of (Instance i0)) (object_of stored0)) = Ret rs /\
    ("test", "test-pipeline-01") ∈ rs.
Proof.
  assert (C : exists cfg, config i0 = Some cfg) by (eexists; vm_compute; reflexivity).
  destruct C as [cfg C].
  assert (Lv : live (Instance i0)) by (vm_compute; reflexivity).
  assert (E1 : InitialSyncInProgress (Status (Instance i0)) = false) by (vm_compute; reflexivity).
  assert (E2 : GetValid (Instance i0) = ConditionUnknown) by (vm_compute; reflexivity).
  assert (E3 : ValidationFailedCount (Status (Instance i0)) = 0%Z) by (vm_compute; reflexivity).
  assert (E4 : PipelineVersion (Status (Instance i0)) = EmptyString) by (vm_compute; reflexivity).
  assert (W : wf (Instance i0)) by (exact {| wf_new := fun _ => conj E1 E2;
      wf_pending := fun N _ => False_ind _ (N E4); wf_valid := fun _ => E1; wf_count := fun _ => E3 |}).
  assert (I : (started0.1, started0.2) ∈ status_updates t0)
    by (apply ValidationProps.head_elem; vm_compute; reflexivity).
  assert (N : GetState (Instance i0) = STATE_NEW) by (vm_compute; reflexivity).
  pose proof (status_wakeups pr0 vr0 i0 cfg t0 started0.1 stored0 started0.2 C Lv W
    (or_introl (conj (ex_intro _ None (ex_intro _ _ (ReconcileProps.body_runs Sim.world0))) kept0))
    I (stored_with_Status _ _)) as [_ (rs & D & H)].
  exists rs. split; [exact D|].
  destruct (decide (GetState (Instance i0) = STATE_NEW)) as [_|F]; [exact (proj2 H)|destruct (F N)].
Defined.

End RoutingProps.
