(* ===== verification/Typing.v ===== *)
(** * Types

    The model keeps Go's int64 as Z and a metric operation with any labels.
    [Typing] says which calls and answers have the types that Go gives them:
    counters, counts and delays fit 64 bits, and every operation on a metric
    supplies the labels its vector was declared with (otherwise WithLabelValues
    panics). [TypingProps]: both controllers keep to the types as long as the
    environment does. *)

From Stdlib Require Import ZArith Lia String.
From S2P Require Import Prelude GoStd Float GoJson Lang K8sLib Api State Defaults Utils Config Effects.
From S2P Require Import Database Connect Iteration Validate Pipeline Validation Sim Manager.
Import Api State Config Database Connect Iteration Validate.

Module Typing.

Create HintDb cyndi_typed.

(** ** Well-typed values *)

Definition opt_ok (o : option Z) : Prop := forall z, o = Some z -> Int64.in_range z.

Record pipeline_ok (p : CyndiPipeline) : Prop := {
  po_max_age : opt_ok (MaxAge (Spec p));
  po_threshold : opt_ok (ValidationThreshold (Spec p));
  po_failed : Int64.in_range (ValidationFailedCount (Status p));
  po_hosts : Int64.in_range (HostCount (Status p))
}.

Record validation_ok (v : ValidationConfiguration) : Prop := {
  vo_interval : Int64.in_range (Interval v);
  vo_attempts : Int64.in_range (AttemptsThreshold v);
  vo_percentage : Int64.in_range (PercentageThreshold v)
}.

Record config_ok (c : CyndiConfiguration) : Prop := {
  co_tasks : Int64.in_range (ConnectorTasksMax c);
  co_batch : Int64.in_range (ConnectorBatchSize c);
  co_max_age : Int64.in_range (ConnectorMaxAge c);
  co_replication : Int64.in_range (TopicReplicationFactor c);
  co_interval : Int64.in_range (StandardInterval c);
  co_validation : validation_ok (Config.ValidationConfig c);
  co_validation_init : validation_ok (ValidationConfigInit c)
}.

Record iteration_ok (i : ReconcileIteration) : Prop := {
  io_instance : pipeline_ok (Instance i);
  io_config : forall c, config i = Some c -> config_ok c
}.

(** A metric operation supplies the declared number of labels, and a known
    reason for a refresh. *)
Definition metric_ok (m : metric_op) : Prop :=
  List.length (Metrics.op_vec m).2 = List.length (Metrics.vec_labels (Metrics.op_vec m).1) /\
  forall app reason, (Metrics.op_vec m).2 = [app; reason] ->
    reason = Metrics.REFRESH_INVALID_PIPELINE \/ reason = Metrics.REFRESH_STATE_DEVIATION.

Definition call_ok {X} (e : eff X) : Prop :=
  match e with
  | KUpdatePipeline p | KUpdateStatus p => pipeline_ok p
  | Metric m => metric_ok m
  | _ => True
  end.

Definition scanned_ok (s : scan_ty) : scan_val s -> Prop :=
  match s with ScanInt64 => Int64.in_range | _ => fun _ => True end.

Definition answer_ok {X} (e : eff X) : X -> Prop :=
  match e in eff X return X -> Prop with
  | KGetPipeline _ _ => fun r => forall p, r = inr p -> pipeline_ok p
  | KUpdatePipeline _ => fun r => forall p, r = inr p -> pipeline_ok p
  | KUpdateStatus _ => fun r => forall p, r = inr p -> pipeline_ok p
  | PgQuery _ _ s => fun r => forall rs v, r = inr rs -> inr v ∈ rows_data rs -> scanned_ok s v
  | _ => fun _ => True
  end.

Definition calls_ok (t : list obs) : Prop := Forall (fun o => call_ok (obs_eff o)) t.
Definition answers_ok (t : list obs) : Prop := Forall (fun o => answer_ok (obs_eff o) (obs_res o)) t.

(** ** Well-typed programs *)

Fixpoint typed {A} (p : prog A) (Q : A -> Prop) : Prop :=
  match p with
  | Ret a => Q a
  | Panic => True
  | Call e k => call_ok e /\ forall x, answer_ok e x -> typed (k x) Q
  end.

Notation any := (fun _ => True).

Lemma typed_sound {A} (p : prog A) Q t r :
  typed p Q -> runs p t r -> answers_ok t -> calls_ok t /\ forall a, r = Some a -> Q a.
Proof.
  intros T R. induction R as [a| |X e k x t r R IH]; intros O; cbn in T.
  - split; [constructor|]. by intros ? [= <-].
  - by split; [constructor|].
  - destruct T as [C K]. apply Forall_cons_1 in O as [Ox O].
    destruct (IH (K x Ox) O) as [Ct Q']. split; [by constructor|done].
Qed.

Lemma typed_bind {A B} (p : prog A) (f : A -> prog B) R Q :
  typed p R -> (forall a, R a -> typed (f a) Q) -> typed (pbind p f) Q.
Proof.
  induction p as [a| |X e k IH]; cbn; intros T F; [by apply F|done|].
  destruct T as [C K]. split; [done|]. intros x O. by apply IH; [apply K|].
Qed.

Lemma typed_mono {A} (p : prog A) (R Q : A -> Prop) :
  typed p R -> (forall a, R a -> Q a) -> typed p Q.
Proof.
  intros T H. induction p as [a| |X e k IH]; cbn in *; [by apply H|done|].
  destruct T as [C K]. split; [done|]. intros x O. by apply IH, K.
Qed.

Lemma typed_call {X B} (e : eff X) (f : X -> prog B) Q :
  call_ok e -> (forall x, answer_ok e x -> typed (f x) Q) -> typed (pbind (call e) f) Q.
Proof. by split. Qed.

Lemma typed_deref {A B} (o : option A) (k : A -> prog B) Q :
  (forall a, o = Some a -> typed (k a) Q) -> typed (deref o k) Q.
Proof. destruct o as [a|]; cbn; auto. Qed.

Lemma typed_try {A B} (p : prog (result A)) (f : A -> prog (result B)) R Q :
  typed p (fun r => forall a, r = inr a -> R a) -> (forall e, Q (inl e)) ->
  (forall a, R a -> typed (f a) Q) ->
  typed (pbind p (fun y => match y with inl e => Ret (inl e) | inr x => f x end)) Q.
Proof. intros T E F. eapply typed_bind; [exact T|]. intros [e|a] H; [apply E|auto]. Qed.

Lemma typed_any {A} (p : prog A) Q : typed p Q -> typed p any.
Proof. intros T. by eapply typed_mono. Qed.

(** Close goals about a program whose calls are in sight. *)
Ltac typed_calls :=
  cbn [typed pbind call call_ok deref];
  repeat (match goal with
          | |- _ /\ _ => split
          | |- forall _, _ => intro
          | |- typed (match ?x with _ => _ end) _ => destruct x eqn:?
          | |- typed (pbind (match ?x with _ => _ end) _) _ => destruct x eqn:?
          | |- typed (let '(_, _) := ?x in _) _ => destruct x eqn:?
          end; cbn [typed pbind call call_ok deref]);
  try done.

(** ** database.go *)

Lemma typed_RunQuery db q s :
  typed (RunQuery db q s) (fun r => forall rs, r = inr rs -> forall v, inr v ∈ rows_data rs -> scanned_ok s v).
Proof.
  unfold RunQuery. destruct (connection db) as [conn|]; cbn; [|done]. split; [done|].
  intros [e|rs] O; cbn; [done|]. intros rs' [= <-] v I. by eapply O.
Qed.

Lemma typed_CountHosts db table io fs :
  typed (CountHosts db table io fs) (fun r => forall n, r = inr n -> Int64.in_range n).
Proof.
  unfold CountHosts. eapply typed_try; [apply typed_RunQuery|done|]. intros [l er nr] H n. cbn in H |- *.
  assert (Z0 : Int64.in_range 0) by done. revert H Z0 n. generalize 0%Z.
  induction l as [|[e|v] l IH]; intros z H Hz n E; cbn in E; [by simplify_eq|done|].
  apply (IH v); [|by apply H; left|done]. intros w I. apply H. by right.
Qed.

Ltac ret := intros; cbn; done.
Ltac via L := eapply typed_bind; [apply L|].
Ltac via_any L := eapply typed_bind; [eapply typed_any, L|].

Lemma typed_query {A} db q s (f : rows (scan_val s) -> prog (result A)) :
  (forall rs, typed (f rs) any) ->
  typed (pbind (RunQuery db q s) (fun y => match y with inl e => Ret (inl e) | inr x => f x end)) any.
Proof. intros F. eapply typed_bind; [apply typed_RunQuery|]. intros [e|rs] _; [done|apply F]. Qed.

Lemma typed_GetHostIds db table io fs : typed (GetHostIds db table io fs) any.
Proof. by apply typed_query. Qed.

Lemma typed_Exec db q : typed (Exec db q) any.
Proof. unfold Exec. typed_calls. Qed.

Lemma typed_CheckIfTableExists db t : typed (CheckIfTableExists db t) any.
Proof.
  unfold CheckIfTableExists. destruct (String.eqb _ _); [done|]. apply typed_query. intros rs. typed_calls.
Qed.

Lemma typed_GetCurrentTable db : typed (GetCurrentTable db) any.
Proof. apply typed_query. intros rs. typed_calls. Qed.

Lemma typed_GetCyndiTables db : typed (GetCyndiTables db) any.
Proof. by apply typed_query. Qed.

Lemma typed_Connect db : typed (Database.Connect db) any.
Proof. unfold Database.Connect, GetConnection, call. typed_calls. Qed.

Lemma typed_DbClose db : typed (Database.Close db) any.
Proof. unfold Database.Close, call. typed_calls. Qed.

Lemma typed_DeleteTable db t : typed (DeleteTable db t) any.
Proof.
  unfold DeleteTable. via typed_CheckIfTableExists. intros [e|b] _; [done|].
  destruct (negb _); [done|apply typed_Exec].
Qed.

Lemma typed_UpdateView db t : typed (UpdateView db t) any.
Proof.
  unfold UpdateView. via typed_Exec. intros [e|] _; [done|]. via typed_Exec. by intros [e|] _.
Qed.

Lemma typed_AppConnect db : typed (AppConnect db) any.
Proof.
  unfold AppConnect, rotatePassword. via typed_Connect. intros [db1 [e|]] _; [|done].
  destruct (Strings.Contains _ _); [|done].
  apply (typed_bind _ _ any); [|intros [db2 [e2|]] _; [done|apply typed_Connect]].
  via typed_Connect. intros [db2 [e2|]] _; [done|]. via typed_Exec. intros r _.
  via typed_DbClose. ret.
Qed.

(** ** config.go *)

Lemma getIntValue_ok cm k d z : Int64.in_range d -> getIntValue cm k d = inr z -> Int64.in_range z.
Proof.
  unfold getIntValue. intros D. destruct (cm !! k) as [v|]; [|by intros [= <-]].
  destruct (Strconv.ParseInt v) as [n|] eqn:P; [|done]. intros [= <-]. by eapply Strconv.ParseInt_in_range.
Qed.

Lemma validation_config_ok inst cm prefix d v :
  (forall p, inst = Some p -> pipeline_ok p) -> validation_ok d ->
  Config.getValidationConfig inst cm prefix d = inr v -> validation_ok v.
Proof.
  intros I [D1 D2 D3]. unfold Config.getValidationConfig. intros B.
  let_ok B. injection B as <-. split; cbn; [eapply getIntValue_ok; [|eassumption]; done..|].
  destruct inst as [p|]; cbn in *; [|eapply getIntValue_ok; [|eassumption]; done].
  destruct (ValidationThreshold (Spec p)) as [w|] eqn:E; [|eapply getIntValue_ok; [|eassumption]; done].
  simplify_eq. by apply (po_threshold _ (I p eq_refl)).
Qed.

Lemma defaults_ok : validation_ok defaultValidationConfig /\ validation_ok defaultValidationConfigInit.
Proof. split; split; by vm_compute. Qed.

Lemma BuildCyndiConfig_ok inst cm c :
  (forall p, inst = Some p -> pipeline_ok p) -> BuildCyndiConfig inst cm = inr c -> config_ok c.
Proof.
  intros I B. unfold BuildCyndiConfig in B. let_ok B. injection B as <-.
  destruct defaults_ok as [V1 V2].
  split; cbn; try (eapply getIntValue_ok; [|eassumption]; by vm_compute);
    try (eapply validation_config_ok; [eassumption| |eassumption]; eassumption).
  destruct inst as [p|]; cbn in *.
  - destruct (MaxAge (Spec p)) as [w|] eqn:E; [|eapply getIntValue_ok; [|eassumption]; by vm_compute].
    simplify_eq. by apply (po_max_age _ (I p eq_refl)).
  - eapply getIntValue_ok; [|eassumption]; by vm_compute.
Qed.

(** ** state.go *)

Section WithLibs.
Context {L : Libs}.

(** A pipeline keeps its types when its specification and its counters do. *)
Lemma pipeline_ok_same p q : pipeline_ok p -> Spec q = Spec p ->
  ValidationFailedCount (Status q) = ValidationFailedCount (Status p) ->
  HostCount (Status q) = HostCount (Status p) -> pipeline_ok q.
Proof. intros [A T F H] E1 E2 E3. split; by rewrite ?E1, ?E2, ?E3. Qed.

Lemma SetValid_ok s r m h p : pipeline_ok p -> Int64.in_range h -> pipeline_ok (SetValid s r m h p).
Proof.
  intros [A T F H] Hh. destruct s; split; try done; cbn; apply Int64.wrap_in_range.
Qed.

Lemma ResetValid_ok p : pipeline_ok p -> pipeline_ok (ResetValid p).
Proof. intros O. by apply SetValid_ok. Qed.

Lemma TransitionToNew_ok p : pipeline_ok p -> pipeline_ok (TransitionToNew p).
Proof. intros O. by eapply pipeline_ok_same; [apply (ResetValid_ok p O)|..]. Qed.

Lemma TransitionToInitialSync_typed v p : pipeline_ok p -> pipeline_ok (TransitionToInitialSync v p).1.
Proof.
  intros O. unfold TransitionToInitialSync. destruct (assertState _ _ _); [done|].
  pose proof (ResetValid_ok p O) as R. cbn [fst].
  by repeat case_match; (eapply pipeline_ok_same; [exact R|..]).
Qed.

Lemma on_instance_ok f i : (pipeline_ok (Instance i) -> pipeline_ok (f (Instance i))) ->
  iteration_ok i -> iteration_ok (on_instance f i).
Proof. intros F [P C]. split; cbn; auto. Qed.

Lemma set_Instance_ok p i : pipeline_ok p -> iteration_ok i -> iteration_ok (set_Instance p i).
Proof. intros O [P C]. by split. Qed.

(** ** connect.go *)

Lemma typed_newConnectorResource name ns c : typed (newConnectorResource name ns c) any.
Proof. unfold newConnectorResource. typed_calls. Qed.

Lemma typed_CreateConnector name ns c o dry : typed (CreateConnector name ns c o dry) any.
Proof.
  unfold CreateConnector. via typed_newConnectorResource. intros [e|k] _; [done|].
  destruct (match o with Some _ => _ | None => _ end) as [e|k']; [done|].
  destruct dry; [done|]. typed_calls.
Qed.

Lemma typed_DeleteConnector name ns : typed (DeleteConnector name ns) any.
Proof. unfold DeleteConnector. typed_calls. Qed.

Lemma typed_SetConnectorState name ns b : typed (SetConnectorState name ns b) any.
Proof. unfold SetConnectorState, GetConnector. typed_calls. Qed.

(** ** iteration.go, metrics.go, probes.go *)

Lemma typed_Close i : typed (Close i) any.
Proof.
  unfold Close. via typed_DbClose. intros r _. destruct (InventoryDb i); [|done]. via typed_DbClose. ret.
Qed.

Lemma typed_error e ps : typed (error e ps) any.
Proof. unfold error, eventWarning. typed_calls. Qed.

Definition result_ok (r : Result) : Prop := Int64.in_range r.1.

Lemma typed_fail_with e p : typed (fail_with e p) result_ok.
Proof. unfold fail_with. via typed_error. intros e' _. done. Qed.

Lemma typed_updateStatusAndRequeue i : iteration_ok i -> typed (updateStatusAndRequeue i) result_ok.
Proof.
  intros O. unfold updateStatusAndRequeue. via typed_GetCurrentTable. intros [e|cur] _; [apply typed_fail_with|].
  set (j := match cur with Some t => _ | None => _ end).
  assert (Oj : iteration_ok j).
  { subst j. destruct cur; apply on_instance_ok; try done; intros P; by eapply pipeline_ok_same. }
  clearbody j. eapply (typed_bind _ _ (fun r => forall p, r = inr p -> pipeline_ok p)).
  - destruct (negb _); cbn; [split; [apply Oj|]; auto|]. intros p [= <-]. apply Oj.
  - intros [e|p] P; [destruct (IsConflict e); [done|apply typed_fail_with]|].
    apply typed_deref. intros d _. apply Int64.wrap_in_range.
Qed.

Lemma metric_refresh m app reason : (Metrics.op_vec m) = (Metrics.counter_vec refreshCount, [app; reason]) ->
  reason = Metrics.REFRESH_INVALID_PIPELINE \/ reason = Metrics.REFRESH_STATE_DEVIATION -> metric_ok m.
Proof. intros E H. split; rewrite E; [done|]. by intros ? ? [= _ <-]. Qed.

Lemma typed_InitLabels p : typed (InitLabels p) any.
Proof.
  unfold InitLabels. typed_calls.
  all: eapply metric_refresh; [reflexivity|]; auto.
Qed.

Lemma typed_AppHostCount p v : typed (AppHostCount p v) any.
Proof. unfold AppHostCount. typed_calls. Qed.

Lemma typed_ValidationFinished p t r n b : typed (ValidationFinished p t r n b) any.
Proof. unfold ValidationFinished. typed_calls. Qed.

Lemma typed_PipelineRefreshed p reason :
  reason = Metrics.REFRESH_INVALID_PIPELINE \/ reason = Metrics.REFRESH_STATE_DEVIATION ->
  typed (PipelineRefreshed p reason) any.
Proof. intros H. unfold PipelineRefreshed. typed_calls. by eapply metric_refresh. Qed.

Lemma typed_probe_deviation i m : typed (probeStateDeviationRefresh i m) any.
Proof. unfold probeStateDeviationRefresh. via typed_PipelineRefreshed; [by right|]. unfold eventWarning. typed_calls. Qed.

Lemma typed_probe_invalid i : typed (probePipelineDidNotBecomeValid i) any.
Proof.
  unfold probePipelineDidNotBecomeValid. apply (typed_bind _ _ any); [unfold eventWarning; typed_calls|].
  intros _ _. apply typed_PipelineRefreshed. by left.
Qed.

Lemma typed_fetch_config_maps nss cms : typed (fetch_config_maps nss cms) any.
Proof.
  revert cms. induction nss as [|ns nss IH]; intros cms; cbn; [done|]. split; [done|].
  intros [e|d] _; [destruct (negb _); [done|apply IH]|apply IH].
Qed.

Lemma typed_parseConfig i : iteration_ok i -> typed (parseConfig i) (fun r => iteration_ok r.1).
Proof.
  intros O. unfold parseConfig. via typed_fetch_config_maps. intros [e|cms] _; [done|].
  destruct (BuildCyndiConfig _ _) as [e|c] eqn:B; [done|]. cbn. destruct O as [P C].
  split; [done|]. cbn. intros c' [= <-]. eapply BuildCyndiConfig_ok; [|exact B]. by intros p [= <-].
Qed.

(** ** validate.go *)

Lemma typed_validate i schema :
  typed (validate i schema) (fun r => forall v, r = inr v -> Int64.in_range (Validate.hostCount v)).
Proof.
  unfold validate. eapply typed_try; [apply typed_CountHosts|done|]. intros app Ha.
  apply typed_deref. intros inv _. eapply typed_try; [apply typed_CountHosts|done|]. intros hbi _.
  via typed_AppHostCount. intros _ _. destruct (Float64.ltb _ _).
  - apply typed_deref. intros th _. via typed_ValidationFinished. intros _ _. cbn. by intros v [= <-].
  - eapply (typed_try _ _ any); [eapply typed_mono; [apply typed_GetHostIds|done]|done|]. intros hs _.
    eapply (typed_try _ _ any); [eapply typed_mono; [apply typed_GetHostIds|done]|done|]. intros as_ _.
    apply typed_deref. intros th _. via typed_ValidationFinished. intros _ _. cbn. by intros v [= <-].
Qed.

(** ** cyndipipeline_controller.go *)

Lemma typed_LoadDBSecret c ns name : typed (LoadDBSecret c ns name) any.
Proof. unfold LoadDBSecret, FetchSecret. typed_calls. Qed.

Lemma typed_setup ns name : typed (Pipeline.setup ns name) (fun r => forall i, r.1 = Some i -> iteration_ok i).
Proof.
  unfold Pipeline.setup, FetchCyndiPipeline. apply typed_call; [done|]. intros [e|p] P.
  { by destruct (IsNotFound e). }
  assert (O : iteration_ok (Pipeline.new_iteration p)) by (split; [by apply P|done]).
  via (typed_parseConfig _ O). intros [i [e|]] Oi; cbn [fst] in Oi; [by intros ? [= <-]|].
  destruct (config i) as [cfg|] eqn:C; [|done]. via typed_LoadDBSecret.
  intros [e|hbi] _; [by intros ? [= <-]|]. via typed_LoadDBSecret.
  assert (Oh : iteration_ok (set_HBIDBParams hbi i)) by (by destruct Oi).
  intros [e|app] _; [by intros ? [= <-]|]. via typed_AppConnect.
  intros [db err] _. cbn. intros ? [= <-]. by destruct Oh.
Qed.

Lemma typed_delete_connectors ns keep items es : typed (Pipeline.delete_connectors ns keep items es) any.
Proof.
  revert es. induction items as [|k items IH]; intros es; cbn [Pipeline.delete_connectors]; [done|].
  destruct (negb _); [|apply IH]. via typed_DeleteConnector. intros [e|] _; apply IH.
Qed.

Lemma typed_delete_tables db keep ts es : typed (Pipeline.delete_tables db keep ts es) any.
Proof.
  revert es. induction ts as [|k ts IH]; intros es; cbn [Pipeline.delete_tables]; [done|].
  destruct (negb _); [|apply IH]. via typed_DeleteTable. intros [e|] _; apply IH.
Qed.

(** What follows the choice of the dependencies to keep *)
Ltac cleanup_rest :=
  apply typed_call; [done|]; intros items _; apply (typed_bind _ _ any);
  [destruct items; [done|apply typed_delete_connectors]|];
  intros es _; via typed_GetCyndiTables; intros [e'|l] _; [done|apply typed_delete_tables].

Lemma typed_cleanup i : typed (Pipeline.deleteStaleDependencies i) any.
Proof.
  unfold Pipeline.deleteStaleDependencies, GetConnectorsForOwner.
  destruct (Pipeline.kept_by_status i) as [ts cs].
  via typed_GetCurrentTable. intros [e|[t|]] _; [cleanup_rest| |cleanup_rest].
  destruct (Pipeline.not_removed i); [|cleanup_rest]. destruct (ConnectorsManaged _); [|cleanup_rest].
  apply typed_deref. intros c _. cleanup_rest.
Qed.

Lemma typed_addFinalizer i : iteration_ok i -> typed (Pipeline.addFinalizer i) (fun r => iteration_ok r.1).
Proof.
  intros O. unfold Pipeline.addFinalizer. destruct (negb _); [|done]. set (j := on_instance _ i).
  assert (Oj : iteration_ok j) by (apply on_instance_ok; [intros P; by eapply pipeline_ok_same|done]).
  clearbody j. apply typed_call; [apply Oj|]. intros [e|p] P; [done|]. apply set_Instance_ok; auto.
Qed.

Lemma typed_removeFinalizer i : iteration_ok i -> typed (Pipeline.removeFinalizer i) any.
Proof.
  intros [P C]. unfold Pipeline.removeFinalizer. apply typed_call; [by eapply pipeline_ok_same|].
  intros [e|p] _; done.
Qed.

Lemma typed_createConnector i name dry : typed (Pipeline.createConnector i name dry) any.
Proof. apply typed_deref. intros cfg _. apply typed_CreateConnector. Qed.

Lemma typed_recreateView i : typed (Pipeline.recreateViewIfNeeded i) any.
Proof.
  unfold Pipeline.recreateViewIfNeeded. destruct (negb _); [done|].
  eapply (typed_try _ _ any); [eapply typed_mono; [apply typed_GetCurrentTable|done]|done|].
  intros t _. case_bool_decide; [done|]. via typed_UpdateView. by intros [e|] _.
Qed.

Lemma typed_checkForDeviation i : typed (Pipeline.checkForDeviation i) any.
Proof.
  unfold Pipeline.checkForDeviation. apply typed_deref. intros cfg _.
  destruct (negb _); [done|]. destruct (negb _); [done|].
  eapply (typed_try _ _ any); [eapply typed_mono; [apply typed_CheckIfTableExists|done]|done|].
  intros b _. destruct (Bool.eqb b false); [done|]. destruct (negb _); [done|].
  unfold GetConnector. apply typed_call; [done|]. intros [e|k] _; [by destruct (IsNotFound e)|].
  destruct (IsFailed k); [done|]. destruct (Pipeline.label_problem i cfg k); [done|].
  eapply (typed_try _ _ any); [eapply typed_mono; [apply typed_createConnector|done]|done|].
  intros k' _. by apply typed_deref.
Qed.

Lemma typed_updateViewIfHealthier i : iteration_ok i ->
  typed (Pipeline.updateViewIfHealthier i) (fun r => iteration_ok r.1).
Proof.
  intros O. unfold Pipeline.updateViewIfHealthier. destruct (negb _); [done|].
  assert (U : forall j, iteration_ok j -> typed (pbind (UpdateView (AppDb j) (TableName_ (Status (Instance i))))
    (fun err => Ret (j, err))) (fun r => iteration_ok r.1)) by (intros; by via typed_UpdateView).
  via typed_GetCurrentTable. intros [e|[t|]] _; [done| |by apply U].
  destruct (String.eqb _ _); [done|]. via typed_Connect. intros [db err] _.
  assert (Od : iteration_ok (set_InventoryDb db i)) by (by destruct O).
  destruct err as [e|]; [done|]. apply typed_deref. intros cfg _.
  via typed_CountHosts. intros [e|h] _; [done|]. via typed_CountHosts. intros [e|a] _; [done|].
  via typed_CountHosts. intros [e|l] _; [done|]. destruct (Z.ltb _ _); [done|by apply U].
Qed.

Lemma typed_start_connector i v b : iteration_ok i -> typed (Pipeline.start_connector i v b) result_ok.
Proof.
  intros O. unfold Pipeline.start_connector. destruct (ConnectorsManaged _).
  - via typed_createConnector. intros [e|k] _; [apply typed_fail_with|by apply typed_updateStatusAndRequeue].
  - destruct (negb b); [|by apply typed_updateStatusAndRequeue].
    apply (typed_bind _ _ any); [unfold eventWarning; typed_calls|].
    intros _ _. by apply typed_updateStatusAndRequeue.
Qed.

Lemma typed_start_table i cfg v : iteration_ok i -> typed (Pipeline.start_table i cfg v) result_ok.
Proof.
  intros O. unfold Pipeline.start_table. via typed_CheckIfTableExists. intros [e|b] _; [apply typed_fail_with|].
  apply (typed_bind _ _ any).
  - destruct (negb b); [|done]. unfold CreateTable. destruct (template_Parse _); [done|].
    destruct (template_Execute _ _); [done|]. apply typed_Exec.
  - intros [e|] _; [apply typed_fail_with|by apply typed_start_connector].
Qed.

Lemma typed_reconcile_new i : iteration_ok i -> typed (Pipeline.reconcile_new i) result_ok.
Proof.
  intros O. unfold Pipeline.reconcile_new. via (typed_addFinalizer _ O).
  intros [j [e|]] Oj; cbn in Oj; [apply typed_fail_with|]. apply typed_deref. intros cfg _.
  unfold Pipeline.start_version. apply typed_call; [done|]. intros now _.
  apply (typed_bind _ _ any); [unfold probeStartingInitialSync, eventNormal; typed_calls|].
  intros _ _. apply typed_start_table.
  repeat (apply on_instance_ok; [intros P; try apply TransitionToInitialSync_typed; try by eapply pipeline_ok_same|]).
  done.
Qed.

Lemma typed_reconcile_valid i : iteration_ok i -> typed (Pipeline.reconcile_valid i) result_ok.
Proof.
  intros O. unfold Pipeline.reconcile_valid. via typed_recreateView.
  intros [e|[]] _; [apply typed_fail_with| |by apply typed_updateStatusAndRequeue].
  apply (typed_bind _ _ any); [unfold eventNormal; typed_calls|].
  intros _ _. by apply typed_updateStatusAndRequeue.
Qed.

Lemma typed_keep {A} (i : A) p : typed p result_ok -> typed (pbind p (fun res => Ret (i, res))) (fun r => result_ok r.2).
Proof. intros T. by via T. Qed.

Lemma refreshed_ok i : iteration_ok i -> iteration_ok (on_instance TransitionToNew i).
Proof. apply on_instance_ok, TransitionToNew_ok. Qed.

Lemma typed_reconcile_invalid i : iteration_ok i ->
  typed (Pipeline.reconcile_invalid i) (fun r => result_ok r.2).
Proof.
  intros O. unfold Pipeline.reconcile_invalid.
  assert (F : forall j, iteration_ok j ->
    typed (pbind (updateStatusAndRequeue j) (fun res => Ret (j, res))) (fun r => result_ok r.2))
    by (intros; by apply typed_keep, typed_updateStatusAndRequeue).
  case_bool_decide; [|by apply F]. apply typed_deref. intros vc _. destruct (Z.leb _ _); [|by apply F].
  apply (typed_bind _ _ iteration_ok).
  - case_bool_decide; [|done]. via (typed_updateViewIfHealthier _ O). by intros [j err] Oj.
  - intros j Oj. via typed_probe_invalid. intros _ _. by apply F, refreshed_ok.
Qed.

Lemma typed_reconcile_running i : iteration_ok i ->
  typed (Pipeline.reconcile_running i) (fun r => result_ok r.2).
Proof.
  intros O. unfold Pipeline.reconcile_running. via typed_checkForDeviation.
  intros [e|[m|]] _; [apply typed_keep, typed_fail_with| |].
  - via typed_probe_deviation. intros _ _. apply typed_keep, typed_updateStatusAndRequeue. by apply refreshed_ok.
  - apply (typed_bind _ _ any); [destruct (ConnectorsManaged _); [apply typed_SetConnectorState|done]|].
    intros [e|] _; [apply typed_keep, typed_fail_with|].
    case_bool_decide; [by apply typed_keep, typed_reconcile_valid|by apply typed_reconcile_invalid].
Qed.

Lemma typed_finalize {A} (j : A) i : iteration_ok i ->
  typed (pbind (pbind (Pipeline.removeFinalizer i) (fun err =>
     match err with Some e => fail_with e "Error removing finalizer" | None => Ret (0%Z, None) end))
     (fun res => Ret (j, res))) (fun r => result_ok r.2).
Proof.
  intros O. apply typed_keep. via (typed_removeFinalizer _ O). intros [e|] _; [apply typed_fail_with|done].
Qed.

Lemma typed_reconcile_body i serr : iteration_ok i ->
  typed (Pipeline.reconcile_body i serr) (fun r => result_ok r.2).
Proof.
  intros O. unfold Pipeline.reconcile_body. apply (typed_bind _ _ any).
  { destruct serr; [|done]. via typed_error. ret. }
  intros es _. via typed_cleanup. intros stale _. apply (typed_bind _ _ any).
  { generalize (es ++ stale). induction l as [|e l IH]; [done|]. cbn [Pipeline.report_errors].
    via typed_error. intros _ _. exact IH. }
  intros _ _. apply typed_call; [done|]. intros env _.
  case_bool_decide.
  - destruct (es ++ stale); [by apply typed_finalize|]. destruct (negb _); [done|by apply typed_finalize].
  - destruct (es ++ stale); [|done]. via typed_InitLabels. intros _ _.
    case_bool_decide; [by apply typed_keep, typed_reconcile_new|by apply typed_reconcile_running].
Qed.

Lemma typed_Pipeline_Reconcile ns name : typed (Pipeline.Reconcile ns name) result_ok.
Proof.
  unfold Pipeline.Reconcile. via typed_setup. intros [[i|] err] O; cbn in O; [|by destruct err].
  via (typed_reconcile_body i err (O i eq_refl)). intros [j res] R. via typed_Close. ret.
Qed.

(** ** validation_controller.go *)

Lemma typed_run_validation i : iteration_ok i -> typed (Validation.run_validation i) result_ok.
Proof.
  intros O. unfold Validation.run_validation. apply typed_deref. intros cfg _.
  via typed_validate. intros [e|v] V; [apply typed_fail_with|]. specialize (V v eq_refl).
  apply (typed_bind _ _ iteration_ok); [|intros j Oj; by apply typed_updateStatusAndRequeue].
  unfold Validation.record_verdict. destruct (isValid v).
  - apply (typed_bind _ _ any); [case_bool_decide; unfold eventNormal; typed_calls|]. intros _ _.
    apply on_instance_ok; [intros P; by apply SetValid_ok|done].
  - apply typed_call; [done|]. intros _ _.
    apply on_instance_ok; [intros P; by apply SetValid_ok|done].
Qed.

Lemma typed_validation_body check i : iteration_ok i -> typed (Validation.reconcile_body check i) result_ok.
Proof.
  intros O. unfold Validation.reconcile_body. destruct (_ || _); [done|].
  destruct check; [|by apply typed_run_validation]. via typed_checkForDeviation.
  intros [e|[m|]] _; [apply typed_fail_with| |by apply typed_run_validation].
  via typed_probe_deviation. intros _ _. by apply typed_updateStatusAndRequeue, refreshed_ok.
Qed.

Lemma typed_Validation_setup ns name :
  typed (Validation.setup ns name) (fun r => forall i, r.1 = Some i -> iteration_ok i).
Proof.
  unfold Validation.setup. via typed_setup. intros [[i|] err] O; cbn in O; [|done].
  specialize (O i eq_refl). destruct err as [e|]; [by intros ? [= <-]|].
  via typed_Connect. intros [db err] _. cbn. intros ? [= <-]. by destruct O.
Qed.

Lemma typed_Validation_Reconcile check ns name : typed (Validation.Reconcile check ns name) result_ok.
Proof.
  unfold Validation.Reconcile. via typed_Validation_setup. intros [[i|] [e|]] O; cbn in O; [..|done].
  - via typed_error. intros e' _. via typed_Close. ret.
  - via (typed_validation_body check i (O i eq_refl)). intros res R. via typed_Close. ret.
  - done.
Qed.

End WithLibs.
End Typing.

Module TypingProps.
Import Typing.

Section Props.
Context {L : Libs}.

(** C17: Types are kept. In every run of either controller, as long as the
    integers that the API server and the databases answer with fit 64 bits, so
    do the counters in every pipeline and status that is sent and the delay
    until the next run; and every operation on a metric has as many label
    values as its vector has labels, with one of the two declared reasons for
    a refresh, so none panics because of its labels. *)
Theorem runs_well_typed (check : bool) (namespace name : string) (t : list obs) (r : option Result) :
  runs (Pipeline.Reconcile namespace name) t r \/ runs (Validation.Reconcile check namespace name) t r ->
  answers_ok t ->
  calls_ok t /\ forall delay err, r = Some (delay, err) -> Int64.in_range delay.
Proof.
  intros R O.
  assert (T : calls_ok t /\ forall res, r = Some res -> result_ok res).
  { destruct R as [R|R].
    - by apply (typed_sound _ _ _ _ (typed_Pipeline_Reconcile namespace name) R).
    - by apply (typed_sound _ _ _ _ (typed_Validation_Reconcile check namespace name) R). }
  destruct T as [C Q]. split; [done|]. intros d e E. exact (Q _ E).
Qed.

End Props.

(** *** A validation whose config map cannot be read *)

Existing Instances Sim.libs Sim.libs_ok.

Definition forbidden : gerror := GError ROther "forbidden".

Definition unreadable : list obs :=
  [Obs (KGetPipeline "test" "test-pipeline-01") (inr Sample.new_pipeline);
   Obs (KGetConfigMap "cyndi" "cyndi") (inl forbidden);
   Obs (Eventf "Warning" "Failed" "forbidden" []) tt].

Lemma runs_well_typed_witness : calls_ok unreadable /\ Int64.in_range 0.
Proof.
  destruct (runs_well_typed true "test" "test-pipeline-01" unreadable (Some (failure forbidden))) as [C D].
  - right. unfold unreadable. run_tac.
  - constructor; [|constructor; [done|constructor; [done|constructor]]].
    intros p [= <-]. split; [by intros z|by intros z|by vm_compute|by vm_compute].
  - split; [exact C|]. by apply (D 0%Z (Some forbidden)).
Defined.

End TypingProps.
