(* ===== verification/Converged.v ===== *)
(** * A converged pipeline is left alone

    [quiet R p a]: against an environment that answers as [R] says, the program
    [p] returns [a] and writes nothing. When everything a valid pipeline needs
    is there and nothing has changed, a whole run of the pipeline controller
    ([Pipeline.Reconcile], from fetching the resource to closing the databases)
    is quiet: the controller has reached a fixed point. *)

From Stdlib Require Import ZArith Lia String.
From S2P Require Import Prelude GoStd Float GoJson Lang K8sLib Api State Utils Config Effects.
From S2P Require Import Database Connect Iteration Validate Pipeline Validation Sim.
From S2P Require Import StatusUpdate Stale Deviation.
Import Api State Config Database Connect Iteration Pipeline StatusUpdate Deviation.

Module Converged.

(** ** Quiet programs *)

Definition quiet {A} (R : replies) (p : prog A) (a : A) : Prop :=
  result_of (reply R) p tt = Some a /\ wlog (trace_of (reply R) p tt) = [].

Lemma quiet_exec {A} R (p : prog A) a :
  quiet R p a <-> exists t, exec (reply R) p tt = (Some a, tt, t) /\ wlog t = [].
Proof.
  unfold quiet, result_of, trace_of. destruct (exec (reply R) p tt) as [[r []] t]. simpl.
  split; [intros [-> ?]; eauto|intros (t' & [= -> ->] & ?); done].
Qed.

Lemma quiet_ret {A} R (a : A) : quiet R (Ret a) a.
Proof. done. Qed.

Lemma quiet_bind {A B} R (p : prog A) (f : A -> prog B) a b :
  quiet R p a -> quiet R (f a) b -> quiet R (pbind p f) b.
Proof.
  rewrite !quiet_exec. intros (t & E & W) (t' & E' & W'). rewrite exec_bind, E, E'.
  exists (t ++ t'). split; [done|]. by rewrite wlog_app, W, W'.
Qed.

Lemma quiet_call {X} R (e : eff X) x :
  writes e = false -> (reply R X e tt).1 = x -> quiet R (call e) x.
Proof.
  intros W <-. apply quiet_exec. unfold call. simpl.
  destruct (reply R X e tt) as [x []]. simpl. eexists. split; [done|]. simpl. by rewrite W.
Qed.

Lemma quiet_deref {A B} R (o : option A) a (k : A -> prog B) b :
  o = Some a -> quiet R (k a) b -> quiet R (deref o k) b.
Proof. by intros ->. Qed.

(** Go through a program whose calls are answered by rewriting with the facts
    in the context. *)
Ltac quiet_call := apply quiet_call; [reflexivity|simpl; first [eassumption | reflexivity]].
Ltac quiet_step := eapply quiet_bind; [quiet_call|cbn beta iota].

(** ** Methods of the databases *)

Section Databases.
Context (R : replies) (db : BaseDatabase) (conn : nat) (C : connection db = Some conn).

Lemma quiet_RunQuery q s rs :
  rp_query R s q = inr rs -> quiet R (RunQuery db q s) (inr rs).
Proof. intros Q. unfold RunQuery. rewrite C. quiet_step. apply quiet_ret. Qed.

Lemma quiet_table_exists n e nr :
  n <> EmptyString ->
  rp_query R ScanBool (table_exists_query n) = inr (Rows [inr true] e nr) ->
  quiet R (CheckIfTableExists db n) (inr true).
Proof.
  intros N Q. unfold CheckIfTableExists. destruct (String.eqb_spec n EmptyString); [done|].
  eapply quiet_bind; [by apply quiet_RunQuery|]. apply quiet_ret.
Qed.

Lemma quiet_current_table n e nr :
  rp_query R ScanStringPtr current_table_query = inr (Rows [inr (Some n)] e nr) ->
  quiet R (GetCurrentTable db) (inr (Some n)).
Proof.
  intros Q. unfold GetCurrentTable. eapply quiet_bind; [by apply quiet_RunQuery|]. apply quiet_ret.
Qed.

Lemma quiet_tables ts e nr :
  rp_query R ScanString cyndi_tables_query = inr (Rows (map inr ts) e nr) ->
  quiet R (GetCyndiTables db) (inr ts).
Proof.
  intros Q. unfold GetCyndiTables. eapply quiet_bind; [by apply quiet_RunQuery|].
  simpl. rewrite scan_loop_ok. apply quiet_ret.
Qed.

Lemma quiet_Close : exists x, quiet R (Database.Close db) x.
Proof. unfold Database.Close. rewrite C. eexists. quiet_call. Qed.

End Databases.

(** ** The situation *)

Section Situation.
Context {L : Libs}.

(** The iteration that setup prepares *)
Definition prepared (p : CyndiPipeline) (cfg : CyndiConfiguration) (hbi app : DBParams)
    (conn : nat) : ReconcileIteration :=
  {| Instance := p; OriginalInstance := p; config := Some cfg; HBIDBParams := hbi;
     AppDBParams := app; AppDb := {| Config := app; connection := Some conn |};
     InventoryDb := None; GetRequeueInterval := StandardRequeue |}.

(** Setup succeeds: the resource, its configuration, the secrets and the
    database are there. *)
Record reachable (R : replies) (p : CyndiPipeline) (cfg : CyndiConfiguration)
    (hbi app : DBParams) (conn : nat) : Prop := {
  re_fetched : rp_pipeline R = inr p;
  re_config : exists maps,
    quiet R (fetch_config_maps [globalConfigNamespace; Namespace (Meta p)] []) (inr maps) /\
    BuildCyndiConfig (Some p) (Lang.Merge maps) = inr cfg;
  re_hbi : exists s, rp_secret R (cfgInventoryDbSecret cfg) = inr s /\
    db_params_of (Some cfg) s = inr hbi;
  re_app : exists s, rp_secret R (Utils.AppDbSecretName (Spec p)) = inr s /\
    db_params_of (Some cfg) s = inr app;
  re_connect : rp_connect R (connection_string app) = inr conn
}.

(** The status describes the current version, which is valid, and the
    configuration and the resource have not changed since. *)
Record current (p : CyndiPipeline) (cfg : CyndiConfiguration) : Prop := {
  cu_valid : GetState p = STATE_VALID;
  cu_managed : ConnectorsManaged p = true;
  cu_config : CyndiConfigVersion (Status p) = ConfigMapVersion cfg;
  cu_spec : SpecHash (Status p) = cfgSpecHash cfg;
  cu_table : TableName_ (Status p) = TableName (PipelineVersion (Status p));
  cu_connector :
    ConnectorName_ (Status p) = ConnectorName (PipelineVersion (Status p)) (AppName (Spec p));
  cu_active : ActiveTableName (Status p) = TableName_ (Status p)
}.

(** The database holds the table of the version, and the view uses it. *)
Record serving (R : replies) (table : string) : Prop := {
  sv_view : exists e nr,
    rp_query R ScanStringPtr current_table_query = inr (Rows [inr (Some table)] e nr);
  sv_tables : exists e nr,
    rp_query R ScanString cyndi_tables_query = inr (Rows [inr table] e nr);
  sv_exists : exists e nr,
    rp_query R ScanBool (table_exists_query table) = inr (Rows [inr true] e nr)
}.

(** The cluster holds the connector as the operator creates it, healthy, with a
    configuration free of nil, and rendering it once more succeeds. *)
Record feeding (R : replies) (i : ReconcileIteration) (cfg : CyndiConfiguration) (c : gvalue)
  : Prop := {
  fe_listed : rp_connectors R = inr [c];
  fe_found : rp_connector R (ConnectorName_ (Status (Instance i))) = inr c;
  fe_created : created c (ConnectorName_ (Status (Instance i))) (connector_config i cfg)
    (Meta (Instance i)) (is_ephemeral (rp_env R));
  fe_healthy : IsFailed c = false;
  fe_plain : exists m, field c ["spec"; "config"] = Some (GMap m) /\ plain (GMap m) = true;
  fe_renders : exists n,
    quiet R (createConnector i (ConnectorName_ (Status (Instance i))) true) (inr n)
}.

End Situation.

(** ** Each step is quiet *)

Section Steps.
Context {L : Libs} {LOK : LibsOk L}.
Context (R : replies) (p : CyndiPipeline) (cfg : CyndiConfiguration) (hbi app : DBParams)
  (conn : nat) (c : gvalue).
Let i := prepared p cfg hbi app conn.
Let table := TableName_ (Status p).
Context (Re : reachable R p cfg hbi app conn) (Cu : current p cfg) (Se : serving R table)
  (Fe : feeding R i cfg c).

Lemma version_nonempty : PipelineVersion (Status p) <> EmptyString.
Proof.
  intros E. pose proof (cu_valid _ _ Cu) as V.
  unfold GetState in V. rewrite E in V. simpl in V. by case_bool_decide.
Qed.

Lemma table_nonempty : table <> EmptyString.
Proof. unfold table. by rewrite (cu_table _ _ Cu). Qed.

Lemma quiet_current : quiet R (GetCurrentTable (AppDb i)) (inr (Some table)).
Proof. destruct (sv_view _ _ Se) as (e & nr & V). by eapply quiet_current_table. Qed.

Lemma quiet_setup ns name : quiet R (Pipeline.setup ns name) (Some i, None).
Proof.
  destruct Re as [Hp (maps & Hm & Hc) (s1 & S1 & D1) (s2 & S2 & D2) Hconn].
  unfold Pipeline.setup, FetchCyndiPipeline. quiet_step. eapply quiet_bind.
  { unfold parseConfig. eapply quiet_bind; [exact Hm|]. cbn beta iota.
    cbn [new_iteration Instance]. rewrite Hc. apply quiet_ret. }
  cbn [set_config config Instance Meta new_iteration]. cbn beta iota. eapply quiet_bind.
  { unfold LoadDBSecret, FetchSecret. quiet_step. apply quiet_ret. }
  rewrite D1. eapply quiet_bind.
  { unfold LoadDBSecret, FetchSecret. quiet_step. apply quiet_ret. }
  rewrite D2. eapply quiet_bind.
  { unfold AppConnect, Connect, GetConnection. eapply quiet_bind; [quiet_step|]; apply quiet_ret. }
  apply quiet_ret.
Qed.

Lemma listed_name : GetName c = ConnectorName_ (Status p).
Proof. apply GetName_field, (bf_name _ _ _ _ (cr_built _ _ _ _ _ (fe_created _ _ _ _ Fe))). Qed.

Lemma quiet_cleanup : quiet R (deleteStaleDependencies i) [].
Proof.
  pose proof (cu_managed _ _ Cu) as M. pose proof (cu_table _ _ Cu) as T.
  assert (NR : not_removed i = true).
  { unfold not_removed. simpl. by rewrite (cu_valid _ _ Cu). }
  assert (K : kept_by_status i = ([table], [ConnectorName_ (Status p)])).
  { unfold kept_by_status. rewrite NR. cbn [i prepared Instance andb]. rewrite M.
    rewrite (proj2 (String.eqb_neq _ _) version_nonempty). unfold table.
    by rewrite T, (cu_connector _ _ Cu). }
  unfold deleteStaleDependencies. rewrite K, NR. cbn beta iota.
  eapply quiet_bind; [exact quiet_current|]. cbn beta iota. cbn [i prepared Instance]. rewrite M.
  eapply quiet_deref.
  { unfold table. rewrite T. exact (TableNameToConnectorName_TableName _ _). }
  eapply (quiet_bind _ _ _ (inr [c])); [apply quiet_call; [done|apply (fe_listed _ _ _ _ Fe)]|].
  eapply quiet_bind.
  { cbn [delete_connectors Datatypes.app Lang.ContainsString]. rewrite listed_name, String.eqb_refl.
    apply quiet_ret. }
  destruct (sv_tables _ _ Se) as (e & nr & V).
  eapply quiet_bind; [by eapply (quiet_tables _ (AppDb i) conn eq_refl [table])|]. cbn beta iota.
  cbn [delete_tables Datatypes.app Lang.ContainsString]. rewrite String.eqb_refl. apply quiet_ret.
Qed.

(** The dry run renders a connector like any other creation. *)
Lemma quiet_dry_run name cc o n :
  quiet R (CreateConnector name (Namespace (Meta p)) cc (Some o) true) (inr n) ->
  created n name cc o (is_ephemeral (rp_env R)).
Proof.
  intros [Q _]. pose proof (runs_exec _ _ _ _ Q) as Rn.
  assert (E : head (omap getenv_of (trace_of (reply R)
    (CreateConnector name (Namespace (Meta p)) cc (Some o) true) tt)) =
    Some ("EPHEMERAL", rp_env R)).
  { unfold CreateConnector, newConnectorResource, trace_of. cbn [call pbind exec reply].
    by destruct (exec _ _ _) as [[? ?] ?]. }
  refine (runs_wp _ _ _ (fun t r => head (omap getenv_of t) = Some ("EPHEMERAL", rp_env R) ->
    r = Some (inr n) -> created n name cc o (is_ephemeral (rp_env R))) Rn _ E eq_refl).
  apply CreateConnector_wp.
  - intros env r H [= <-] [= ->]. by apply H.
  - intros env c' e [=].
Qed.

Lemma quiet_deviation : quiet R (checkForDeviation i) (inr None).
Proof.
  unfold checkForDeviation. eapply quiet_deref; [reflexivity|].
  cbn [i prepared Instance]. rewrite (cu_config _ _ Cu), (cu_spec _ _ Cu), !String.eqb_refl.
  cbn [negb]. destruct (sv_exists _ _ Se) as (e & nr & X).
  eapply quiet_bind;
    [eapply (quiet_table_exists _ (AppDb i) conn eq_refl); [exact table_nonempty|exact X]|].
  cbn [Bool.eqb]. rewrite (cu_managed _ _ Cu). cbn [negb].
  eapply (quiet_bind _ _ _ (inr c)); [apply quiet_call; [done|apply (fe_found _ _ _ _ Fe)]|].
  cbn beta iota. rewrite (fe_healthy _ _ _ _ Fe).
  pose proof (fe_created _ _ _ _ Fe) as Cr.
  rewrite (proj2 (label_problem_None i cfg c) (created_label_match _ _ _ _ _ _ Cr)).
  destruct (fe_renders _ _ _ _ Fe) as [n Rn].
  eapply quiet_bind; [exact Rn|]. cbn beta iota.
  destruct (fe_plain _ _ _ _ Fe) as (m & F & P).
  assert (Cn : created n (ConnectorName_ (Status p)) (connector_config i cfg) (Meta p)
    (is_ephemeral (rp_env R))) by exact (quiet_dry_run _ _ _ _ Rn).
  eapply quiet_deref; [|apply quiet_ret].
  exact (same_source_same_config _ _ _ _ _ _ (cr_built _ _ _ _ _ Cr) (cr_built _ _ _ _ _ Cn) F P).
Qed.

Lemma quiet_connector_state :
  quiet R (SetConnectorState (ConnectorName_ (Status p)) (Namespace (Meta p))
             (ConnectorPaused (Spec p))) None.
Proof.
  unfold SetConnectorState.
  eapply (quiet_bind _ _ _ (inr c)); [apply quiet_call; [done|apply (fe_found _ _ _ _ Fe)]|].
  cbn beta iota zeta.
  pose proof (bf_state _ _ _ _ (cr_built _ _ _ _ _ (fe_created _ _ _ _ Fe))) as S.
  apply NestedString_field in S. rewrite S. cbn [string_or_empty connector_config Paused i prepared Instance].
  rewrite String.eqb_refl. apply quiet_ret.
Qed.

Lemma quiet_status :
  quiet R (updateStatusAndRequeue i) (Int64.mul Second (StandardInterval cfg), None).
Proof.
  unfold updateStatusAndRequeue. eapply quiet_bind; [exact quiet_current|]. cbn beta iota.
  assert (E : on_instance (upd (set_ActiveTableName table)) i = i).
  { unfold on_instance, set_Instance, i, prepared, table. cbn [Instance].
    rewrite <- (cu_active _ _ Cu). by destruct p as [? ? []]. }
  rewrite E. cbn zeta. cbn [i prepared Instance OriginalInstance].
  rewrite (proj2 (cmp_Equal_iff _ _) eq_refl). cbn [negb].
  eapply quiet_bind; [apply quiet_ret|]. apply quiet_ret.
Qed.

Lemma quiet_body :
  quiet R (reconcile_body i None) (i, (Int64.mul Second (StandardInterval cfg), None)).
Proof.
  unfold reconcile_body. eapply quiet_bind; [apply quiet_ret|].
  eapply quiet_bind; [exact quiet_cleanup|].
  eapply quiet_bind; [apply quiet_ret|]. eapply quiet_bind; [quiet_call|].
  cbn [Instance i prepared Datatypes.app]. cbn zeta. rewrite (cu_valid _ _ Cu). simpl bool_decide.
  cbn beta iota. eapply quiet_bind.
  { unfold InitLabels. repeat (eapply quiet_bind; [quiet_call|]). quiet_call. }
  unfold reconcile_running. eapply quiet_bind; [exact quiet_deviation|]. cbn beta iota.
  cbn [i prepared Instance]. rewrite (cu_managed _ _ Cu).
  eapply quiet_bind; [exact quiet_connector_state|]. cbn beta iota. rewrite (cu_valid _ _ Cu).
  simpl bool_decide. cbn beta iota. eapply quiet_bind; [|apply quiet_ret].
  unfold reconcile_valid. eapply (quiet_bind _ _ _ (inr false)).
  - unfold recreateViewIfNeeded. cbn [i prepared Instance]. rewrite (cu_managed _ _ Cu).
    eapply quiet_bind; [exact quiet_current|]. cbn beta iota zeta.
    rewrite bool_decide_true by done. apply quiet_ret.
  - exact quiet_status.
Qed.

End Steps.

End Converged.

(** ** Properties *)

Module ConvergedProps.
Import Converged.

Section Props.
Context {L : Libs} {LOK : LibsOk L}.

(** C11: A converged pipeline is left alone. If the resource, its configuration
    and its databases can be reached, the pipeline is valid, nothing has
    changed since its version was created, the view uses its table and its
    connector runs as it was created, then a whole run of the pipeline
    controller writes nothing, neither to the cluster nor to the database, and
    asks to be run again after the standard interval. *)
Theorem converged_pipeline_untouched (R : replies) (p : CyndiPipeline) (cfg : CyndiConfiguration)
    (hbi app : DBParams) (conn : nat) (c : gvalue) (ns name : string) :
  reachable R p cfg hbi app conn -> current p cfg -> serving R (TableName_ (Status p)) ->
  feeding R (prepared p cfg hbi app conn) cfg c ->
  result_of (reply R) (Reconcile ns name) tt =
    Some (Int64.mul Second (StandardInterval cfg), None) /\
  wlog (trace_of (reply R) (Reconcile ns name) tt) = [].
Proof.
  intros Re Cu Se Fe. change (quiet R (Reconcile ns name)
    (Int64.mul Second (StandardInterval cfg), None)).
  unfold Reconcile. eapply quiet_bind; [by apply (quiet_setup _ _ _ _ _ _ Re)|].
  cbn beta iota. eapply quiet_bind; [by apply (quiet_body _ _ _ _ _ _ c Re Cu Se Fe)|].
  cbn beta iota. eapply quiet_bind; [|apply quiet_ret]. unfold Close.
  destruct (quiet_Close R (AppDb (prepared p cfg hbi app conn)) conn eq_refl) as [x Q].
  eapply quiet_bind; [exact Q|]. apply quiet_ret.
Qed.

End Props.

(** *** Witness *)

Existing Instances Sim.libs Sim.libs_ok.

(** The answers of a world that does not change *)
Definition frozen (w : Sim.World) : replies := {|
  rp_pipeline := (Sim.world_handler _ (KGetPipeline "test" "test-pipeline-01") w).1;
  rp_pipelines := (Sim.world_handler _ KListPipelines w).1;
  rp_configmap ns := (Sim.world_handler _ (KGetConfigMap ns "cyndi") w).1;
  rp_secret name := (Sim.world_handler _ (KGetSecret "test" name) w).1;
  rp_update p := inr p; rp_status p := inr p;
  rp_connector name := (Sim.world_handler _ (KGetConnector name "test") w).1;
  rp_connectors := (Sim.world_handler _ (KListConnectors "test" (UID Sample.meta)) w).1;
  rp_create o := None; rp_update_connector o := None; rp_delete name := None;
  rp_connect s := (Sim.world_handler _ (PgConnect s) w).1;
  rp_query s q := (Sim.world_handler _ (PgQuery 1 q s) w).1;
  rp_exec q := None; rp_env := Sim.w_env w; rp_now := Sim.w_clock w |}.

Definition settled : replies := frozen Sim.world_valid.

(** The iteration that setup prepares against these answers, and its parts *)
Definition settled_iteration : ReconcileIteration := Sim.iteration_of Sim.world_valid.
Definition settled_pipeline : CyndiPipeline := Instance settled_iteration.
Definition settled_config : CyndiConfiguration :=
  match config settled_iteration with Some cfg => cfg | None => ConfigProps.config0 end.
Definition settled_connector : gvalue :=
  match rp_connectors settled with inr [c] => c | _ => GNil end.

Lemma settled_situation :
  reachable settled settled_pipeline settled_config (HBIDBParams settled_iteration)
    (AppDBParams settled_iteration) 1 /\
  current settled_pipeline settled_config /\
  serving settled (TableName_ (Status settled_pipeline)) /\
  feeding settled (prepared settled_pipeline settled_config (HBIDBParams settled_iteration)
    (AppDBParams settled_iteration) 1) settled_config settled_connector.
Proof.
  split_and!.
  - split; [vm_compute; reflexivity| | | |vm_compute; reflexivity].
    + exists [Sim.configmap]. split; [split; vm_compute; reflexivity|vm_compute; reflexivity].
    + eexists. split; vm_compute; reflexivity.
    + eexists. split; vm_compute; reflexivity.
  - split; vm_compute; reflexivity.
  - split; do 2 eexists; vm_compute; reflexivity.
  - split; [vm_compute; reflexivity..| | |vm_compute; reflexivity| |].
    + vm_compute. reflexivity.
    + split; [|vm_compute; reflexivity].
      split; [eexists; vm_compute; reflexivity|vm_compute; reflexivity..|].
      do 3 eexists. split; [vm_compute; reflexivity|]. split; [vm_compute; reflexivity|].
      split; vm_compute; reflexivity.
    + eexists. split; vm_compute; reflexivity.
    + eexists. split; vm_compute; reflexivity.
Qed.

Lemma converged_pipeline_untouched_witness :
  wlog (trace_of (reply settled) (Reconcile "test" "test-pipeline-01") tt) = [].
Proof.
  destruct settled_situation as (Re & Cu & Se & Fe).
  exact (proj2 (converged_pipeline_untouched settled settled_pipeline settled_config
    (HBIDBParams settled_iteration) (AppDBParams settled_iteration) 1 settled_connector
    "test" "test-pipeline-01" Re Cu Se Fe)).
Defined.

End ConvergedProps.
