(* ===== verification/Connections.v ===== *)
(** * Every database connection is closed

    Go closes the databases of an iteration with [defer i.Close()]. The triple
    [carries before p after] follows the connections that are open through a
    program: started with those of [before] open, [p] ends with at most those
    of [after] open. The theorems: a run of either controller that returns has
    closed every connection it opened. *)

From Stdlib Require Import ZArith Lia String.
From S2P Require Import Prelude GoStd Float GoJson Lang K8sLib Api State Utils Config Effects.
From S2P Require Import Database Connect Iteration Validate Pipeline Validation Sim.
Import Api State Config Database Connect Iteration Pipeline Validate.

Module Connections.

(** ** Open connections of a trace *)

Definition close_of (o : obs) : option nat :=
  match o with
  | Obs e x =>
      match e in eff X return option nat with
      | PgClose c => Some c
      | _ => None
      end
  end.

Definition closes (t : list obs) : list nat := omap close_of t.

Definition opened_by (o : obs) : option nat :=
  match connect_of o with Some (_, inr c) => Some c | _ => None end.

(** Opened and not closed afterwards *)
Fixpoint pending (t : list obs) : list nat :=
  match t with
  | [] => []
  | o :: t' =>
      match opened_by o with
      | Some c => if decide (c ∈ closes t') then pending t' else c :: pending t'
      | None => pending t'
      end
  end.

(** Every connection that a trace opens is closed later. *)
Definition closes_all (t : list obs) : Prop :=
  forall t1 s c t2, t = t1 ++ Obs (PgConnect s) (inr c) :: t2 -> c ∈ closes t2.

Lemma closes_app t t' : closes (t ++ t') = closes t ++ closes t'.
Proof. apply omap_app. Qed.

Lemma elem_of_pending_app t t' c :
  c ∈ pending (t ++ t') <-> (c ∈ pending t /\ c ∉ closes t') \/ c ∈ pending t'.
Proof.
  induction t as [|o t IH]; simpl; [set_solver|].
  destruct (opened_by o) as [d|]; [|done]. rewrite closes_app.
  destruct (decide (d ∈ closes t)), (decide (d ∈ closes t ++ closes t'));
    rewrite ?elem_of_cons, ?IH; [done|set_solver| |].
  - assert (d ∈ closes t') by set_solver. split; [intros [?|?]; auto; naive_solver|].
    intros [[[->|?] ?]|?]; naive_solver.
  - set_solver.
Qed.

Lemma pending_nil t : pending t = [] -> closes_all t.
Proof.
  intros E t1 s c t2 ->. destruct (decide (c ∈ closes t2)) as [|N]; [done|].
  assert (c ∈ pending (t1 ++ Obs (PgConnect s) (inr c) :: t2)) as H.
  { apply elem_of_pending_app. right. simpl. rewrite decide_False by done. by left. }
  rewrite E in H. by apply elem_of_nil in H.
Qed.

(** ** The triple *)

Definition carries {A} (before : list nat) (p : prog A) (after : A -> list nat) : Prop :=
  forall t a c, runs p t (Some a) -> (c ∈ before /\ c ∉ closes t) \/ c ∈ pending t -> c ∈ after a.

Lemma carries_ret {A} b (a : A) q : b ⊆ q a -> carries b (Ret a) q.
Proof. intros S t a' c R. apply runs_ret_inv in R as [-> [= ->]]. set_solver. Qed.

Lemma carries_bind {A B} b (p : prog A) (f : A -> prog B) m q :
  carries b p m -> (forall a, carries (m a) (f a) q) -> carries b (pbind p f) q.
Proof.
  intros Hp Hf t r c R H. apply runs_bind_inv in R as [(t1 & t2 & a & -> & R1 & R2)|[_ ?]]; [|done].
  rewrite closes_app, elem_of_pending_app in H. apply (Hf a _ _ _ R2).
  specialize (Hp t1 a c R1). set_solver.
Qed.

Lemma carries_mono {A} b b' (p : prog A) q q' :
  carries b p q -> b' ⊆ b -> (forall a, q a ⊆ q' a) -> carries b' p q'.
Proof. intros H S S' t a c R X. apply S', (H _ _ _ R). set_solver. Qed.

Lemma carries_panic {A} b (q : A -> list nat) : carries b Panic q.
Proof. intros t a c R. by apply runs_panic_inv in R as [_ ?]. Qed.

Lemma carries_deref {A B} b (o : option A) (k : A -> prog B) q :
  (forall a, o = Some a -> carries b (k a) q) -> carries b (deref o k) q.
Proof. destruct o; intros H; [by apply H|apply carries_panic]. Qed.

Lemma carries_connect b s :
  carries b (call (PgConnect s)) (fun r => match r with inr c => c :: b | inl _ => b end).
Proof.
  intros t r c R. apply runs_call_inv in R as (x & -> & [= ->]). simpl.
  destruct x; simpl; set_solver.
Qed.

Lemma carries_close b c : carries b (call (PgClose c)) (fun _ => List.filter (fun d => negb (Nat.eqb d c)) b).
Proof.
  intros t r d R. apply runs_call_inv in R as (x & -> & [= ->]). simpl.
  intros [[I N]|I]; [|by apply elem_of_nil in I].
  apply list_elem_of_In, List.filter_In. split; [by apply list_elem_of_In|].
  destruct (Nat.eqb_spec d c); [set_solver|done].
Qed.

(** A program that opens nothing needs no attention. *)
Definition no_connect (X : Type) (e : eff X) : Prop :=
  match e with PgConnect _ => False | _ => True end.

Lemma carries_frame {A} b (p : prog A) : only no_connect p -> carries b p (fun _ => b).
Proof.
  intros O t a c R. pose proof (runs_wp _ _ _ _ R (only_wp _ _ O)) as N.
  assert (E : pending t = []).
  { clear R. unfold all_obs in N. induction N as [|[X e x] t He Ht IH]; [done|].
    cbn [obs_eff obs_ty] in He. destruct e; simpl in He; done. }
  rewrite E. set_solver.
Qed.

(** ** Programs that open nothing *)

Ltac opens_nothing :=
  simpl;
  repeat match goal with
  | |- only _ (pbind _ _) => apply only_bind; [|intros ?]
  | |- _ /\ _ => split
  | |- True => exact I
  | |- no_connect _ _ => exact I
  | |- forall _, _ => intros ?; simpl
  | |- only _ (Ret _) => exact I
  | |- only _ (deref ?o _) => destruct o; simpl
  | |- context [match ?x with _ => _ end] => destruct x; simpl
  | _ => progress (auto with cyndi_open)
  end.

Create HintDb cyndi_open discriminated.

Lemma RunQuery_opens_nothing db q s : only no_connect (RunQuery db q s).
Proof. unfold RunQuery. opens_nothing. Qed.
Lemma Exec_opens_nothing db q : only no_connect (Exec db q).
Proof. unfold Exec. opens_nothing. Qed.
(* the type of the rows is only convertible to that of the lemma *)
#[export] Hint Extern 1 (only no_connect (RunQuery ?db ?q ?s)) =>
  exact (RunQuery_opens_nothing db q s) : cyndi_open.
#[export] Hint Resolve Exec_opens_nothing : cyndi_open.

Lemma CheckIfTableExists_opens_nothing db n : only no_connect (CheckIfTableExists db n).
Proof. unfold CheckIfTableExists. opens_nothing. Qed.
Lemma GetCurrentTable_opens_nothing db : only no_connect (GetCurrentTable db).
Proof. unfold GetCurrentTable. opens_nothing. Qed.
Lemma GetCyndiTables_opens_nothing db : only no_connect (GetCyndiTables db).
Proof. unfold GetCyndiTables. opens_nothing. Qed.
Lemma CountHosts_opens_nothing db t io fs : only no_connect (CountHosts db t io fs).
Proof. unfold CountHosts. opens_nothing. Qed.
Lemma GetHostIds_opens_nothing db t io fs : only no_connect (GetHostIds db t io fs).
Proof. unfold GetHostIds. opens_nothing. Qed.
Lemma UpdateView_opens_nothing db n : only no_connect (UpdateView db n).
Proof. unfold UpdateView. opens_nothing. Qed.
#[export] Hint Resolve CheckIfTableExists_opens_nothing GetCurrentTable_opens_nothing
  GetCyndiTables_opens_nothing CountHosts_opens_nothing GetHostIds_opens_nothing
  UpdateView_opens_nothing : cyndi_open.

Lemma DeleteTable_opens_nothing db n : only no_connect (DeleteTable db n).
Proof. unfold DeleteTable. opens_nothing. Qed.
Lemma CreateTable_opens_nothing `{TemplateEngine} db n s : only no_connect (CreateTable db n s).
Proof. unfold CreateTable. opens_nothing. Qed.
#[export] Hint Resolve DeleteTable_opens_nothing CreateTable_opens_nothing : cyndi_open.

Section Controllers.
Context {L : Libs}.

Lemma error_opens_nothing e ps : only no_connect (error e ps).
Proof. unfold error, eventWarning. opens_nothing. Qed.
Lemma fail_with_opens_nothing e p : only no_connect (fail_with e p).
Proof. unfold fail_with, error, eventWarning. opens_nothing. Qed.
#[local] Hint Resolve error_opens_nothing fail_with_opens_nothing : cyndi_open.

Lemma updateStatusAndRequeue_opens_nothing i : only no_connect (updateStatusAndRequeue i).
Proof. unfold updateStatusAndRequeue. opens_nothing. Qed.
Lemma CreateConnector_opens_nothing n ns c o d : only no_connect (CreateConnector n ns c o d).
Proof. unfold CreateConnector, newConnectorResource. opens_nothing. Qed.
#[local] Hint Resolve updateStatusAndRequeue_opens_nothing CreateConnector_opens_nothing : cyndi_open.

Lemma createConnector_opens_nothing i n d : only no_connect (createConnector i n d).
Proof. unfold createConnector. opens_nothing. Qed.
Lemma SetConnectorState_opens_nothing n ns b : only no_connect (SetConnectorState n ns b).
Proof. unfold SetConnectorState, GetConnector. opens_nothing. Qed.
#[local] Hint Resolve createConnector_opens_nothing SetConnectorState_opens_nothing : cyndi_open.

Lemma checkForDeviation_opens_nothing i : only no_connect (checkForDeviation i).
Proof. unfold checkForDeviation, GetConnector. opens_nothing. Qed.
Lemma recreateViewIfNeeded_opens_nothing i : only no_connect (recreateViewIfNeeded i).
Proof. unfold recreateViewIfNeeded. opens_nothing. Qed.
#[local] Hint Resolve checkForDeviation_opens_nothing recreateViewIfNeeded_opens_nothing : cyndi_open.

Lemma reconcile_valid_opens_nothing i : only no_connect (reconcile_valid i).
Proof. unfold reconcile_valid, eventNormal. opens_nothing. Qed.

Lemma delete_connectors_opens_nothing ns keep items errs :
  only no_connect (delete_connectors ns keep items errs).
Proof.
  revert errs. induction items as [|c items IH]; intros errs; [done|].
  cbn [delete_connectors]. unfold DeleteConnector. opens_nothing.
Qed.
Lemma delete_tables_opens_nothing db keep ts errs :
  only no_connect (delete_tables db keep ts errs).
Proof.
  revert errs. induction ts as [|n ts IH]; intros errs; [done|]. cbn [delete_tables]. opens_nothing.
Qed.
Lemma report_errors_opens_nothing errs : only no_connect (report_errors errs).
Proof. induction errs as [|e errs IH]; [done|]. cbn [report_errors]. opens_nothing. Qed.
#[local] Hint Resolve delete_connectors_opens_nothing delete_tables_opens_nothing
  report_errors_opens_nothing reconcile_valid_opens_nothing : cyndi_open.

Lemma deleteStaleDependencies_opens_nothing i : only no_connect (deleteStaleDependencies i).
Proof.
  unfold deleteStaleDependencies, GetConnectorsForOwner. destruct (kept_by_status i). opens_nothing.
Qed.

Lemma removeFinalizer_opens_nothing i : only no_connect (removeFinalizer i).
Proof. unfold removeFinalizer. opens_nothing. Qed.

Lemma start_table_opens_nothing i cfg v : only no_connect (start_table i cfg v).
Proof. unfold start_table, start_connector, eventWarning. opens_nothing. Qed.
#[local] Hint Resolve start_table_opens_nothing removeFinalizer_opens_nothing
  deleteStaleDependencies_opens_nothing : cyndi_open.

Lemma reconcile_new_opens_nothing i : only no_connect (reconcile_new i).
Proof.
  unfold reconcile_new, addFinalizer, start_version, probeStartingInitialSync, eventNormal.
  opens_nothing.
Qed.

Lemma validate_opens_nothing i schema : only no_connect (validate i schema).
Proof. unfold validate, AppHostCount, ValidationFinished. opens_nothing. Qed.

(** ** Programs that open connections *)

Definition handle (db : BaseDatabase) : list nat := option_list (connection db).

(** The connections that closing an iteration closes *)
Definition handles (i : ReconcileIteration) : list nat :=
  handle (AppDb i) ++ match InventoryDb i with Some db => handle db | None => [] end.

(** A failed attempt leaves no connection. *)
Lemma Connect_carries b db :
  carries b (Connect db) (fun r => match r.2 with Some _ => b | None => handle r.1 ++ b end).
Proof.
  unfold Connect, GetConnection. eapply carries_bind; [apply carries_connect|].
  intros [e|c]; by apply carries_ret.
Qed.

Lemma close_db_carries b db :
  carries (handle db ++ b) (Database.Close db) (fun _ => b).
Proof.
  unfold Database.Close, handle. destruct (connection db) as [c|]; [|by apply carries_ret].
  eapply carries_mono; [apply carries_close|reflexivity|]. intros _ d. simpl.
  rewrite Nat.eqb_refl. cbn [negb]. rewrite !list_elem_of_In, List.filter_In. naive_solver.
Qed.

Lemma rotatePassword_carries db : carries [] (rotatePassword db) (fun _ => []).
Proof.
  unfold rotatePassword. eapply carries_bind; [apply Connect_carries|].
  intros [db' [e|]]; cbn [fst snd]; [by apply carries_ret|].
  eapply carries_bind; [apply carries_frame, Exec_opens_nothing|]. intros err.
  eapply carries_bind; [apply close_db_carries|]. intros ?. by apply carries_ret.
Qed.

Lemma AppConnect_carries db : carries [] (AppConnect db) (fun r => handle r.1).
Proof.
  assert (C : carries [] (Connect db) (fun r => handle r.1)).
  { eapply carries_mono; [apply Connect_carries|done|]. intros [d [e|]]; set_solver. }
  unfold AppConnect. eapply carries_bind; [apply Connect_carries|].
  intros [db' [e|]]; cbn [fst snd]; [|apply carries_ret; set_solver].
  destruct (Strings.Contains _ _); [|apply carries_ret; set_solver].
  eapply carries_bind; [apply rotatePassword_carries|].
  intros [db2 [e2|]]; [apply carries_ret; set_solver|].
  eapply carries_mono; [apply Connect_carries|done|]. intros [d [e3|]]; set_solver.
Qed.

Lemma setup_carries ns name :
  carries [] (Pipeline.setup ns name)
    (fun r => match r.1 with Some i => handle (AppDb i) | None => [] end).
Proof.
  assert (N : forall A (q : A -> list nat) (a : A), carries [] (Ret a) q)
    by (intros; apply carries_ret; set_solver).
  assert (F : forall n, only no_connect (fetch_config_maps n [])).
  { intros n. generalize (@nil (gmap string string)).
    induction n as [|x n IH]; intros acc; [done|]. cbn [fetch_config_maps].
    unfold FetchConfigMap. opens_nothing. }
  unfold Pipeline.setup, FetchCyndiPipeline.
  eapply carries_bind; [apply carries_frame; opens_nothing|]. intros [e|p].
  { destruct (IsNotFound e); apply N. }
  eapply carries_bind.
  { apply carries_frame. unfold parseConfig. apply only_bind; [apply F|].
    intros [e|maps]; [done|]. by destruct (BuildCyndiConfig _ _). }
  intros [i [e|]]; [apply N|]. destruct (config i) as [cfg|]; [|apply carries_panic].
  eapply carries_bind; [apply carries_frame; unfold LoadDBSecret, FetchSecret; opens_nothing|].
  intros [e|hbi]; [apply N|].
  eapply carries_bind; [apply carries_frame; unfold LoadDBSecret, FetchSecret; opens_nothing|].
  intros [e|app]; [apply N|].
  eapply carries_bind; [apply AppConnect_carries|]. intros [db err]. by apply carries_ret.
Qed.

Lemma Close_carries i : carries (handles i) (Close i) (fun _ => []).
Proof.
  unfold Close, handles. eapply carries_bind; [apply close_db_carries|]. intros ?.
  destruct (InventoryDb i) as [db|]; [|by apply carries_ret].
  rewrite <- (app_nil_r (handle db)).
  eapply carries_bind; [apply close_db_carries|]. intros ?. by apply carries_ret.
Qed.

(** The step that gives up on a refresh may open the inventory database; the
    iteration then holds it. *)
Lemma healthier_carries i :
  carries (handle (AppDb i)) (updateViewIfHealthier i) (fun r => handles r.1).
Proof.
  assert (Keep : forall x (p : prog (option gerror)), AppDb x = AppDb i -> only no_connect p ->
    carries (handle (AppDb i)) (err <- p ;; Ret (x, err)) (fun r => handles r.1)).
  { intros x p E O. eapply carries_bind; [by apply carries_frame|]. intros err.
    apply carries_ret. unfold handles. cbn [fst]. rewrite E. set_solver. }
  assert (Stop : forall err : option gerror, carries (handle (AppDb i)) (Ret (i, err)) (fun r => handles r.1)).
  { intros err. apply carries_ret. unfold handles. set_solver. }
  unfold updateViewIfHealthier. destruct (negb _); [apply Stop|].
  eapply carries_bind; [apply carries_frame; auto with cyndi_open|].
  intros [e|[x|]]; [apply Stop| |apply Keep; auto with cyndi_open].
  destruct (String.eqb _ _); [apply Stop|].
  eapply carries_bind; [apply Connect_carries|]. intros [db [e|]]; cbn [fst snd].
  { apply carries_ret. unfold handles. set_solver. }
  apply carries_deref. intros cfg _.
  eapply (carries_mono (handles (set_InventoryDb db i)) _ _ (fun r => handles (fst r)));
    [|unfold handles; cbn [set_InventoryDb AppDb InventoryDb]; set_solver|done].
  assert (Stop' : forall err : option gerror, carries (handles (set_InventoryDb db i))
    (Ret (set_InventoryDb db i, err)) (fun r => handles r.1)) by (intros; by apply carries_ret).
  do 3 (eapply carries_bind; [apply carries_frame; auto with cyndi_open|]; intros [?|?];
    [apply Stop'|]).
  destruct (Z.ltb _ _); [apply Stop'|].
  eapply carries_bind; [apply carries_frame; auto with cyndi_open|]. intros err. by apply carries_ret.
Qed.

(** A step after which the same iteration goes on *)
Lemma keep_carries i (p : prog Result) :
  only no_connect p -> carries (handle (AppDb i)) (res <- p ;; Ret (i, res)) (fun r => handles r.1).
Proof.
  intros O. eapply carries_bind; [by apply carries_frame|]. intros r. apply carries_ret.
  unfold handles. set_solver.
Qed.

Lemma reconcile_invalid_carries i :
  carries (handle (AppDb i)) (reconcile_invalid i) (fun r => handles r.1).
Proof.
  assert (Fin : forall x b, b ⊆ handles x ->
    carries b (res <- updateStatusAndRequeue x ;; Ret (x, res)) (fun r => handles r.1)).
  { intros x b S. eapply carries_bind;
      [apply carries_frame, updateStatusAndRequeue_opens_nothing|].
    intros res. by apply carries_ret. }
  assert (S0 : handle (AppDb i) ⊆ handles i) by (unfold handles; set_solver).
  unfold reconcile_invalid. case_bool_decide; [|by apply Fin].
  apply carries_deref. intros vc _. destruct (Z.leb _ _); [|by apply Fin].
  eapply (carries_bind _ _ _ (fun x => handles x)).
  - case_bool_decide; [|by apply carries_ret].
    eapply carries_bind; [apply healthier_carries|]. intros [x err]. by apply carries_ret.
  - intros x. eapply carries_bind; [apply carries_frame|].
    + unfold probePipelineDidNotBecomeValid, PipelineRefreshed, eventWarning. opens_nothing.
    + intros ?. by apply Fin.
Qed.

Lemma reconcile_running_carries i :
  carries (handle (AppDb i)) (reconcile_running i) (fun r => handles r.1).
Proof.
  unfold reconcile_running. eapply carries_bind; [apply carries_frame; auto with cyndi_open|].
  intros [e|[m|]].
  - apply keep_carries, fail_with_opens_nothing.
  - eapply carries_bind; [apply carries_frame|].
    + unfold probeStateDeviationRefresh, PipelineRefreshed, eventWarning. opens_nothing.
    + intros ?. apply keep_carries, updateStatusAndRequeue_opens_nothing.
  - eapply carries_bind; [apply carries_frame; destruct (ConnectorsManaged _); opens_nothing|].
    intros [e|]; [apply keep_carries, fail_with_opens_nothing|].
    case_bool_decide; [|apply reconcile_invalid_carries].
    apply keep_carries, reconcile_valid_opens_nothing.
Qed.

Lemma reconcile_body_carries i err :
  carries (handle (AppDb i)) (reconcile_body i err) (fun r => handles r.1).
Proof.
  assert (Stop : forall e, carries (handle (AppDb i)) (Ret (i, failure e)) (fun r => handles r.1)).
  { intros e. apply carries_ret. unfold handles. set_solver. }
  unfold reconcile_body.
  eapply carries_bind; [apply carries_frame; destruct err; opens_nothing|]. intros es.
  eapply carries_bind; [apply carries_frame; auto with cyndi_open|]. intros stale.
  eapply carries_bind; [apply carries_frame; auto with cyndi_open|]. intros ?.
  eapply carries_bind; [apply carries_frame; opens_nothing|]. intros env. cbn zeta.
  assert (Fin : carries (handle (AppDb i))
    (res <- (err <- removeFinalizer i ;;
             match err with
             | Some e => fail_with e "Error removing finalizer"
             | None => Ret (0%Z, None)
             end) ;; Ret (i, res)) (fun r => handles r.1)).
  { apply keep_carries. apply only_bind; [apply removeFinalizer_opens_nothing|].
    intros [e|]; [apply fail_with_opens_nothing|done]. }
  case_bool_decide; destruct (es ++ stale) as [|e errs].
  - exact Fin.
  - destruct (negb _); [apply Stop|exact Fin].
  - eapply carries_bind; [apply carries_frame; unfold InitLabels; opens_nothing|]. intros ?.
    case_bool_decide; [|apply reconcile_running_carries].
    apply keep_carries, reconcile_new_opens_nothing.
  - apply Stop.
Qed.

Lemma validation_body_opens_nothing check i :
  only no_connect (Validation.reconcile_body check i).
Proof.
  assert (V : only no_connect (Validation.run_validation i)).
  { unfold Validation.run_validation. destruct (config i) as [cfg|]; [|done]. cbn [deref].
    apply only_bind; [apply validate_opens_nothing|]. intros [e|v]; [auto with cyndi_open|].
    apply only_bind; [|auto with cyndi_open]. unfold Validation.record_verdict, eventNormal.
    destruct (isValid v); [|opens_nothing]. case_bool_decide; opens_nothing. }
  unfold Validation.reconcile_body. destruct (_ || _); [done|]. destruct check; [|exact V].
  apply only_bind; [auto with cyndi_open|]. intros [e|[m|]]; [auto with cyndi_open| |exact V].
  apply only_bind; [|auto with cyndi_open].
  unfold probeStateDeviationRefresh, PipelineRefreshed, eventWarning. opens_nothing.
Qed.

Lemma Reconcile_carries ns name : carries [] (Pipeline.Reconcile ns name) (fun _ => []).
Proof.
  unfold Pipeline.Reconcile. eapply carries_bind; [apply setup_carries|].
  intros [[i|] err]; cbn [fst].
  - eapply carries_bind; [apply reconcile_body_carries|]. intros [j res]. cbn [fst].
    eapply carries_bind; [apply Close_carries|]. intros ?. by apply carries_ret.
  - destruct err; [apply carries_panic|by apply carries_ret].
Qed.

Lemma Validation_carries check ns name :
  carries [] (Validation.Reconcile check ns name) (fun _ => []).
Proof.
  unfold Validation.Reconcile. eapply (carries_bind _ _ _
    (fun r => match r.1 with Some i => handles i | None => [] end)).
  - unfold Validation.setup. eapply carries_bind; [apply setup_carries|].
    intros [[i|] [e|]]; cbn [fst]; try (apply carries_ret; unfold handles; set_solver).
    eapply carries_bind; [apply Connect_carries|]. intros [db [e|]]; apply carries_ret;
      unfold handles; cbn; set_solver.
  - intros [[i|] [e|]]; cbn [fst].
    + eapply carries_bind; [apply carries_frame, error_opens_nothing|]. intros e'.
      eapply carries_bind; [apply Close_carries|]. intros ?. by apply carries_ret.
    + eapply carries_bind; [apply carries_frame, validation_body_opens_nothing|]. intros res.
      eapply carries_bind; [apply Close_carries|]. intros ?. by apply carries_ret.
    + apply carries_panic.
    + by apply carries_ret.
Qed.

End Controllers.

End Connections.

(** ** Properties *)

Module ConnectionsProps.
Import Connections.

Section Props.
Context {L : Libs}.

(** C25: No connection is leaked: a run of either controller that returns has
    closed every connection to a database it opened, whatever failed on the
    way. The attempts of the password rotation and the inventory database
    opened in the middle of an iteration are included. *)
Theorem connections_closed (ns name : string) (check : bool) (t : list obs) (r : Result) :
  runs (Pipeline.Reconcile ns name) t (Some r) \/
  runs (Validation.Reconcile check ns name) t (Some r) ->
  closes_all t.
Proof.
  intros [R|R]; apply pending_nil, elem_of_nil_inv; intros c I.
  - apply (elem_of_nil c), (Reconcile_carries ns name t r c R). by right.
  - apply (elem_of_nil c), (Validation_carries check ns name t r c R). by right.
Qed.

End Props.

(** *** Witness *)

Existing Instances Sim.libs.

Definition rec0 : prog Result := Validation.Reconcile true "test" "test-pipeline-01".

Lemma connections_closed_witness :
  length (connects (trace_of Sim.world_handler rec0 Sim.world_valid)) = 2 /\
  closes_all (trace_of Sim.world_handler rec0 Sim.world_valid).
Proof.
  split; [vm_compute; reflexivity|].
  assert (E : exists r, result_of Sim.world_handler rec0 Sim.world_valid = Some r)
    by (eexists; vm_compute; reflexivity).
  destruct E as [r E].
  apply (connections_closed "test" "test-pipeline-01" true _ r). right. exact (runs_exec _ _ _ _ E).
Defined.

End ConnectionsProps.
