(* ===== verification/Interface.v ===== *)
(** * controllers/database/types.go: the interface Database

    [Database] is the Go interface: its methods over a type of receivers. The
    iteration uses the inventory through it. [DatabaseOk] is the contract that
    its callers rely on: connections are accounted for, queries and commands go
    to the connection or fail without a call, host counts and identifiers are
    read by one query. *)

From Stdlib Require Import ZArith Lia String.
From S2P Require Import Prelude GoStd GoJson Lang K8sLib Api State Utils Config Effects Database.
From S2P Require Import Stale Connections.
Import Api Config Database Connections.

Module Interface.

Class Database (D : Type) := {
  db_Connect : D -> prog (D * option gerror);
  db_Close : D -> prog (option gerror);
  db_RunQuery : D -> string -> forall s, prog (result (rows (scan_val s)));
  db_Exec : D -> string -> prog (option gerror);
  db_CountHosts : D -> string -> bool -> filters -> prog (result Z);
  db_GetHostIds : D -> string -> bool -> filters -> prog (result (list string))
}.

(** The receivers *BaseDatabase and *AppDatabase. An AppDatabase embeds a
    BaseDatabase and has its methods but Connect. *)
#[export] Instance base_database : Database BaseDatabase := {
  db_Connect := Connect;
  db_Close := Close;
  db_RunQuery := RunQuery;
  db_Exec := Exec;
  db_CountHosts := CountHosts;
  db_GetHostIds := GetHostIds
}.

Record AppDatabase := { embedded : BaseDatabase }.

#[export] Instance app_database : Database AppDatabase := {
  db_Connect db := ' (b, err) <- AppConnect (embedded db) ;; Ret ({| embedded := b |}, err);
  db_Close db := Close (embedded db);
  db_RunQuery db := RunQuery (embedded db);
  db_Exec db := Exec (embedded db);
  db_CountHosts db := CountHosts (embedded db);
  db_GetHostIds db := GetHostIds (embedded db)
}.

(** ** The contract *)

(** What a query for one kind of rows, read by [read], makes of the answer *)
Definition asks {D A} `{Database D} (conn : D -> option nat) (d : D) (q : string) (s : scan_ty)
    (read : list (gerror + scan_val s) -> result A) (p : prog (result A)) : Prop :=
  forall t r, runs p t r <->
    match conn d with
    | None => t = [] /\ r = Some (inl no_connection)
    | Some c => exists x, t = [Obs (PgQuery c q s) x] /\
        r = Some (match x with inl e => inl (query_error q e) | inr rs => read (rows_data rs) end)
    end.

Class DatabaseOk (D : Type) `{Database D} (conn : D -> option nat) : Prop := {
  (* the only connection left open is the receiver's, and only on success *)
  connect_accounts d t d' err :
    runs (db_Connect d) t (Some (d', err)) ->
    match err with
    | None => exists c, conn d' = Some c /\ pending t = [c]
    | Some _ => pending t = []
    end;
  connect_returns d t r : runs (db_Connect d) t r -> r <> None;
  close_connection d t r :
    runs (db_Close d) t r <->
    match conn d with
    | None => t = [] /\ r = Some None
    | Some c => exists x, t = [Obs (PgClose c) x] /\ r = Some x
    end;
  query_answer d q s t r :
    runs (db_RunQuery d q s) t r <->
    match conn d with
    | None => t = [] /\ r = Some (inl no_connection)
    | Some c => exists x, t = [Obs (PgQuery c q s) x] /\
        r = Some (match x with inl e => inl (query_error q e) | inr rs => inr rs end)
    end;
  exec_answer d q t r :
    runs (db_Exec d q) t r <->
    match conn d with
    | None => t = [] /\ r = Some (Some no_connection)
    | Some c => exists x, t = [Obs (PgExec c q) x] /\
        r = Some (match x with Some e => Some (query_error q e) | None => None end)
    end;
  count_hosts d table io fs :
    asks conn d (hostCountQuery table io fs) ScanInt64 (fun l => count_loop l 0)
      (db_CountHosts d table io fs);
  host_ids d table io fs :
    asks conn d (hostIdQuery table io fs) ScanString (fun l => scan_loop l [])
      (db_GetHostIds d table io fs)
}.

(** ** The embedded database *)

Lemma runs_ret_iff {A} (a : A) t r : runs (Ret a) t r <-> t = [] /\ r = Some a.
Proof. split; [by intros [-> ->]%runs_ret_inv|]. intros [-> ->]. constructor. Qed.

(** A program that makes one call and returns *)
Lemma runs_call_iff {A X} (e : eff X) (f : X -> A) t r :
  runs (Call e (fun x => Ret (f x))) t r <-> exists x, t = [Obs e x] /\ r = Some (f x).
Proof.
  split.
  - intros R. change (Call e (fun x => Ret (f x))) with (pbind (call e) (fun x => Ret (f x))) in R.
    apply runs_bind_inv in R as [(t1 & t2 & a & -> & R1 & R2)|[R1 _]];
      apply runs_call_inv in R1 as (x & -> & [= E]). subst a.
    apply runs_ret_inv in R2 as [-> ->]. by exists x.
  - intros (x & -> & ->). constructor. constructor.
Qed.

(** The same tree, up to the functions in it *)
Lemma runs_ext {A X} (e : eff X) (k k' : X -> prog A) t r :
  (forall x, k x = k' x) -> runs (Call e k) t r <-> runs (Call e k') t r.
Proof.
  intros E. assert (D : forall k k' : X -> prog A, (forall x, k x = k' x) ->
    runs (Call e k) t r -> runs (Call e k') t r).
  { clear. intros k k' E R.
    change (Call e k) with (pbind (call e) k) in R.
    apply runs_bind_inv in R as [(t1 & t2 & a & -> & R1 & R2)|[R1 _]];
      apply runs_call_inv in R1 as (x & -> & [= Ex]). subst a. constructor. by rewrite <- E. }
  split; apply D; congruence.
Qed.

Lemma RunQuery_answer db q s t r :
  runs (RunQuery db q s) t r <->
  match connection db with
  | None => t = [] /\ r = Some (inl no_connection)
  | Some c => exists x, t = [Obs (PgQuery c q s) x] /\
      r = Some (match x with inl e => inl (query_error q e) | inr rs => inr rs end)
  end.
Proof.
  unfold RunQuery. destruct (connection db) as [c|]; [|apply runs_ret_iff].
  rewrite <- (runs_call_iff _ (fun x => match x with inl e => inl (query_error q e) | inr rs => inr rs end)).
  apply runs_ext. by intros [].
Qed.

Lemma Exec_answer db q t r :
  runs (Exec db q) t r <->
  match connection db with
  | None => t = [] /\ r = Some (Some no_connection)
  | Some c => exists x, t = [Obs (PgExec c q) x] /\
      r = Some (match x with Some e => Some (query_error q e) | None => None end)
  end.
Proof.
  unfold Exec. destruct (connection db) as [c|]; [|apply runs_ret_iff].
  rewrite <- (runs_call_iff _ (fun x => match x with Some e => Some (query_error q e) | None => None end)).
  apply runs_ext. by intros [].
Qed.

Lemma Close_answer db t r :
  runs (Close db) t r <->
  match connection db with
  | None => t = [] /\ r = Some None
  | Some c => exists x, t = [Obs (PgClose c) x] /\ r = Some x
  end.
Proof.
  unfold Close. destruct (connection db) as [c|]; [|apply runs_ret_iff]. apply (runs_call_iff _ id).
Qed.

(** A query whose rows are read to the end *)
Lemma query_asks {A} db q s (read : list (gerror + scan_val s) -> result A) :
  asks (H := base_database) connection db q s read (try rs <- RunQuery db q s ;; Ret (read (rows_data rs))).
Proof.
  intros t r. unfold RunQuery. destruct (connection db) as [c|]; [|apply runs_ret_iff].
  rewrite <- (runs_call_iff _ (fun x => match x with inl e => inl (query_error q e) | inr rs => read (rows_data rs) end)).
  apply runs_ext. by intros [].
Qed.

(** Connecting, with the connections it leaves open *)
Definition accounted (t : list obs) (r : option (BaseDatabase * option gerror)) : Prop :=
  match r with
  | Some (db, None) => exists c, connection db = Some c /\ pending t = [c]
  | Some (db, Some _) => pending t = []
  | None => False
  end.

Lemma Connect_accounted db : wp (Connect db) accounted.
Proof. unfold Connect, GetConnection. simpl. intros [e|c]; simpl; eauto. Qed.

Lemma AppConnect_accounted db : wp (AppConnect db) accounted.
Proof.
  unfold AppConnect, Connect, GetConnection. simpl. intros [e|c]; simpl; [|eauto].
  case_goal; simpl; [|done]. intros [e'|c]; simpl; [done|]. intros [e'|] x; simpl.
  - by rewrite decide_True by left.
  - intros [e3|c3]; simpl; rewrite decide_True by left; eauto.
Qed.

(** ** A client of the interface: connect, work, close

    As the controllers use it, spread over setup and Close. *)
Section Client.
Context {D : Type} `{DB : Database D} {conn : D -> option nat} {DOK : DatabaseOk D conn}.

Definition session {A} (d : D) (work : D -> prog A) : prog (result A) :=
  ' (d, err) <- db_Connect d ;;
  match err with
  | Some e => Ret (inl e)
  | None => a <- work d ;; db_Close d ;; Ret (inr a)
  end.

(** Nothing stays open after a session whose work opens nothing. *)
Lemma session_leaves_nothing {A} (d : D) (work : D -> prog A) t r :
  (forall d, only no_connect (work d)) -> runs (session d work) t (Some r) -> pending t = [].
Proof.
  intros W R. unfold session in R.
  apply runs_bind_inv in R as [(t1 & t2 & [d' err] & -> & R1 & R2)|[_ ?]]; [|done].
  pose proof (connect_accounts _ _ _ _ R1) as P. destruct err as [e|].
  { apply runs_ret_inv in R2 as [-> _]. by rewrite app_nil_r. }
  destruct P as (c & C & P).
  apply runs_bind_inv in R2 as [(t3 & t4 & a & -> & R3 & R4)|[_ ?]]; [|done].
  apply runs_bind_inv in R4 as [(t5 & t6 & x & -> & R5 & R6)|[_ ?]]; [|done].
  apply runs_ret_inv in R6 as [-> _]. apply close_connection in R5. rewrite C in R5.
  destruct R5 as (y & -> & _).
  destruct (pending (t1 ++ t3 ++ [Obs (PgClose c) y] ++ [])) as [|k l] eqn:E; [done|exfalso].
  assert (I : k ∈ k :: l) by left. rewrite <- E in I.
  rewrite !elem_of_pending_app, !closes_app, P in I. simpl in I.
  assert (N : k ∉ pending t3).
  { intros K. pose proof (carries_frame [] (work d') (W d') t3 a k R3 (or_intror K)) as N. by apply elem_of_nil in N. }
  rewrite list_elem_of_singleton in I. destruct I as [[-> I]|[[I _]|I]]; [|done|by destruct I as [[I _]|I]; apply elem_of_nil in I].
  apply I. apply elem_of_app. right. by left.
Qed.

End Client.
End Interface.

Module InterfaceProps.
Import Interface.

#[export] Instance base_database_ok : DatabaseOk BaseDatabase connection.
Proof.
  split.
  - intros d t d' err R. pose proof (runs_wp _ _ _ _ R (Connect_accounted d)) as W. by destruct err.
  - intros d t r R ->. exact (runs_wp _ _ _ _ R (Connect_accounted d)).
  - apply Close_answer.
  - apply RunQuery_answer.
  - apply Exec_answer.
  - intros. apply query_asks.
  - intros. apply query_asks.
Qed.

#[export] Instance app_database_ok : DatabaseOk AppDatabase (fun db => connection (embedded db)).
Proof.
  assert (W : forall d t r, runs (db_Connect (D := AppDatabase) d) t r ->
    exists x, runs (AppConnect (embedded d)) t x /\ accounted t x /\
      r = (fun '(b, err) => ({| embedded := b |}, err)) <$> x).
  { intros d t r R. cbn [db_Connect app_database] in R.
    apply runs_bind_inv in R as [(t1 & t2 & [b err] & -> & R1 & R2)|[R1 ->]].
    - apply runs_ret_inv in R2 as [-> ->]. rewrite app_nil_r.
      exists (Some (b, err)). split_and!; [done|exact (runs_wp _ _ _ _ R1 (AppConnect_accounted (embedded d)))|done].
    - destruct (runs_wp _ _ _ _ R1 (AppConnect_accounted (embedded d))). }
  split.
  - intros d t d' err ([[b e]|] & _ & A & E)%W; [|done]. cbn in E. injection E as -> ->. exact A.
  - intros d t r (x & _ & A & E)%W ->. by destruct x as [[]|].
  - intros [d]. apply Close_answer.
  - intros [d]. apply RunQuery_answer.
  - intros [d]. apply Exec_answer.
  - intros [d] *. exact (query_asks d _ ScanInt64 (fun l => count_loop l 0)).
  - intros [d] *. exact (query_asks d _ ScanString (fun l => scan_loop l [])).
Qed.

(** C26: The contract of the interface. Both databases implement it: connecting
    returns, leaves exactly the receiver's connection open on success and none
    on failure (the one used for rotating a password is closed again); without a
    connection, queries and commands fail and no call is made; with one, each
    makes exactly one call on it and wraps its error; the host counts and the
    identifiers are what one query answers. *)
Theorem databases_meet_contract :
  DatabaseOk BaseDatabase connection /\ DatabaseOk AppDatabase (fun db => connection (embedded db)).
Proof. split; [exact base_database_ok|exact app_database_ok]. Qed.

End InterfaceProps.
