(* ===== verification/Setup.v ===== *)
(** * Preparing an iteration

    What [Pipeline.setup] and [Validation.setup] do on every branch: which
    resources they read, what they make of the answers, and the one thing they
    may change, the password of the database role. [configured] is the
    reference definition of the configuration in force: the config map of the
    pipeline's namespace over the global one. *)

From Stdlib Require Import ZArith Lia String.
From S2P Require Import Prelude GoStd Float GoJson Lang K8sLib Api State Utils Config Effects.
From S2P Require Import Database Connect Iteration Validate Pipeline Validation Sim.
Import Api State Config Database Connect Iteration Pipeline.

Module Setup.

(** ** The configuration in force *)

(** A config map that does not exist counts as an empty one. *)
Definition present (answer : result (gmap string string)) : result (gmap string string) :=
  match answer with
  | inl e => if IsNotFound e then inr ∅ else inl e
  | inr m => inr m
  end.

(** The pipeline's own map wins over the global one. *)
Definition settings (global own : result (gmap string string)) : result (gmap string string) :=
  match present global, present own with
  | inl e, _ | inr _, inl e => inl e
  | inr g, inr o => inr (o ∪ g)
  end.

Definition configured (p : CyndiPipeline) (global own : result (gmap string string))
  : result CyndiConfiguration :=
  match settings global own with
  | inl e => inl e
  | inr m =>
      match BuildCyndiConfig (Some p) m with
      | inl e => inl (Errorf_wrap ("Error parsing cyndi configmap in " +s+ Namespace (Meta p) +s+ ": ") e)
      | inr cfg => inr cfg
      end
  end.

(** The questions asked for it: the second one only if the first was answered *)
Definition config_trace (p : CyndiPipeline) (global own : result (gmap string string)) : list obs :=
  Obs (KGetConfigMap globalConfigNamespace configMapName) global ::
  match present global with
  | inl _ => []
  | inr _ => [Obs (KGetConfigMap (Namespace (Meta p)) configMapName) own]
  end.

Lemma Merge_one m : Lang.Merge [m] = m.
Proof. unfold Lang.Merge. simpl. rewrite Lang.merge_into_union. by rewrite (right_id_L ∅ (∪)). Qed.

Lemma Merge_two g o : Lang.Merge [g; o] = o ∪ g.
Proof.
  unfold Lang.Merge. simpl. rewrite !Lang.merge_into_union. by rewrite (right_id_L ∅ (∪)).
Qed.

(** The merge of the maps that exist *)
Lemma Merge_present (global own : result (gmap string string)) g o :
  present global = inr g -> present own = inr o ->
  Lang.Merge ((match global with inr m => [m] | inl _ => [] end) ++
              (match own with inr m => [m] | inl _ => [] end)) = o ∪ g.
Proof.
  unfold present. intros G O.
  destruct global as [e|g'], own as [e'|o']; simpl;
    repeat match goal with
    | H : (if ?b then _ else _) = _ |- _ => destruct b; [|done]; injection H as <-
    | H : inr _ = inr _ |- _ => injection H as <-
    end.
  - by rewrite Lang.Merge_nil, (left_id_L ∅ (∪)).
  - by rewrite Merge_one, (right_id_L ∅ (∪)).
  - by rewrite Merge_one, (left_id_L ∅ (∪)).
  - apply Merge_two.
Qed.

Lemma parseConfig_runs i t r :
  runs (parseConfig i) t r ->
  exists global own, t = config_trace (Instance i) global own /\
    r = Some (match configured (Instance i) global own with
              | inl e => (i, Some e)
              | inr cfg => (set_config cfg i, None)
              end).
Proof.
  intros R. unfold parseConfig, fetch_config_maps, FetchConfigMap in R.
  pattern t, r. apply (runs_wp _ _ _ _ R). simpl. intros global.
  unfold configured, settings, config_trace.
  assert (Fin : forall own g, present global = inr g ->
    wp (match BuildCyndiConfig (Some (Instance i)) (Lang.Merge
               ((match global with inr m => [m] | inl _ => [] end) ++
                (match own with inr m => [m] | inl _ => [] end))) with
        | inl err => Ret (i, Some (Errorf_wrap ("Error parsing " +s+ configMapName +s+
                            " configmap in " +s+ Namespace (Meta (Instance i)) +s+ ": ") err))
        | inr cfg => Ret (set_config cfg i, None)
        end)
      (fun t' r' => forall o, present own = inr o ->
         t' = [] /\ r' = Some
           match BuildCyndiConfig (Some (Instance i)) (o ∪ g) with
           | inl e => (i, Some (Errorf_wrap ("Error parsing cyndi configmap in " +s+
                                  Namespace (Meta (Instance i)) +s+ ": ") e))
           | inr cfg => (set_config cfg i, None)
           end)).
  { intros own g G. apply wp_sound. intros t' r' R' o O.
    rewrite (Merge_present _ _ g o G O) in R'.
    destruct (BuildCyndiConfig _ _); apply runs_ret_inv in R' as [-> ->]; done. }
  destruct global as [e|g]; simpl in *.
  - destruct (IsNotFound e) eqn:N; simpl.
    + intros own. destruct own as [e'|o]; simpl.
      * destruct (IsNotFound e') eqn:N'; simpl.
        -- eapply wp_mono; [|exact (Fin (inl e') ∅ eq_refl)]. intros t' r' H.
           exists (inl e), (inl e'). simpl. rewrite N, N'.
           destruct (H ∅) as [-> ->]; [by simpl; rewrite N'|].
           split; [done|]. by destruct (BuildCyndiConfig _ _).
        -- exists (inl e), (inl e'). simpl. by rewrite N, N'.
      * eapply wp_mono; [|exact (Fin (inr o) ∅ eq_refl)]. intros t' r' H.
        exists (inl e), (inr o). simpl. rewrite N.
        destruct (H o eq_refl) as [-> ->]. split; [done|]. by destruct (BuildCyndiConfig _ _).
    + exists (inl e), (inl e). simpl. by rewrite N.
  - intros own. destruct own as [e'|o]; simpl.
    + destruct (IsNotFound e') eqn:N'; simpl.
      * eapply wp_mono; [|exact (Fin (inl e') g eq_refl)]. intros t' r' H.
        exists (inr g), (inl e'). simpl. rewrite N'.
        destruct (H ∅) as [-> ->]; [by simpl; rewrite N'|].
        split; [done|]. by destruct (BuildCyndiConfig _ _).
      * exists (inr g), (inl e'). simpl. by rewrite N'.
    + eapply wp_mono; [|exact (Fin (inr o) g eq_refl)]. intros t' r' H.
      exists (inr g), (inr o). simpl.
      destruct (H o eq_refl) as [-> ->]. split; [done|]. by destruct (BuildCyndiConfig _ _).
Qed.

(** ** Connecting *)

(** The statement that rotates the initial password *)
Definition alter_role (user password : string) : string :=
  "ALTER ROLE " +s+ user +s+ " WITH PASSWORD '" +s+ password +s+ "'".

Definition setup_effect (X : Type) (e : eff X) : Prop :=
  match e with
  | PgExec _ q => exists user password, q = alter_role user password
  | _ => writes e = false
  end.

Lemma setup_effect_reads : allows_reads setup_effect.
Proof. intros X e W. by destruct e. Qed.

Lemma AppConnect_only db : only setup_effect (AppConnect db).
Proof.
  pose proof setup_effect_reads as RO.
  unfold AppConnect, rotatePassword. apply only_bind; [apply only_reads; auto with cyndi_prog|].
  intros [db' [e|]]; [|done]. destruct (Strings.Contains _ _); [|done].
  apply only_bind.
  - apply only_bind; [apply only_reads; auto with cyndi_prog|]. intros [db2 [e2|]]; [done|].
    apply only_bind.
    + unfold Exec. destruct (connection db2); [|done]. simpl. split; [eauto|]. by intros [|].
    + intros err. apply only_bind; [apply only_reads; auto with cyndi_prog|done].
  - intros [db2 [e2|]]; [done|]. apply only_reads; auto with cyndi_prog.
Qed.

(** A connection is for the given parameters, or for those with the initial
    password, when that had to be rotated. *)
Definition connected (app : DBParams) (db : BaseDatabase) : Prop :=
  connection db <> None /\
  (Database.Config db = app \/
   Database.Config db = Database.Config (with_Password (NewAppDatabase app) initialPassword)).

Lemma Connect_returns db :
  returns (fun r => Database.Config r.1 = Database.Config db /\
             (r.2 = None <-> connection r.1 <> None)) (Connect db).
Proof. unfold Connect, GetConnection. simpl. intros [e|c]; simpl; naive_solver. Qed.

Lemma AppConnect_returns app t db err :
  runs (AppConnect (NewAppDatabase app)) t (Some (db, err)) ->
  err = None -> connected app db.
Proof.
  intros R ->. unfold AppConnect in R.
  apply runs_bind_inv in R as [(t1 & t2 & [db1 e1] & -> & R1 & R)|[_ ?]]; [|done].
  apply (runs_returns _ _ _ _ (Connect_returns _)) in R1 as [C1 F1]. simpl in C1, F1.
  destruct e1 as [e|].
  2: { apply runs_ret_inv in R as [_ [= ->]]. split; [by apply F1|by left]. }
  destruct (Strings.Contains _ _); [|by apply runs_ret_inv in R as [_ ?]].
  apply runs_bind_inv in R as [(t3 & t4 & [db2 e2] & -> & R2 & R)|[_ ?]]; [|done].
  destruct e2 as [e2|]; [by apply runs_ret_inv in R as [_ ?]|].
  assert (C2 : Database.Config db2 =
               Database.Config (with_Password (NewAppDatabase app) initialPassword)).
  { unfold rotatePassword in R2.
    apply runs_bind_inv in R2 as [(t5 & t6 & [db3 e3] & -> & R3 & R2)|[_ ?]]; [|done].
    apply (runs_returns _ _ _ _ (Connect_returns _)) in R3 as [C3 _]. simpl in C3.
    destruct e3; [by apply runs_ret_inv in R2 as [_ ?]|].
    apply runs_bind_inv in R2 as [(? & ? & ? & -> & _ & R2)|[_ ?]]; [|done].
    apply runs_bind_inv in R2 as [(? & ? & ? & -> & _ & R2)|[_ ?]]; [|done].
    apply runs_ret_inv in R2 as [_ [= -> _]]. by rewrite C3, C1. }
  apply (runs_returns _ _ _ _ (Connect_returns _)) in R as [C F]. simpl in C, F.
  split; [by apply F|right]. congruence.
Qed.

(** ** setup *)

(** Everything an iteration was promised *)
Record equipped (p : CyndiPipeline) (cfg : CyndiConfiguration) (t : list obs)
    (i : ReconcileIteration) : Prop := {
  eq_inventory : exists s, Obs (KGetSecret (Namespace (Meta p)) (cfgInventoryDbSecret cfg)) (inr s) ∈ t /\
    db_params_of (Some cfg) s = inr (HBIDBParams i);
  eq_application : exists s app,
    Obs (KGetSecret (Namespace (Meta p)) (Utils.AppDbSecretName (Spec p))) (inr s) ∈ t /\
    db_params_of (Some cfg) s = inr app /\ connected app (AppDb i);
  eq_params : AppDBParams i = Database.Config (AppDb i)
}.

(** The iteration that a run of setup leaves, for the pipeline [p] *)
Record set_up (p : CyndiPipeline) (t : list obs) (i : ReconcileIteration)
    (err : option gerror) : Prop := {
  su_instance : Instance i = p;
  su_original : OriginalInstance i = p;
  su_inventory : InventoryDb i = None;
  su_interval : GetRequeueInterval i = StandardRequeue;
  su_config : exists global own t', t = config_trace p global own ++ t' /\
    match configured p global own with
    | inl e => config i = None /\ err = Some e /\ t' = [] /\ connection (AppDb i) = None
    | inr cfg => config i = Some cfg /\ (err = None -> equipped p cfg t' i)
    end
}.

Lemma setup_only ns name : only setup_effect (Pipeline.setup ns name).
Proof.
  pose proof setup_effect_reads as RO. unfold Pipeline.setup, FetchCyndiPipeline.
  apply only_bind; [by split|]. intros [e|p]; [by destruct (IsNotFound e)|].
  apply only_bind.
  { unfold parseConfig, fetch_config_maps, FetchConfigMap. simpl.
    split; [done|]. intros [e|g]; [destruct (IsNotFound e)|]; simpl; [|done|].
    all: split; [done|]; intros [e'|o]; [destruct (IsNotFound e')|]; simpl.
    all: first [done | by destruct (BuildCyndiConfig _ _)]. }
  intros [i [e|]]; [done|]. destruct (config i) as [cfg|]; [|done].
  apply only_bind; [unfold LoadDBSecret, FetchSecret; simpl; split; [done|]; by intros [|]|].
  intros [e|hbi]; [done|].
  apply only_bind; [unfold LoadDBSecret, FetchSecret; simpl; split; [done|]; by intros [|]|].
  intros [e|app]; [done|].
  apply only_bind; [apply AppConnect_only|]. by intros [db err].
Qed.

Lemma LoadDBSecret_runs cfg ns name t r :
  runs (LoadDBSecret cfg ns name) t r ->
  exists x, t = [Obs (KGetSecret ns name) x] /\
    r = Some (match x with inl e => inl e | inr s => db_params_of cfg s end).
Proof.
  intros R. pattern t, r. apply (runs_wp _ _ _ _ R). unfold LoadDBSecret, FetchSecret. simpl.
  intros [e|s]; simpl; eauto.
Qed.

Lemma setup_runs ns name t r :
  runs (Pipeline.setup ns name) t r ->
  exists x t', t = Obs (KGetPipeline ns name) x :: t' /\
    match x with
    | inl e => t' = [] /\ r = Some (None, if IsNotFound e then None else Some e)
    | inr p => exists i err, r = Some (Some i, err) /\ set_up p t' i err
    end.
Proof.
  intros R. unfold Pipeline.setup, FetchCyndiPipeline in R.
  apply runs_bind_inv in R as [(? & t' & x & -> & R0 & R)|[R _]];
    [|by apply runs_call_inv in R as (? & _ & ?)].
  apply runs_call_inv in R0 as (x' & -> & [= <-]). exists x, t'. split; [done|].
  destruct x as [e|p]; [destruct (IsNotFound e); by apply runs_ret_inv in R as [-> ->]|].
  apply runs_bind_inv in R as [(t1 & t2 & a & -> & R1 & R)|[R _]].
  2: by apply parseConfig_runs in R as (? & ? & _ & ?).
  apply parseConfig_runs in R1 as (global & own & -> & [= ->]).
  cbn [new_iteration Instance] in *.
  destruct (configured p global own) as [e|cfg] eqn:C.
  { apply runs_ret_inv in R as [-> ->]. do 2 eexists. split; [done|].
    split; [done..|]. exists global, own, []. rewrite C. done. }
  cbn [set_config config Instance] in R.
  assert (Su : forall i err, Instance i = p -> OriginalInstance i = p -> InventoryDb i = None ->
    GetRequeueInterval i = StandardRequeue -> config i = Some cfg ->
    (err = None -> equipped p cfg t2 i) ->
    set_up p (config_trace p global own ++ t2) i err).
  { intros i err A1 A2 A3 A4 A5 A6. split; [done..|]. exists global, own, t2. by rewrite C. }
  clear C.
  apply runs_bind_inv in R as [(t3 & t4 & h & -> & R1 & R)|[R _]];
    [|by apply LoadDBSecret_runs in R as (? & _ & ?)].
  apply LoadDBSecret_runs in R1 as (x & -> & [= ->]).
  destruct x as [e|s]; [apply runs_ret_inv in R as [-> ->]; do 2 eexists; split; [done|by apply Su]|].
  destruct (db_params_of (Some cfg) s) as [e|hbi] eqn:D1;
    [apply runs_ret_inv in R as [-> ->]; do 2 eexists; split; [done|by apply Su]|].
  cbn [set_HBIDBParams set_config Instance new_iteration] in R.
  apply runs_bind_inv in R as [(t5 & t6 & a & -> & R1 & R)|[R _]];
    [|by apply LoadDBSecret_runs in R as (? & _ & ?)].
  apply LoadDBSecret_runs in R1 as (x & -> & [= ->]).
  destruct x as [e|s2]; [apply runs_ret_inv in R as [-> ->]; do 2 eexists; split; [done|by apply Su]|].
  destruct (db_params_of (Some cfg) s2) as [e|app] eqn:D2;
    [apply runs_ret_inv in R as [-> ->]; do 2 eexists; split; [done|by apply Su]|].
  apply runs_bind_inv in R as [(t7 & t8 & [db err] & -> & R1 & R)|[R _]].
  2: by apply safe_runs in R; [|auto with cyndi_prog].
  apply runs_ret_inv in R as [-> ->]. do 2 eexists. split; [done|]. apply Su; [done..|].
  intros ->. split; [| |done].
  - exists s. split; [left|done].
  - exists s2, app. split_and!; [right; left|done|]. by eapply AppConnect_returns.
Qed.

(** setup never panics. *)
Lemma setup_runs_some ns name t r : runs (Pipeline.setup ns name) t r -> r <> None.
Proof. intros R. apply setup_runs in R as ([e|p] & t' & _ & H); naive_solver. Qed.

(** *** The validation controller *)

Lemma vsetup_runs ns name t r :
  runs (Validation.setup ns name) t r ->
  exists x t', t = Obs (KGetPipeline ns name) x :: t' /\
    match x with
    | inl e => t' = [] /\ r = Some (None, if IsNotFound e then None else Some e)
    | inr p => exists i err, r = Some (Some i, err) /\ Instance i = p /\ OriginalInstance i = p /\
        (err = None -> config i <> None /\ GetRequeueInterval i = ValidationRequeue /\
           exists inv, InventoryDb i = Some inv /\ connection inv <> None)
    end.
Proof.
  intros R. unfold Validation.setup in R.
  apply runs_bind_inv in R as [(t1 & t2 & [i err] & -> & R1 & R)|[R _]].
  2: by apply setup_runs_some in R.
  apply setup_runs in R1 as (x & t' & -> & X). exists x, (t' ++ t2). split; [done|].
  destruct x as [e|p].
  { destruct X as [-> [= -> ->]]. destruct (IsNotFound e); by apply runs_ret_inv in R as [-> ->]. }
  destruct X as (j & err' & [= -> ->] & [S1 S2 S3 S4 (g & o & t'' & _ & S5)]).
  destruct err' as [e|].
  { apply runs_ret_inv in R as [-> ->]. exists j, (Some e). by split_and!. }
  destruct (configured p g o) as [e|cfg]; [by destruct S5 as (_ & ? & _)|]. destruct S5 as [S5 _].
  apply runs_bind_inv in R as [(t3 & t4 & [db err] & -> & R2 & R)|[R _]].
  2: by apply safe_runs in R; [|auto with cyndi_prog].
  apply (runs_returns _ _ _ _ (Connect_returns _)) in R2 as [_ F]. simpl in F.
  apply runs_ret_inv in R as [-> ->]. do 2 eexists. split; [done|]. split; [done|]. split; [done|].
  intros ->. simpl. split_and!; [by rewrite S5|done|]. exists db. split; [done|by apply F].
Qed.

Lemma vsetup_only ns name : only setup_effect (Validation.setup ns name).
Proof.
  unfold Validation.setup. apply only_bind; [apply setup_only|]. intros [[i|] [e|]]; [done| |done..].
  apply only_bind; [apply only_reads; [apply setup_effect_reads|auto with cyndi_prog]|].
  by intros [db err].
Qed.

End Setup.

(** ** Properties *)

Module SetupProps.
Import Setup.

Section Props.

(** C20: The configuration in force equals its reference definition. Whatever
    the API server answers about the two config maps, parseConfig leaves the
    iteration with the configuration built from the union of the maps, the one
    of the pipeline's namespace winning key by key and a missing map counting
    as empty, or with the first error; the second map is only asked for when
    the first question was answered. *)
Theorem parseConfig_reference (i : ReconcileIteration) (t : list obs)
    (r : option (ReconcileIteration * option gerror)) :
  runs (parseConfig i) t r <->
  exists global own, t = config_trace (Instance i) global own /\
    r = Some (match configured (Instance i) global own with
              | inl e => (i, Some e)
              | inr cfg => (set_config cfg i, None)
              end).
Proof.
  split; [apply parseConfig_runs|].
  intros (global & own & -> & ->). unfold parseConfig, fetch_config_maps, FetchConfigMap.
  unfold config_trace, configured, settings.
  destruct (present global) as [e|g] eqn:G.
  - destruct global as [e'|]; [|done]. simpl in G. simpl. apply runs_call.
    destruct (IsNotFound e'); [done|]. injection G as ->. simpl. apply runs_ret.
  - destruct (present own) as [e|o] eqn:O.
    + destruct own as [e'|]; [|done]. simpl in O. simpl. apply runs_call.
      destruct (IsNotFound e') eqn:N; [done|]. injection O as ->.
      destruct global as [e0|g0]; simpl in *; [destruct (IsNotFound e0); [|done]|]; simpl;
        apply runs_call; rewrite N; simpl; apply runs_ret.
    + pose proof (Merge_present global own g o G O) as M. simpl. apply runs_call.
      destruct global as [e0|g0], own as [e1|o1]; simpl in *;
        repeat match goal with
        | H : (if ?b then _ else _) = _ |- _ => destruct b eqn:?; [|done]
        end; simpl; apply runs_call; repeat match goal with H : IsNotFound _ = true |- _ => rewrite H end;
        simpl; rewrite M; destruct (BuildCyndiConfig _ _); apply runs_ret.
Qed.

(** C19: What a prepared iteration is. setup asks for the pipeline first. When
    that fails there is no iteration, and NotFound is not an error. Otherwise
    the iteration holds the fetched pipeline, twice, and the configuration in
    force; and when setup reports no error it holds the parameters of the
    inventory database from the configured secret and an open connection to
    the application database with those of the application's secret (or with
    the initial password in place of theirs, after a rotation). Setup never
    panics, and the only thing it may change is the password of a role. *)
Theorem setup_spec (ns name : string) (t : list obs)
    (r : option (option ReconcileIteration * option gerror)) :
  runs (Pipeline.setup ns name) t r ->
  all_obs setup_effect t /\
  exists x t', t = Obs (KGetPipeline ns name) x :: t' /\
    match x with
    | inl e => t' = [] /\ r = Some (None, if IsNotFound e then None else Some e)
    | inr p => exists i err, r = Some (Some i, err) /\ set_up p t' i err
    end.
Proof.
  intros R. split; [|by apply setup_runs].
  exact (runs_wp _ _ _ _ R (only_wp _ _ (setup_only ns name))).
Qed.

End Props.

(** *** Concrete runs *)

Lemma parseConfig_reference_witness :
  let i := new_iteration Sample.new_pipeline in
  runs (parseConfig i)
    [Obs (KGetConfigMap "cyndi" "cyndi") (inl Sim.not_found);
     Obs (KGetConfigMap "test" "cyndi") (inl (Errorf "timeout"))]
    (Some (i, Some (Errorf "timeout"))).
Proof.
  apply (proj2 (parseConfig_reference _ _ _)). exists (inl Sim.not_found), (inl (Errorf "timeout")).
  split; reflexivity.
Defined.

Definition setup0 : prog (option ReconcileIteration * option gerror) :=
  Pipeline.setup "test" "test-pipeline-01".

Lemma setup_spec_witness :
  exists r, runs setup0 (trace_of Sim.world_handler setup0 Sim.world0) r /\
    all_obs setup_effect (trace_of Sim.world_handler setup0 Sim.world0) /\
    List.length (trace_of Sim.world_handler setup0 Sim.world0) = 6.
Proof.
  exists (result_of Sim.world_handler setup0 Sim.world0).
  assert (R : runs setup0 (trace_of Sim.world_handler setup0 Sim.world0)
                (result_of Sim.world_handler setup0 Sim.world0)) by (by apply runs_exec).
  split; [exact R|]. split; [|vm_compute; reflexivity].
  exact (proj1 (setup_spec "test" "test-pipeline-01" _ _ R)).
Defined.

End SetupProps.
