(* ===== verification/Termination.v ===== *)
(** * Every run ends

    An amortised count of the calls of a run: [cost p f k] says that every run
    of [p] makes at most [k] calls beyond what the listed connectors and tables
    pay for ([listed]) and that it leaves [f a] calls paid for its result [a].
    With it the runs of both controllers are bounded, and the runs that end
    in a panic are characterised. *)

From Stdlib Require Import ZArith Lia String.
From S2P Require Import Prelude GoStd Float GoJson Lang K8sLib Api State Utils Config Effects.
From S2P Require Import Database Connect Iteration Validate Pipeline Validation Sim.
From S2P Require Import StatusUpdate Stale Deviation Reconcile ReconcileProps ValidationProps Converged Setup.
Import Api State Config Database Connect Iteration Pipeline StatusUpdate Stale Deviation Reconcile.
Import ReconcileLemmas Setup.

Module Termination.

(** ** Counting calls *)

(** What the answer to a call pays for: two calls per listed connector
    (deleting it, reporting the error), three per listed table (checking that it
    exists, dropping it, reporting the error). *)
Definition pays (o : obs) : Z :=
  match o with
  | Obs e x =>
      match e in eff X return X -> Z with
      | KListConnectors _ _ => fun r => 2 * Z.of_nat (List.length (items_of r))
      | PgQuery _ _ s =>
          match s return result (rows (scan_val s)) -> Z with
          | ScanString => fun r =>
              match r with inl _ => 0 | inr rs => 3 * Z.of_nat (List.length (rows_data rs)) end
          | _ => fun _ => 0
          end
      | _ => fun _ => 0
      end x
  end%Z.

Definition listed (t : list obs) : Z := foldr (fun o z => pays o + z)%Z 0%Z t.

Lemma pays_nonneg o : (0 <= pays o)%Z.
Proof.
  destruct o as [X e x]. destruct e; simpl; try lia.
  match goal with s : scan_ty |- _ => destruct s; simpl; try lia end. destruct x; lia.
Qed.

Fixpoint cost {A} (p : prog A) (f : A -> Z) (k : Z) : Prop :=
  match p with
  | Ret a => (f a <= k)%Z
  | Panic => (0 <= k)%Z
  | Call e p' => forall x, cost (p' x) f (k + pays (Obs e x) - 1)
  end.

Lemma cost_runs {A} (p : prog A) f k t r :
  (forall a, 0 <= f a)%Z -> cost p f k -> runs p t r ->
  (Z.of_nat (List.length t) + match r with Some a => f a | None => 0 end <= k + listed t)%Z.
Proof.
  intros F C R. revert k C. induction R as [a| |X e p' x t r R IH]; simpl; intros k C; [lia|lia|].
  specialize (IH _ (C x)). simpl in IH. lia.
Qed.

Lemma cost_mono {A} (p : prog A) (f g : A -> Z) k l :
  (forall a, f a <= g a)%Z -> (k <= l)%Z -> cost p g k -> cost p f l.
Proof.
  revert k l. induction p as [a| |X e p' IH]; simpl; intros k l F L C; [specialize (F a); lia|lia|].
  intros x. eapply IH; [done| |apply C]. lia.
Qed.

Lemma cost_le {A} (p : prog A) (f : A -> Z) k l : (k <= l)%Z -> cost p f k -> cost p f l.
Proof. intros L. by apply cost_mono. Qed.

Lemma cost_bind {A B} (p : prog A) (q : A -> prog B) (f : A -> Z) (g : B -> Z) k :
  cost p f k -> (forall a, cost (q a) g (f a)) -> cost (pbind p q) g k.
Proof.
  revert k. induction p as [a| |X e p' IH]; simpl; intros k C Q.
  - by apply (cost_le _ _ _ _ C).
  - done.
  - intros x. apply IH; [apply C|done].
Qed.

Lemma cost_frame {A} (p : prog A) f j d :
  (0 <= d)%Z -> cost p f j -> cost p (fun a => f a + d)%Z (j + d).
Proof.
  intros D. revert j. induction p as [a| |X e p' IH]; simpl; intros j C; [lia|lia|].
  intros x. eapply cost_le; [|apply (IH _ _ (C x))]. lia.
Qed.

(** [p] makes at most [k] calls. *)
Abbreviation calls p k := (cost p (fun _ => 0%Z) k).

(** Sequencing: the continuation gets what is left. *)
Lemma calls_bind {A B} (p : prog A) (q : A -> prog B) (g : B -> Z) j k :
  calls p j -> (j <= k)%Z -> (forall a, cost (q a) g (k - j)) -> cost (pbind p q) g k.
Proof.
  intros C L Q. apply (cost_bind _ _ (fun _ => 0 + (k - j))%Z); [|exact Q].
  eapply cost_le; [|apply cost_frame; [|exact C]]; lia.
Qed.

Lemma calls_ret {A} (a : A) k : (0 <= k)%Z -> calls (Ret a) k.
Proof. intros L. exact L. Qed.

Lemma calls_call {X} (e : eff X) k : (1 <= k)%Z -> calls (call e) k.
Proof. intros L x. simpl. pose proof (pays_nonneg (Obs e x)). simpl in *. lia. Qed.

Lemma calls_deref {A B} (o : option A) (q : A -> prog B) g k :
  (0 <= k)%Z -> (forall a, cost (q a) g k) -> cost (deref o q) g k.
Proof. intros L H. destruct o; [apply H|exact L]. Qed.

Lemma cost_assoc {A B C} (p : prog A) (q : A -> prog B) (q' : B -> prog C) g k :
  cost (pbind p (fun a => pbind (q a) q')) g k -> cost (pbind (pbind p q) q') g k.
Proof. revert k. induction p as [a| |X e p' IH]; simpl; auto. Qed.

Create HintDb cyndi_cost discriminated.

(** Count the calls of a program that is explicit enough; the methods with a
    bound of their own are in the hint database. *)
Ltac count :=
  repeat match goal with
  | |- cost (pbind (pbind _ _) _) _ _ => apply cost_assoc
  | |- cost (pbind _ _) _ _ =>
      eapply calls_bind;
        [solve [eauto with cyndi_cost | apply calls_call; reflexivity | apply (calls_ret _ 0); reflexivity]
        |lia|intros ?]
  | |- cost (deref _ _) _ _ => apply calls_deref; [lia|intros ?]
  | |- cost (Ret _) _ _ => simpl; lia
  | |- cost Panic _ _ => simpl; lia
  | |- cost (call _) _ _ => apply calls_call; lia
  | |- cost ?p _ _ =>
      match p with
      | context [match ?x with _ => _ end] => destruct x
      end
  | |- cost _ _ _ => progress cbn beta zeta
  | |- cost _ _ _ => solve [eapply cost_le; [|eauto with cyndi_cost]; lia]
  end.

(** ** Bounds of the methods *)

Section Bounds.
Implicit Types (db : BaseDatabase).

Lemma RunQuery_calls db q s : calls (RunQuery db q s) 1.
Proof. unfold RunQuery. count. Qed.

Lemma Exec_calls db q : calls (Exec db q) 1.
Proof. unfold Exec. count. Qed.
End Bounds.

#[export] Hint Resolve RunQuery_calls Exec_calls : cyndi_cost.

Section Bounds2.
Implicit Types (db : BaseDatabase).
Lemma GetCurrentTable_calls db : calls (GetCurrentTable db) 1.
Proof. unfold GetCurrentTable. count. Qed.
Lemma CheckIfTableExists_calls db n : calls (CheckIfTableExists db n) 1.
Proof. unfold CheckIfTableExists. count. Qed.
Lemma CountHosts_calls db n io fs : calls (CountHosts db n io fs) 1.
Proof. unfold CountHosts. count. Qed.
Lemma GetHostIds_calls db n io fs : calls (GetHostIds db n io fs) 1.
Proof. unfold GetHostIds. count. Qed.
Lemma Connect_calls db : calls (Connect db) 1.
Proof. unfold Connect, GetConnection. count. Qed.
Lemma Close_calls db : calls (Database.Close db) 1.
Proof. unfold Database.Close. count. Qed.
End Bounds2.

#[export] Hint Resolve GetCurrentTable_calls CheckIfTableExists_calls CountHosts_calls
  GetHostIds_calls Connect_calls Close_calls : cyndi_cost.

Section Bounds3.
Context {L : Libs}.
Implicit Types (db : BaseDatabase).

Lemma rotatePassword_calls db : calls (rotatePassword db) 3.
Proof. unfold rotatePassword. count. Qed.
Hint Resolve rotatePassword_calls : cyndi_cost.

Lemma AppConnect_calls db : calls (AppConnect db) 5.
Proof. unfold AppConnect. count. Qed.

Lemma DeleteTable_calls db n : calls (DeleteTable db n) 2.
Proof. unfold DeleteTable. count. Qed.

Lemma CreateTable_calls db n s : calls (CreateTable db n s) 1.
Proof. unfold CreateTable. count. Qed.

Lemma UpdateView_calls db n : calls (UpdateView db n) 2.
Proof. unfold UpdateView. count. Qed.

Lemma DeleteConnector_calls name ns : calls (DeleteConnector name ns) 1.
Proof. unfold DeleteConnector. count. Qed.

Lemma SetConnectorState_calls name ns b : calls (SetConnectorState name ns b) 2.
Proof. unfold SetConnectorState, GetConnector. count. Qed.

Lemma newConnectorResource_calls name ns cfg : calls (newConnectorResource name ns cfg) 1.
Proof. unfold newConnectorResource. count. Qed.
Hint Resolve newConnectorResource_calls : cyndi_cost.

Lemma createConnector_calls i name dry : calls (createConnector i name dry) 2.
Proof. unfold createConnector, CreateConnector. count. Qed.

Lemma error_calls e ps : calls (error e ps) 1.
Proof. unfold error, eventWarning. count. Qed.
Hint Resolve error_calls : cyndi_cost.

Lemma fail_with_calls e s : calls (fail_with e s) 1.
Proof. unfold fail_with. count. Qed.

Lemma LoadDBSecret_calls c ns n : calls (LoadDBSecret c ns n) 1.
Proof. unfold LoadDBSecret, FetchSecret. count. Qed.

Lemma fetch_config_maps_calls nss acc :
  calls (fetch_config_maps nss acc) (Z.of_nat (List.length nss)).
Proof.
  revert acc. induction nss as [|ns nss IH]; intros acc; cbn [fetch_config_maps]; [simpl; lia|].
  unfold FetchConfigMap. apply (calls_bind _ _ _ 1); [by apply calls_call|simpl; lia|].
  assert (N : forall acc, calls (fetch_config_maps nss acc)
    (Z.of_nat (List.length (ns :: nss)) - 1)).
  { intros acc'. eapply cost_le; [|apply IH]. simpl. lia. }
  intros [e|m]; [destruct (negb _)|]; [simpl; lia|apply N..].
Qed.

Lemma parseConfig_calls i : calls (parseConfig i) 2.
Proof.
  unfold parseConfig. apply (calls_bind _ _ _ 2); [apply fetch_config_maps_calls|lia|].
  intros a. count.
Qed.

Lemma InitLabels_calls p : calls (InitLabels p) 7.
Proof. unfold InitLabels. count. Qed.

Lemma Iteration_Close_calls i : calls (Close i) 2.
Proof. unfold Close. count. Qed.
End Bounds3.

#[export] Hint Resolve AppConnect_calls DeleteTable_calls CreateTable_calls UpdateView_calls
  DeleteConnector_calls SetConnectorState_calls createConnector_calls error_calls fail_with_calls
  LoadDBSecret_calls parseConfig_calls InitLabels_calls Iteration_Close_calls : cyndi_cost.

(** ** The cleanup *)

(** Errors are paid for: each is reported later. *)
Definition len {A} (l : list A) : Z := Z.of_nat (List.length l).

Section Cleanup.
Context {L : Libs}.

Lemma delete_connectors_cost ns keep items errs :
  cost (delete_connectors ns keep items errs) len (len errs + 2 * len items).
Proof.
  unfold len. revert errs. induction items as [|c items IH]; intros errs; cbn [delete_connectors].
  { simpl. lia. }
  destruct (negb _).
  - eapply calls_bind; [apply DeleteConnector_calls|simpl List.length; lia|]. intros [e|].
    + eapply cost_le; [|apply IH]. rewrite length_app. simpl. lia.
    + eapply cost_le; [|apply IH]. simpl. lia.
  - eapply cost_le; [|apply IH]. simpl. lia.
Qed.

Lemma delete_tables_cost db keep tables errs :
  cost (delete_tables db keep tables errs) len (len errs + 3 * len tables).
Proof.
  unfold len. revert errs. induction tables as [|n tables IH]; intros errs; cbn [delete_tables].
  { simpl. lia. }
  destruct (negb _).
  - eapply calls_bind; [apply DeleteTable_calls|simpl List.length; lia|]. intros [e|].
    + eapply cost_le; [|apply IH]. rewrite length_app. simpl. lia.
    + eapply cost_le; [|apply IH]. simpl. lia.
  - eapply cost_le; [|apply IH]. simpl. lia.
Qed.

Lemma GetConnectorsForOwner_cost ns owner :
  cost (GetConnectorsForOwner ns owner) (fun r => 2 * len (items_of r))%Z 1.
Proof. unfold GetConnectorsForOwner, len. intros x. simpl. lia. Qed.

Lemma scan_loop_length data acc l :
  scan_loop data acc = inr l -> (List.length l = List.length acc + List.length data)%nat.
Proof.
  revert acc. induction data as [|[e|x] data IH]; intros acc E; simpl in *; [|done|].
  - injection E as <-. lia.
  - apply IH in E. rewrite length_app in E. simpl in E. lia.
Qed.

Lemma GetCyndiTables_cost db :
  cost (GetCyndiTables db) (fun r => 3 * len (items_of r))%Z 1.
Proof.
  unfold GetCyndiTables, RunQuery, len. destruct (connection db) as [c|]; [|simpl; lia].
  simpl. intros [e|rs]; simpl; [lia|].
  destruct (scan_loop (rows_data rs) []) as [e|l] eqn:S; simpl; [lia|].
  apply scan_loop_length in S. simpl in S. lia.
Qed.

Lemma cleanup_rest_cost i errs kt kc :
  cost (cleanup_rest i errs kt kc) len (len errs + 4).
Proof.
  unfold cleanup_rest.
  replace (len errs + 4)%Z with (1 + (len errs + 3))%Z by lia.
  eapply cost_bind; [apply cost_frame; [unfold len; lia|apply GetConnectorsForOwner_cost]|].
  intros conns. cbn beta. apply (cost_bind _ _ (fun es => len es + 2)%Z).
  { destruct conns as [e|items]; simpl items_of.
    - simpl. unfold len. rewrite length_app. simpl. lia.
    - eapply cost_le; [|apply cost_frame; [lia|apply delete_connectors_cost]]. lia. }
  intros es. replace (len es + 2)%Z with (1 + (len es + 1))%Z by lia.
  eapply cost_bind; [apply cost_frame; [unfold len; lia|apply GetCyndiTables_cost]|].
  intros [e|tables]; cbn beta; simpl items_of.
  - simpl. unfold len. rewrite length_app. simpl. lia.
  - eapply cost_le; [|apply delete_tables_cost]. lia.
Qed.

Lemma deleteStaleDependencies_cost i : cost (deleteStaleDependencies i) len 6.
Proof.
  unfold deleteStaleDependencies. destruct (kept_by_status i) as [kt kc].
  apply (calls_bind _ _ _ 1); [apply GetCurrentTable_calls|lia|].
  intros [e|[x|]]; cbn beta iota.
  - eapply cost_le; [|apply cleanup_rest_cost]. unfold len. simpl. lia.
  - destruct (not_removed i); [destruct (ConnectorsManaged (Instance i))|].
    1: apply calls_deref; [lia|intros c].
    all: eapply cost_le; [|apply cleanup_rest_cost]; unfold len; simpl; lia.
  - eapply cost_le; [|apply cleanup_rest_cost]. unfold len. simpl. lia.
Qed.

Lemma report_errors_calls errs : calls (report_errors errs) (len errs).
Proof.
  unfold len. induction errs as [|e errs IH]; cbn [report_errors]; [simpl; lia|].
  eapply calls_bind; [apply error_calls|simpl List.length; lia|]. intros _.
  eapply cost_le; [|apply IH]. simpl. lia.
Qed.

End Cleanup.

(** ** Iterations *)

Section Iterations.
Context {L : Libs}.

Lemma updateStatusAndRequeue_calls i : calls (updateStatusAndRequeue i) 3.
Proof. unfold updateStatusAndRequeue. count. Qed.
Hint Resolve updateStatusAndRequeue_calls : cyndi_cost.

Lemma healthier_calls i : calls (updateViewIfHealthier i) 7.
Proof. unfold updateViewIfHealthier. count. Qed.
Hint Resolve healthier_calls : cyndi_cost.

Lemma checkForDeviation_calls i : calls (checkForDeviation i) 4.
Proof. unfold checkForDeviation, GetConnector. count. Qed.
Hint Resolve checkForDeviation_calls : cyndi_cost.

Lemma recreateViewIfNeeded_calls i : calls (recreateViewIfNeeded i) 3.
Proof. unfold recreateViewIfNeeded. count. Qed.
Hint Resolve recreateViewIfNeeded_calls : cyndi_cost.

Lemma probes_calls i m :
  calls (probeStateDeviationRefresh i m) 2 /\ calls (probePipelineDidNotBecomeValid i) 2.
Proof.
  unfold probeStateDeviationRefresh, probePipelineDidNotBecomeValid, PipelineRefreshed, eventWarning.
  split; count.
Qed.
Definition deviation_probe_calls i m := proj1 (probes_calls i m).
Definition invalid_probe_calls i := proj2 (probes_calls i EmptyString).
Hint Resolve deviation_probe_calls invalid_probe_calls : cyndi_cost.

Lemma reconcile_valid_calls i : calls (reconcile_valid i) 7.
Proof. unfold reconcile_valid, eventNormal. count. Qed.
Hint Resolve reconcile_valid_calls : cyndi_cost.

Lemma reconcile_invalid_calls i : calls (reconcile_invalid i) 12.
Proof.
  unfold reconcile_invalid. case_bool_decide; [|count].
  apply calls_deref; [lia|]. intros vc. destruct (Z.leb _ _); [|count].
  eapply (calls_bind _ _ _ 7); [|lia|].
  - case_bool_decide; [|count]. eapply (calls_bind _ _ _ 7); [apply healthier_calls|lia|].
    intros [j err]. count.
  - intros j. count.
Qed.
Hint Resolve reconcile_invalid_calls : cyndi_cost.

Lemma reconcile_running_calls i : calls (reconcile_running i) 18.
Proof.
  unfold reconcile_running. eapply (calls_bind _ _ _ 4); [apply checkForDeviation_calls|lia|].
  intros [e|[m|]]; [count..|].
  eapply (calls_bind _ _ _ 2); [|lia|intros [e|]; count].
  destruct (ConnectorsManaged _); count.
Qed.

Lemma start_connector_calls i v b : calls (start_connector i v b) 5.
Proof. unfold start_connector, eventWarning. count. Qed.
Hint Resolve start_connector_calls : cyndi_cost.

Lemma start_table_calls i cfg v : calls (start_table i cfg v) 7.
Proof.
  unfold start_table. eapply calls_bind; [apply CheckIfTableExists_calls|lia|].
  intros [e|ex]; [count|]. eapply (calls_bind _ _ _ 1); [|lia|intros [e|]; count].
  destruct (negb ex); count.
Qed.
Hint Resolve start_table_calls : cyndi_cost.

Lemma start_version_calls i cfg : calls (start_version i cfg) 9.
Proof. unfold start_version, probeStartingInitialSync, eventNormal. count. Qed.
Hint Resolve start_version_calls : cyndi_cost.

Lemma reconcile_new_calls i : calls (reconcile_new i) 10.
Proof.
  unfold reconcile_new. eapply (calls_bind _ _ _ 1); [unfold addFinalizer; count|lia|].
  intros [j [e|]]; count.
Qed.

Lemma removeFinalizer_calls i : calls (removeFinalizer i) 1.
Proof. unfold removeFinalizer. count. Qed.
Hint Resolve removeFinalizer_calls reconcile_running_calls reconcile_new_calls : cyndi_cost.

Lemma reconcile_body_calls i serr : calls (reconcile_body i serr) 34.
Proof.
  unfold reconcile_body. eapply (cost_bind _ _ (fun es => len es + 32)%Z).
  { destruct serr as [e|]; [|unfold len; simpl; lia].
    apply (calls_bind _ _ _ 1); [apply error_calls|lia|]. intros _. unfold len. simpl. lia. }
  intros serrs. eapply (cost_bind _ _ (fun es => len es + (len serrs + 26))%Z).
  { eapply cost_le; [|apply cost_frame; [unfold len; lia|apply deleteStaleDependencies_cost]]. lia. }
  intros stale. cbv zeta.
  apply (calls_bind _ _ _ (len (serrs ++ stale))); [apply report_errors_calls| |].
  { unfold len. rewrite length_app. lia. }
  intros _. eapply cost_le; [|instantiate (1 := 26%Z)].
  { unfold len. rewrite length_app. lia. }
  apply (calls_bind _ _ _ 1); [by apply calls_call|lia|]. intros env.
  case_bool_decide; count.
Qed.

Lemma setup_calls ns name : calls (Pipeline.setup ns name) 10.
Proof. unfold Pipeline.setup, FetchCyndiPipeline. count. Qed.

Lemma record_verdict_calls i v : calls (Validation.record_verdict i v) 1.
Proof. unfold Validation.record_verdict, eventNormal. destruct (Validate.isValid v); [|count].
  eapply (calls_bind _ _ _ 1); [case_bool_decide; count|lia|]. intros _. count. Qed.

Lemma validate_calls i schema : calls (Validate.validate i schema) 9.
Proof. unfold Validate.validate, AppHostCount, ValidationFinished. count. Qed.
Hint Resolve record_verdict_calls validate_calls : cyndi_cost.

Lemma run_validation_calls i : calls (Validation.run_validation i) 13.
Proof. unfold Validation.run_validation. count. Qed.
Hint Resolve run_validation_calls : cyndi_cost.

Lemma validation_body_calls check i : calls (Validation.reconcile_body check i) 17.
Proof. unfold Validation.reconcile_body. destruct (_ || _); [count|]. destruct check; count. Qed.

Lemma vsetup_calls ns name : calls (Validation.setup ns name) 11.
Proof.
  unfold Validation.setup. eapply (calls_bind _ _ _ 10); [apply setup_calls|lia|].
  intros [[i|] [e|]]; count.
Qed.

Lemma Reconcile_calls ns name : calls (Reconcile ns name) 46.
Proof.
  unfold Reconcile. eapply (calls_bind _ _ _ 10); [apply setup_calls|lia|].
  intros [[i|] err]; [|destruct err; count].
  eapply (calls_bind _ _ _ 34); [apply reconcile_body_calls|lia|]. intros [j res]. count.
Qed.

Lemma vReconcile_calls check ns name : calls (Validation.Reconcile check ns name) 30.
Proof.
  unfold Validation.Reconcile. eapply (calls_bind _ _ _ 11); [apply vsetup_calls|lia|].
  intros [[i|] [e|]]; [count| |count..].
  eapply (calls_bind _ _ _ 17); [apply validation_body_calls|lia|]. intros res. count.
Qed.

End Iterations.

(** ** Panics *)

(** The runs of Reconcile for the request (ns, name) that panic: fetching the
    pipeline failed with an error other than NotFound; the database said that
    the view uses a table whose name is too short; or the connector that the API
    server returned has a configuration that cannot be compared with the one
    rendered during the same run. *)
Inductive crash {L : Libs} (ns name : string) (t : list obs) : Prop :=
| cr_fetch e : IsNotFound e = false -> t = [Obs (KGetPipeline ns name) (inl e)] -> crash ns name t
| cr_view i x :
    answered t (GetCurrentTable (AppDb i)) (inr (Some x)) ->
    (String.length x < String.length tablePrefix)%nat -> crash ns name t
| cr_diff i : incomparable i t -> crash ns name t.

Section Panics.
Context {L : Libs} {LOK : LibsOk L}.

(** A panic in a part of a run, but for the first call *)
Definition midway (t : list obs) : Prop :=
  (exists i x, answered t (GetCurrentTable (AppDb i)) (inr (Some x)) /\
     (String.length x < String.length tablePrefix)%nat) \/
  (exists i, incomparable i t).

Lemma midway_app t1 t2 t3 : midway t2 -> midway (t1 ++ t2 ++ t3).
Proof.
  intros [(i & x & A & S)|[i I]].
  - left. exists i, x. by split; [apply answered_within|].
  - right. exists i. by apply incomparable_within.
Qed.

Lemma midway_right t1 t2 : midway t2 -> midway (t1 ++ t2).
Proof. intros M. apply (midway_app t1 t2 []) in M. by rewrite app_nil_r in M. Qed.

Lemma midway_crash ns name t : midway t -> crash ns name t.
Proof.
  intros [(i & x & A & S)|[i I]]; [by eapply cr_view|by eapply cr_diff].
Qed.

Lemma too_short x app : TableNameToConnectorName x app = None ->
  (String.length x < String.length tablePrefix)%nat.
Proof. unfold TableNameToConnectorName. destruct (Nat.leb_spec (String.length tablePrefix) (String.length x)); [done|lia]. Qed.

Lemma body_panic i serr t :
  (serr = None -> config i <> None) -> runs (reconcile_body i serr) t None -> midway t.
Proof.
  intros C R. apply reconcile_body_runs in R
    as [(_ & t0 & t1 & -> & _ & R)|(t0 & td & t1 & env & t2 & st & -> & _ & _ & _ & Pr)].
  - apply deleteStaleDependencies_runs in R
      as [(x & t' & _ & R & -> & _ & _ & T)|(? & ? & ? & ? & ? & _)]; [|done].
    apply midway_right. left. exists i, x. split; [by apply answered_self|by eapply too_short].
  - do 4 apply midway_right. inversion Pr as [| |ta tb r E S _ Rn Et Er|ta tb r E _ _ _ Rr]; subst.
    + destruct serr; [done|]. destruct (config i) as [cfg|] eqn:Ci; [|by destruct C].
      destruct (reconcile_new_runs _ _ _ _ Ci Rn) as (res & -> & _). done.
    + destruct serr; [done|]. destruct (config i) as [cfg|] eqn:Ci; [|by destruct C].
      apply midway_right. right. exists i. by apply (reconcile_running_panic _ cfg).
Qed.

Lemma validate_safe i schema : config i <> None -> InventoryDb i <> None ->
  safe (Validate.validate i schema).
Proof.
  intros C D. unfold Validate.validate.
  apply safe_bind; [auto with cyndi_prog|]. intros [e|app]; [done|].
  destruct (InventoryDb i) as [inv|]; [|done]. cbn [deref].
  apply safe_bind; [auto with cyndi_prog|]. intros [e|hbi]; [done|].
  apply safe_bind; [done|]. intros _.
  assert (V : forall p th r n b, safe (ValidationFinished p th r n b))
    by (intros; unfold ValidationFinished; simpl; by destruct b).
  assert (P : Validate.percentage_threshold i <> None).
  { unfold Validate.percentage_threshold, getValidationConfig. destruct (config i); [|done].
    by destruct (Bool.eqb _ _). }
  destruct (Validate.percentage_threshold i) as [thr|]; [|done]. cbn [deref].
  destruct (Float64.ltb _ _).
  - apply safe_bind; [apply V|done].
  - apply safe_bind; [auto with cyndi_prog|]. intros [e|hids]; [done|].
    apply safe_bind; [auto with cyndi_prog|]. intros [e|aids]; [done|].
    apply safe_bind; [apply V|done].
Qed.

Lemma record_verdict_config i v :
  returns (fun j => config j = config i) (Validation.record_verdict i v).
Proof.
  unfold Validation.record_verdict. destruct (Validate.isValid v).
  - apply returns_bind. intros u. done.
  - intros u. done.
Qed.

Lemma run_validation_panic i t :
  config i <> None -> InventoryDb i <> None -> runs (Validation.run_validation i) t None -> False.
Proof.
  intros C D R. unfold Validation.run_validation in R.
  destruct (config i) as [cfg|] eqn:E; [|done]. cbn [deref] in R.
  apply runs_bind_inv in R as [(t1 & t2 & [e|v] & -> & _ & R)|[R _]].
  - by apply fail_with_runs in R as [_ ?].
  - apply runs_bind_inv in R as [(t3 & t4 & j & -> & R1 & R)|[R _]].
    + apply (runs_returns _ _ _ _ (record_verdict_config i v)) in R1.
      apply update_panic in R. congruence.
    + apply safe_runs in R; [done|]. unfold Validation.record_verdict.
      destruct (Validate.isValid v); [|done]. apply safe_bind; [by case_bool_decide|done].
  - apply safe_runs in R; [done|]. apply validate_safe; [by rewrite E|done].
Qed.

Lemma validation_body_panic check i t :
  config i <> None -> InventoryDb i <> None ->
  runs (Validation.reconcile_body check i) t None -> midway t.
Proof.
  intros C D R. unfold Validation.reconcile_body in R.
  destruct (_ || _); [by apply runs_ret_inv in R as [_ ?]|].
  destruct check; [|by apply run_validation_panic in R].
  apply runs_bind_inv in R as [(t1 & t2 & [e|[m|]] & -> & _ & R)|[R _]].
  - by apply fail_with_runs in R as [_ ?].
  - apply runs_bind_inv in R as [(t3 & t4 & u & -> & _ & R)|[R _]].
    + apply update_panic in R. by simpl in R.
    + by apply safe_runs in R; [|exact (proj1 (probes_safe i m))].
  - by apply run_validation_panic in R.
  - destruct (config i) as [cfg|] eqn:E; [|done].
    apply (checkForDeviation_runs _ _ _ _ E) in R.
    inversion R. right. exists i. by do 2 eexists.
Qed.

Lemma Reconcile_panic ns name t : runs (Reconcile ns name) t None -> crash ns name t.
Proof.
  intros R. unfold Reconcile in R.
  apply runs_bind_inv in R as [(t1 & t2 & [i err] & -> & R1 & R)|[R _]].
  2: by apply setup_runs_some in R.
  apply setup_runs in R1 as ([e|p] & t' & -> & X).
  { destruct X as [-> [= -> ->]]. destruct (IsNotFound e) eqn:N.
    - by apply runs_ret_inv in R as [_ ?].
    - apply runs_panic_inv in R as [-> _]. by eapply cr_fetch. }
  destruct X as (j & err' & [= -> ->] & Su).
  apply midway_crash. apply runs_bind_inv in R as [(t3 & t4 & [k res] & -> & _ & R)|[R _]].
  - exfalso. apply safe_runs in R; [done|]. apply safe_bind; [|done].
    unfold Close. apply safe_bind; [auto with cyndi_prog|]. intros _.
    destruct (InventoryDb k); [|done]. by apply safe_bind; [auto with cyndi_prog|].
  - apply midway_right. eapply body_panic; [|exact R]. intros ->.
    destruct Su as [_ _ _ _ (g & o & t'' & _ & S)]. destruct (configured p g o).
    + by destruct S as (_ & ? & _).
    + destruct S as [-> _]. done.
Qed.

Lemma Close_safe_iteration i : safe (Close i).
Proof.
  unfold Close. apply safe_bind; [auto with cyndi_prog|]. intros _.
  destruct (InventoryDb i); [|done]. by apply safe_bind; [auto with cyndi_prog|].
Qed.

Lemma vReconcile_panic check ns name t :
  runs (Validation.Reconcile check ns name) t None -> crash ns name t.
Proof.
  intros R. unfold Validation.Reconcile in R.
  apply runs_bind_inv in R as [(t1 & t2 & [i err] & -> & R1 & R)|[R _]].
  2: by apply vsetup_runs in R as ([e|p] & t' & _ & H); naive_solver.
  apply vsetup_runs in R1 as ([e|p] & t' & -> & X).
  { destruct X as [-> [= -> ->]]. destruct (IsNotFound e) eqn:N.
    - by apply runs_ret_inv in R as [_ ?].
    - apply runs_panic_inv in R as [-> _]. by eapply cr_fetch. }
  destruct X as (j & err' & [= -> ->] & _ & _ & S). apply midway_crash.
  destruct err' as [e|].
  - exfalso. apply safe_runs in R; [done|]. apply safe_bind; [done|]. intros e'.
    apply safe_bind; [apply Close_safe_iteration|done].
  - destruct (S eq_refl) as (C & _ & inv & D & _).
    apply runs_bind_inv in R as [(t3 & t4 & res & -> & _ & R)|[R _]].
    + exfalso. apply safe_runs in R; [done|]. apply safe_bind; [apply Close_safe_iteration|done].
    + apply midway_right. eapply validation_body_panic; [exact C| |exact R]. by rewrite D.
Qed.

End Panics.

End Termination.

(** ** Properties *)

Module TerminationProps.
Import Termination.

Section Props.
Context {L : Libs} {LOK : LibsOk L}.

(** C13: Every run ends. Whatever the cluster, the databases and the clock
    answer, a run of the pipeline controller makes at most 46 calls plus two
    per connector and three per table it was told of, and a run of the
    validation controller at most 30 plus those; then it returns a result, or
    it panics in one of three situations: fetching the pipeline failed with an
    error other than NotFound, the database said that the view uses a table
    whose name is shorter than the prefix of table names, or the connector that
    the API server returned has a configuration that cannot be compared with the
    one rendered during the run. *)
Theorem every_run_ends {W} (h : handler W) (w : W) (ns name : string) (check : bool) :
  (let '(r, _, t) := exec h (Pipeline.Reconcile ns name) w in
   (Z.of_nat (List.length t) <= 46 + listed t)%Z /\ (r = None -> crash ns name t)) /\
  (let '(r, _, t) := exec h (Validation.Reconcile check ns name) w in
   (Z.of_nat (List.length t) <= 30 + listed t)%Z /\ (r = None -> crash ns name t)).
Proof.
  assert (H : forall (p : prog Result) k, calls p k ->
    (forall t, runs p t None -> crash ns name t) ->
    let '(r, _, t) := exec h p w in
    (Z.of_nat (List.length t) <= k + listed t)%Z /\ (r = None -> crash ns name t)).
  { intros p k C P. pose proof (exec_runs h p w) as R. destruct (exec h p w) as [[r w'] t].
    split; [|intros ->; by apply P].
    pose proof (cost_runs p (fun _ => 0%Z) k t r ltac:(done) C R). destruct r; lia. }
  split; apply H.
  - apply Reconcile_calls.
  - apply Reconcile_panic.
  - apply vReconcile_calls.
  - apply vReconcile_panic.
Qed.

End Props.

Existing Instances Sim.libs Sim.libs_ok.

(** A run with a connector and a table to delete, and one against a broken API
    server *)
Lemma every_run_ends_witness :
  (let '(r, _, t) := exec Sim.world_handler (Pipeline.Reconcile "test" "test-pipeline-01")
                      (Sim.delete_resource Sim.world_refreshing) in
   List.length t = 18%nat /\ listed t = 10%Z /\ r = Some (0%Z, None)) /\
  (let '(r, _, t) := exec (fun X e w => match e in eff X return X * unit with
                                        | KGetPipeline _ _ => (inl (Errorf "timeout"), w)
                                        | e => reply ConvergedProps.settled _ e w
                                        end)
                       (Pipeline.Reconcile "test" "test-pipeline-01") tt in
   r = None /\ crash "test" "test-pipeline-01" t).
Proof.
  split.
  - vm_compute. split_and!; reflexivity.
  - split; [reflexivity|].
    set (h := (fun X e w => match e in eff X return X * unit with
                                        | KGetPipeline _ _ => (inl (Errorf "timeout"), w)
                                        | e => reply ConvergedProps.settled _ e w
                                        end) : handler unit).
    exact (proj2 (proj1 (every_run_ends h tt "test" "test-pipeline-01" true)) eq_refl).
Defined.

End TerminationProps.
