(* ===== verification/Writes.v ===== *)
(** * What a run may do to the resource

    Every update of the pipeline resource or of its status that a run of either
    controller sends, traced back to the version of the resource the run
    fetched ([may_write]). The composition of concurrent runs (System) rests on
    these facts alone. A run of the validation controller writes nothing but
    the status, apart from rotating a password while it connects. *)

From Stdlib Require Import ZArith Lia String.
From S2P Require Import Prelude GoStd Float GoJson Lang K8sLib Api State Utils Config Effects.
From S2P Require Import Database Connect Iteration Validate Pipeline Validation Sim.
From S2P Require Import StatusUpdate Stale Deviation Reconcile ReconcileProps ValidationProps Setup.
Import Api State Config Database Connect Iteration Pipeline StatusUpdate Stale Deviation Reconcile.
Import ReconcileLemmas Refinement Setup.

Module Writes.

(** ** The log of resource updates *)

Definition touches {X} (e : eff X) : bool :=
  match e with KUpdatePipeline _ | KUpdateStatus _ => true | _ => false end.

Definition rlog (t : list obs) : list obs := List.filter (fun o => touches (obs_eff o)) t.

Lemma rlog_app t t' : rlog (t ++ t') = rlog t ++ rlog t'.
Proof. apply List.filter_app. Qed.

Lemma touches_writes {X} (e : eff X) : touches e = true -> writes e = true.
Proof. by destruct e. Qed.

Lemma rlog_wlog t : rlog (wlog t) = rlog t.
Proof.
  induction t as [|o t IH]; [done|]. unfold rlog, wlog in *. simpl.
  destruct (writes (obs_eff o)) eqn:W; simpl.
  - destruct (touches (obs_eff o)); [by rewrite IH|done].
  - destruct (touches (obs_eff o)) eqn:T; [|done]. apply touches_writes in T. congruence.
Qed.

Lemma rlog_of_wlog t l : wlog t = l -> rlog t = rlog l.
Proof. intros <-. by rewrite rlog_wlog. Qed.

Lemma rlog_none P t :
  (forall X (e : eff X), P X e -> touches e = false) -> all_obs P t -> rlog t = [].
Proof.
  intros H. unfold all_obs. induction 1 as [|o t Ho Ft IH]; [done|].
  unfold rlog in *. simpl. by rewrite (H _ _ Ho).
Qed.

Lemma only_rlog {A} P (p : prog A) t r :
  (forall X (e : eff X), P X e -> touches e = false) -> only P p -> runs p t r -> rlog t = [].
Proof. intros H O R. eapply rlog_none; [exact H|]. by eapply only_runs. Qed.

Lemma reader_rlog {A} (p : prog A) t r : only read_only p -> runs p t r -> rlog t = [].
Proof. apply only_rlog. intros X e W. unfold read_only in W. by destruct e. Qed.

Lemma rlog_elem t T o rest :
  t = T ++ o :: rest -> touches (obs_eff o) = true -> rlog t = rlog T ++ o :: rlog rest.
Proof. intros -> H. rewrite rlog_app. unfold rlog at 2. simpl. by rewrite H. Qed.

Lemma elem_rlog t o : o ∈ t -> touches (obs_eff o) = true -> o ∈ rlog t.
Proof.
  intros I H. unfold rlog. apply list_elem_of_In, List.filter_In. split; [|done].
  by apply list_elem_of_In.
Qed.

Lemma rlog_in t o : o ∈ rlog t -> o ∈ t.
Proof.
  unfold rlog. intros I%list_elem_of_In. apply List.filter_In in I as [I _].
  by apply list_elem_of_In.
Qed.

(** An update comes after a part of the run without updates, before one. *)
Lemma after_quiet A B T o rest :
  A ++ B = T ++ o :: rest -> rlog A = [] -> touches (obs_eff o) = true ->
  exists T', T = A ++ T' /\ B = T' ++ o :: rest.
Proof.
  intros E Q H. revert T E. induction A as [|a A IH]; intros T E; simpl in *; [eauto|].
  unfold rlog in Q. simpl in Q.
  destruct T as [|b T]; simpl in E; injection E as -> E.
  - by rewrite H in Q.
  - destruct (touches (obs_eff b)); [done|]. destruct (IH Q T E) as (T' & -> & ->). eauto.
Qed.

Lemma before_quiet A B T o rest :
  A ++ B = T ++ o :: rest -> rlog B = [] -> touches (obs_eff o) = true ->
  exists rest', A = T ++ o :: rest' /\ rest = rest' ++ B.
Proof.
  intros E Q H. revert T E. induction A as [|a A IH]; intros T E; simpl in *.
  - exfalso. apply (rlog_elem _ _ _ _ E) in H. rewrite Q in H. by destruct (rlog T).
  - destruct T as [|b T]; simpl in E; injection E as -> E.
    + exists A. by rewrite E.
    + destruct (IH T E) as (rest' & -> & ->). eauto.
Qed.

(** ** Where an update comes from *)

Section Origin.
Context {L : Libs} {LOK : LibsOk L}.

(** The cleanup of a pipeline being removed has been carried out in this part
    of a run, without an error or in an ephemeral environment. *)
Definition cleaned_up (p : CyndiPipeline) (t : list obs) : Prop :=
  exists i td stale env,
    Instance i = p /\ GetState p = STATE_REMOVED /\
    runs (deleteStaleDependencies i) td (Some stale) /\ (exists a b, t = a ++ td ++ b) /\
    Obs (Getenv "EPHEMERAL") env ∈ t /\ (stale = [] \/ is_ephemeral env = true).

Definition with_finalizer (p : CyndiPipeline) : CyndiPipeline :=
  with_Finalizers p (AddFinalizer (Finalizers_of (Meta p)) cyndipipelineFinalizer).
Definition without_finalizer (p : CyndiPipeline) : CyndiPipeline :=
  with_Finalizers p (RemoveFinalizer (Finalizers_of (Meta p)) cyndipipelineFinalizer).

(** Operations recorded without the finalizer being looked at *)
Definition bookkeeping (a : action) : Prop :=
  a = Refreshed \/ exists ok r m h, a = Validated ok r m h.

(** [may_write p t o]: a run that fetched [p] and then made the calls [t] may
    send the update of [o]; the answer can be any. *)
Inductive may_write (p : CyndiPipeline) (t : list obs) : obs -> Prop :=
| mw_same cur x : live p -> may_write p t (Obs (KUpdateStatus (with_active cur p)) x)
| mw_act cur a x : live p -> enabled p a -> bookkeeping a ->
    may_write p t (Obs (KUpdateStatus (with_active cur (act a p))) x)
| mw_protect x : GetState p = STATE_NEW ->
    may_write p t (Obs (KUpdatePipeline (with_finalizer p)) x)
| mw_start cfg v cur x : GetState p = STATE_NEW -> v <> EmptyString ->
    cyndipipelineFinalizer ∈ Finalizers_of (Meta p) ->
    may_write p t (Obs (KUpdateStatus (with_active cur (started p cfg v))) x)
| mw_start_protected q cfg v cur x : GetState p = STATE_NEW -> v <> EmptyString ->
    Obs (KUpdatePipeline (with_finalizer p)) (inr q) ∈ t ->
    may_write p t (Obs (KUpdateStatus (with_active cur (started q cfg v))) x)
| mw_release x : cleaned_up p t -> may_write p t (Obs (KUpdatePipeline (without_finalizer p)) x).

Lemma cleaned_up_app p A t B : cleaned_up p t -> cleaned_up p (A ++ t ++ B).
Proof.
  intros (i & td & st & env & ? & ? & ? & (a & b & ->) & ? & ?).
  exists i, td, st, env. split_and!; [done..| | |done].
  - exists (A ++ a), (b ++ B). by rewrite <- !app_assoc.
  - set_solver.
Qed.

(** More may have happened before. *)
Lemma may_write_app p A t o : may_write p t o -> may_write p (A ++ t) o.
Proof.
  intros M. destruct M as [| | | |q cfg v cur x ? ? I|x Cl].
  - by apply mw_same.
  - by apply mw_act.
  - by apply mw_protect.
  - by apply mw_start.
  - eapply mw_start_protected; [done..|]. apply elem_of_app. by right.
  - apply mw_release. apply (cleaned_up_app _ A _ []) in Cl. by rewrite app_nil_r in Cl.
Qed.

Lemma elem_of_runs_only {A} P (p : prog A) t r T o rest :
  only P p -> runs p t r -> t = T ++ o :: rest -> P _ (obs_eff o).
Proof.
  intros O R ->. eapply all_obs_elem; [exact (only_runs _ _ _ _ O R)|].
  apply elem_of_app. right. left.
Qed.

Lemma not_removed_live p : GetState p <> STATE_REMOVED -> live p.
Proof.
  intros N. unfold live. destruct (DeletionTimestamp (Meta p)) eqn:D; [|done].
  destruct N. apply GetState_removed. by rewrite D.
Qed.

Lemma not_new_enabled p a :
  GetState p <> STATE_REMOVED -> GetState p <> STATE_NEW -> bookkeeping a ->
  live p /\ enabled p a.
Proof.
  intros R N B. split; [by apply not_removed_live|].
  by destruct B as [->|(ok & r & m & h & ->)].
Qed.

(** The validation controller *)
Lemma validation_writes check i t r T o rest :
  runs (Validation.reconcile_body check i) t r -> t = T ++ o :: rest ->
  touches (obs_eff o) = true -> may_write (Instance i) T o.
Proof.
  intros R E H.
  assert (S : GetState (Instance i) <> STATE_REMOVED /\ GetState (Instance i) <> STATE_NEW).
  { split; intros S; unfold Validation.reconcile_body in R; rewrite S in R; simpl in R;
      apply runs_ret_inv in R as [-> _]; by destruct T. }
  pose proof (elem_of_runs_only _ _ _ _ _ _ _ (validation_body_only check i) R E) as P.
  destruct o as [X e x]. destruct e; try done. simpl in P. destruct P as (cur & a & -> & B).
  destruct S as [S1 S2]. destruct (not_new_enabled _ a S1 S2 B). apply mw_act; [done..|exact B].
Qed.

(** The pipeline controller, for a pipeline that is running *)
Lemma running_writes i t r T o rest :
  GetState (Instance i) <> STATE_REMOVED -> GetState (Instance i) <> STATE_NEW ->
  runs (reconcile_running i) t r -> t = T ++ o :: rest ->
  touches (obs_eff o) = true -> may_write (Instance i) T o.
Proof.
  intros S1 S2 R E H.
  pose proof (elem_of_runs_only _ _ _ _ _ _ _ (reconcile_running_only i) R E) as P.
  destruct o as [X e x]. destruct e; try done. simpl in P.
  destruct P as [cur [-> | ->]]; [by apply mw_same, not_removed_live|].
  assert (B : bookkeeping Refreshed) by (by left).
  destruct (not_new_enabled _ _ S1 S2 B). by apply (mw_act _ _ cur Refreshed).
Qed.

Lemma singleton_split {A} (o a : A) l l' : [a] = l ++ o :: l' -> l = [] /\ o = a /\ l' = [].
Proof. destruct l as [|? [|]]; simpl; intros [=]; done. Qed.

Lemma status_rlog q cfg v j (seen table cs ss : list obs) :
  start_log (set_Instance (started q cfg v) j) cfg v seen table cs ss ->
  rlog (table ++ cs ++ ss) = [] \/
  exists cur x, rlog (table ++ cs ++ ss) = [Obs (KUpdateStatus (with_active cur (started q cfg v))) x].
Proof.
  intros [Tb [Cn St] _]. rewrite !rlog_app.
  assert (rlog table = []) as -> by (destruct Tb as [->|(? & ? & ? & -> & _)]; done).
  assert (rlog cs = []) as -> by (destruct Cn as [->|(? & ? & ? & -> & _)]; done).
  destruct St as [->|(cur & x & -> & _)]; [by left|]. right. by exists cur, x.
Qed.

(** A pipeline in NEW *)
Lemma new_writes i cfg t r T o rest :
  config i = Some cfg -> GetState (Instance i) = STATE_NEW ->
  runs (reconcile_new i) t r -> t = T ++ o :: rest ->
  touches (obs_eff o) = true -> may_write (Instance i) T o.
Proof.
  intros C S R E H. destruct (reconcile_new_runs _ _ _ _ C R)
    as (res & -> & [(er & W & _)|(fin & q & now & table & cs & ss & Pt & W & _ & Sl)]);
    apply rlog_of_wlog in W; rewrite (rlog_elem _ _ _ _ E H) in W.
  { change (rlog [?a]) with [a] in W. symmetry in W. apply singleton_split in W as (_ & W & _).
    subst o. by apply mw_protect. }
  rewrite rlog_app in W.
  assert (V : forall n, "1_" +s+ Strconv.FormatInt n <> EmptyString) by done.
  destruct Pt as [F|q F].
  - destruct (status_rlog _ _ _ _ _ _ _ _ Sl) as [Q|(cur & y & Q)]; rewrite Q in W; simpl in W.
    + by destruct (rlog T).
    + symmetry in W. apply singleton_split in W as (_ & W & _). subst o. by apply mw_start.
  - assert (I : forall l, rlog T = Obs (KUpdatePipeline (with_finalizer (Instance i))) (inr q) :: l ->
      Obs (KUpdatePipeline (with_finalizer (Instance i))) (inr q) ∈ T).
    { intros l E'. apply rlog_in. rewrite E'. left. }
    change (rlog [?a]) with [a] in W. cbn [Datatypes.app] in W.
    destruct (rlog T) as [|o' l] eqn:RT; simpl in W.
    + injection W as -> _. by apply mw_protect.
    + injection W as -> W. specialize (I _ eq_refl).
      destruct (status_rlog _ _ _ _ _ _ _ _ Sl) as [Q|(cur & y & Q)]; rewrite Q in W.
      * by destruct l.
      * symmetry in W. apply singleton_split in W as (_ & W & _). subst o.
        by apply mw_start_protected.
Qed.

Lemma deletion_rlog i t r : runs (deleteStaleDependencies i) t r -> rlog t = [].
Proof.
  apply only_rlog with (P := deletion_effect i); [|apply deleteStaleDependencies_only].
  intros X e D. by destruct e.
Qed.

Lemma quiet_rlog t : wlog t = [] -> rlog t = [].
Proof. by intros ->%rlog_of_wlog. Qed.

(** The body of an iteration of the pipeline controller *)
Lemma body_writes i serr t r T o rest :
  (serr = None -> config i <> None) ->
  runs (reconcile_body i serr) t r -> t = T ++ o :: rest ->
  touches (obs_eff o) = true -> may_write (Instance i) T o.
Proof.
  intros C R E H. apply reconcile_body_runs in R
    as [(_ & t0 & t1 & -> & W & R)|(t0 & td & t1 & env & t2 & st & -> & W0 & W1 & Rd & Pr)].
  { apply (rlog_elem _ _ _ _) in E; [|done]. rewrite rlog_app, (quiet_rlog _ W), (deletion_rlog _ _ _ R) in E.
    by destruct (rlog T). }
  set (A := t0 ++ td ++ t1 ++ [Obs (Getenv "EPHEMERAL") env]).
  assert (Q : rlog A = []).
  { unfold A. by rewrite !rlog_app, (quiet_rlog _ W0), (quiet_rlog _ W1), (deletion_rlog _ _ _ Rd). }
  assert (E' : A ++ t2 = T ++ o :: rest) by (unfold A; by rewrite <- !app_assoc).
  apply after_quiet in E' as (T' & -> & E2); [|done..].
  inversion Pr as [ta res S Er F|e0 es Er _|ta tb r' Er S Wa Rn|ta tb r' Er S1 S2 Wa Rr]; subst.
  - apply finalize_update in F as (y & W & _). apply rlog_of_wlog in W.
    rewrite (rlog_elem _ _ _ _ eq_refl H) in W. change (rlog [?a]) with [a] in W.
    symmetry in W. apply singleton_split in W as (_ & -> & _).
    apply mw_release. exists i, td, st, env. split_and!; [done..| | |].
    + unfold A. exists t0, (t1 ++ [Obs (Getenv "EPHEMERAL") env] ++ T').
      by rewrite <- !app_assoc.
    + unfold A. set_solver.
    + destruct Er as [Er|Er]; [left|by right]. by destruct serr.
  - by destruct T'.
  - destruct serr; [done|]. destruct (config i) as [cfg|] eqn:Ci; [|by destruct C].
    match goal with F : ta ++ tb = _ |- _ =>
      apply after_quiet in F as (T2 & -> & ->); [|by apply quiet_rlog|done] end.
    do 2 apply may_write_app. by eapply new_writes.
  - match goal with F : ta ++ tb = _ |- _ =>
      apply after_quiet in F as (T2 & -> & ->); [|by apply quiet_rlog|done] end.
    do 2 apply may_write_app. by eapply running_writes.
Qed.

(** *** Whole runs *)

Lemma setup_rlog ns name t r : runs (Pipeline.setup ns name) t r -> rlog t = [].
Proof.
  apply only_rlog with (P := setup_effect); [|apply setup_only]. intros X e W. by destruct e.
Qed.

Lemma vsetup_rlog ns name t r : runs (Validation.setup ns name) t r -> rlog t = [].
Proof.
  apply only_rlog with (P := setup_effect); [|apply vsetup_only]. intros X e W. by destruct e.
Qed.

Lemma Close_read_only_iteration i : only read_only (Close i).
Proof.
  unfold Close. apply only_bind; [auto with cyndi_prog|]. intros _.
  destruct (InventoryDb i); [|done]. apply only_bind; [auto with cyndi_prog|done].
Qed.

Lemma Close_rlog i t r : runs (Close i) t r -> rlog t = [].
Proof. apply reader_rlog, Close_read_only_iteration. Qed.

(** No update in a run without updates *)
Lemma no_update t T o rest {Q : Prop} :
  rlog t = [] -> t = T ++ o :: rest -> touches (obs_eff o) = true -> Q.
Proof. intros W E H. apply (rlog_elem _ _ _ _ E) in H. rewrite W in H. by destruct (rlog T). Qed.

(** A request for the pipeline is the first call of a run. *)
Definition fetched (ns name : string) (p : CyndiPipeline) : obs := Obs (KGetPipeline ns name) (inr p).

(** Which pipeline a call fetched *)
Definition fetch_of (o : obs) : option CyndiPipeline :=
  match o with
  | Obs e x =>
      match e in eff X return X -> option CyndiPipeline with
      | KGetPipeline _ _ => fun r => match r with inr p => Some p | inl _ => None end
      | _ => fun _ => None
      end x
  end.

Lemma fetched_fetch ns name (o : obs) p : o = fetched ns name p -> fetch_of o = Some p.
Proof. by intros ->. Qed.

Lemma Reconcile_writes ns name t r T o rest :
  runs (Pipeline.Reconcile ns name) t r -> t = T ++ o :: rest -> touches (obs_eff o) = true ->
  exists p T', T = fetched ns name p :: T' /\ may_write p T' o.
Proof.
  intros R E H. unfold Pipeline.Reconcile in R.
  apply runs_bind_inv in R as [(t1 & t2 & [i err] & -> & R1 & R)|[R _]].
  2: by apply setup_runs_some in R.
  pose proof (setup_rlog _ _ _ _ R1) as Q1.
  apply after_quiet in E as (T1 & -> & E); [|done..].
  apply setup_runs in R1 as ([e|p] & t' & -> & X).
  { destruct X as [-> [= -> ->]].
    destruct (IsNotFound e); [apply runs_ret_inv in R as [-> _]|apply runs_panic_inv in R as [-> _]];
      by destruct T1. }
  destruct X as (j & err' & [= -> ->] & Su).
  exists p, (t' ++ T1). split; [done|]. apply may_write_app. rewrite <- (su_instance _ _ _ _ Su).
  assert (C : err' = None -> config j <> None).
  { intros ->. destruct Su as [_ _ _ _ (g & ow & t'' & _ & S)].
    destruct (configured p g ow); [by destruct S as (_ & ? & _)|]. by destruct S as [-> _]. }
  apply runs_bind_inv in R as [(t3 & t4 & [k res] & -> & R1 & R)|[R _]].
  2: by eapply body_writes.
  apply before_quiet in E as (rest' & -> & _); [by eapply body_writes| |done].
  apply runs_bind_inv in R as [(t5 & t6 & u & -> & R2 & R)|[R _]].
  - apply runs_ret_inv in R as [-> _]. rewrite app_nil_r. by eapply Close_rlog.
  - by eapply Close_rlog.
Qed.

Lemma vReconcile_writes check ns name t r T o rest :
  runs (Validation.Reconcile check ns name) t r -> t = T ++ o :: rest ->
  touches (obs_eff o) = true ->
  exists p T', T = fetched ns name p :: T' /\ may_write p T' o.
Proof.
  intros R E H. unfold Validation.Reconcile in R.
  apply runs_bind_inv in R as [(t1 & t2 & [i err] & -> & R1 & R)|[R _]].
  2: { apply vsetup_rlog in R. by eapply no_update. }
  pose proof (vsetup_rlog _ _ _ _ R1) as Q1.
  apply after_quiet in E as (T1 & -> & E); [|done..].
  apply vsetup_runs in R1 as ([e|p] & t' & -> & X).
  { destruct X as [-> [= -> ->]].
    destruct (IsNotFound e); [apply runs_ret_inv in R as [-> _]|apply runs_panic_inv in R as [-> _]];
      by destruct T1. }
  destruct X as (j & err' & [= -> ->] & <- & _ & _).
  exists (Instance j), (t' ++ T1). split; [done|]. apply may_write_app.
  assert (Fin : forall (s : Result) t r, runs (Close j ;; Ret s) t r -> rlog t = []).
  { intros s t5 r' R'. apply runs_bind_inv in R' as [(t6 & t7 & u & -> & R2 & R')|[R' _]].
    - apply runs_ret_inv in R' as [-> _]. rewrite app_nil_r. by eapply Close_rlog.
    - by eapply Close_rlog. }
  destruct err' as [e|].
  - eapply no_update; [|exact E|exact H].
    apply runs_bind_inv in R as [(t3 & t4 & e' & -> & R1 & R)|[R _]].
    + apply error_runs in R1 as [W _]. rewrite rlog_app, (quiet_rlog _ W). by eapply Fin.
    + by apply error_runs in R as [_ ?].
  - apply runs_bind_inv in R as [(t3 & t4 & res & -> & R1 & R)|[R _]].
    + apply before_quiet in E as (rest' & -> & _); [by eapply validation_writes|by eapply Fin|done].
    + by eapply validation_writes.
Qed.

(** *** The effects of the validation controller *)

Definition vrun_effect (X : Type) (e : eff X) : Prop :=
  match e with KUpdateStatus _ => True | _ => setup_effect X e end.

Lemma vrun_reads : allows_reads vrun_effect.
Proof. intros X e W. by destruct e. Qed.

Lemma vReconcile_only check ns name : only vrun_effect (Validation.Reconcile check ns name).
Proof.
  pose proof vrun_reads as Rd. unfold Validation.Reconcile. apply only_bind.
  { eapply only_mono; [|apply vsetup_only]. intros X e S. by destruct e. }
  assert (Cl : forall i (res : Result), only vrun_effect (Close i ;; Ret res)).
  { intros i res. apply only_bind; [apply only_reads; [done|apply Close_read_only_iteration]|done]. }
  intros [[i|] [e|]]; [| |done..].
  - apply only_bind; [by apply only_error|]. intros e'. apply Cl.
  - apply only_bind; [|intros res; apply Cl]. eapply only_mono; [|apply validation_body_only].
    intros X f D. by destruct f.
Qed.

(** Outside its body a run of the validation controller sends no status. *)
Lemma vReconcile_parts check ns name t r :
  runs (Validation.Reconcile check ns name) t r ->
  exists t1 t2 t3, t = t1 ++ t2 ++ t3 /\ status_updates t1 = [] /\ status_updates t3 = [] /\
    (t2 = [] \/ exists i rb, head t = Some (fetched ns name (Instance i)) /\ config i <> None /\
                 runs (Validation.reconcile_body check i) t2 rb).
Proof.
  intros R. unfold Validation.Reconcile in R.
  assert (Su : forall t r, runs (Validation.setup ns name) t r -> status_updates t = []).
  { intros t' r' R'. apply (only_runs _ _ _ _ (vsetup_only ns name)) in R'.
    eapply all_obs_none; [|exact R']. intros [X e y]. by destruct e. }
  assert (Fin : forall i (s : Result) t r, runs (Close i ;; Ret s) t r -> status_updates t = []).
  { intros i s t' r'. apply reader_status. apply only_bind; [apply Close_read_only_iteration|done]. }
  apply runs_bind_inv in R as [(t1 & t2 & [i err] & -> & R1 & R)|[R _]].
  2: { exists t, [], []. rewrite app_nil_r. split_and!; eauto. }
  pose proof (Su _ _ R1) as S1.
  apply vsetup_runs in R1 as ([e|p] & t' & -> & X).
  { destruct X as [-> [= -> ->]]. exists [Obs (KGetPipeline ns name) (inl e)], [], [].
    assert (t2 = []) as ->; [|by auto].
    destruct (IsNotFound e); [by apply runs_ret_inv in R as [-> _]|by apply runs_panic_inv in R as [-> _]]. }
  destruct X as (j & err' & [= -> ->] & <- & _ & C).
  destruct err' as [e|].
  { exists (Obs (KGetPipeline ns name) (inr (Instance j)) :: t'), [], t2. split; [done|].
    split; [done|]. split; [|by left].
    apply runs_bind_inv in R as [(t3 & t4 & e' & -> & R1 & R)|[R _]].
    - apply error_runs in R1 as [W _]. by rewrite status_updates_app, (status_wlog t3), W, (Fin _ _ _ _ R).
    - by apply error_runs in R as [_ ?]. }
  destruct (C eq_refl) as [Cj _].
  apply runs_bind_inv in R as [(t3 & t4 & res & -> & R1 & R)|[R _]].
  - exists (Obs (KGetPipeline ns name) (inr (Instance j)) :: t'), t3, t4.
    split_and!; [done|done|by eapply Fin|]. right. by exists j, (Some res).
  - exists (Obs (KGetPipeline ns name) (inr (Instance j)) :: t'), t2, [].
    rewrite app_nil_r. split_and!; [done..|]. right. by exists j, None.
Qed.

End Origin.
End Writes.

(** ** Properties *)

Module WritesProps.
Import Writes.

Section Props.
Context {L : Libs} {LOK : LibsOk L}.

(** C28: A whole run of the validation controller. The only commands it sends
    to a database are the password rotations of its setup; it creates, changes
    and deletes no connector and does not update the resource; and it sends at
    most one status, of the pipeline it fetched, with the active table the
    database reported: the verdict of the validation that was run, or, when the
    check for deviations is enabled and found a problem, the refreshed status. *)
Theorem validation_only_writes_status (check : bool) (ns name : string) (t : list obs)
    (r : option Result) :
  runs (Validation.Reconcile check ns name) t r ->
  (forall q x, (q, x) ∈ execs t -> exists user password, q = alter_role user password) /\
  conn_deletes t = [] /\ conn_creates t = [] /\ conn_updates t = [] /\ pipeline_updates t = [] /\
  (status_updates t = [] \/
   exists i, head t = Some (fetched ns name (Instance i)) /\
     (verdict_sent i t \/ check = true /\ refresh_sent i t)).
Proof.
  intros R. pose proof (only_runs _ _ _ _ (vReconcile_only check ns name) R) as A.
  split; [intros q x I; by destruct (all_obs_execs _ _ _ _ A I) as [c H]|].
  split_and!; [(eapply all_obs_none; [|exact A]); intros [X e y]; by destruct e..|].
  destruct (vReconcile_parts _ _ _ _ _ R) as (t1 & t2 & t3 & E & S1 & S3 & B).
  assert (S : status_updates t = status_updates t2)
    by (by rewrite E, !status_updates_app, S1, S3, app_nil_r).
  destruct B as [->|(i & rb & H & _ & Rb)]; [by left|].
  apply validation_body_status in Rb as [N|V]; [left; congruence|right]. exists i. split; [done|].
  destruct V as [(cfg & v & cur & x & C & A1 & A2 & Eq)|(Ck & pr & cur & x & A1 & A2 & Eq)];
    [left; exists cfg, v, cur, x|right; split; [done|]; exists pr, cur, x];
    rewrite S; split_and!; try done; rewrite E; by apply answered_within.
Qed.

End Props.

(** *** A concrete run *)

Existing Instances Sim.libs Sim.libs_ok.

Definition vrun : list obs :=
  trace_of Sim.world_handler (Validation.Reconcile true "test" "test-pipeline-01") ValidationProps.synced.

Lemma validation_only_writes_status_witness :
  List.length (status_updates vrun) = 1 /\
  (status_updates vrun = [] \/
   exists i, head vrun = Some (fetched "test" "test-pipeline-01" (Instance i)) /\
     (verdict_sent i vrun \/ true = true /\ refresh_sent i vrun)).
Proof.
  split; [vm_compute; reflexivity|].
  assert (R : runs (Validation.Reconcile true "test" "test-pipeline-01") vrun
    (result_of Sim.world_handler (Validation.Reconcile true "test" "test-pipeline-01")
       ValidationProps.synced)) by (by apply runs_exec).
  exact (proj2 (proj2 (proj2 (proj2 (proj2
    (validation_only_writes_status true "test" "test-pipeline-01" vrun _ R)))))).
Defined.

End WritesProps.
