(* ===== verification/System.v ===== *)
(** * The controllers together

    Any number of runs of both controllers, interleaved call by call, with an
    API server that stores the resource: reads may be answered from a cache
    with any earlier version, an update is accepted only when it carries the
    resource version of the stored object, the answer to an accepted update may
    get lost, the status is a subresource, and users edit, delete and recreate
    the resource in between. The invariants of the history of the resource
    follow from what each run may write (Writes) and from the optimistic
    locking of the server. *)

From Stdlib Require Import ZArith Lia String.
From S2P Require Import Prelude GoStd Float GoJson Lang K8sLib Api State Utils Config Effects.
From S2P Require Import Database Connect Iteration Validate Pipeline Validation Sim.
From S2P Require Import StatusUpdate Stale Deviation Reconcile ReconcileProps ValidationProps Setup.
From S2P Require Import Writes.
Import Api State Config Iteration StatusUpdate Reconcile Refinement Writes.

Module System.

(** ** Residual programs *)

(** [to p t q]: after the calls [t], [q] is left of [p]. *)
Inductive to {A} : prog A -> list obs -> prog A -> Prop :=
| to_nil p : to p [] p
| to_call {X} (e : eff X) k x t q : to (k x) t q -> to (Call e k) (Obs e x :: t) q.

Lemma to_snoc {A X} (p : prog A) t (e : eff X) k x :
  to p t (Call e k) -> to p (t ++ [Obs e x]) (k x).
Proof.
  intros T. remember (Call e k) as q eqn:E. revert E.
  induction T as [p|Y e' k' y t q T IH]; intros ->; simpl; constructor; [constructor|by apply IH].
Qed.

Lemma to_runs {A} (p : prog A) t q t' r : to p t q -> runs q t' r -> runs p (t ++ t') r.
Proof. induction 1 as [|? ? ? ? ? ? T IH]; simpl; [done|]. intros R. constructor. by apply IH. Qed.

(** Every call has an answer, so that every program has a run. *)
Definition some_error : gerror := Errorf "error".

Definition some_answer {X} (e : eff X) : X :=
  match e in eff X return X with
  | KGetPipeline _ _ | KListPipelines | KGetConfigMap _ _ | KGetSecret _ _ | KUpdatePipeline _
  | KUpdateStatus _ | KGetConnector _ _ | KListConnectors _ _ | PgConnect _ | PgQuery _ _ _ =>
      inl some_error
  | KCreateConnector _ | KUpdateConnector _ | KDeleteConnector _ _ | PgClose _ | PgExec _ _ => None
  | Event _ _ _ | Eventf _ _ _ _ | Metric _ => tt
  | Getenv _ => EmptyString
  | NowUnixNano => 0%Z
  end.

Lemma some_run {A} (p : prog A) : exists t r, runs p t r.
Proof.
  induction p as [a| |X e k IH]; [by do 2 eexists; constructor..|].
  destruct (IH (some_answer e)) as (t & r & R). do 2 eexists. by constructor.
Qed.

(** ** The API server *)

Definition rv (p : CyndiPipeline) : string := ResourceVersion (Meta p).
Definition deletion (p : CyndiPipeline) : option Z := DeletionTimestamp (Meta p).
Definition finalizers (p : CyndiPipeline) : list string := Finalizers_of (Meta p).

(** Every version of the resource, the newest first; [gone]: there is no object
    at present. *)
Record server := { versions : list CyndiPipeline; gone : bool }.

Definition stored (s : server) : option CyndiPipeline :=
  if gone s then None else head (versions s).

(** An object being deleted disappears with its last finalizer. *)
Definition vanishes (p : CyndiPipeline) : bool :=
  bool_decide (deletion p <> None) && bool_decide (finalizers p = []).

Definition push (n : CyndiPipeline) (s : server) : server :=
  {| versions := n :: versions s; gone := vanishes n |}.

Definition new_rv (n : CyndiPipeline) (s : server) : Prop := rv n ∉ rv <$> versions s.

(** What the server stores for an update [u] of [cur]: of the resource, or of
    the status only *)
Record resource_updated (u cur n : CyndiPipeline) : Prop := {
  ru_uid : UID (Meta n) = UID (Meta cur);
  ru_deletion : deletion n = deletion cur;
  ru_finalizers : finalizers n = finalizers u;
  ru_spec : Spec n = Spec u;
  ru_status : Status n = Status cur
}.

Record status_updated (u cur n : CyndiPipeline) : Prop := {
  su_uid : UID (Meta n) = UID (Meta cur);
  su_deletion : deletion n = deletion cur;
  su_finalizers : finalizers n = finalizers cur;
  su_spec : Spec n = Spec cur;
  su_status : Status n = Status u
}.

(** Optimistic locking: an update of another version than the stored one is
    refused. An accepted one makes a new version, unless it changes nothing;
    its answer is the stored object, or is lost. *)
Inductive updates (R : CyndiPipeline -> CyndiPipeline -> CyndiPipeline -> Prop) (s : server)
    (u : CyndiPipeline) : result CyndiPipeline -> server -> Prop :=
| up_refused e : updates R s u (inl e) s
| up_nothing cur r : stored s = Some cur -> rv u = rv cur -> R u cur cur ->
    (r = inr cur \/ exists e, r = inl e) -> updates R s u r s
| up_new cur n r : stored s = Some cur -> rv u = rv cur -> R u cur n -> new_rv n s ->
    (r = inr n \/ exists e, r = inl e) -> updates R s u r (push n s).

(** [answers s e x s']: the call [e] can be answered by [x], and the server
    moves from [s] to [s']. *)
Definition answers (s : server) {X} (e : eff X) (x : X) (s' : server) : Prop :=
  match e in eff X return X -> Prop with
  | KGetPipeline _ _ => fun r => s' = s /\ match r with inl _ => True | inr p => p ∈ versions s end
  | KUpdatePipeline u => fun r => updates resource_updated s u r s'
  | KUpdateStatus u => fun r => updates status_updated s u r s'
  | _ => fun _ => s' = s
  end x.

(** What users do. They leave the operator's finalizer alone. *)
Inductive user (s : server) : server -> Prop :=
| us_create n : stored s = None -> fresh n -> new_rv n s -> user s (push n s)
| us_edit cur n : stored s = Some cur -> new_rv n s ->
    UID (Meta n) = UID (Meta cur) -> deletion n = deletion cur -> Status n = Status cur ->
    (Pipeline.cyndipipelineFinalizer ∈ finalizers cur ->
     Pipeline.cyndipipelineFinalizer ∈ finalizers n) -> user s (push n s)
| us_delete cur n : stored s = Some cur -> new_rv n s ->
    UID (Meta n) = UID (Meta cur) -> deletion n <> None -> finalizers n = finalizers cur ->
    Spec n = Spec cur -> Status n = Status cur -> user s (push n s).

(** ** The composition *)

Section Cluster.
Context {L : Libs} (ns name : string).

Inductive controller : prog Result -> Prop :=
| c_pipeline : controller (Pipeline.Reconcile ns name)
| c_validation check : controller (Validation.Reconcile check ns name).

(** A run in flight: the controller's program, the calls made so far, and what
    is left of it *)
Record thread := { th_program : prog Result; th_trace : list obs; th_rest : prog Result }.

Record cluster := { srv : server; threads : list thread }.

Inductive step : cluster -> cluster -> Prop :=
| st_start S P : controller P ->
    step S {| srv := srv S;
              threads := threads S ++ [{| th_program := P; th_trace := []; th_rest := P |}] |}
| st_call S i P t X (e : eff X) k x s' :
    threads S !! i = Some {| th_program := P; th_trace := t; th_rest := Call e k |} ->
    answers (srv S) e x s' ->
    step S {| srv := s';
              threads := <[i := {| th_program := P; th_trace := t ++ [Obs e x]; th_rest := k x |}]>
                           (threads S) |}
| st_user S s' : user (srv S) s' -> step S {| srv := s'; threads := threads S |}.

Definition nothing : cluster := {| srv := {| versions := []; gone := true |}; threads := [] |}.

Definition reachable (S : cluster) : Prop := rtc step nothing S.

(** ** The history of the resource *)

(** Some run fetched this version and carried out the cleanup. *)
Definition cleaned (ths : list thread) (o : CyndiPipeline) : Prop :=
  exists th t, th ∈ ths /\ th_trace th = fetched ns name o :: t /\ cleaned_up o t.

(** From one version of the resource to the next: it was created anew after
    the old one had gone; or its state stayed, or made a step of the diagram,
    or its deletion was requested, for good, and the finalizer stayed, unless
    a cleanup of this very version has been carried out. *)
Inductive evolves (C : CyndiPipeline -> Prop) (o n : CyndiPipeline) : Prop :=
| ev_created : ~ live o -> finalizers o = [] -> fresh n -> evolves C o n
| ev_changed :
    UID (Meta n) = UID (Meta o) ->
    (live n -> live o) ->
    (GetState n = GetState o \/ (exists a, diagram (GetState o) a (GetState n)) \/
     GetState n = STATE_REMOVED) ->
    (Pipeline.cyndipipelineFinalizer ∈ finalizers o ->
     Pipeline.cyndipipelineFinalizer ∈ finalizers n \/ C o) ->
    evolves C o n.

Lemma evolves_mono (C C' : CyndiPipeline -> Prop) o n :
  (C o -> C' o) -> evolves C o n -> evolves C' o n.
Proof. intros H [|? ? ? F]; [by apply ev_created|]. apply ev_changed; naive_solver. Qed.

(** A version that a synchronisation has been started for carries the finalizer. *)
Definition guarded (v : CyndiPipeline) : Prop :=
  live v -> PipelineVersion (Status v) <> EmptyString ->
  Pipeline.cyndipipelineFinalizer ∈ finalizers v.

Record thread_ok (vs : list CyndiPipeline) (th : thread) : Prop := {
  tk_controller : controller (th_program th);
  tk_to : to (th_program th) (th_trace th) (th_rest th);
  tk_fetched p : fetched ns name p ∈ th_trace th -> p ∈ vs;
  tk_updated u q : Obs (KUpdatePipeline u) (inr q) ∈ th_trace th ->
    q ∈ vs /\ exists cur, cur ∈ vs /\ rv u = rv cur /\ resource_updated u cur q
}.

Record inv (S : cluster) : Prop := {
  in_rv : NoDup (rv <$> versions (srv S));
  in_wf v : v ∈ versions (srv S) -> wf v /\ guarded v;
  in_history l n o l' : versions (srv S) = l ++ n :: o :: l' -> evolves (cleaned (threads S)) o n;
  in_gone o : stored (srv S) = None -> head (versions (srv S)) = Some o ->
    ~ live o /\ finalizers o = [];
  in_threads th : th ∈ threads S -> thread_ok (versions (srv S)) th
}.

End Cluster.
(** ** Preservation *)

Section Preservation.
Context {L : Libs} {LOK : LibsOk L} (ns name : string).
Implicit Types (S : cluster) (s : server) (th : thread) (v o n u cur : CyndiPipeline).

Lemma rv_unique vs v w :
  NoDup (rv <$> vs) -> v ∈ vs -> w ∈ vs -> rv v = rv w -> v = w.
Proof.
  induction vs as [|x vs IH]; intros N V W E; [by apply elem_of_nil in V|].
  inversion N as [|? ? Nx Nv]; subst.
  assert (F : forall y, y ∈ vs -> rv y <> rv x).
  { intros y I E'. apply Nx. rewrite <- E'. by apply list_elem_of_fmap_2. }
  apply elem_of_cons in V as [->|V], W as [->|W]; [done| | |by apply IH].
  - by destruct (F w W).
  - by destruct (F v V).
Qed.

Lemma stored_in s cur : stored s = Some cur -> cur ∈ versions s /\ gone s = false /\
  exists l, versions s = cur :: l.
Proof.
  unfold stored. destruct (gone s); [done|]. destruct (versions s) as [|x l]; [done|].
  intros [= ->]. split; [left|eauto].
Qed.

Lemma vanishes_spec n : vanishes n = true <-> ~ live n /\ finalizers n = [].
Proof. unfold vanishes, live, deletion. rewrite andb_true_iff, !bool_decide_eq_true. done. Qed.

(** *** Writes of a run *)

Lemma thread_writes vs th X (e : eff X) k x :
  thread_ok ns name vs th -> th_rest th = Call e k -> touches e = true ->
  exists p t, th_trace th = fetched ns name p :: t /\ may_write p t (Obs e x).
Proof.
  intros [C T _ _] E H. rewrite E in T. destruct (some_run (k x)) as (t' & r & R).
  assert (R' : runs (th_program th) (th_trace th ++ Obs e x :: t') r).
  { eapply to_runs; [exact T|]. by constructor. }
  destruct C as [|check]; [by eapply Reconcile_writes|by eapply vReconcile_writes].
Qed.

Lemma act_meta a p : enabled p a -> Meta (act a p) = Meta p.
Proof.
  intros E. destruct a as [|v|ok r m h]; simpl act.
  - apply TransitionToNew_fields.
  - destruct E as [E _]. apply TransitionToInitialSync_ok. rewrite E. set_solver.
  - apply SetValid_meta.
Qed.

Lemma started_meta p cfg (v : string) : GetState p = STATE_NEW -> Meta (started p cfg v) = Meta p.
Proof.
  intros N. apply (TransitionToInitialSync_ok v (upd (set_SpecHash (cfgSpecHash cfg))
    (upd (set_CyndiConfigVersion (ConfigMapVersion cfg)) p))).
  change (GetState p ∈ [STATE_INITIAL_SYNC; STATE_NEW]). rewrite N. set_solver.
Qed.

Lemma meta_rv c p q : Meta q = Meta p -> rv (with_active c q) = rv p.
Proof. intros M. unfold rv. change (Meta (with_active c q)) with (Meta q). by rewrite M. Qed.

(** A status update of [cur], seen from the update *)
Lemma status_updated_core u cur n :
  status_updated u cur n -> Meta u = Meta cur -> same_core u n.
Proof. intros [U D F Sp St] M. split; rewrite ?St; try done. change (deletion n = deletion u). rewrite D. unfold deletion. by rewrite M. Qed.

Lemma resource_updated_core u cur n : resource_updated u cur n -> same_core cur n.
Proof. intros [U D F Sp St]. split; by rewrite ?St. Qed.

(** Recording something else than a start *)
Lemma bookkeeping_version p a : bookkeeping a ->
  PipelineVersion (Status (act a p)) = EmptyString \/
  PipelineVersion (Status (act a p)) = PipelineVersion (Status p).
Proof.
  intros [->|(ok & r & m & h & ->)]; simpl act.
  - left. apply TransitionToNew_fields.
  - right. apply SetValid_version.
Qed.

(** What the version [n] that an update makes of [cur] is like *)
Definition fine (C : CyndiPipeline -> Prop) cur n : Prop := wf n /\ guarded n /\ evolves C cur n.

Lemma status_write_fine C p t u cur n x :
  may_write p t (Obs (KUpdateStatus u) x) -> rv u = rv cur -> status_updated u cur n ->
  wf cur -> guarded cur -> (rv p = rv cur -> p = cur) ->
  (forall q, Obs (KUpdatePipeline (with_finalizer p)) (inr q) ∈ t ->
     resource_updated (with_finalizer p) p q /\ (rv q = rv cur -> q = cur)) ->
  fine C cur n.
Proof.
  intros M E Up W G Fp Fq.
  assert (Same : forall u', status_updated u' cur n -> Meta u' = Meta cur -> same_core u' n).
  { intros u' U. by apply status_updated_core. }
  pose proof (su_uid _ _ _ Up) as Uid. pose proof (su_finalizers _ _ _ Up) as Fin.
  assert (Gd : (PipelineVersion (Status n) <> EmptyString -> live n ->
                Pipeline.cyndipipelineFinalizer ∈ finalizers n) -> guarded n) by (intros H ? ?; auto).
  inversion M as [c y Lv Eu|c a y Lv En B Eu| |cfg v c y N V F Eu|q cfg v c y N V I Eu|]; subst.
  - assert (p = cur) as -> by (by apply Fp).
    pose proof (Same _ Up eq_refl) as Sc.
    pose proof (same_core_active c cur) as Sa.
    assert (Wn : wf n) by (eapply same_core_wf; [exact Sc|]; by eapply same_core_wf).
    split; [done|]. split.
    + apply Gd. intros P Ln. rewrite Fin. apply G; [done|].
      rewrite <- (sc_version _ _ Sa), <- (sc_version _ _ Sc). done.
    + apply ev_changed; [done|done| |rewrite Fin; auto].
      left. rewrite (same_core_state _ _ Sc). by apply same_core_state.
  - pose proof (act_meta a p En) as Ma.
    assert (p = cur) as -> by (apply Fp; rewrite <- E; symmetry; by apply meta_rv).
    pose proof (Same _ Up Ma) as Sc.
    destruct (step_follows cur cur a c Lv W ltac:(by split) En) as (Wu & Lu & Du).
    split; [by eapply same_core_wf|]. split.
    + apply Gd. intros P Ln. rewrite Fin. rewrite (sc_version _ _ Sc) in P. simpl in P.
      destruct (bookkeeping_version cur a B) as [Ev|Ev]; rewrite Ev in P; [done|by apply G].
    + apply ev_changed; [done|done| |rewrite Fin; auto]. right. left. exists a.
      by rewrite (same_core_state _ _ Sc).
  - set (q' := upd (set_SpecHash (cfgSpecHash cfg)) (upd (set_CyndiConfigVersion (ConfigMapVersion cfg)) p)).
    assert (Sq : same_core p q') by (by split).
    assert (Lv : live p) by (apply not_removed_live; by rewrite N).
    assert (En : enabled q' (SyncStarted v)).
    { split; [|done]. by rewrite (same_core_state _ _ Sq). }
    assert (Ma : Meta (started p cfg v) = Meta p) by (by apply started_meta).
    assert (p = cur) as -> by (apply Fp; rewrite <- E; symmetry; by apply meta_rv).
    pose proof (Same _ Up Ma) as Sc.
    destruct (step_follows cur q' (SyncStarted v) c Lv W Sq En) as (Wu & Lu & Du).
    split; [by eapply same_core_wf|]. split; [apply Gd; intros; by rewrite Fin|].
    apply ev_changed; [done|done| |rewrite Fin; auto]. right. left. exists (SyncStarted v).
    by rewrite (same_core_state _ _ Sc).
  - destruct (Fq q I) as [Ru Eq].
    assert (Rp : same_core p q) by (eapply resource_updated_core; exact Ru).
    set (q' := upd (set_SpecHash (cfgSpecHash cfg)) (upd (set_CyndiConfigVersion (ConfigMapVersion cfg)) q)).
    assert (Sq : same_core q q') by (by split).
    assert (Nq : GetState q = STATE_NEW) by (by rewrite (same_core_state _ _ Rp)).
    assert (Lv : live q) by (apply not_removed_live; by rewrite Nq).
    assert (En : enabled q' (SyncStarted v)).
    { split; [|done]. by rewrite (same_core_state _ _ Sq). }
    assert (Ma : Meta (started q cfg v) = Meta q) by (by apply started_meta).
    assert (q = cur) as -> by (apply Eq; rewrite <- E; symmetry; by apply meta_rv).
    pose proof (Same _ Up Ma) as Sc.
    destruct (step_follows cur q' (SyncStarted v) c Lv W Sq En) as (Wu & Lu & Du).
    assert (F : Pipeline.cyndipipelineFinalizer ∈ finalizers cur).
    { rewrite (ru_finalizers _ _ _ Ru). apply elem_of_AddFinalizer. by right. }
    split; [by eapply same_core_wf|]. split; [apply Gd; intros; by rewrite Fin|].
    apply ev_changed; [done|done| |rewrite Fin; auto]. right. left. exists (SyncStarted v).
    by rewrite (same_core_state _ _ Sc).
Qed.

Lemma resource_write_fine (C : CyndiPipeline -> Prop) p t u cur n x :
  may_write p t (Obs (KUpdatePipeline u) x) -> rv u = rv cur -> resource_updated u cur n ->
  wf cur -> guarded cur -> (rv p = rv cur -> p = cur) ->
  (cleaned_up p t -> C p) ->
  fine C cur n.
Proof.
  intros M E Up W G Fp Cl.
  pose proof (resource_updated_core _ _ _ Up) as Sc.
  pose proof (ru_uid _ _ _ Up) as Uid. pose proof (ru_finalizers _ _ _ Up) as Fin.
  assert (Ln : live n -> live cur) by (unfold live; by rewrite <- (sc_deletion _ _ Sc)).
  inversion M as [| |y N Eu| | |y K Eu]; subst;
    (assert (p = cur) as -> by (by apply Fp)).
  - assert (F : Pipeline.cyndipipelineFinalizer ∈ finalizers n).
    { rewrite Fin. apply elem_of_AddFinalizer. by right. }
    split; [by eapply same_core_wf|]. split; [by intros ? ?|].
    apply ev_changed; [done|done|left; by apply same_core_state|auto].
  - assert (S : GetState cur = STATE_REMOVED) by (by destruct K as (? & ? & ? & ? & ? & ? & _)).
    apply GetState_removed in S as D.
    split; [by eapply same_core_wf|]. split; [intros Lv; by destruct (D (Ln Lv))|].
    apply ev_changed; [done|done|left; by apply same_core_state|auto].
Qed.

(** *** The invariant *)

Lemma inv_nothing : inv ns name nothing.
Proof.
  split; simpl.
  - constructor.
  - intros v I. by apply elem_of_nil in I.
  - intros l n o l' E. by destruct l.
  - done.
  - intros th I. by apply elem_of_nil in I.
Qed.

(** Nothing that a run has established is lost. *)
Lemma thread_ok_mono vs vs' th : vs ⊆ vs' -> thread_ok ns name vs th -> thread_ok ns name vs' th.
Proof. intros I [C T F U]. split; [done|done|naive_solver|]. intros u q J. destruct (U u q J) as (? & c & ? & ? & ?). naive_solver. Qed.

(** The threads may have gone on. *)
Definition extends (ths ths' : list thread) : Prop :=
  forall th, th ∈ ths -> exists th' t, th' ∈ ths' /\ th_trace th' = th_trace th ++ t.

Lemma cleaned_extends ths ths' o : extends ths ths' -> cleaned ns name ths o -> cleaned ns name ths' o.
Proof.
  intros X (th & t & I & E & K). destruct (X th I) as (th' & t' & I' & E').
  exists th', (t ++ t'). split; [done|]. split; [by rewrite E', E|].
  by apply (cleaned_up_app _ [] _ t').
Qed.

Lemma inv_threads_only S ths' :
  inv ns name S -> extends (threads S) ths' ->
  (forall th, th ∈ ths' -> thread_ok ns name (versions (srv S)) th) ->
  inv ns name {| srv := srv S; threads := ths' |}.
Proof.
  intros [N W H G T] X O. split; [done|done| |done|done].
  intros l n o l' E. eapply evolves_mono; [|by eapply H]. by apply cleaned_extends.
Qed.

(** A new version, whoever made it *)
Lemma inv_push S n ths' :
  inv ns name S -> extends (threads S) ths' ->
  (forall th, th ∈ ths' -> thread_ok ns name (n :: versions (srv S)) th) ->
  new_rv n (srv S) -> wf n -> guarded n ->
  (forall o, head (versions (srv S)) = Some o -> evolves (cleaned ns name ths') o n) ->
  inv ns name {| srv := push n (srv S); threads := ths' |}.
Proof.
  intros [N W H G T] X O R Wn Gn E. split; simpl.
  - by constructor.
  - intros v [->|I]%elem_of_cons; [done|by apply W].
  - intros [|m l] n' o l' El; simpl in El; injection El as -> El.
    + apply E. by rewrite El.
    + eapply evolves_mono; [|by eapply H]. by apply cleaned_extends.
  - intros o St [= <-]. unfold stored in St. simpl in St.
    destruct (vanishes n) eqn:V; [by apply vanishes_spec|done].
  - exact O.
Qed.

Lemma extends_refl ths : extends ths ths.
Proof. intros th I. exists th, []. by rewrite app_nil_r. Qed.

Lemma extends_insert ths i th th' t :
  ths !! i = Some th -> th_trace th' = th_trace th ++ t -> extends ths (<[i := th']> ths).
Proof.
  intros Li Et x I. apply list_elem_of_lookup in I as [j Lj].
  destruct (decide (i = j)) as [<-|Ne].
  - exists th', t. split; [|by simplify_eq].
    apply list_elem_of_lookup. exists i. apply list_lookup_insert_eq. by eapply lookup_lt_Some.
  - exists x, []. rewrite app_nil_r. split; [|done].
    apply list_elem_of_lookup. exists j. by rewrite list_lookup_insert_ne.
Qed.

Lemma elem_of_insert (ths : list thread) (i : nat) (th th' : thread) : th ∈ <[i := th']> ths -> th = th' \/ th ∈ ths.
Proof.
  intros I. apply list_elem_of_lookup in I as [j Lj].
  apply list_lookup_insert_Some in Lj as [(_ & <- & _)|[_ Lj]]; [by left|right].
  apply list_elem_of_lookup. by exists j.
Qed.

(** A thread that has made one more call *)
Lemma thread_ok_call vs vs' th X (e : eff X) k x :
  thread_ok ns name vs th -> th_rest th = Call e k -> vs ⊆ vs' ->
  (forall p, Obs e x = fetched ns name p -> p ∈ vs') ->
  (forall u q, Obs e x = Obs (KUpdatePipeline u) (inr q) ->
     q ∈ vs' /\ exists cur, cur ∈ vs' /\ rv u = rv cur /\ resource_updated u cur q) ->
  thread_ok ns name vs'
    {| th_program := th_program th; th_trace := th_trace th ++ [Obs e x]; th_rest := k x |}.
Proof.
  intros [C T F U] E Sub Hf Hu. split; simpl.
  - done.
  - apply to_snoc. by rewrite <- E.
  - intros p [I|I%list_elem_of_singleton]%elem_of_app; [by apply Sub, F|by apply Hf].
  - intros u q [I|I%list_elem_of_singleton]%elem_of_app; [|by apply Hu].
    destruct (U u q I) as (J & c & ? & ? & ?). split; [by apply Sub|]. exists c.
    split; [by apply Sub|done].
Qed.

Lemma update_update (o : obs) u q : o = Obs (KUpdatePipeline u) (inr q) -> pipeline_update_of o = Some (u, inr q).
Proof. by intros ->. Qed.

(** A call that leaves the server alone *)
Lemma call_keeps S i P t X (e : eff X) k x :
  inv ns name S -> threads S !! i = Some {| th_program := P; th_trace := t; th_rest := Call e k |} ->
  (forall p, fetch_of (Obs e x) = Some p -> p ∈ versions (srv S)) ->
  (forall u q, pipeline_update_of (Obs e x) = Some (u, inr q) ->
     q ∈ versions (srv S) /\ exists cur, cur ∈ versions (srv S) /\ rv u = rv cur /\
       resource_updated u cur q) ->
  inv ns name {| srv := srv S;
    threads := <[i := {| th_program := P; th_trace := t ++ [Obs e x]; th_rest := k x |}]> (threads S) |}.
Proof.
  intros I Li Hf Hu. apply inv_threads_only; [done|by eapply extends_insert|].
  intros th [->|J]%elem_of_insert; [|by apply (in_threads _ _ _ I)].
  assert (Ok := in_threads _ _ _ I _ (list_elem_of_lookup_2 _ _ _ Li)).
  apply (thread_ok_call _ _ _ _ e k x Ok eq_refl); [done| |].
  - intros p E. by eapply Hf, fetched_fetch.
  - intros u q E. by apply Hu, update_update.
Qed.

(** A call that makes a new version *)
Lemma call_pushes S i P t X (e : eff X) k x cur n :
  inv ns name S -> threads S !! i = Some {| th_program := P; th_trace := t; th_rest := Call e k |} ->
  stored (srv S) = Some cur -> new_rv n (srv S) -> fetch_of (Obs e x) = None ->
  (forall u q, pipeline_update_of (Obs e x) = Some (u, inr q) ->
     q = n /\ rv u = rv cur /\ resource_updated u cur q) ->
  (forall C : CyndiPipeline -> Prop,
     (forall p t', t = fetched ns name p :: t' -> cleaned_up p t' -> C p) -> fine C cur n) ->
  inv ns name {| srv := push n (srv S);
    threads := <[i := {| th_program := P; th_trace := t ++ [Obs e x]; th_rest := k x |}]> (threads S) |}.
Proof.
  intros I Li St R Hf Hu Fi. apply stored_in in St as (Ic & _ & l & El).
  set (ths' := <[i := _]> (threads S)).
  assert (Ex : extends (threads S) ths') by (by eapply extends_insert).
  destruct (Fi (cleaned ns name ths')) as (Wn & Gn & En).
  { intros p t' -> K. exists {| th_program := P; th_trace := (fetched ns name p :: t') ++ [Obs e x];
      th_rest := k x |}, (t' ++ [Obs e x]). split_and!; [|done|by apply (cleaned_up_app _ [] _ _)].
    apply list_elem_of_lookup. exists i. apply list_lookup_insert_eq. by eapply lookup_lt_Some. }
  apply inv_push; [done..| | |done|done|].
  - intros th [->|J]%elem_of_insert.
    2: { eapply thread_ok_mono; [|by apply (in_threads _ _ _ I)]. set_solver. }
    assert (Ok := in_threads _ _ _ I _ (list_elem_of_lookup_2 _ _ _ Li)).
    apply (thread_ok_call _ _ _ _ e k x Ok eq_refl); [set_solver| |].
    + intros p E. apply fetched_fetch in E. congruence.
    + intros u q E. apply update_update, Hu in E as (-> & ? & ?). split; [left|].
      exists cur. split; [by right|done].
  - done.
  - intros o Ho. rewrite El in Ho. by injection Ho as <-.
Qed.

Lemma step_inv S S' : inv ns name S -> step ns name S S' -> inv ns name S'.
Proof.
  intros I St. destruct St as [S P C|S i P t X e k x s' Li An|S s' Us].
  - apply inv_threads_only; [done| |].
    + intros th J. exists th, []. rewrite app_nil_r. split; [|done]. apply elem_of_app. by left.
    + intros th [J|J%list_elem_of_singleton]%elem_of_app; [by apply (in_threads _ _ _ I)|subst th].
      split; [done|constructor|..]; simpl; intros; by apply elem_of_nil in H.
  - assert (Ok := in_threads _ _ _ I _ (list_elem_of_lookup_2 _ _ _ Li)).
    assert (Wr : forall y, touches e = true ->
      exists p t', t = fetched ns name p :: t' /\ may_write p t' (Obs e y)).
    { intros y H. by apply (thread_writes _ _ _ e k y Ok eq_refl). }
    assert (Uniq : forall v w, v ∈ versions (srv S) -> w ∈ versions (srv S) -> rv v = rv w -> v = w).
    { intros v w. apply rv_unique, (in_rv _ _ _ I). }
    destruct (touches e) eqn:H.
    2: { assert (s' = srv S /\ (forall p, fetch_of (Obs e x) = Some p -> p ∈ versions (srv S)) /\
                 pipeline_update_of (Obs e x) = None) as (-> & Hf & Hu).
         { destruct e; try done. destruct An as [-> J]. split; [done|]. split; [|done].
           destruct x as [er|q]; [done|]. by intros p [= <-]. }
         apply call_keeps; [done..|]. intros u q E. congruence. }
    destruct (Wr x eq_refl) as (p & t' & -> & M). clear Wr.
    assert (Fp : p ∈ versions (srv S)) by (apply (tk_fetched _ _ _ _ Ok); left).
    destruct e; try done; simpl in An.
    + inversion An as [er|cur r Sc E U Er|cur n r Sc E U R Er]; subst.
      * by apply call_keeps.
      * apply call_keeps; [done..|]. simpl. intros u q [= <- ->].
        destruct Er as [[= ->]|[? ?]]; [|done]. apply stored_in in Sc as (Ic & _).
        split; [done|]. by exists cur.
      * pose proof (stored_in _ _ Sc) as (Ic & _). destruct (in_wf _ _ _ I cur Ic) as [W G].
        eapply call_pushes; [done..| |].
        -- simpl. intros u q [= <- ->]. by destruct Er as [[= ->]|[? ?]].
        -- intros C K. eapply resource_write_fine; [exact M|done..|intros; by apply Uniq|].
           by apply K.
    + inversion An as [er|cur r Sc E U Er|cur n r Sc E U R Er]; subst; [by apply call_keeps..|].
      pose proof (stored_in _ _ Sc) as (Ic & _). destruct (in_wf _ _ _ I cur Ic) as [W G].
      eapply call_pushes; [done..|].
      intros C K. eapply status_write_fine; [exact M|done..|intros; by apply Uniq|].
      intros q J. destruct (tk_updated _ _ _ _ Ok (with_finalizer p) q) as (Iq & c & Icc & Ec & Uc).
      { by right. }
      split; [|intros; by apply Uniq].
      assert (c = p) as -> by (by apply Uniq). done.
  - destruct Us as [n Sn F R|cur n Sc R U D St Fi|cur n Sc R U D Fi Sp St].
    + apply inv_push; [done|apply extends_refl| |done| | |].
      * intros th J. eapply thread_ok_mono; [|by apply (in_threads _ _ _ I)]. set_solver.
      * by apply fresh_wf.
      * intros _ V. destruct V. destruct F as [_ F]. by rewrite F.
      * intros o Ho. destruct (in_gone _ _ _ I o Sn Ho). by apply ev_created.
    + apply stored_in in Sc as (Ic & _ & l & El). destruct (in_wf _ _ _ I cur Ic) as [W G].
      assert (Co : same_core cur n) by (split; [done|by rewrite St..]).
      apply inv_push; [done|apply extends_refl| |done| | |].
      * intros th J. eapply thread_ok_mono; [|by apply (in_threads _ _ _ I)]. set_solver.
      * by eapply same_core_wf.
      * intros Ln V. apply Fi, G; [unfold live in *; unfold deletion in D; congruence|by rewrite <- St].
      * intros o Ho. rewrite El in Ho. injection Ho as <-. apply ev_changed; [done| | |auto].
        -- unfold live. unfold deletion in D. congruence.
        -- left. by apply same_core_state.
    + apply stored_in in Sc as (Ic & _ & l & El). destruct (in_wf _ _ _ I cur Ic) as [W G].
      assert (Rn : GetState n = STATE_REMOVED) by (by apply GetState_removed).
      apply inv_push; [done|apply extends_refl| |done| | |].
      * intros th J. eapply thread_ok_mono; [|by apply (in_threads _ _ _ I)]. set_solver.
      * destruct W as [W1 W2 W3 W4]. split; unfold GetValid in *; rewrite St; auto.
      * intros Ln. by destruct D.
      * intros o Ho. rewrite El in Ho. injection Ho as <-. apply ev_changed; [done| | |].
        -- intros Ln. by destruct D.
        -- by right; right.
        -- rewrite Fi. auto.
Qed.

Lemma reachable_inv S : reachable ns name S -> inv ns name S.
Proof.
  intros R. unfold reachable in R. pose proof inv_nothing as I.
  induction R as [|S1 S2 S3 St R IH]; [done|]. by eapply IH, step_inv.
Qed.

End Preservation.

(** ** Executing runs against the server *)

Section Exec.
Context {L : Libs} (ns name : string).

(** A handler that answers as the server may *)
Definition obeys {W} (h : handler W) (view : W -> server) : Prop :=
  forall X (e : eff X) w, answers (view w) e (h X e w).1 (view (h X e w).2).

Lemma exec_steps {W} (h : handler W) (view : W -> server) (p : prog Result) :
  obeys h view -> forall w S i P t,
  threads S !! i = Some {| th_program := P; th_trace := t; th_rest := p |} -> srv S = view w ->
  exists rest, rtc (step ns name) S
    {| srv := view (exec h p w).1.2;
       threads := <[i := {| th_program := P; th_trace := t ++ (exec h p w).2; th_rest := rest |}]>
                    (threads S) |}.
Proof.
  intros O. induction p as [a| |X e k IH]; intros w S i P t Li Es.
  1,2: eexists; simpl; rewrite app_nil_r, list_insert_id by exact Li; rewrite <- Es;
    destruct S; apply rtc_refl.
  simpl. specialize (O X e w). destruct (h X e w) as [x w1] eqn:H. simpl in O.
  set (S1 := {| srv := view w1; threads := <[i := {| th_program := P; th_trace := t ++ [Obs e x];
    th_rest := k x |}]> (threads S) |}).
  destruct (IH x w1 S1 i P (t ++ [Obs e x])) as [rest R]; [|done|].
  { apply list_lookup_insert_eq. by eapply lookup_lt_Some. }
  destruct (exec h (k x) w1) as [[r w2] t2]. exists rest. eapply rtc_l.
  - eapply st_call; [exact Li|]. rewrite Es. exact O.
  - simpl in R. rewrite list_insert_insert_eq, <- app_assoc in R. exact R.
Qed.

(** A whole run, from the start of its thread *)
Lemma exec_reachable {W} (h : handler W) (view : W -> server) (P : prog Result) w S :
  obeys h view -> controller ns name P -> reachable ns name S -> srv S = view w ->
  exists rest, reachable ns name
    {| srv := view (exec h P w).1.2;
       threads := threads S ++ [{| th_program := P; th_trace := (exec h P w).2; th_rest := rest |}] |}.
Proof.
  intros O C R E.
  set (S1 := {| srv := srv S;
    threads := threads S ++ [{| th_program := P; th_trace := []; th_rest := P |}] |}).
  destruct (exec_steps h view P O w S1 (length (threads S)) P []) as [rest R1]; [|done|].
  { apply list_lookup_middle. done. }
  exists rest. unfold reachable in *. etrans; [exact R|].
  eapply rtc_l; [by apply st_start|]. simpl in R1.
  rewrite insert_app_r_alt, Nat.sub_diag in R1 by done. exact R1.
Qed.

End Exec.

(** *** A server of versions, next to a world for all other calls *)

Definition next_rv (s : server) : string := Strconv.FormatInt (Z.of_nat (S (length (versions s)))).

Definition with_rv (p : CyndiPipeline) (m : ObjectMeta) (v : string) (d : option Z) (fs : list string)
    (st : CyndiPipelineStatus) : CyndiPipeline :=
  {| Meta := {| Name := Name m; Namespace := Namespace m; UID := UID m; ResourceVersion := v;
                Generation := Generation m; DeletionTimestamp := d; Finalizers_of := fs |};
     Spec := Spec p; Status := st |}.

Definition conflict : gerror := GError RConflict "the object has been modified".

(** An update from [u] to what [make cur] says *)
Definition serve_update (u : CyndiPipeline) (make : CyndiPipeline -> CyndiPipeline) (s : server)
  : result CyndiPipeline * server :=
  match stored s with
  | Some cur =>
      if bool_decide (rv u = rv cur) && bool_decide (next_rv s ∉ rv <$> versions s)
      then (inr (make cur), push (make cur) s)
      else (inl conflict, s)
  | None => (inl Sim.not_found, s)
  end.

Definition server_handler : handler (server * Sim.World) := fun X e w =>
  match e in eff X return X * (server * Sim.World) with
  | KGetPipeline _ _ =>
      (match stored w.1 with Some p => inr p | None => inl Sim.not_found end, w)
  | KUpdatePipeline u =>
      let '(r, s) := serve_update u (fun cur => with_rv u (Meta cur) (next_rv w.1) (deletion cur)
                                                  (finalizers u) (Status cur)) w.1 in (r, (s, w.2))
  | KUpdateStatus u =>
      let '(r, s) := serve_update u (fun cur => with_rv cur (Meta cur) (next_rv w.1) (deletion cur)
                                                  (finalizers cur) (Status u)) w.1 in (r, (s, w.2))
  | e => let '(x, w') := Sim.world_handler _ e w.2 in (x, (w.1, w'))
  end.

Lemma serve_update_updates R u make s :
  (forall cur, R u cur (make cur)) -> (forall cur, rv (make cur) = next_rv s) ->
  updates R s u (serve_update u make s).1 (serve_update u make s).2.
Proof.
  intros H V. unfold serve_update. destruct (stored s) as [cur|] eqn:E; [|constructor].
  do 2 case_bool_decide; simpl; [|constructor..].
  eapply up_new; [done..| |by left]. unfold new_rv. by rewrite V.
Qed.

Lemma server_handler_obeys : obeys server_handler fst.
Proof.
  intros X e [s w]. destruct e; simpl; try done.
  - split; [done|]. destruct (stored s) eqn:E; [|done]. by apply stored_in in E as [? _].
  - pose proof (serve_update_updates resource_updated p (fun cur => with_rv p (Meta cur) (next_rv s)
      (deletion cur) (finalizers p) (Status cur)) s) as U.
    destruct (serve_update _ _ s) as [r s']. apply U; by split.
  - pose proof (serve_update_updates status_updated p (fun cur => with_rv cur (Meta cur) (next_rv s)
      (deletion cur) (finalizers cur) (Status p)) s) as U.
    destruct (serve_update _ _ s) as [r s']. apply U; by split.
  - by destruct (Sim.pg_exec _ w).
Qed.

End System.

(** ** Properties *)

Module SystemProps.
Import System.

Section Props.
Context {L : Libs} {LOK : LibsOk L}.

(** C2: The history of a resource under concurrent runs. Let any number of
    runs of both controllers be interleaved call by call, reading versions of
    the resource from a cache that may be stale, losing answers and failing at
    any call, while users edit, delete and recreate the resource. Then every
    version of the resource ever stored has a well-formed status, and carries
    the operator's finalizer if it is live and a version has been started for
    it. And each version follows from the one before: either the resource had
    gone and was created anew; or it is the same resource, once deleted it
    stays so, its state is the same, one step of the state diagram away, or
    REMOVED, and the finalizer is kept, unless a run that fetched exactly the
    version before has carried out the cleanup (without an error, or in an
    ephemeral environment). *)
Theorem concurrent_history (ns name : string) (S : cluster) :
  reachable ns name S ->
  (forall v, v ∈ versions (srv S) -> wf v /\
     (live v -> PipelineVersion (Status v) <> EmptyString ->
      Pipeline.cyndipipelineFinalizer ∈ finalizers v)) /\
  (forall l n o l', versions (srv S) = l ++ n :: o :: l' ->
     evolves (cleaned ns name (threads S)) o n).
Proof. intros R. apply reachable_inv in R as [_ W H _ _]. by split. Qed.

End Props.

Existing Instances Sim.libs Sim.libs_ok.

(** A pipeline is created; then the two controllers run. *)
Definition created0 : server := push Sample.new_pipeline (srv nothing).
Definition sync_run : prog Result := Pipeline.Reconcile "test" "test-pipeline-01".
Definition check_run : prog Result := Validation.Reconcile true "test" "test-pipeline-01".
Definition world1 : server * Sim.World := (exec server_handler sync_run (created0, Sim.world0)).1.2.
Definition world2 : server * Sim.World :=
  (exec server_handler check_run (world1.1, Sim.replicate world1.2)).1.2.

Lemma concurrent_history_witness :
  (GetState <$> versions world2.1) =
    [STATE_VALID; STATE_INITIAL_SYNC; STATE_NEW; STATE_NEW] /\
  forall v, v ∈ versions world2.1 -> wf v.
Proof.
  split; [vm_compute; reflexivity|].
  assert (R0 : reachable "test" "test-pipeline-01" {| srv := created0; threads := [] |}).
  { eapply rtc_l; [|apply rtc_refl]. apply st_user. apply us_create; [reflexivity|by split|].
    intros I. by apply elem_of_nil in I. }
  destruct (exec_reachable "test" "test-pipeline-01" server_handler fst sync_run
    (created0, Sim.world0) _ server_handler_obeys (c_pipeline _ _) R0 eq_refl) as [r1 R1].
  destruct (exec_reachable "test" "test-pipeline-01" server_handler fst check_run
    (world1.1, Sim.replicate world1.2) _ server_handler_obeys (c_validation _ _ true) R1 eq_refl)
    as [r2 R2].
  intros v I. exact (proj1 (proj1 (concurrent_history _ _ _ R2) v I)).
Defined.

End SystemProps.
