(* ===== verification/View.v ===== *)
(** * The view stays up

    Applications read the view inventory.hosts. [PgView] is what PostgreSQL
    does to it: [sql_view q v] is the table behind the view after the command
    [q], when it was [v] before. [plays v t v'] follows the view along a run,
    with any failures. The theorem says when runs of the two controllers can
    take the view away: the resource is being deleted, the question which table
    the view uses was not answered in full (then the cleanup goes on and may
    drop that table), or the configured script that creates a table does it.
    Otherwise the view only moves, and only to the table of a valid version or
    of one that has given up on its first synchronisation. *)

From Stdlib Require Import ZArith Lia String.
From S2P Require Import Prelude GoStd Float GoJson Lang K8sLib Api State Utils Config Effects.
From S2P Require Import Database Connect Iteration Validate Pipeline Validation Sim.
From S2P Require Import StatusUpdate Stale Deviation Reconcile ReconcileProps ValidationProps Setup.
From S2P Require Import Writes.
Import Api State Config Database Connect Iteration Pipeline StatusUpdate Stale Deviation Reconcile.
Import ReconcileLemmas Setup Writes.

(** ** PostgreSQL and the view *)

Class PgView := { sql_view : string -> option string -> option string }.

(** Dropping a table with CASCADE takes a view over it along, and no other;
    CREATE OR REPLACE VIEW points the view to its table; granting a privilege
    and changing a password do not touch it. *)
Class PgViewOk (V : PgView) : Prop := {
  view_drop n v : sql_view (drop_query n) v = if decide (v = Some n) then None else v;
  view_create n v : sql_view (viewTemplate n) v = Some n;
  view_grant v : sql_view grant_query v = v;
  view_alter user password v : sql_view (alter_role user password) v = v
}.

Module View.

Section View.
Context {V : PgView} {VOK : PgViewOk V}.
Implicit Types v : option string.

(** An answer that failed, or was cut short *)
Definition incomplete {A} (r : result (rows A)) : Prop :=
  match r with
  | inl _ => True
  | inr rs => rows_err rs <> None \/ exists e, inl e ∈ rows_data rs
  end.

(** The table the view uses before and after a call. A failed command may have
    been carried out or not. A complete answer to the question which table the
    view uses is right; of another nothing is said. *)
Definition shows v (o : obs) v' : Prop :=
  match o with
  | Obs e x =>
      match e in eff X return X -> Prop with
      | PgExec _ q => fun r =>
          v' = sql_view q v \/ (r <> None /\ v' = v)
      | PgQuery _ q s =>
          match s return result (rows (scan_val s)) -> Prop with
          | ScanStringPtr => fun r => v' = v /\ (q = current_table_query ->
              incomplete r \/
              exists err nr, r = inr (Rows (match v with Some n => [inr (Some n)] | None => [] end) err nr))
          | _ => fun _ => v' = v
          end
      | _ => fun _ => v' = v
      end x
  end.

Inductive plays : option string -> list obs -> option string -> Prop :=
| pl_nil v : plays v [] v
| pl_cons v o v1 t v2 : shows v o v1 -> plays v1 t v2 -> plays v (o :: t) v2.

Lemma plays_app v t1 t2 v2 :
  plays v (t1 ++ t2) v2 <-> exists v1, plays v t1 v1 /\ plays v1 t2 v2.
Proof.
  revert v. induction t1 as [|o t1 IH]; intros v; simpl.
  - split; [intros P; exists v; split; [constructor|done]|].
    intros (v1 & P & Q). by inversion P.
  - split.
    + intros P. inversion P as [|? ? v1 ? ? S P']; subst. apply IH in P' as (v3 & P1 & P2).
      exists v3. split; [by econstructor|done].
    + intros (v1 & P & Q). inversion P as [|? ? v3 ? ? S P']; subst.
      econstructor; [done|]. apply IH. eauto.
Qed.

(** Only commands move the view, and each either does what it says or nothing. *)
Lemma shows_exec v o v1 :
  shows v o v1 -> v1 = v \/ exists q x, exec_of o = Some (q, x) /\ v1 = sql_view q v.
Proof.
  destruct o as [X e x]. destruct e; simpl; try (intros ->; by left).
  - destruct s; [by left| by left | by left |]. intros [-> _]. by left.
  - intros [-> |[_ ->]]; [right; eauto|by left].
Qed.

(** A property of the view that every command of the run keeps is kept. *)
Lemma plays_inv (P : option string -> Prop) v t v' :
  plays v t v' -> P v ->
  (forall q x w, (q, x) ∈ execs t -> P w -> P (sql_view q w)) -> P v'.
Proof.
  induction 1 as [|v o v1 t v2 S H IH]; intros Pv K; [done|].
  apply IH.
  - apply shows_exec in S as [-> |(q & x & E & ->)]; [done|]. apply (K q x); [|done].
    unfold execs. simpl. rewrite E. by left.
  - intros q x w I. apply (K q x). unfold execs. simpl.
    destruct (exec_of o); [by right|done].
Qed.

Lemma plays_quiet v t v' : plays v t v' -> execs t = [] -> v' = v.
Proof.
  intros H E. apply (plays_inv (fun w => w = v) v t v' H); [done|].
  intros q x w I. rewrite E in I. by apply elem_of_nil in I.
Qed.

(** After a run with a single command the view is as before, or as that
    command leaves it. *)
Lemma plays_one v t q x v' :
  plays v t v' -> execs t = [(q, x)] -> v' = v \/ v' = sql_view q v.
Proof.
  induction 1 as [|v o v1 t v2 S H IH]; [done|]. intros E.
  unfold execs in E, IH. simpl in E. destruct (exec_of o) as [[q' x']|] eqn:Eo.
  - injection E as -> -> E. apply plays_quiet in H as ->; [|exact E].
    apply shows_exec in S as [-> |(q' & y & E' & ->)]; [by left|right]. congruence.
  - apply shows_exec in S as [-> |(q' & y & E' & _)]; [by apply IH|congruence].
Qed.

(** *** The answer about the view *)

Lemma GetCurrentTable_runs db t a :
  runs (GetCurrentTable db) t (Some a) -> connection db <> None ->
  exists c x, t = [Obs (PgQuery c current_table_query ScanStringPtr) x] /\
    a = match x with
        | inl e => inl (query_error current_table_query e)
        | inr rs => match rows_data rs with
                    | [] => inr None
                    | inl e :: _ => inl e
                    | inr n :: _ => inr n
                    end
        end.
Proof.
  intros R C. unfold GetCurrentTable, RunQuery in R. destruct (connection db) as [c|]; [|done].
  apply runs_bind_inv in R as [(t1 & t2 & y & -> & R1 & R)|[_ ?]]; [|done].
  apply runs_bind_inv in R1 as [(t3 & t4 & x & -> & R3 & R1)|[_ ?]]; [|done].
  apply runs_call_inv in R3 as (x' & -> & [= <-]). exists c, x.
  destruct x as [e|rs]; apply runs_ret_inv in R1 as [-> [= ->]].
  - by apply runs_ret_inv in R as [-> [= ->]].
  - destruct (rows_data rs) as [|[e|n] l]; by apply runs_ret_inv in R as [-> [= ->]].
Qed.

Lemma current_answer db t a v v' :
  runs (GetCurrentTable db) t (Some a) -> plays v t v' -> connection db <> None ->
  v' = v /\
  (a = inr v \/
   exists c x, Obs (PgQuery c current_table_query ScanStringPtr) x ∈ t /\ incomplete x).
Proof.
  intros R P C. destruct (GetCurrentTable_runs _ _ _ R C) as (c & x & -> & ->).
  inversion P as [|? ? v1 ? ? S P']; subst. inversion P'; subst.
  simpl in S. destruct S as [-> S]. split; [done|].
  destruct (S eq_refl) as [I|(err & nr & ->)].
  - right. exists c, x. split; [by left|done].
  - left. by destruct v.
Qed.

(** ** The two controllers *)

Context {L : Libs} {LOK : LibsOk L}.

(** *** Cleanup *)

(** The tables that the status of the pipeline keeps *)
Definition kept_table (p : CyndiPipeline) (n : string) : Prop :=
  (PipelineVersion (Status p) <> EmptyString /\ n = TableName (PipelineVersion (Status p))) \/
  (ConnectorsManaged p = false /\ TableName_ (Status p) <> EmptyString /\ n = TableName_ (Status p)).

(** A run for the pipeline [p] drops the table [n] of the view. While the
    pipeline lives, that table is not one its status keeps, and the question
    which table the view uses was not answered in full. *)
Record lost (p : CyndiPipeline) (t : list obs) (n : string) : Prop := {
  lost_dropped : exists x, (drop_query n, x) ∈ execs t;
  lost_unkept : live p -> ~ kept_table p n;
  lost_unknown : live p -> exists c x,
    Obs (PgQuery c current_table_query ScanStringPtr) x ∈ t /\ incomplete x
}.

Definition view_lost (p : CyndiPipeline) (t : list obs) v v' : Prop :=
  v' = None /\ exists n, v = Some n /\ lost p t n.

Lemma elem_of_execs o t x : o ∈ t -> exec_of o = Some x -> x ∈ execs t.
Proof. intros I E. unfold execs. apply list_elem_of_omap. eauto. Qed.

Lemma view_lost_mono p t t' v v' : t ⊆ t' -> view_lost p t v v' -> view_lost p t' v v'.
Proof.
  intros S (-> & n & -> & [(x & D) K U]). split; [done|]. exists n. split; [done|]. split.
  - exists x. unfold execs in *. apply list_elem_of_omap in D as (o & I & E).
    apply list_elem_of_omap. eauto.
  - done.
  - intros Lp. destruct (U Lp) as (c & y & I & Q). exists c, y. auto.
Qed.

Definition no_call (X : Type) (e : eff X) : Prop := False.

Lemma no_call_trace t : all_obs no_call t -> t = [].
Proof. unfold all_obs. by inversion 1. Qed.

Lemma unconnected_drops db l t es : connection db = None -> dropped_in_turn db l t es -> t = [].
Proof.
  intros C. induction 1 as [|n l t1 t2 err es R D IH]; [done|].
  rewrite IH, app_nil_r. apply no_call_trace. eapply only_runs; [|exact R].
  unfold DeleteTable, CheckIfTableExists, RunQuery, Exec. rewrite C. by destruct (String.eqb _ _).
Qed.

(** What a cleanup drops of the view is a stale table. *)
Lemma cleanup_drops_view i t errs cur conns tables v v' :
  cleanup i t errs cur conns tables -> plays v t v' ->
  v' = v \/ (v' = None /\ exists n, v = Some n /\ n ∉ kept_tables i (view_table cur) /\
              exists x, (drop_query n, x) ∈ execs t).
Proof.
  intros C P. destruct (cleanup_trace _ _ _ _ _ _ C) as [_ Ex].
  apply (plays_inv (fun w => w = v \/ (w = None /\ exists n, v = Some n /\
    n ∉ kept_tables i (view_table cur) /\ exists x, (drop_query n, x) ∈ execs t)) _ _ _ P);
    [by left|].
  intros q x w I K. destruct (Ex q x I) as (n & [_ St]%elem_of_stale & ->). rewrite view_drop.
  case_decide as E; [|done]. right. split; [done|]. subst w.
  destruct K as [<-|[? _]]; [|done]. exists n. eauto.
Qed.

(** A cleanup leaves the view alone, or loses it. *)
Lemma cleanup_view i t r v v' :
  runs (deleteStaleDependencies i) t r -> plays v t v' ->
  v' = v \/ view_lost (Instance i) t v v'.
Proof.
  intros R P. apply deleteStaleDependencies_runs in R
    as [(x & t1 & _ & R & -> & _)|(errs & cur & conns & tables & _ & Cl)].
  { left. eapply plays_quiet; [exact P|]. eapply reader_execs; [|exact R]. auto with cyndi_prog. }
  destruct (cleanup_drops_view _ _ _ _ _ _ _ _ Cl P) as [->|(-> & n & -> & K & x & D)]; [by left|].
  right. split; [done|]. exists n. split; [done|].
  assert (NR : live (Instance i) -> not_removed i = true).
  { intros Lv. unfold not_removed. rewrite bool_decide_false; [done|]. intros Er%GetState_removed. 
    by rewrite Lv in Er. }
  split; [by exists x| |].
  { intros Lv Kp. apply K. apply elem_of_kept_tables; [by apply NR|]. destruct Kp; auto. }
  intros Lv.
  destruct Cl as (t1 & t2 & t3 & xs & es & -> & R1 & Hl & R2 & Dr & _).
  destruct (connection (AppDb i)) as [c|] eqn:C.
  2: { exfalso. apply (unconnected_drops _ _ _ _ C) in Dr as ->.
       pose proof (wlog_deletes (Namespace (Meta (Instance i))) _ _ Hl) as [W _].
       revert D. autorewrite with cyndi_trace.
       rewrite (reader_execs _ _ _ (GetCurrentTable_read_only _) R1),
         (reader_execs _ _ _ (GetCyndiTables_read_only _) R2), W. simpl. by intros ?%elem_of_nil. }
  apply plays_app in P as (v1 & P1 & P2).
  destruct (current_answer _ _ _ _ _ R1 P1) as [-> [->|(c' & y & I & Q)]]; [by rewrite C| |].
  - destruct K. apply elem_of_kept_tables; [by apply NR|]. auto.
  - exists c', y. split; [rewrite !elem_of_app; auto|done].
Qed.

(** *** The body of an iteration *)

(** Where the view may move *)
Definition switched (i : ReconcileIteration) (v' : option string) : Prop :=
  ConnectorsManaged (Instance i) = true /\ may_switch i /\
  v' = Some (TableName_ (Status (Instance i))).

Lemma switch_view i t v v' :
  all_obs (running_effect i) t -> plays v t v' -> v' = v \/ switched i v'.
Proof.
  intros A P. apply (plays_inv (fun w => w = v \/ switched i w) _ _ _ P); [by left|].
  intros q x w I K. destruct (all_obs_execs _ _ _ _ A I) as (c & M & S & [-> | ->]).
  - right. rewrite view_create. by split_and!.
  - by rewrite view_grant.
Qed.

(** The script of the configuration creates the table of a new version, and
    does to the view what it does. *)
Definition scripted (cfg : CyndiConfiguration) (t : list obs) v v' : Prop :=
  exists n q x, table_script cfg n q /\ (q, x) ∈ execs t /\ v' = sql_view q v.

Lemma start_execs i cfg t r :
  config i = Some cfg -> runs (reconcile_new i) t r ->
  execs t = [] \/ exists n q x, execs t = [(q, x)] /\ table_script cfg n q.
Proof.
  intros C R. rewrite (execs_wlog t). destruct (reconcile_new_runs _ _ _ _ C R)
    as (res & _ & [(e & W & _)|(fin & p & now & table & cs & ss & Pt & W & _ & [T [Cn St] _])]);
    rewrite W; [by left|].
  rewrite !execs_app.
  assert (execs fin = []) as -> by (by destruct Pt).
  assert (execs cs = []) as -> by (destruct Cn as [->|(? & ? & ? & -> & _)]; done).
  assert (execs ss = []) as -> by (destruct St as [->|(? & ? & -> & _)]; done).
  rewrite app_nil_r. simpl.
  destruct T as [->|(c & sql & y & -> & Ts & _)]; [by left|right]. eauto.
Qed.

Lemma start_view i cfg t r v v' :
  config i = Some cfg -> runs (reconcile_new i) t r -> plays v t v' ->
  v' = v \/ scripted cfg t v v'.
Proof.
  intros C R P. destruct (start_execs _ _ _ _ C R) as [E|(n & q & x & E & Ts)];
    [left; by eapply plays_quiet|].
  destruct (plays_one _ _ _ _ _ P E) as [->| ->]; [by left|right].
  exists n, q, x. split; [done|]. rewrite E. split; [by left|done].
Qed.

Lemma wlog_execs t : wlog t = [] -> execs t = [].
Proof. intros (E & _)%wlog_nil. exact E. Qed.

Lemma scripted_mono cfg t t' v v' : t ⊆ t' -> scripted cfg t v v' -> scripted cfg t' v v'.
Proof.
  intros S (n & q & x & T & D & ->). exists n, q, x. split; [done|]. split; [|done].
  unfold execs in *. apply list_elem_of_omap in D as (o & I & E). apply list_elem_of_omap. eauto.
Qed.

(** What the body does to the view: its cleanup may lose it, then it may move. *)
Lemma body_view i serr t r v v' :
  (serr = None -> exists cfg, config i = Some cfg) ->
  runs (reconcile_body i serr) t r -> plays v t v' ->
  exists v1, (v1 = v \/ view_lost (Instance i) t v v1) /\
    (v' = v1 \/
     exists cfg, serr = None /\ config i = Some cfg /\
       (switched i v' \/ (GetState (Instance i) = STATE_NEW /\ scripted cfg t v1 v'))).
Proof.
  intros C R P. apply reconcile_body_runs in R
    as [(_ & t0 & t1 & -> & W & R)|(t0 & td & t1 & env & t2 & st & -> & W0 & W1 & Rd & Pr)].
  - apply plays_app in P as (v1 & P0 & P1). apply plays_quiet in P0 as ->; [|by apply wlog_execs].
    exists v'. split; [|by left]. destruct (cleanup_view _ _ _ _ _ R P1) as [->|Lo]; [by left|right].
    eapply view_lost_mono; [|exact Lo]. set_solver.
  - apply plays_app in P as (v1 & P0 & P). apply plays_quiet in P0 as ->; [|by apply wlog_execs].
    apply plays_app in P as (v1 & Pd & P).
    apply plays_app in P as (w & P1 & P). apply plays_quiet in P1 as ->; [|by apply wlog_execs].
    apply plays_app in P as (w & P1 & P). apply plays_quiet in P1 as ->; [|done].
    exists v1. split.
    { destruct (cleanup_view _ _ _ _ _ Rd Pd) as [->|Lo]; [by left|right].
      eapply view_lost_mono; [|exact Lo]. set_solver. }
    inversion Pr as [ta res S Er F|e0 es Er _|ta tb r' Er S Wa Rn|ta tb r' Er S1 S2 Wa Rr]; subst.
    + left. apply finalize_update in F as (y & Wf & _).
      eapply plays_quiet; [exact P|]. by rewrite execs_wlog, Wf.
    + left. by apply plays_quiet in P.
    + assert (serr = None) as -> by (by destruct serr). destruct (C eq_refl) as (cfg & Ci).
      apply plays_app in P as (w & Pa & Pb). apply plays_quiet in Pa as ->; [|by apply wlog_execs].
      destruct (start_view _ _ _ _ _ _ Ci Rn Pb) as [->|Sc]; [by left|right].
      exists cfg. split; [done|]. split; [done|]. right. split; [done|].
      eapply scripted_mono; [|exact Sc]. set_solver.
    + assert (serr = None) as -> by (by destruct serr). destruct (C eq_refl) as (cfg & Ci).
      apply plays_app in P as (w & Pa & Pb). apply plays_quiet in Pa as ->; [|by apply wlog_execs].
      destruct (switch_view i tb v1 v') as [->|Sw]; [|done|by left|right; by exists cfg; auto].
      by eapply only_runs; [apply reconcile_running_only|].
Qed.

(** The commands of the body, each with what entitles the iteration to it *)
Definition entitled (p : CyndiPipeline) (cfg : CyndiConfiguration) (q : string) : Prop :=
  (GetState p = STATE_NEW /\ exists n, table_script cfg n q) \/
  exists i, Instance i = p /\ config i = Some cfg /\ ConnectorsManaged p = true /\ may_switch i /\
    (q = viewTemplate (TableName_ (Status p)) \/ q = grant_query).

Lemma cleanup_execs i t r q x :
  runs (deleteStaleDependencies i) t r -> (q, x) ∈ execs t -> exists n, q = drop_query n.
Proof.
  intros R I. apply (only_runs _ _ _ _ (deleteStaleDependencies_only i)) in R.
  by destruct (all_obs_execs _ _ _ _ R I) as [c H].
Qed.

Lemma body_execs i serr t r q x :
  (serr = None -> exists cfg, config i = Some cfg) ->
  runs (reconcile_body i serr) t r -> (q, x) ∈ execs t ->
  (exists n, q = drop_query n) \/
  exists cfg, serr = None /\ config i = Some cfg /\ entitled (Instance i) cfg q.
Proof.
  intros C R I. apply reconcile_body_runs in R
    as [(_ & t0 & t1 & -> & W & R)|(t0 & td & t1 & env & t2 & st & -> & W0 & W1 & Rd & Pr)].
  { rewrite execs_app, execs_wlog, W in I. left. by eapply cleanup_execs. }
  rewrite !execs_app, (execs_wlog t0), (execs_wlog t1), W0, W1 in I. simpl in I.
  apply elem_of_app in I as [I|I]; [left; by eapply cleanup_execs|].
  inversion Pr as [t' res S _ F|e es|t' t'' r' Er S W F|t' t'' r' Er _ _ W F]; subst.
  - apply finalize_update in F as (y & Wf & _). rewrite execs_wlog, Wf in I. by apply elem_of_nil in I.
  - by apply elem_of_nil in I.
  - right. assert (serr = None) as -> by (by destruct serr). destruct (C eq_refl) as (cfg & Ci).
    rewrite execs_app, (execs_wlog t'), W in I. exists cfg. split_and!; [done..|]. left.
    split; [done|]. destruct (start_execs _ _ _ _ Ci F) as [E|(n & q' & y & E & Ts)]; rewrite E in I.
    + by apply elem_of_nil in I.
    + apply list_elem_of_singleton in I as [= -> ->]. by exists n.
  - right. assert (serr = None) as -> by (by destruct serr). destruct (C eq_refl) as (cfg & Ci).
    rewrite execs_app, (execs_wlog t'), W in I. exists cfg. split_and!; [done..|]. right.
    pose proof (only_runs _ _ _ _ (reconcile_running_only i) F) as A.
    destruct (all_obs_execs _ _ _ _ A I) as (c & M & Sw & Q). by exists i.
Qed.

(** *** Whole runs *)

(** The configuration that a run of a controller works with *)
Definition runs_with (ns name : string) (t : list obs) (p : CyndiPipeline) (cfg : CyndiConfiguration)
  : Prop :=
  exists global own t', t = fetched ns name p :: config_trace p global own ++ t' /\
    configured p global own = inr cfg.

(** What a run may do to the view: the cleanup may lose it; then the run
    switches it to the table of the pipeline it fetched, which is valid or gives
    up, or creates the table of a new version with the configured script. *)
Definition view_moves (ns name : string) (t : list obs) v v' : Prop :=
  v' = v \/
  exists p v1, head t = Some (fetched ns name p) /\ (v1 = v \/ view_lost p t v v1) /\
    (v' = v1 \/
     exists cfg i, runs_with ns name t p cfg /\ Instance i = p /\ config i = Some cfg /\
       (switched i v' \/ (GetState p = STATE_NEW /\ scripted cfg t v1 v'))).

Lemma view_moves_mono ns name t p t' v v' :
  head t' = Some (fetched ns name p) ->
  (exists v1, (v1 = v \/ view_lost p t v v1) /\
    (v' = v1 \/
     exists cfg i, runs_with ns name t' p cfg /\ Instance i = p /\ config i = Some cfg /\
       (switched i v' \/ (GetState p = STATE_NEW /\ scripted cfg t v1 v')))) ->
  t ⊆ t' -> view_moves ns name t' v v'.
Proof.
  intros H (v1 & Lo & M) S. right. exists p, v1. split; [done|]. split.
  - destruct Lo as [->|Lo]; [by left|right]. by eapply view_lost_mono.
  - destruct M as [->|(cfg & i & Rw & I & C & M)]; [by left|right]. exists cfg, i.
    split_and!; [done..|]. destruct M as [M|[N M]]; [by left|right]. split; [done|].
    by eapply scripted_mono.
Qed.

(** A run of the pipeline controller: setup, the body for the pipeline
    fetched, closing *)
Lemma Reconcile_parts ns name t r :
  runs (Pipeline.Reconcile ns name) t r ->
  exists t1 t2, t = t1 ++ t2 /\ all_obs setup_effect t1 /\
    (t2 = [] \/
     exists p i err tb rb tc, t2 = tb ++ tc /\ head t = Some (fetched ns name p) /\ Instance i = p /\
       (err = None -> exists cfg, config i = Some cfg /\ runs_with ns name t p cfg) /\
       runs (reconcile_body i err) tb rb /\ execs tc = []).
Proof.
  intros R. unfold Pipeline.Reconcile in R.
  apply runs_bind_inv in R as [(t1 & t2 & [i err] & -> & R1 & R)|[R _]].
  2: by apply setup_runs_some in R.
  exists t1, t2. split; [done|]. split; [exact (only_runs _ _ _ _ (setup_only ns name) R1)|].
  apply setup_runs in R1 as ([e|p] & t' & -> & X).
  { left. destruct X as [-> [= -> ->]].
    destruct (IsNotFound e); [by apply runs_ret_inv in R as [-> _]|by apply runs_panic_inv in R as [-> _]]. }
  right. destruct X as (j & err' & [= -> ->] & [S1 S2 S3 S4 (g & o & t'' & -> & S5)]).
  assert (W : err' = None -> exists cfg, config j = Some cfg /\
    runs_with ns name ((Obs (KGetPipeline ns name) (inr p) :: config_trace p g o ++ t'') ++ t2) p cfg).
  { intros ->. destruct (configured p g o) as [e|cfg] eqn:Cf; [by destruct S5 as (_ & ? & _)|].
    destruct S5 as [S5 _]. exists cfg. split; [done|]. exists g, o, (t'' ++ t2).
    split; [by rewrite <- app_comm_cons, <- app_assoc|done]. }
  apply runs_bind_inv in R as [(tb & tc & [k res] & -> & Rb & R)|[Rb _]].
  - exists p, j, err', tb, (Some (k, res)), tc. split_and!; [done..|].
    eapply (reader_execs (Close k ;; Ret res)); [|exact R].
    apply only_bind; [apply Close_read_only_iteration|done].
  - exists p, j, err', t2, None, []. rewrite app_nil_r. by split_and!.
Qed.

Lemma setup_view t v v' : all_obs setup_effect t -> plays v t v' -> v' = v.
Proof.
  intros A P. apply (plays_inv (fun w => w = v) _ _ _ P); [done|].
  intros q x w I ->. destruct (all_obs_execs _ _ _ _ A I) as (c & u & pw & ->).
  apply view_alter.
Qed.

Lemma Reconcile_view ns name t r v v' :
  runs (Pipeline.Reconcile ns name) t r -> plays v t v' -> view_moves ns name t v v'.
Proof.
  intros R P. destruct (Reconcile_parts _ _ _ _ R) as (t1 & t2 & E & A & B).
  rewrite E in P. apply plays_app in P as (w & P1 & P). apply (setup_view _ _ _ A) in P1 as ->.
  destruct B as [->|(p & i & err & tb & rb & tc & -> & H & I & W & Rb & Ec)];
    [left; by apply plays_quiet in P|].
  apply plays_app in P as (w & P1 & P). apply plays_quiet in P as ->; [|done].
  apply (view_moves_mono _ _ tb p); [done| |rewrite E; set_solver].
  destruct (body_view i err tb rb v w) as (v1 & Lo & M); [|done..|].
  { intros Er. destruct (W Er) as (cfg & Cj & _). eauto. }
  rewrite I in Lo, M. exists v1. split; [done|].
  destruct M as [->|(cfg & Er & Cj & M)]; [by left|right].
  destruct (W Er) as (cfg' & Cj' & Rw). exists cfg, i. rewrite Cj in Cj'. by injection Cj' as <-.
Qed.

Lemma vReconcile_view check ns name t r v v' :
  runs (Validation.Reconcile check ns name) t r -> plays v t v' -> v' = v.
Proof.
  intros R P. apply (plays_inv (fun w => w = v) _ _ _ P); [done|].
  intros q x w I ->. apply (only_runs _ _ _ _ (vReconcile_only check ns name)) in R.
  destruct (all_obs_execs _ _ _ _ R I) as (c & u & pw & ->). apply view_alter.
Qed.

(** ** Sequences of runs *)

(** Runs of the two controllers one after the other, those of the pipeline
    controller listed with what they saw; between them anything may happen but
    to the view. *)
Inductive rounds : option string -> list (string * string * list obs) -> option string -> Prop :=
| ro_none v : rounds v [] v
| ro_pipeline ns name t r v v1 l v2 :
    runs (Pipeline.Reconcile ns name) t r ->
    plays v t v1 -> rounds v1 l v2 -> rounds v ((ns, name, t) :: l) v2
| ro_validation check ns name t r v v1 l v2 :
    runs (Validation.Reconcile check ns name) t r ->
    plays v t v1 -> rounds v1 l v2 -> rounds v l v2.

(** A run that takes the view away: its cleanup drops the table of the view,
    or its script does it *)
Definition takes_view (ns name : string) (t : list obs) : Prop :=
  exists p, head t = Some (fetched ns name p) /\
    ((exists n, lost p t n) \/
     exists cfg n, runs_with ns name t p cfg /\ GetState p = STATE_NEW /\
       scripted cfg t (Some n) None).

Lemma moves_takes ns name t n :
  view_moves ns name t (Some n) None -> takes_view ns name t.
Proof.
  intros [|(p & v1 & H & Lo & M)]; [done|]. exists p. split; [done|].
  destruct Lo as [->|(-> & m & [= <-] & Lo)]; [|by left; exists n].
  destruct M as [|(cfg & i & Rw & _ & _ & [(_ & _ & ?)|[N Sc]])]; [done..|].
  right. by exists cfg, n.
Qed.

Lemma rounds_taken v l v' : rounds v l v' -> v <> None -> v' = None ->
  exists ns name t, (ns, name, t) ∈ l /\ takes_view ns name t.
Proof.
  induction 1 as [v|ns name t r v v1 l v2 R P Ro IH|check ns name t r v v1 l v2 R P Ro IH];
    [done| |].
  - intros N E. destruct v as [n|]; [|done]. destruct v1 as [m|].
    + destruct IH as (ns' & name' & t' & I & T); [done..|]. exists ns', name', t'.
      split; [by right|done].
    + exists ns, name, t. split; [by left|]. eapply moves_takes.
      by eapply Reconcile_view.
  - intros N. apply IH. by rewrite (vReconcile_view _ _ _ _ _ _ _ R P).
Qed.

End View.

(** *** A concrete server: statements recognised by their text *)

Definition drop_prefix : string := "DROP table inventory.".
Definition drop_suffix : string := " CASCADE".
Definition view_prefix : string := viewTemplate EmptyString.

(** [s] without the prefix [p] *)
Fixpoint strip (p s : string) : option string :=
  match p, s with
  | EmptyString, _ => Some s
  | String a p', String b s' => if Ascii.eqb a b then strip p' s' else None
  | _, _ => None
  end.

Lemma strip_app p s : strip p (p +s+ s) = Some s.
Proof. induction p as [|a p IH]; simpl; [by destruct s|]. by rewrite Ascii.eqb_refl. Qed.

Definition ref_view (q : string) (v : option string) : option string :=
  match v with
  | Some n => if String.eqb q (drop_query n) then None
              else match strip view_prefix q with Some m => Some m | None => v end
  | None => match strip view_prefix q with Some m => Some m | None => v end
  end.

Lemma ref_view_None q n : None = ref_view q (Some n) -> q = drop_query n.
Proof. unfold ref_view. destruct (String.eqb_spec q (drop_query n)); [done|]. by destruct (strip _ _). Qed.

#[export] Instance ref_pgview : PgView := { sql_view := ref_view }.

#[export] Instance ref_pgview_ok : PgViewOk ref_pgview.
Proof.
  assert (Vp : forall n, viewTemplate n = view_prefix +s+ n).
  { intros n. reflexivity. }
  split.
  - intros n v. simpl. unfold ref_view. destruct v as [m|]; [|reflexivity].
    case_decide as E.
    + injection E as ->. by rewrite String.eqb_refl.
    + destruct (String.eqb_spec (drop_query n) (drop_query m)) as [F|_]; [|reflexivity].
      apply drop_query_inj in F. congruence.
  - intros n v. simpl. unfold ref_view. rewrite Vp, strip_app. destruct v as [m|]; [|done].
    destruct (String.eqb_spec (view_prefix +s+ n) (drop_query m)) as [F|_]; [|done].
    vm_compute in F. discriminate.
  - intros [m|]; reflexivity.
  - intros u pw [m|]; reflexivity.
Qed.

(** *** Following a concrete run *)

Section Replay.
Context {V : PgView}.

(** The view after a call, when an answer is right unless the query failed, and
    a failed command has no effect *)
Definition show (v : option string) (o : obs) : option (option string) :=
  match o with
  | Obs e x =>
      match e in eff X return X -> option (option string) with
      | PgExec _ q => fun r => match r with None => Some (sql_view q v) | Some _ => Some v end
      | PgQuery _ q s =>
          match s return result (rows (scan_val s)) -> option (option string) with
          | ScanStringPtr => fun r =>
              if String.eqb q current_table_query then
                match r, v with
                | inl _, _ => Some v
                | inr rs, Some n =>
                    match rows_data rs with
                    | [inr (Some m)] => if String.eqb m n then Some v else None
                    | _ => None
                    end
                | inr rs, None => match rows_data rs with [] => Some v | _ => None end
                end
              else Some v
          | _ => fun _ => Some v
          end
      | _ => fun _ => Some v
      end x
  end.

Fixpoint replay (v : option string) (t : list obs) : option (option string) :=
  match t with
  | [] => Some v
  | o :: t' => match show v o with Some v' => replay v' t' | None => None end
  end.

Lemma show_shows v o v' : show v o = Some v' -> shows v o v'.
Proof.
  destruct o as [X e x]. destruct e; try (intros [= <-]; done).
  - destruct s; [intros [= <-]; done..|]. simpl. intros E.
    destruct (String.eqb_spec query current_table_query) as [Q|Q]; [|injection E as <-; done].
    destruct x as [er|rs]; [injection E as <-; split; [done|]; by left|]. destruct v as [n|], rs as [[|[er|[m|]] [|]] e' nr]; simpl in E;
      try done.
    + destruct (String.eqb_spec m n) as [->|]; [|done]. injection E as <-.
      split; [done|]. intros _. right. by exists e', nr.
    + injection E as <-. split; [done|]. intros _. right. by exists e', nr.
  - simpl. destruct x; intros [= <-]; auto.
Qed.

Lemma replay_plays v t v' : replay v t = Some v' -> plays v t v'.
Proof.
  revert v. induction t as [|o t IH]; intros v; simpl; [intros [= <-]; constructor|].
  destruct (show v o) as [v1|] eqn:S; [|done]. intros E. econstructor; [by apply show_shows|auto].
Qed.

End Replay.

End View.

(** ** Properties *)

Module ViewProps.
Import View.

Section Props.
Context {V : PgView} {VOK : PgViewOk V} {L : Libs} {LOK : LibsOk L}.

(** C3: No downtime. Runs of the two controllers follow each other, with any
    failures, for any pipelines. If the view was there before and is not
    afterwards, one of the runs of the pipeline controller took it, in one of
    two ways. Its cleanup dropped the table of the view: then the resource is
    being deleted, or that table is not kept by the status and the question
    which table the view uses failed or was cut short. Or its pipeline is new
    and the configured script that creates the table did it. Apart from that, a
    single run leaves the view as it was, or switches it to the table in the
    status of the managed pipeline it fetched, which is valid or gives up on
    its first synchronisation. A run of the validation controller always leaves
    the view as it was. *)
Theorem view_stays_up (ns name : string) (check : bool) (v v' : option string)
    (l : list (string * string * list obs)) :
  (rounds v l v' -> v <> None -> v' = None ->
   exists ns name t p, (ns, name, t) ∈ l /\ head t = Some (fetched ns name p) /\
     ((exists n, (exists x, (drop_query n, x) ∈ execs t) /\
        (live p -> ~ kept_table p n /\
           exists c x, Obs (PgQuery c current_table_query ScanStringPtr) x ∈ t /\ incomplete x)) \/
      (exists cfg n, runs_with ns name t p cfg /\ GetState p = STATE_NEW /\
         scripted cfg t (Some n) None))) /\
  (forall t r, runs (Pipeline.Reconcile ns name) t r -> plays v t v' ->
     v' = v \/
     exists p v1, head t = Some (fetched ns name p) /\ (v1 = v \/ view_lost p t v v1) /\
       (v' = v1 \/
        exists cfg i, runs_with ns name t p cfg /\ Instance i = p /\ config i = Some cfg /\
          ((ConnectorsManaged p = true /\ may_switch i /\ v' = Some (TableName_ (Status p))) \/
           (GetState p = STATE_NEW /\ scripted cfg t v1 v')))) /\
  (forall t r, runs (Validation.Reconcile check ns name) t r -> plays v t v' -> v' = v).
Proof.
  split_and!.
  - intros Ro N E. destruct (rounds_taken _ _ _ Ro N E) as (ns' & name' & t & I & p & H & T).
    exists ns', name', t, p. split_and!; [done..|].
    destruct T as [(n & [D K U])|T]; [left|by right]. exists n. split; [done|]. auto.
  - intros t r R P. destruct (Reconcile_view _ _ _ _ _ _ R P)
      as [->|(p & v1 & H & Lo & M)]; [by left|right]. exists p, v1. split_and!; [done..|].
    destruct M as [->|(cfg & i & Rw & <- & C & M)]; [by left|right]. exists cfg, i. done.
  - intros t r. apply vReconcile_view.
Qed.

(** C6: The commands of a run of the pipeline controller. Besides the password
    rotation while connecting it only drops tables and, when its setup
    succeeded, sends what the state of the pipeline it fetched entitles it to:
    a new pipeline the configured script that creates its table; a pipeline
    with managed connectors that is valid, or has given up on becoming valid
    for the first time, the view of the table in its status, and the grant. *)
Theorem view_switched_only_when_entitled (ns name : string) (t : list obs) (r : option Result)
    (q : string) (x : option gerror) :
  runs (Pipeline.Reconcile ns name) t r ->
  (q, x) ∈ execs t ->
  (exists user password, q = alter_role user password) \/
  exists p, head t = Some (fetched ns name p) /\
    ((exists n, q = drop_query n) \/
     exists cfg, runs_with ns name t p cfg /\
       ((GetState p = STATE_NEW /\ exists n, table_script cfg n q) \/
        exists i, Instance i = p /\ config i = Some cfg /\ ConnectorsManaged p = true /\
          may_switch i /\ (q = viewTemplate (TableName_ (Status p)) \/ q = grant_query))).
Proof.
  intros R D. destruct (Reconcile_parts _ _ _ _ R) as (t1 & t2 & E & A & B).
  rewrite E, execs_app in D. apply elem_of_app in D as [D|D].
  { left. by destruct (all_obs_execs _ _ _ _ A D) as [c H]. }
  destruct B as [->|(p & i & err & tb & rb & tc & -> & H & I & W & Rb & Ec)];
    [by apply elem_of_nil in D|]. right. exists p. split; [done|].
  rewrite execs_app, Ec, app_nil_r in D.
  destruct (body_execs i err tb rb q x) as [?|(cfg & Er & Cj & En)]; [|done..|by left|right].
  { intros Er. destruct (W Er) as (cfg & Cj & _). eauto. }
  destruct (W Er) as (cfg' & Cj' & Rw). rewrite Cj in Cj'. injection Cj' as <-.
  exists cfg. split; [done|]. by rewrite I in En.
Qed.

End Props.

Existing Instances Sim.libs Sim.libs_ok.

(** The second version has been found valid; the view still uses the first. *)
Definition world_checked : Sim.World := Sim.validate (Sim.replicate Sim.world_refreshing).
Definition run : prog Result := Pipeline.Reconcile "test" "test-pipeline-01".
Definition trace (w : Sim.World) : list obs := trace_of Sim.world_handler run w.

Definition round (w : Sim.World) : string * string * list obs := ("test", "test-pipeline-01", trace w).

Lemma one_round (w : Sim.World) (v v1 v2 : option string) l :
  replay v (trace w) = Some v1 -> rounds v1 l v2 -> rounds v (round w :: l) v2.
Proof.
  intros Rp Ro. eapply (ro_pipeline "test" "test-pipeline-01" (trace w)); [by apply runs_exec| |exact Ro].
  by apply replay_plays.
Qed.

(** The view moves to the second table, and the first one is dropped. *)
Example view_switched :
  rounds (Some "hosts_v1_1") [round world_checked; round (Sim.reconcile world_checked)]
    (Some "hosts_v1_2").
Proof.
  eapply (one_round world_checked _ (Some "hosts_v1_2")); [vm_compute; reflexivity|].
  eapply (one_round (Sim.reconcile world_checked)); [vm_compute; reflexivity|constructor].
Qed.

(** The first version serves the view; the configuration has changed and a
    refresh is due; the question about the view fails, once. *)
Definition forgetful : handler Sim.World := fun X e w =>
  match e in eff X return X * Sim.World with
  | PgQuery conn q s =>
      match s return result (rows (scan_val s)) * Sim.World with
      | ScanStringPtr => (inl (Errorf "connection reset"), w)
      | s => (Sim.pg_query conn q s w, w)
      end
  | e => Sim.world_handler _ e w
  end.

Definition unlucky : list obs := trace_of forgetful run Sim.world_changed.

Lemma unlucky_rounds : rounds (Some "hosts_v1_1") [("test", "test-pipeline-01", unlucky)] None.
Proof.
  eapply (ro_pipeline "test" "test-pipeline-01" unlucky); [by apply runs_exec| |constructor].
  apply replay_plays. vm_compute. reflexivity.
Qed.

(** When the one run of a list takes the view, it drops a table: no other
    statement of this server takes it. *)
Lemma one_culprit (ns0 name0 : string) (t0 : list obs) :
  (exists ns name t p, (ns, name, t) ∈ [(ns0, name0, t0)] /\ head t = Some (fetched ns name p) /\
     ((exists n, (exists x, (drop_query n, x) ∈ execs t) /\
        (live p -> ~ kept_table p n /\
           exists c x, Obs (PgQuery c current_table_query ScanStringPtr) x ∈ t /\ incomplete x)) \/
      (exists cfg n, runs_with ns name t p cfg /\ GetState p = STATE_NEW /\
         scripted cfg t (Some n) None))) ->
  exists n x, (drop_query n, x) ∈ execs t0.
Proof.
  intros (ns & name & t & p & [= -> -> ->]%list_elem_of_singleton & _ & T).
  destruct T as [(n & (x & D) & _)|(cfg & n & _ & _ & (m & q & x & _ & D & E))];
    [by exists n, x|]. exists n, x. by rewrite <- (ref_view_None _ _ E).
Qed.

Lemma view_stays_up_witness :
  rounds (Some "hosts_v1_1") [("test", "test-pipeline-01", unlucky)] None /\
  exists n x, (drop_query n, x) ∈ execs unlucky.
Proof.
  split; [exact unlucky_rounds|].
  refine (one_culprit "test" "test-pipeline-01" unlucky _).
  apply (proj1 (view_stays_up "test" "test-pipeline-01" true _ _ _) unlucky_rounds);
    [discriminate|reflexivity].
Defined.

(** Validated, but the view does not point to the table yet *)
Lemma view_switched_only_when_entitled_witness :
  execs (trace ReconcileProps.validated) = [(viewTemplate "hosts_v1_1", None); (grant_query, None)] /\
  ((exists user password, viewTemplate "hosts_v1_1" = alter_role user password) \/
   exists p, head (trace ReconcileProps.validated) = Some (fetched "test" "test-pipeline-01" p) /\
     ((exists n, viewTemplate "hosts_v1_1" = drop_query n) \/
      exists cfg, runs_with "test" "test-pipeline-01" (trace ReconcileProps.validated) p cfg /\
        entitled p cfg (viewTemplate "hosts_v1_1"))).
Proof.
  assert (E : execs (trace ReconcileProps.validated) =
              [(viewTemplate "hosts_v1_1", None); (grant_query, None)]) by (vm_compute; reflexivity).
  split; [exact E|].
  apply (view_switched_only_when_entitled "test" "test-pipeline-01" (trace ReconcileProps.validated)
    (Sim.Result_of ReconcileProps.validated run) (viewTemplate "hosts_v1_1") None).
  - by apply runs_exec.
  - rewrite E. by left.
Defined.

End ViewProps.
