(* ===== verification/Progress.v ===== *)
(** * Progress in a healthy environment

    [healthy o]: the call [o] was answered without a failure. [hwp p Q]: in a
    healthy environment the program [p] returns (it neither panics nor gets
    stuck), and its calls and its result satisfy [Q]. With it every state of a
    pipeline is shown to be left towards the next one: a new pipeline starts
    its synchronisation, a validation records its verdict, a valid pipeline
    gets the view or is refreshed, a deleted one loses its finalizer. *)

From Stdlib Require Import ZArith Lia String.
From S2P Require Import Prelude GoStd Float GoJson Lang K8sLib JsonDecode Template Rendering Api State Utils Config Effects.
From S2P Require Import Database Connect Iteration Validate Pipeline Validation Sim.
From S2P Require Import StatusUpdate Stale Deviation Reconcile ReconcileProps ValidationProps Converged Setup.
Import Api State Config Database Connect Iteration Pipeline StatusUpdate Stale Deviation Reconcile.

Module Progress.

Section Healthy.
Context {L : Libs} (good : gvalue -> Prop).

(** The stored object is the one that was sent, but for the bookkeeping of the
    server. *)
Record stored_as (u q : CyndiPipeline) : Prop := {
  sa_name : Name (Meta q) = Name (Meta u) /\ Namespace (Meta q) = Namespace (Meta u) /\
            UID (Meta q) = UID (Meta u);
  sa_deletion : DeletionTimestamp (Meta q) = DeletionTimestamp (Meta u);
  sa_finalizers : Finalizers_of (Meta q) = Finalizers_of (Meta u);
  sa_spec : Spec q = Spec u;
  sa_status : Status q = Status u
}.

(** The rows of a query: all of them were delivered *)
Definition delivered {T} (rs : rows T) (l : list T) : Prop :=
  rows_data rs = map inr l /\ rows_err rs = None.

Definition healthy (o : obs) : Prop :=
  match o with
  | Obs e x =>
      match e in eff X return X -> Prop with
      | KUpdatePipeline u | KUpdateStatus u => fun r => exists q, r = inr q /\ stored_as u q
      | KGetConnector _ _ => fun r => exists c, r = inr c /\ good c
      | KListConnectors _ _ => fun r => exists l, r = inr l
      | KCreateConnector _ | KUpdateConnector _ | PgExec _ _ => fun r => r = None
      | KDeleteConnector _ _ => fun r => match r with Some e => IsNotFound e = true | None => True end
      | PgConnect _ => fun r => exists c, r = inr c
      | PgQuery _ q s =>
          match s return result (rows (scan_val s)) -> Prop with
          | ScanBool => fun r => exists rs b, r = inr rs /\ delivered rs [b]
          | ScanInt64 => fun r => exists rs n, r = inr rs /\ delivered rs [n]
          | ScanString => fun r => exists rs l, r = inr rs /\ delivered rs l
          | ScanStringPtr => fun r =>
              exists rs l, r = inr rs /\ delivered rs (Some <$> l) /\ (length l <= 1)%nat /\
                forall n, n ∈ l -> (String.length tablePrefix <= String.length n)%nat
          end
      | _ => fun _ => True
      end x
  end.

(** In a healthy environment [p] returns, and [Q] holds of its run. *)
Fixpoint hwp {A} (p : prog A) (Q : list obs -> A -> Prop) : Prop :=
  match p with
  | Ret a => Q [] a
  | Panic => False
  | Call e k => forall x, healthy (Obs e x) -> hwp (k x) (fun t a => Q (Obs e x :: t) a)
  end.

Lemma hwp_mono {A} (p : prog A) (Q Q' : list obs -> A -> Prop) :
  hwp p Q -> (forall t a, Q t a -> Q' t a) -> hwp p Q'.
Proof.
  revert Q Q'. induction p as [a| |X e k IH]; simpl; intros Q Q' H I; [auto|done|].
  intros x Hx. eapply IH; [by apply H|]. auto.
Qed.

Lemma hwp_bind {A B} (p : prog A) (f : A -> prog B) (Q : list obs -> B -> Prop) :
  hwp p (fun t a => hwp (f a) (fun t' b => Q (t ++ t') b)) -> hwp (pbind p f) Q.
Proof.
  revert Q. induction p as [a| |X e k IH]; simpl; intros Q H; [done|done|].
  intros x Hx. apply IH. by apply H.
Qed.

Lemma hwp_sound {A} (p : prog A) (Q : list obs -> A -> Prop) t r :
  hwp p Q -> runs p t r -> Forall healthy t -> exists a, r = Some a /\ Q t a.
Proof.
  intros H R. revert Q H. induction R as [a| |X e k x t r R IH]; simpl; intros Q H F; [eauto|done|].
  inversion F as [|? ? Fo Ft]; subst. exact (IH _ (H x Fo) Ft).
Qed.

(** After [p], of whose run [P] is known *)
Lemma hwp_seq {A B} (p : prog A) (f : A -> prog B) (P : list obs -> A -> Prop) Q :
  hwp p P -> (forall t a, P t a -> hwp (f a) (fun t' b => Q (t ++ t') b)) -> hwp (pbind p f) Q.
Proof. intros H K. apply hwp_bind. eapply hwp_mono; [exact H|]. exact K. Qed.

Lemma hwp_runs {A} (p : prog A) (Q : list obs -> A -> Prop) :
  hwp p Q -> hwp p (fun t a => Q t a /\ runs p t (Some a)).
Proof.
  revert Q. induction p as [a| |X e k IH]; simpl; intros Q H; [by split; [|constructor]|done|].
  intros x Hx. eapply hwp_mono; [apply IH, H, Hx|]. intros t a [Qa R]. split; [done|].
  by constructor.
Qed.

(** The log of writes of two parts of a run *)
Lemma wlog_2 t1 t2 l1 l2 : wlog t1 = l1 -> wlog t2 = l2 -> wlog (t1 ++ t2) = l1 ++ l2.
Proof. intros <- <-. apply wlog_app. Qed.

Lemma wlog_cons o t : wlog (o :: t) = (if writes (obs_eff o) then [o] else []) ++ wlog t.
Proof. unfold wlog. simpl. by destruct (writes (obs_eff o)). Qed.

(** *** Databases *)

Section Databases.
Context (db : BaseDatabase) (conn : nat) (C : connection db = Some conn).

Lemma h_current :
  hwp (GetCurrentTable db) (fun t r => wlog t = [] /\ exists cur, r = inr cur /\
    forall n, cur = Some n -> (String.length tablePrefix <= String.length n)%nat).
Proof.
  unfold GetCurrentTable, RunQuery. rewrite C. simpl.
  intros x (rs & l & -> & [D _] & Ln & G). simpl. rewrite D.
  destruct l as [|n [|]]; simpl in *; [| |lia]; (split; [done|]); eexists; (split; [done|]).
  - done.
  - intros m [= <-]. apply G. left.
Qed.

Lemma h_exists n :
  hwp (CheckIfTableExists db n) (fun t r => wlog t = [] /\ exists b, r = inr b).
Proof.
  unfold CheckIfTableExists, RunQuery. destruct (String.eqb n EmptyString); simpl;
    [by split; [|eauto]|].
  rewrite C. simpl. intros x (rs & b & -> & [D _]). simpl. rewrite D. simpl. by split; [|eauto].
Qed.

Lemma h_tables :
  hwp (GetCyndiTables db) (fun t r => wlog t = [] /\ exists l, r = inr l).
Proof.
  unfold GetCyndiTables, RunQuery. rewrite C. simpl. intros x (rs & l & -> & [D _]). simpl.
  rewrite D, scan_loop_ok. by split; [|eauto].
Qed.

Lemma h_count tb io fs :
  hwp (CountHosts db tb io fs) (fun t r => wlog t = [] /\ exists n, r = inr n).
Proof.
  unfold CountHosts, RunQuery. rewrite C. simpl. intros x (rs & n & -> & [D _]). simpl.
  rewrite D. simpl. by split; [|eauto].
Qed.

Lemma h_ids tb io fs :
  hwp (GetHostIds db tb io fs) (fun t r => wlog t = [] /\ exists l, r = inr l).
Proof.
  unfold GetHostIds, RunQuery. rewrite C. simpl. intros x (rs & l & -> & [D _]). simpl.
  rewrite D, scan_loop_ok. by split; [|eauto].
Qed.

Lemma h_exec q : hwp (Exec db q) (fun t r => wlog t = [Obs (PgExec conn q) None] /\ r = None).
Proof. unfold Exec. rewrite C. simpl. intros x ->. simpl. done. Qed.

Lemma h_view n :
  hwp (UpdateView db n)
    (fun t r => wlog t = [Obs (PgExec conn (viewTemplate n)) None; Obs (PgExec conn grant_query) None] /\
       r = None).
Proof.
  unfold UpdateView. eapply hwp_seq; [apply h_exec|]. intros t1 ? [W1 ->].
  eapply hwp_seq; [apply h_exec|]. intros t2 ? [W2 ->]. simpl. split; [|done].
  by rewrite app_nil_r, (wlog_2 _ _ _ _ W1 W2).
Qed.

(** No update of the resource or its status, no new connector *)
Definition untouched (t : list obs) : Prop :=
  pipeline_updates t = [] /\ status_updates t = [] /\ conn_creates t = [].

Lemma untouched_app t1 t2 : untouched t1 -> untouched t2 -> untouched (t1 ++ t2).
Proof. unfold untouched. autorewrite with cyndi_trace. intros (-> & -> & ->) (-> & -> & ->). done. Qed.

Lemma quiet_untouched t : wlog t = [] -> untouched t.
Proof. intros (_ & _ & ? & _ & ? & ?)%wlog_nil. done. Qed.

(** Dropping a table, or finding it gone *)
Lemma h_drop n : hwp (DeleteTable db n) (fun t r => untouched t /\ r = None).
Proof.
  unfold DeleteTable. eapply hwp_seq; [apply h_exists|]. intros t1 r [U1%quiet_untouched [b ->]].
  destruct b; cbn [negb Bool.eqb].
  - eapply hwp_mono; [apply h_exec|]. intros t2 r [W ->]. split; [|done].
    apply untouched_app; [done|]. unfold untouched.
    destruct (projections_wlog t2) as (_ & _ & <- & _ & <- & <-). by rewrite W.
  - simpl. by rewrite app_nil_r.
Qed.

End Databases.

(** *** The cleanup *)

Section Cleanup.
Context (i : ReconcileIteration) (conn : nat) (C : connection (AppDb i) = Some conn).

Lemma h_delete_connectors ns keep items errs :
  hwp (delete_connectors ns keep items errs) (fun t r => untouched t /\ r = errs).
Proof.
  induction items as [|c items IH]; cbn [delete_connectors]; [done|].
  destruct (negb _); [|exact IH].
  eapply (hwp_seq _ _ (fun t r => untouched t /\ r = None)).
  - unfold DeleteConnector. simpl. intros [e|] H; simpl; [|done]. by rewrite H.
  - intros t1 ? [U1 ->]. eapply hwp_mono; [exact IH|]. intros t2 r [U2 ->].
    split; [by apply untouched_app|done].
Qed.

Lemma h_delete_tables keep tables errs :
  hwp (delete_tables (AppDb i) keep tables errs) (fun t r => untouched t /\ r = errs).
Proof.
  induction tables as [|n tables IH]; cbn [delete_tables]; [done|].
  destruct (negb _); [|exact IH].
  eapply hwp_seq; [by eapply h_drop|]. intros t1 ? [U1 ->].
  eapply hwp_mono; [exact IH|]. intros t2 r [U2 ->]. split; [by apply untouched_app|done].
Qed.

Lemma h_cleanup_rest kt kc :
  hwp (cleanup_rest i [] kt kc) (fun t r => untouched t /\ r = []).
Proof.
  unfold cleanup_rest, GetConnectorsForOwner.
  eapply (hwp_seq _ _ (fun t r => untouched t /\ exists l, r = inr l)).
  { simpl. intros x [l ->]. by split; [|eauto]. }
  intros t1 ? [U1 [l ->]]. eapply hwp_seq; [apply h_delete_connectors|]. intros t2 ? [U2 ->].
  eapply hwp_seq; [by eapply h_tables|]. intros t3 ? [U3 [ts ->]].
  eapply hwp_mono; [apply h_delete_tables|]. intros t4 r [U4 ->]. split; [|done].
  apply quiet_untouched in U3. auto using untouched_app.
Qed.

Lemma h_cleanup : hwp (deleteStaleDependencies i) (fun t r => untouched t /\ r = []).
Proof.
  unfold deleteStaleDependencies. destruct (kept_by_status i) as [kt kc].
  eapply hwp_seq; [by eapply h_current|]. intros t1 ? [W (cur & -> & G)].
  apply quiet_untouched in W.
  assert (K : forall kt kc, hwp (cleanup_rest i [] kt kc)
    (fun t r => untouched (t1 ++ t) /\ r = [])).
  { intros kt' kc'. eapply hwp_mono; [apply h_cleanup_rest|]. intros t r [U ->].
    split; [by apply untouched_app|done]. }
  destruct cur as [x|]; [|apply K].
  destruct (not_removed i); [|apply K]. destruct (ConnectorsManaged (Instance i)); [|apply K].
  unfold TableNameToConnectorName.
  rewrite (proj2 (Nat.leb_le _ _) (G x eq_refl)). apply K.
Qed.

End Cleanup.

(** *** Ending an iteration *)

(** The status, with the active table the database reported, is sent if it
    changed, and stored. *)
Definition status_sent (i : ReconcileIteration) (t : list obs) : Prop :=
  exists cur, answered t (GetCurrentTable (AppDb i)) (inr cur) /\
    let u := with_active cur (Instance i) in
    (Status u = Status (OriginalInstance i) /\ wlog t = [] \/
     exists q, wlog t = [Obs (KUpdateStatus u) (inr q)] /\ stored_as u q).

Lemma h_status {LOK : LibsOk L} i conn :
  connection (AppDb i) = Some conn -> config i <> None ->
  hwp (updateStatusAndRequeue i) (fun t res => status_sent i t /\ res.2 = None).
Proof.
  intros C Cf. unfold updateStatusAndRequeue.
  eapply hwp_seq; [eapply hwp_runs; by eapply h_current|]. intros t1 ? [[W1 (cur & -> & _)] R1].
  assert (A : forall t, answered (t1 ++ t) (GetCurrentTable (AppDb i)) (inr cur))
    by (intros t; by apply (answered_here [])).
  cbn beta iota. rewrite on_instance_active. cbn zeta. cbn [set_Instance Instance OriginalInstance].
  set (u := with_active cur (Instance i)).
  assert (Fin : forall p j, config j = config i -> exists d, requeue_interval (set_Instance p j) = Some d).
  { intros p j Ej. destruct (requeue_interval (set_Instance p j)) eqn:D; [eauto|].
    apply requeue_interval_None in D. congruence. }
  destruct (cmp_Equal (Status u) (Status (OriginalInstance i))) eqn:Eq; cbn [negb].
  - cbn [pbind hwp]. destruct (Fin u (set_Instance u i) eq_refl) as [d ->]. cbn [deref hwp].
    split; [|done]. exists cur. split; [apply A|]. left. split; [by apply cmp_Equal_iff|].
    by rewrite wlog_app, W1.
  - cbn [pbind hwp call]. intros x (q & -> & Sa). cbn beta iota.
    destruct (Fin q (set_Instance u i) eq_refl) as [d ->]. cbn [deref hwp].
    split; [|done]. exists cur. split; [apply A|]. right. exists q. by rewrite wlog_app, W1.
Qed.

(** A change of the state is a change of the status. *)
Lemma sent_changed i t :
  status_sent i t -> (forall c, Status (with_active c (Instance i)) <> Status (OriginalInstance i)) ->
  exists c q, answered t (GetCurrentTable (AppDb i)) (inr c) /\
    wlog t = [Obs (KUpdateStatus (with_active c (Instance i))) (inr q)] /\
    stored_as (with_active c (Instance i)) q.
Proof. intros (c & A & [[E _]|(q & S & Sa)]) N; [by destruct (N c)|]. eauto. Qed.

(** *** A new version *)

Section Iterations.
Context {LOK : LibsOk L}.
Context (i : ReconcileIteration) (cfg : CyndiConfiguration) (conn : nat).

(** The iteration as setup leaves it *)
Record ready : Prop := {
  rd_config : config i = Some cfg;
  rd_conn : connection (AppDb i) = Some conn;
  rd_original : OriginalInstance i = Instance i
}.

(** The script for tables and the template for connectors can be rendered. *)
Definition script_renders : Prop :=
  exists tm, template_Parse (DBTableInitScript cfg +s+ cfgDBTableIndexSQL cfg) = inr tm /\
    forall n, exists q, template_Execute tm (GMap [("TableName", GString n)]) = inr q.

Definition connector_renders : Prop :=
  forall p name, Spec p = Spec (Instance i) -> Namespace (Meta p) = Namespace (Meta (Instance i)) ->
    UID (Meta p) = UID (Meta (Instance i)) ->
    (TableName_ (Status p) = TableName_ (Status (Instance i)) \/
     exists now, TableName_ (Status p) = TableName ("1_" +s+ Strconv.FormatInt now)) ->
    hwp (createConnector (set_Instance p i) name true) (fun _ r => exists c, r = inr c).

Context (R : ready).

Lemma h_create j name :
  hwp (createConnector j name true) (fun _ r => exists c, r = inr c) ->
  hwp (createConnector j name false) (fun t r =>
    exists c, r = inr c /\ wlog t = [Obs (KCreateConnector c) None]).
Proof.
  unfold createConnector. destruct (config j) as [cf|]; [|done]. cbn [deref].
  unfold CreateConnector, newConnectorResource. cbn [call pbind hwp]. intros H env _.
  specialize (H env I). cbn [pbind] in *.
  destruct (template_Parse _); [by destruct H as [? ?]|].
  destruct (template_Execute _ _); [by destruct H as [? ?]|].
  destruct (json_Unmarshal _); [by destruct H as [? ?]|]. cbn [pbind] in *.
  destruct (SetControllerReference _ _) as [e|c]; [by destruct H as [? ?]|].
  cbn [pbind call]. cbn [hwp]. intros x Hx. simpl in Hx. subst x. cbn [hwp pbind]. by eexists.
Qed.

(** The connector of the version [v] *)
Definition connector_made (j : ReconcileIteration) (v : string) (c : gvalue) : Prop :=
  exists env, created c (ConnectorName v (AppName (Spec (Instance j)))) (connector_config j cfg)
                (Meta (Instance j)) (is_ephemeral env).

(** A managed connector comes first. *)
Lemma h_start_connector j v ex :
  config j = Some cfg -> connection (AppDb j) = Some conn ->
  (ConnectorsManaged (Instance j) = true ->
   forall name, hwp (createConnector j name true) (fun _ r => exists c, r = inr c)) ->
  hwp (start_connector j v ex) (fun t res => res.2 = None /\
    exists cs t1 t', t = t1 ++ t' /\ wlog t = cs ++ wlog t' /\ status_sent j t' /\
      (ConnectorsManaged (Instance j) = true -> exists c, cs = [Obs (KCreateConnector c) None] /\
         connector_made j v c)).
Proof.
  intros Cj Dj Rn. unfold start_connector.
  assert (St : hwp (updateStatusAndRequeue j) (fun t res => status_sent j t /\ res.2 = None)).
  { apply (h_status j conn Dj). by rewrite Cj. }
  destruct (ConnectorsManaged (Instance j)) eqn:M.
  - eapply hwp_seq; [by apply hwp_runs, h_create, Rn|]. intros t1 ? [(c & -> & W1) R1].
    apply (createConnector_runs _ _ _ _ _ Cj) in R1
      as (a & [= <-] & [(e & ? & _)|(o & x & env & W1' & Cr & Eo & _)]); [done|].
    destruct x as [e|]; [done|]. injection Eo as <-. clear W1'.
    eapply hwp_mono; [exact St|]. intros t2 res [S F]. split; [done|].
    exists [Obs (KCreateConnector c) None], t1, t2. rewrite wlog_app, W1. split_and!; [done..|].
    intros _. exists c. split; [done|]. by exists env.
  - assert (St' : forall t0, wlog t0 = [] -> hwp (updateStatusAndRequeue j) (fun t res => res.2 = None /\
      exists cs t1 t', t0 ++ t = t1 ++ t' /\ wlog (t0 ++ t) = cs ++ wlog t' /\ status_sent j t' /\
        (false = true -> exists c, cs = [Obs (KCreateConnector c) None] /\ connector_made j v c))).
    { intros t0 W0. eapply hwp_mono; [exact St|]. intros t res [S F]. split; [done|].
      exists [], t0, t. by rewrite wlog_app, W0. }
    destruct (negb ex); [|by apply (St' [])].
    eapply (hwp_seq _ _ (fun t _ => wlog t = [])).
    { unfold eventWarning. simpl. by intros [] _. }
    intros t1 _ W1. by apply St'.
Qed.

(** The synchronisation of a new version, named after the time, has been
    started: the pipeline, with its finalizer and with the settings of the
    configuration, is stored with it, after its connector was created. *)
Definition sync_started (t : list obs) : Prop :=
  exists p now cur q pre,
    let v := "1_" +s+ Strconv.FormatInt now in
    let u := with_active cur (started p cfg v) in
    wlog t = pre ++ [Obs (KUpdateStatus u) (inr q)] /\ stored_as u q /\
    Obs NowUnixNano now ∈ t /\ answered t (GetCurrentTable (AppDb i)) (inr cur) /\
    Spec p = Spec (Instance i) /\ Status p = Status (Instance i) /\
    cyndipipelineFinalizer ∈ Finalizers_of (Meta p) /\
    GetState u = STATE_INITIAL_SYNC /\ PipelineVersion (Status u) = v /\
    (ConnectorsManaged (Instance i) = true -> TableName_ (Status u) = TableName v /\
       exists c, Obs (KCreateConnector c) None ∈ pre /\
         connector_made (set_Instance (started p cfg v) i) v c).

Lemma started_fields p v :
  GetState p = STATE_NEW ->
  let q := started p cfg v in
  Meta q = Meta p /\ Spec q = Spec p /\ PipelineVersion (Status q) = v /\
  (v <> EmptyString -> GetState q = STATE_INITIAL_SYNC) /\
  (ConnectorsManaged p = true -> TableName_ (Status q) = TableName v).
Proof.
  intros N.
  set (p' := upd (set_SpecHash (cfgSpecHash cfg)) (upd (set_CyndiConfigVersion (ConfigMapVersion cfg)) p)).
  assert (N' : GetState p' = STATE_NEW).
  { rewrite <- N. apply Refinement.same_core_state. by split. }
  destruct (TransitionToInitialSync_ok v p') as (_ & HM & HS & HV & HI & HG & _ & _ & _ & _ & _ & HT & _).
  { rewrite N'. set_solver. }
  split_and!; [done..| |].
  - intros Ne. apply GetState_new in N as [Lv _]. unfold started. fold p'.
    rewrite GetState_live, HV, HG, HI by (unfold live in *; by rewrite HM).
    by destruct (String.eqb_spec v EmptyString).
  - intros M. unfold started. fold p'. rewrite HT.
    change (ConnectorsManaged p') with (ConnectorsManaged p). by rewrite M.
Qed.

Lemma h_new :
  script_renders -> connector_renders -> GetState (Instance i) = STATE_NEW ->
  hwp (reconcile_new i) (fun t res => sync_started t /\ res.2 = None).
Proof.
  intros (tm & Tp & Te) Cr N. destruct R as [Cf Cn Og]. unfold reconcile_new.
  eapply (hwp_seq _ _ (fun t r => exists q, r = (set_Instance q i, None) /\
      Refinement.same_core (Instance i) q /\ Status q = Status (Instance i) /\
      Spec q = Spec (Instance i) /\ Namespace (Meta q) = Namespace (Meta (Instance i)) /\
      UID (Meta q) = UID (Meta (Instance i)) /\
      cyndipipelineFinalizer ∈ Finalizers_of (Meta q))).
  { unfold addFinalizer. destruct (Lang.ContainsString _ _) eqn:F; cbn [negb].
    - simpl. exists (Instance i). split; [by destruct i|]. split_and!; try done; try by split.
      by apply Lang.ContainsString_spec in F.
    - simpl. intros x (q & -> & [(_ & S1 & S2) S3 S4 S5 S6]). simpl. exists q.
      simpl in *. split_and!; try done.
      + split; by rewrite ?S6.
      + rewrite S4. apply elem_of_AddFinalizer. by right. }
  intros t1 ? (q & -> & Sc & Sq & Sp & Ns & Ui & Fq). cbn beta iota.
  cbn [set_Instance config]. rewrite Cf. cbn [deref]. unfold start_version. cbn zeta.
  cbn [pbind call hwp]. intros now _.
  set (v := "1_" +s+ Strconv.FormatInt now).
  change (on_instance _ _) with (set_Instance (started q cfg v) i).
  set (j := set_Instance (started q cfg v) i).
  assert (Nq : GetState q = STATE_NEW) by (by rewrite (Refinement.same_core_state _ _ Sc)).
  destruct (started_fields q v Nq) as (HM & HS & HV & HI & HT).
  assert (Mg : ConnectorsManaged q = ConnectorsManaged (Instance i)).
  { unfold ConnectorsManaged. by rewrite Sp. }
  cbn [probeStartingInitialSync eventNormal call pbind hwp]. intros [] _.
  unfold start_table. cbn zeta.
  eapply hwp_seq; [by eapply h_exists|]. intros t2 ? [W2 [ex ->]].
  eapply (hwp_seq _ _ (fun t r => r = None)).
  { destruct ex; cbn [negb]; [done|]. unfold CreateTable. rewrite Tp.
    destruct (Te (TableName_ (Status (Instance j)))) as [sql ->].
    eapply hwp_mono; [by eapply h_exec|]. by intros t r [_ ->]. }
  intros t3 ? ->. cbn beta iota.
  eapply hwp_mono; [apply h_start_connector; [done|done|]|].
  { intros M name. apply Cr; [by rewrite HS|by rewrite HM|by rewrite HM|].
    right. exists now. apply HT. change (ConnectorsManaged (started q cfg v) = true) in M.
    unfold ConnectorsManaged in M |- *. by rewrite HS in M. }
  intros t4 res (F & cs & t5 & t' & -> & W4 & St & K). split; [|done].
  apply sent_changed in St as (cur & q' & Ac & W' & Sa).
  2: { intros c E. apply (f_equal PipelineVersion) in E. cbn [j set_Instance OriginalInstance Instance] in E.
       change (PipelineVersion (Status (started q cfg v)) = PipelineVersion (Status (OriginalInstance i))) in E.
       rewrite HV, Og in E. apply GetState_new in N as [_ N]. rewrite N in E. discriminate E. }
  exists q, now, cur, q'. eexists. cbn zeta. fold v. split_and!.
  - rewrite wlog_app in W4. apply app_inv_tail in W4.
    repeat (rewrite wlog_app || rewrite wlog_cons). rewrite W4, W', !app_assoc. reflexivity.
  - exact Sa.
  - set_solver.
  - do 3 (repeat apply (answered_right [_]); apply answered_right). by apply answered_right.
  - done.
  - done.
  - done.
  - rewrite (Refinement.same_core_state _ _ (Refinement.same_core_active cur _)). by apply HI.
  - exact HV.
  - intros M. split; [by apply HT; rewrite Mg|].
    destruct K as (c & -> & Cm).
    { change (ConnectorsManaged (started q cfg v) = true). unfold ConnectorsManaged. rewrite HS.
      by unfold ConnectorsManaged in Mg; rewrite Mg. }
    exists c. split; [set_solver|done].
Qed.

Lemma sync_started_app t1 t2 : sync_started t2 -> sync_started (t1 ++ t2).
Proof.
  intros (p & now & cur & q & pre & W & Sa & Nw & A & H1 & H2 & H3 & H4 & H5 & H6).
  exists p, now, cur, q, (wlog t1 ++ pre). cbn zeta. split_and!; try done.
  - by rewrite wlog_app, W, app_assoc.
  - rewrite elem_of_app. by right.
  - by apply answered_right.
  - intros M. destruct (H6 M) as (T & c & I & Cm). split; [done|]. exists c. set_solver.
Qed.

(** *** A deleted pipeline *)

Definition released (t : list obs) : Prop :=
  exists q, pipeline_updates t =
    [(with_Finalizers (Instance i) (RemoveFinalizer (Finalizers_of (Meta (Instance i)))
        cyndipipelineFinalizer), inr q)] /\
    cyndipipelineFinalizer ∉ Finalizers_of (Meta q) /\ status_updates t = [].

Lemma h_finalize : hwp (finalize i) (fun t res => released t /\ res = (0%Z, None)).
Proof.
  unfold finalize, removeFinalizer. simpl. intros x (q & -> & [_ _ F _ _]). simpl.
  split; [|done]. exists q. split; [done|]. split; [|done]. rewrite F. simpl.
  rewrite elem_of_RemoveFinalizer. naive_solver.
Qed.

(** *** A running pipeline *)

(** Connectors are well-formed and can be compared with rendered ones. *)
Definition good_connectors : Prop :=
  forall c, good c ->
    (forall v, exists c', SetNestedField c v ["spec"; "state"] = inr c') /\
    (forall name t n, runs (createConnector i name true) t (Some (inr n)) -> config_problem c n <> None).

Lemma dry_run_wlog name t n : runs (createConnector i name true) t n -> wlog t = [].
Proof. by apply reader_wlog, createConnector_dry_read_only. Qed.

Lemma h_deviation :
  connector_renders -> good_connectors ->
  hwp (checkForDeviation i) (fun t r => wlog t = [] /\ exists m, r = inr m).
Proof.
  intros Cr Gd. destruct R as [Cf Cn Og]. unfold checkForDeviation. rewrite Cf. cbn [deref].
  destruct (negb _); [simpl; by split; [|eauto]|].
  destruct (negb _); [simpl; by split; [|eauto]|].
  eapply hwp_seq; [by eapply h_exists|]. intros t1 ? [W1 [b ->]].
  assert (Fin : forall m, hwp (Ret (inr m) : prog (result (option string)))
    (fun t r => wlog (t1 ++ t) = [] /\ exists m, r = inr m)).
  { intros m. simpl. rewrite app_nil_r. split; [done|eauto]. }
  destruct (Bool.eqb b false); [apply Fin|].
  destruct (negb _); [apply Fin|].
  cbn [GetConnector call pbind hwp]. intros x (c & -> & G). cbn beta iota.
  destruct (Gd c G) as [_ Gc].
  assert (Fin' : forall m, hwp (Ret (inr m) : prog (result (option string)))
    (fun t r => wlog (t1 ++ Obs (KGetConnector (ConnectorName_ (Status (Instance i)))
       (Namespace (Meta (Instance i)))) (inr c) :: t) = [] /\ exists m, r = inr m)).
  { intros m. simpl. rewrite wlog_app, W1. split; [done|eauto]. }
  destruct (IsFailed c); [apply Fin'|].
  destruct (label_problem i cfg c); [apply Fin'|].
  specialize (Cr (Instance i) (ConnectorName_ (Status (Instance i))) eq_refl eq_refl eq_refl (or_introl eq_refl)).
  assert (E : set_Instance (Instance i) i = i) by (by destruct i).
  rewrite E in Cr. eapply hwp_seq; [apply hwp_runs, Cr|]. intros t2 ? [[n ->] Rn]. cbn beta iota.
  specialize (Gc _ _ _ Rn). apply dry_run_wlog in Rn.
  destruct (config_problem c n) as [m|]; [|done]. simpl. rewrite app_nil_r, wlog_app, W1. simpl.
  rewrite Rn. split; [done|eauto].
Qed.

Lemma h_connector_state name ns b :
  good_connectors ->
  hwp (SetConnectorState name ns b)
    (fun t r => (wlog t = [] \/ exists c, wlog t = [Obs (KUpdateConnector c) None]) /\ r = None).
Proof.
  intros Gd. unfold SetConnectorState, GetConnector. cbn [call pbind hwp].
  intros x (c & -> & G). cbn beta iota zeta. destruct (Gd c G) as [Gs _].
  destruct (String.eqb _ _); [simpl; by split; [left|]|].
  destruct (Gs (GString (connectorState b))) as [c' ->]. cbn [call pbind hwp].
  intros y Hy. simpl in Hy. subst y. cbn [hwp pbind]. split; [|done]. right. by eexists.
Qed.

(** The pipeline is to be refreshed: it is new again. *)
Definition refreshed (t : list obs) : Prop :=
  exists cur q pre,
    let u := with_active cur (TransitionToNew (Instance i)) in
    wlog t = pre ++ [Obs (KUpdateStatus u) (inr q)] /\ stored_as u q /\
    answered t (GetCurrentTable (AppDb i)) (inr cur) /\ GetState u = STATE_NEW.

Lemma refreshed_app t1 t2 : refreshed t2 -> refreshed (t1 ++ t2).
Proof.
  intros (c & q & pre & W & Sa & A & N). exists c, q, (wlog t1 ++ pre).
  split_and!; [by rewrite wlog_app, W, app_assoc|done|by apply answered_right|done].
Qed.

Lemma refreshed_cons o t : refreshed t -> refreshed (o :: t).
Proof. apply (refreshed_app [o]). Qed.

Lemma h_refresh j t0 :
  config j = config i -> AppDb j = AppDb i -> OriginalInstance j = OriginalInstance i ->
  Instance j = Instance i -> live (Instance i) ->
  PipelineVersion (Status (Instance i)) <> EmptyString ->
  hwp (updateStatusAndRequeue (on_instance TransitionToNew j)) (fun t res =>
    refreshed (t0 ++ t) /\ res.2 = None).
Proof.
  intros E1 E2 E3 E4 Lv V. destruct R as [Cf Cn Og].
  eapply hwp_mono; [apply (h_status _ conn)|].
  - simpl. by rewrite E2.
  - simpl. rewrite E1. by rewrite Cf.
  - intros t res [S F]. split; [|done].
    pose proof (TransitionToNew_fields (Instance j)) as (HM & _ & HV & _).
    apply sent_changed in S as (c & q & A & W & Sa).
    + cbn [on_instance set_Instance Instance AppDb] in A, W, Sa. rewrite E4 in W, Sa, HM, HV.
      rewrite E2 in A. exists c, q, (wlog t0). split_and!; [by rewrite wlog_app, W|done| |].
      * by apply answered_right.
      * apply GetState_new. split; [|exact HV].
        change (DeletionTimestamp (Meta (TransitionToNew (Instance i))) = None). by rewrite HM.
    + intros c E. apply (f_equal PipelineVersion) in E.
      change (PipelineVersion (Status (TransitionToNew (Instance j))) =
              PipelineVersion (Status (OriginalInstance j))) in E.
      rewrite HV, E3, Og in E. congruence.
Qed.

(** The view uses the table of the pipeline: the database said so, or it was
    switched just now. *)
Definition served (t : list obs) : Prop :=
  let table := TableName_ (Status (Instance i)) in
  (exists t1 t2 t3, t = t1 ++ t2 ++ t3 /\
     runs (GetCurrentTable (AppDb i)) t2 (Some (inr (Some table)))) \/
  (exists l1 l2, wlog t = l1 ++ [Obs (PgExec conn (viewTemplate table)) None;
                                 Obs (PgExec conn grant_query) None] ++ l2).

Lemma served_app t1 t2 t3 : served t2 -> served (t1 ++ t2 ++ t3).
Proof.
  intros [(a & b & c & -> & H)|(l1 & l2 & H)]; [left|right].
  - exists (t1 ++ a), b, (c ++ t3). by rewrite <- !app_assoc.
  - exists (wlog t1 ++ l1), (l2 ++ wlog t3). rewrite !wlog_app, H. by rewrite <- !app_assoc.
Qed.

Lemma h_view_up :
  hwp (recreateViewIfNeeded i) (fun t r => (exists b, r = inr b) /\
    (ConnectorsManaged (Instance i) = true -> served t)).
Proof.
  destruct R as [Cf Cn Og]. unfold recreateViewIfNeeded.
  destruct (ConnectorsManaged (Instance i)); cbn [negb]; [|simpl; split; [eauto|done]].
  eapply hwp_seq; [eapply hwp_runs; by eapply h_current|].
  intros t1 ? [[W1 (cur & -> & _)] R1]. cbn beta iota zeta. case_bool_decide as E.
  - simpl. split; [eauto|]. intros _. left. exists [], t1, []. by rewrite <- E.
  - eapply hwp_seq; [by eapply h_view|]. intros t2 ? [W2 ->]. simpl. split; [eauto|]. intros _.
    right. exists [], []. by rewrite app_nil_r, wlog_app, W1, W2.
Qed.

Lemma h_valid : hwp (reconcile_valid i) (fun t res =>
  (ConnectorsManaged (Instance i) = true -> served t) /\ res.2 = None).
Proof.
  destruct R as [Cf Cn Og]. unfold reconcile_valid.
  assert (St : forall t0 : list obs, (ConnectorsManaged (Instance i) = true -> served t0) ->
    hwp (updateStatusAndRequeue i) (fun t res =>
      (ConnectorsManaged (Instance i) = true -> served (t0 ++ t)) /\ res.2 = None)).
  { intros t0 S. eapply hwp_mono; [apply (h_status i conn Cn); by rewrite Cf|].
    intros t res [_ F]. split; [|done]. intros M. by apply (served_app [] t0 t), S. }
  eapply hwp_seq; [apply h_view_up|]. intros t1 ? [[b ->] S]. destruct b; [|by apply St].
  unfold eventNormal. cbn [call pbind hwp]. intros [] _.
  eapply hwp_mono; [by apply (St t1)|]. intros t res [S' F]. split; [|done].
  intros M. apply (served_app [] t1 (_ :: t)). by apply S.
Qed.

Lemma h_healthier :
  hwp (updateViewIfHealthier i) (fun t r => config r.1 = config i /\ AppDb r.1 = AppDb i /\
    OriginalInstance r.1 = OriginalInstance i /\ Instance r.1 = Instance i).
Proof.
  destruct R as [Cf Cn Og]. unfold updateViewIfHealthier.
  destruct (ConnectorsManaged (Instance i)); cbn [negb]; [|done].
  assert (U : forall j, config j = config i -> AppDb j = AppDb i ->
    OriginalInstance j = OriginalInstance i -> Instance j = Instance i ->
    hwp (err <- UpdateView (AppDb j) (TableName_ (Status (Instance i))) ;; Ret (j, err))
      (fun t r => config r.1 = config i /\ AppDb r.1 = AppDb i /\
         OriginalInstance r.1 = OriginalInstance i /\ Instance r.1 = Instance i)).
  { intros j E1 E2 E3 E4. eapply hwp_seq; [eapply h_view; rewrite E2; exact Cn|].
    by intros t e _. }
  eapply hwp_seq; [by eapply h_current|]. intros t1 ? [_ (cur & -> & _)]. cbn beta iota zeta.
  destruct cur as [x|]; [|by apply U]. destruct (String.eqb _ _); [done|].
  eapply (hwp_seq _ _ (fun _ r => exists db c, r = (db, None) /\ connection db = Some c)).
  { unfold Connect, GetConnection. simpl. intros y [c ->]. simpl. eauto. }
  intros t2 ? (db & c & -> & Cd). cbn beta iota. cbn [set_InventoryDb config]. rewrite Cf. cbn [deref].
  eapply hwp_seq; [by eapply h_count|]. intros t3 ? [_ [h ->]]. cbn beta iota.
  eapply hwp_seq; [by eapply h_count|]. intros t4 ? [_ [a ->]]. cbn beta iota.
  eapply hwp_seq; [by eapply h_count|]. intros t5 ? [_ [l ->]]. cbn beta iota.
  destruct (Z.ltb _ _); [done|]. eapply hwp_mono; [by apply U|]. intros t r H. by rewrite <- Cf.
Qed.

Lemma h_invalid :
  live (Instance i) -> PipelineVersion (Status (Instance i)) <> EmptyString ->
  hwp (reconcile_invalid i) (fun t r => r.2.2 = None /\ (gave_up i -> refreshed t)).
Proof.
  intros Lv V. pose proof R as [Cf Cn Og]. unfold reconcile_invalid.
  assert (F : ~ gave_up i -> hwp (res <- updateStatusAndRequeue i ;; Ret (i, res))
    (fun t r => r.2.2 = None /\ (gave_up i -> refreshed t))).
  { intros N. eapply hwp_seq; [apply (h_status i conn Cn); by rewrite Cf|].
    intros t res [_ E]. by split. }
  case_bool_decide as Vf; [|apply F; by intros [? _]].
  destruct (getValidationConfig i) as [vc|] eqn:G; cbn [deref].
  2: { unfold getValidationConfig in G. rewrite Cf in G. by destruct (Bool.eqb _ _). }
  destruct (Z.leb_spec (AttemptsThreshold vc) (ValidationFailedCount (Status (Instance i)))) as [Le|Lt].
  2: { apply F. intros [_ (vc' & E & Le)]. rewrite G in E. injection E as <-. lia. }
  eapply (hwp_seq _ _ (fun t j => config j = config i /\ AppDb j = AppDb i /\
    OriginalInstance j = OriginalInstance i /\ Instance j = Instance i)).
  { case_bool_decide; [|done]. eapply hwp_seq; [apply h_healthier|]. by intros t [j err] ?. }
  intros t1 j (E1 & E2 & E3 & E4).
  unfold probePipelineDidNotBecomeValid, eventWarning, PipelineRefreshed.
  cbn [call pbind hwp]. intros [] _ [] _.
  eapply hwp_seq; [by apply (h_refresh j [])|]. intros t2 res [Rf E].
  simpl. split; [done|]. intros _. rewrite app_nil_r. apply refreshed_app.
  by do 2 apply refreshed_cons.
Qed.

(** *** The pipeline controller *)

(** The check of this iteration found a deviation, and the pipeline is to be
    refreshed. *)
Definition deviated (t : list obs) : Prop :=
  (exists m, answered t (checkForDeviation i) (inr (Some m))) /\ refreshed t.

(** The check found none. *)
Definition conforms (t : list obs) : Prop := answered t (checkForDeviation i) (inr None).

Definition forward (t : list obs) : Prop :=
  match GetState (Instance i) with
  | STATE_REMOVED => released t
  | STATE_NEW => sync_started t
  | STATE_VALID => deviated t \/ conforms t /\ (ConnectorsManaged (Instance i) = true -> served t)
  | STATE_INITIAL_SYNC | STATE_INVALID => deviated t \/ conforms t /\ (gave_up i -> refreshed t)
  | STATE_UNKNOWN => True
  end.

Lemma deviated_app t1 t2 : deviated t2 -> deviated (t1 ++ t2).
Proof.
  intros [[m A] Rf]. split; [exists m; by apply answered_right|by apply refreshed_app].
Qed.

Lemma h_running :
  connector_renders -> good_connectors -> live (Instance i) ->
  PipelineVersion (Status (Instance i)) <> EmptyString ->
  hwp (reconcile_running i) (fun t r => r.2.2 = None /\ (deviated t \/ conforms t /\
    if decide (GetState (Instance i) = STATE_VALID)
    then ConnectorsManaged (Instance i) = true -> served t
    else gave_up i -> refreshed t)).
Proof.
  intros Cr Gd Lv V. pose proof R as [Cf Cn Og]. unfold reconcile_running.
  eapply hwp_seq; [by apply hwp_runs, h_deviation|]. intros t1 ? [[W1 [m ->]] R1].
  cbn beta iota zeta.
  assert (A : forall t, answered (t1 ++ t) (checkForDeviation i) (inr m))
    by (intros t; by apply (answered_here [])).
  destruct m as [m|].
  - unfold probeStateDeviationRefresh, eventWarning, PipelineRefreshed. cbn [call pbind hwp].
    intros [] _ [] _. eapply hwp_seq; [by apply (h_refresh i [])|].
    intros t2 res [Rf E]. simpl. split; [done|]. left. rewrite app_nil_r.
    split; [by exists m|]. apply refreshed_app. do 2 apply refreshed_cons. exact Rf.
  - eapply (hwp_seq _ _ (fun _ r => r = None)).
    { destruct (ConnectorsManaged (Instance i)); [|done].
      eapply hwp_mono; [by apply h_connector_state|]. by intros t r [_ ->]. }
    intros t2 ? ->. cbn beta iota. case_bool_decide as S.
    + eapply hwp_seq; [apply h_valid|]. intros t3 res [Sv E]. simpl. split; [done|].
      right. split; [apply A|]. rewrite decide_True by done. intros M. rewrite app_nil_r.
      specialize (Sv M). apply (served_app (t1 ++ t2) _ []) in Sv.
      by rewrite app_nil_r, <- app_assoc in Sv.
    + eapply hwp_mono; [by apply h_invalid|]. intros t3 r [E G]. split; [done|].
      right. split; [apply A|]. rewrite decide_False by done. intros Gu.
      do 2 apply refreshed_app. by apply G.
Qed.

Lemma untouched_released t1 t2 t3 : untouched t1 -> untouched t3 -> released t2 -> released (t1 ++ t2 ++ t3).
Proof.
  intros (P1 & S1 & _) (P3 & S3 & _) (q & P2 & F & S2). exists q. autorewrite with cyndi_trace.
  by rewrite P1, P2, P3, S1, S2, S3.
Qed.

Lemma h_body :
  script_renders -> connector_renders -> good_connectors ->
  hwp (reconcile_body i None) (fun t r => r.2.2 = None /\ forward t).
Proof.
  intros Sr Cr Gd. pose proof R as [Cf Cn Og]. unfold reconcile_body. cbn [pbind].
  eapply hwp_seq; [by eapply h_cleanup|]. intros t1 ? [U1 ->].
  cbn [Datatypes.app report_errors pbind call]. cbn [hwp]. intros env _.
  destruct (GetState (Instance i)) eqn:S; unfold forward; rewrite S; simpl bool_decide; cbn beta iota zeta.
  5: { eapply (hwp_seq (finalize i)); [apply h_finalize|]. intros t2 res [Rl ->]. simpl. split; [done|].
       rewrite app_nil_r.
       apply (untouched_released (t1 ++ [Obs (Getenv "EPHEMERAL") env]) _ []) in Rl;
         [|by apply untouched_app|done].
       by rewrite app_nil_r, <- app_assoc in Rl. }
  all: eapply (hwp_seq _ _ (fun t _ => wlog t = []));
    [unfold InitLabels; cbn [call pbind hwp]; by intros [] _ [] _ [] _ [] _ [] _ [] _ [] _|].
  all: intros t2 _ W2.
  1: { eapply hwp_seq; [by apply h_new|].
       intros t3 res [Ss E]. simpl. split; [done|]. rewrite app_nil_r.
       by apply sync_started_app, (sync_started_app [_]), sync_started_app. }
  all: assert (Lv : live (Instance i)) by (unfold live; destruct (DeletionTimestamp (Meta (Instance i))) eqn:D;
    [exfalso; assert (GetState (Instance i) = STATE_REMOVED) by (apply GetState_removed; by rewrite D);
     congruence|done]).
  all: assert (V : PipelineVersion (Status (Instance i)) <> EmptyString)
    by (intros V; assert (GetState (Instance i) = STATE_NEW) by (by apply GetState_new); congruence).
  all: eapply hwp_mono; [by apply h_running|]; intros t3 r [E F]; split; [done|];
    rewrite S in F; set (pre := t1 ++ [Obs (Getenv "EPHEMERAL") env] ++ t2);
    assert (Ep : forall t, t1 ++ Obs (Getenv "EPHEMERAL") env :: t2 ++ t = pre ++ t)
      by (intros t; unfold pre; by rewrite <- !app_assoc); rewrite ?Ep;
    lazymatch goal with |- True => done | _ =>
      destruct F as [F|[A F]]; [left; by apply deviated_app|right; split; [by apply answered_right|]]
    end.
  - intros G. by apply refreshed_app, F.
  - intros M. specialize (F M). apply (served_app pre _ []) in F. by rewrite app_nil_r in F.
  - intros G. by apply refreshed_app, F.
Qed.

(** *** The validation controller *)

(** The verdict of a validation is recorded. *)
Definition verdict_recorded (inv : BaseDatabase) (t : list obs) : Prop :=
  exists v threshold cur,
    let u := with_active cur (State.act (Refinement.recorded v) (Instance i)) in
    Validate.percentage_threshold i = Some threshold /\
    ValidationLemmas.judged i inv (InventoryDbSchema cfg) threshold t v /\
    answered t (GetCurrentTable (AppDb i)) (inr cur) /\
    (Validate.isValid v = true -> GetState u = STATE_VALID) /\
    (Status u = Status (Instance i) /\ wlog t = [] \/
     exists q, wlog t = [Obs (KUpdateStatus u) (inr q)] /\ stored_as u q).

Lemma h_validate inv c :
  InventoryDb i = Some inv -> connection inv = Some c ->
  hwp (Validate.validate i (InventoryDbSchema cfg)) (fun t r => exists v, r = inr v).
Proof.
  intros D C. destruct R as [Cf Cn Og]. unfold Validate.validate.
  eapply hwp_seq; [by eapply h_count|]. intros t1 ? [_ [a ->]]. cbn beta iota zeta.
  rewrite D. cbn [deref].
  eapply hwp_seq; [by eapply h_count|]. intros t2 ? [_ [h ->]]. cbn beta iota zeta.
  unfold AppHostCount. cbn [call pbind hwp]. intros [] _.
  assert (P : exists th, Validate.percentage_threshold i = Some th).
  { unfold Validate.percentage_threshold, getValidationConfig. rewrite Cf.
    destruct (Bool.eqb _ _); eauto. }
  destruct P as [th P]. rewrite P. cbn [deref].
  assert (Fin : forall p a b c d (v : Validate.verdict)
      (Q : list obs -> result Validate.verdict -> Prop),
    (forall t, Q t (inr v)) -> hwp (ValidationFinished p a b c d ;; Ret (inr v)) Q).
  { intros p x y z d v Q HQ. unfold ValidationFinished. cbn [call pbind hwp].
    intros [] _ [] _ [] _. destruct (negb d); cbn [call pbind hwp]; [intros [] _|]; apply HQ. }
  destruct (Float64.ltb _ _); [apply Fin; eauto|].
  eapply hwp_seq; [by eapply h_ids|]. intros t3 ? [_ [hi ->]]. cbn beta iota zeta.
  eapply hwp_seq; [by eapply h_ids|]. intros t4 ? [_ [ai ->]]. cbn beta iota zeta.
  apply Fin. eauto.
Qed.

Lemma h_record v :
  hwp (Validation.record_verdict i v) (fun t j => wlog t = [] /\
    j = on_instance (State.act (Refinement.recorded v)) i).
Proof.
  unfold Validation.record_verdict, Refinement.recorded. destruct (Validate.isValid v).
  - eapply (hwp_seq _ _ (fun t _ => wlog t = [])).
    { case_bool_decide; [|done]. unfold eventNormal. simpl. by intros [] _. }
    intros t [] W. simpl. by rewrite app_nil_r.
  - cbn [call pbind hwp]. by intros [] _.
Qed.

Lemma h_run_validation inv c :
  InventoryDb i = Some inv -> connection inv = Some c ->
  live (Instance i) -> PipelineVersion (Status (Instance i)) <> EmptyString ->
  hwp (Validation.run_validation i) (fun t res => res.2 = None /\ verdict_recorded inv t).
Proof.
  intros D C Lv V. pose proof R as [Cf Cn Og]. unfold Validation.run_validation. rewrite Cf. cbn [deref].
  eapply hwp_seq; [eapply hwp_runs; by eapply h_validate|]. intros t1 ? [[v ->] Rv]. cbn beta iota.
  pose proof (reader_wlog _ _ _ (ValidationLemmas.validate_read_only _ _) Rv) as W1.
  apply ValidationLemmas.validate_runs in Rv as (inv' & th & D' & Th & J).
  rewrite D in D'. injection D' as <-.
  eapply hwp_seq; [apply h_record|]. intros t2 ? [W2 ->].
  eapply hwp_mono; [apply (h_status _ conn); [done|simpl; by rewrite Cf]|].
  intros t3 res [(cur & A & S) E]. split; [done|]. exists v, th, cur. cbn zeta.
  split; [done|]. split; [by apply (ValidationLemmas.judged_within _ _ _ _ [])|].
  split; [by do 2 apply answered_right|]. split.
  - intros Ok. rewrite (Refinement.same_core_state _ _ (Refinement.same_core_active cur _)).
    unfold State.act, Refinement.recorded. rewrite Ok.
    set (message := ("Validation succeeded - " +s+ Validation.mismatch_message v)).
    set (p := SetValid ConditionTrue "ValidationSucceeded" message (Validate.hostCount v) (Instance i)).
    rewrite (GetState_live p).
    + unfold p. rewrite SetValid_version, GetValid_SetValid.
      by destruct (String.eqb_spec (PipelineVersion (Status (Instance i))) EmptyString).
    + unfold live, p. by rewrite SetValid_meta.
  - rewrite !wlog_app, W1, W2. simpl. cbn [on_instance set_Instance Instance OriginalInstance] in S.
    rewrite Og in S. exact S.
Qed.

(** What a validation leaves: the check, when it is enabled, found a deviation,
    or the verdict. *)
Definition validated (check : bool) (inv : BaseDatabase) (t : list obs) : Prop :=
  check = true /\ deviated t \/ (check = true -> conforms t) /\ verdict_recorded inv t.

Lemma h_validation_body check inv c :
  connector_renders -> good_connectors ->
  InventoryDb i = Some inv -> connection inv = Some c ->
  live (Instance i) -> PipelineVersion (Status (Instance i)) <> EmptyString ->
  hwp (Validation.reconcile_body check i) (fun t res => res.2 = None /\ validated check inv t).
Proof.
  intros Cr Gd D C Lv V. unfold Validation.reconcile_body.
  assert (N : bool_decide (GetState (Instance i) = STATE_REMOVED) ||
              bool_decide (GetState (Instance i) = STATE_NEW) = false).
  { rewrite !bool_decide_eq_false_2; [done| |].
    - intros S%GetState_new. by destruct S.
    - intros S%GetState_removed. by rewrite Lv in S. }
  rewrite N.
  assert (Rv : forall t0, wlog t0 = [] -> (check = true -> forall t, conforms (t0 ++ t)) ->
    hwp (Validation.run_validation i) (fun t res => res.2 = None /\ validated check inv (t0 ++ t))).
  { intros t0 W0 Cf. eapply hwp_mono; [by eapply h_run_validation|].
    intros t res [E (v & th & cur & Th & J & A & H)]. split; [done|]. right. split; [auto|].
    exists v, th, cur. rewrite wlog_app, W0.
    split_and!; [done| |by apply answered_right|by destruct H..].
    rewrite <- (app_nil_r t). by apply ValidationLemmas.judged_within. }
  destruct check; [|by apply (Rv [])].
  eapply hwp_seq; [by apply hwp_runs, h_deviation|]. intros t1 ? [[W1 [m ->]] R1]. cbn beta iota.
  assert (A : forall t, answered (t1 ++ t) (checkForDeviation i) (inr m))
    by (intros t; by apply (answered_here [])).
  destruct m as [m|]; [|by apply Rv].
  unfold probeStateDeviationRefresh, eventWarning, PipelineRefreshed. cbn [call pbind hwp].
  intros [] _ [] _. eapply hwp_mono; [by apply (h_refresh i [])|].
  intros t2 res [Rf E]. split; [done|]. left. split; [done|]. split; [by exists m|].
  apply refreshed_app. do 2 apply refreshed_cons. exact Rf.
Qed.

End Iterations.

End Healthy.

End Progress.

(** ** Properties *)

Module ProgressProps.
Import Progress.

Section Props.
Context {L : Libs} {LOK : LibsOk L} (good : gvalue -> Prop).

(** C7: Progress. When no call of an iteration fails (and the configured
    script and template can be rendered, and connectors be compared), the
    iteration succeeds and takes the pipeline forward. The pipeline
    controller: a deleted pipeline loses its finalizer; a new one is stored in
    INITIAL_SYNC, with a version named after the time, the finalizer and, if
    managed, after a connector was created for the version. When the check finds
    a deviation, a running pipeline is stored as NEW; otherwise a valid one has
    its view use its table, and one in INITIAL_SYNC or INVALID that has
    exhausted its attempts is stored as NEW. The validation controller: when
    the check is enabled and finds a deviation, the pipeline is stored as NEW;
    otherwise the verdict of a validation is recorded, and with a positive
    verdict the pipeline is VALID. *)
Theorem iterations_progress (i : ReconcileIteration) (cfg : CyndiConfiguration) (conn : nat)
    (t : list obs) :
  ready i cfg conn -> script_renders cfg -> connector_renders good i -> good_connectors good i ->
  Forall (healthy good) t ->
  (forall r, runs (reconcile_body i None) t r ->
     exists j d, r = Some (j, (d, None)) /\ forward i cfg conn t) /\
  (forall check inv c r, InventoryDb i = Some inv -> connection inv = Some c ->
     live (Instance i) -> PipelineVersion (Status (Instance i)) <> EmptyString ->
     runs (Validation.reconcile_body check i) t r ->
     exists d, r = Some (d, None) /\ validated i cfg check inv t).
Proof.
  intros Rd Sr Cr Gd H. split.
  - intros r Rn. destruct (hwp_sound good _ _ _ _ (h_body good i cfg conn Rd Sr Cr Gd) Rn H)
      as ([j [d e]] & -> & E & F). simpl in E. subst e. eauto.
  - intros check inv c r D C Lv V Rn.
    destruct (hwp_sound good _ _ _ _
      (h_validation_body good i cfg conn Rd check inv c Cr Gd D C Lv V) Rn H) as ([d e] & -> & E & F).
    simpl in E. subst e. eauto.
Qed.

End Props.

(** *** A concrete run *)

Existing Instances Sim.libs Sim.libs_ok.

(** The valid pipeline of the converged world: its connector is the good one. *)
Definition vi : ReconcileIteration := ConvergedProps.settled_iteration.
Definition vcfg : CyndiConfiguration := ConvergedProps.settled_config.
Definition vgood (c : gvalue) : Prop := c = ConvergedProps.settled_connector.

Lemma vi_ready : ready vi vcfg 1.
Proof. split; vm_compute; reflexivity. Qed.

(** The small template renders and decodes. *)
Lemma small_decodes (p : Rendering.params) :
  Rendering.plain_text (Rendering.pTable p) -> Rendering.plain_text (Rendering.pTopic p) ->
  Rendering.plain_text (Rendering.pUser p) ->
  exists s, Tmpl.render Sim.small_template (Rendering.data p) = Some s /\
    json_Unmarshal (Strings.ReplaceAll s newline EmptyString) =
      inr (GMap [("table.name.format", GString ("inventory." +s+ Rendering.pTable p));
                 ("topics", GString (Rendering.pTopic p));
                 ("connection.user", GString (Rendering.pUser p))]).
Proof.
  intros [U1 V1] [U2 V2] [U3 V3].
  set (q x := [Json.dquote; x; Json.dquote]).
  exists (cat ["{"; Json.dquote +s+ "table.name.format" +s+ Json.dquote +s+ ": " +s+ Json.dquote +s+ "inventory.";
    Rendering.pTable p; Json.dquote +s+ ", " +s+ Json.dquote +s+ "topics" +s+ Json.dquote +s+ ": " +s+ Json.dquote;
    Rendering.pTopic p; Json.dquote +s+ ", " +s+ Json.dquote +s+ "connection.user" +s+ Json.dquote +s+ ": " +s+ Json.dquote;
    Rendering.pUser p; Json.dquote +s+ "}"]).
  split; [destruct p; vm_compute; reflexivity|].
  rewrite Rendering.ReplaceAll_newline, Rendering.strip_cat. cbn [fmap list_fmap].
  rewrite (Rendering.strip_plain (Rendering.pTable p)), (Rendering.strip_plain (Rendering.pTopic p)),
    (Rendering.strip_plain (Rendering.pUser p)) by by split.
  pose (m1 := JsonDecode.JMember "" "table.name.format" " " (q ("inventory." +s+ Rendering.pTable p))
    (GString ("inventory." +s+ Rendering.pTable p))).
  pose (m2 := JsonDecode.JMember " " "topics" " " (q (Rendering.pTopic p)) (GString (Rendering.pTopic p))).
  pose (m3 := JsonDecode.JMember " " "connection.user" " " (q (Rendering.pUser p)) (GString (Rendering.pUser p))).
  assert (Ok : forall w k x, JsonDecode.all_chars JsonDecode.is_space w = true ->
    Rendering.plain_text k -> Rendering.plain_text x ->
    JsonDecode.jm_ok (JsonDecode.JMember w k " " (q x) (GString x))).
  { intros w k x W [] []. split_and!; try done. cbn [q JsonDecode.jm_text cat JsonDecode.jm_value].
    rewrite append_nil_r. by apply JsonDecode.reads_string. }
  pose proof (JsonDecode.Unmarshal_stream [inr m1; inr m2] m3) as D.
  match type of D with _ -> _ -> _ -> JsonDecode.Unmarshal ?x = _ =>
    match goal with |- JsonDecode.Unmarshal ?y = _ =>
      assert (E : y = x) by
        (rewrite <- JsonDecode.jm_then_eq, <- JsonDecode.stream_then_eq;
         destruct p; vm_compute; reflexivity); rewrite E, D; [reflexivity|..]
    end end.
  - repeat (apply List.Forall_cons; [apply Ok; [reflexivity|Rendering.plain_tac|]|]); [..|apply List.Forall_nil].
    + apply Rendering.plain_app; [Rendering.plain_tac|done].
    + done.
  - by apply Ok; [reflexivity|Rendering.plain_tac|].
  - cbn [JsonDecode.stream_text JsonDecode.piece_text List.length]. rewrite !append_length. simpl. lia.
Qed.

(** A rendered connector can be given an owner. *)
Lemma owned m name ns c v : exists o,
  SetControllerReference m (SetGroupVersionKind (connector_object name ns c v) connectorGVK) = inr o.
Proof. eexists. reflexivity. Qed.

(** An iteration with the small template and values that need no escapes *)
Record small (i : ReconcileIteration) (cfg : CyndiConfiguration) : Prop := {
  sm_config : config i = Some cfg;
  sm_template : ConnectorTemplate cfg = Sim.small_template;
  sm_table : Rendering.plain_text (TableName_ (Status (Instance i)));
  sm_topic : Rendering.plain_text (cfgTopic cfg);
  sm_user : Rendering.plain_text (User (AppDBParams i));
  sm_app : Rendering.plain_text (AppName (Spec (Instance i)))
}.

(** It renders its connectors, *)
Lemma small_renders good i cfg : small i cfg -> connector_renders good i.
Proof.
  intros [C T Pt Pp Pu Pa] p name Sp _ _ Tb.
  assert (Pt' : Rendering.plain_text (TableName_ (Status p))).
  { destruct Tb as [->|[now ->]]; [done|].
    unfold TableName. repeat apply Rendering.plain_app; Rendering.plain_tac. }
  unfold createConnector. cbn [set_Instance config]. rewrite C. cbn [deref].
  unfold CreateConnector, newConnectorResource. cbn [call pbind hwp]. intros env _.
  rewrite Rendering.template_values_data.
  set (c := connector_config (set_Instance p i) cfg).
  destruct (small_decodes (Rendering.params_of (is_ephemeral env) c)) as (s & Rs & Js).
  - exact Pt'.
  - exact Pp.
  - unfold Rendering.params_of, c. cbn [Rendering.pUser connector_config ccAppName set_Instance Instance DB].
    rewrite Sp. destruct (is_ephemeral env); [done|].
    repeat apply Rendering.plain_app; Rendering.plain_tac.
  - destruct (template_renders _ _ _ Rs) as (t & Pr & Ex).
    assert (Template c = Sim.small_template) as -> by exact T.
    rewrite Pr, Ex, Js. cbn [pbind].
    match goal with |- context [SetControllerReference ?m (SetGroupVersionKind (connector_object ?n ?ns ?c ?v) _)] =>
      destruct (owned m n ns c v) as [o E]; rewrite E end.
    cbn [hwp pbind]. eauto.
Qed.

(** and what it renders has three entries. *)
Definition three_entries (c : gvalue) : Prop := exists table topic user,
  NestedMap c ["spec"; "config"] = inr (Some
    [("table.name.format", GString table); ("topics", GString topic);
     ("connection.user", GString user)]).

Lemma small_entries i cfg name t n :
  small i cfg -> runs (createConnector i name true) t (Some (inr n)) -> three_entries n.
Proof.
  intros [C T Pt Pp Pu Pa] Rn.
  destruct (dry_run_created _ _ _ _ _ C Rn) as (env & _ & [B _]).
  destruct (bf_config _ _ _ _ B) as (tm & text & v & P & X & J & F).
  rewrite Rendering.template_values_data in X.
  set (c := connector_config i cfg) in *.
  destruct (small_decodes (Rendering.params_of (is_ephemeral env) c)) as (s & Rs & Js).
  - exact Pt.
  - exact Pp.
  - unfold Rendering.params_of, c. cbn [Rendering.pUser connector_config ccAppName DB].
    destruct (is_ephemeral env); [done|]. repeat apply Rendering.plain_app; Rendering.plain_tac.
  - destruct (template_renders _ _ _ Rs) as (t' & Pr & Ex).
    assert (Et : Template c = Sim.small_template) by exact T.
    rewrite Et, Pr in P. injection P as <-. rewrite Ex in X. injection X as <-.
    rewrite Js in J. injection J as <-. apply NestedMap_field in F.
    do 3 eexists. exact F.
Qed.

(** Such connectors can be compared. *)
Lemma three_entries_comparable c n : three_entries c -> three_entries n -> config_problem c n <> None.
Proof.
  intros (a & b & u & E) (a' & b' & u' & E'). unfold config_problem. rewrite E, E'.
  unfold diff_normalized. simpl.
  by destruct (String.eqb a a'), (String.eqb b b'), (String.eqb u u').
Qed.

Lemma small_connectors (good : gvalue -> Prop) i cfg :
  small i cfg ->
  (forall c, good c -> three_entries c /\
     forall v, exists c', SetNestedField c v ["spec"; "state"] = inr c') ->
  good_connectors good i.
Proof.
  intros S H c G. destruct (H c G) as [T Sn]. split; [exact Sn|].
  intros name t n Rn. apply three_entries_comparable; [done|by eapply small_entries].
Qed.

Lemma vi_small : small vi vcfg.
Proof.
  split; [exact (rd_config _ _ _ vi_ready)|vm_compute; reflexivity|..];
    apply Rendering.plain_of_ascii; vm_compute; reflexivity.
Qed.

Lemma vi_renders : connector_renders vgood vi.
Proof. exact (small_renders _ _ _ vi_small). Qed.

Lemma vgood_entries c : vgood c -> three_entries c /\
  forall v, exists c', SetNestedField c v ["spec"; "state"] = inr c'.
Proof.
  intros ->. split; [do 3 eexists; vm_compute; reflexivity|].
  intros v. eexists. vm_compute. reflexivity.
Qed.

Lemma vgood_connectors : good_connectors vgood vi.
Proof. exact (small_connectors _ _ _ vi_small vgood_entries). Qed.

Definition vbody : prog (ReconcileIteration * Result) := reconcile_body vi None.
Definition vtrace : list obs := trace_of Sim.world_handler vbody Sim.world_valid.

(** The only table *)
Ltac healthy_rows :=
  eexists; exists ["hosts_v1_1"]; repeat split; try reflexivity; try (simpl; lia);
  intros n I%list_elem_of_singleton; subst n; simpl; lia.

Definition settled_value : gvalue := Eval vm_compute in ConvergedProps.settled_connector.

Lemma vgood_value : vgood settled_value.
Proof. vm_compute. reflexivity. Qed.

(** A concrete trace, call by call *)
Ltac healthy_trace :=
  match goal with |- Forall (healthy _) ?tr =>
    let t := eval vm_compute in tr in
    let E := fresh "E" in assert (E : tr = t) by (vm_compute; reflexivity); rewrite E; clear E
  end;
  repeat (apply List.Forall_cons; [lazymatch goal with
    | |- healthy _ (Obs (KGetConnector _ _) _) => simpl; eexists; split; [reflexivity|exact vgood_value]
    | |- healthy _ (Obs (PgQuery _ _ ScanStringPtr) _) =>
        first [solve [healthy_rows]
              |simpl; eexists; exists []; repeat split; try (simpl; lia); intros ? []%elem_of_nil]
    | |- healthy _ (Obs (PgQuery _ _ ScanString) _) =>
        simpl; lazymatch goal with |- exists rs l, inr ?r = inr rs /\ _ =>
          exists r, (omap (fun x => match x with inr s => Some s | inl _ => None end) (rows_data r)) end;
        repeat split; reflexivity
    | |- _ => simpl; repeat first [done | eexists | split]
    end|]);
  apply List.Forall_nil.

Lemma vtrace_healthy : Forall (healthy vgood) vtrace.
Proof. healthy_trace. Qed.

Lemma iterations_progress_witness :
  exists j d, result_of Sim.world_handler vbody Sim.world_valid = Some (j, (d, None)) /\
    forward vi vcfg 1 vtrace.
Proof.
  assert (Sr : script_renders vcfg).
  { eexists. split; [vm_compute; reflexivity|]. intros n. eexists. vm_compute. reflexivity. }
  assert (Rn : exists r, result_of Sim.world_handler vbody Sim.world_valid = r) by by eexists.
  destruct Rn as [r Rn].
  destruct (proj1 (iterations_progress vgood vi vcfg 1 vtrace vi_ready Sr
    vi_renders vgood_connectors vtrace_healthy) r
    (runs_exec Sim.world_handler vbody Sim.world_valid r Rn)) as (j & d & E & F).
  exists j, d. split; [|exact F]. rewrite Rn. exact E.
Defined.

End ProgressProps.
