(* ===== verification/Lifecycle.v ===== *)
(** * From a new pipeline to a served view

    Three iterations, one after the other: the pipeline controller starts a
    version, the validation controller validates it, the pipeline controller
    publishes it. The theorem composes what Progress.v shows of one iteration:
    each of them fetched what the one before stored. *)

From Stdlib Require Import ZArith Lia String.
From S2P Require Import Prelude GoStd Float GoJson Lang K8sLib JsonDecode Template Rendering Api State Utils Config Effects.
From S2P Require Import Database Connect Iteration Validate Pipeline Validation Sim.
From S2P Require Import StatusUpdate Stale Deviation Reconcile ReconcileProps ValidationProps Converged Setup Progress.
Import Api State Config Database Connect Iteration Pipeline StatusUpdate Stale Deviation Reconcile.

Module Lifecycle.
Import Progress.

Section Lifecycle.
Context {L : Libs} {LOK : LibsOk L} (good : gvalue -> Prop).

(** An iteration in a healthy environment *)
Record favourable (i : ReconcileIteration) (cfg : CyndiConfiguration) (conn : nat) (t : list obs)
  : Prop := {
  fv_ready : ready i cfg conn;
  fv_script : script_renders cfg;
  fv_template : connector_renders good i;
  fv_connectors : good_connectors good i;
  fv_healthy : Forall (healthy good) t
}.

(** The last status the run sent was stored as [p]. *)
Definition stores (t : list obs) (p : CyndiPipeline) : Prop :=
  exists u l, status_updates t = l ++ [(u, inr p)].

Lemma stores_sent t pre u q p :
  wlog t = pre ++ [Obs (KUpdateStatus u) (inr q)] -> stores t p -> q = p.
Proof.
  intros W (u' & l & E). rewrite status_wlog, W, status_updates_app in E.
  apply app_inj_tail in E as [_ [= _ ->]]. done.
Qed.

Lemma stores_nothing t p : wlog t = [] -> ~ stores t p.
Proof.
  intros W (u & l & E). rewrite status_wlog, W in E. by apply app_cons_not_nil in E.
Qed.

(** The state is that of the status that was sent. *)
Lemma stored_state u q : stored_as u q -> GetState q = GetState u.
Proof.
  intros [_ D _ _ S]. unfold GetState, IsValid, GetValid. by rewrite D, S.
Qed.

Lemma stored_managed u q : stored_as u q -> ConnectorsManaged q = ConnectorsManaged u.
Proof. intros [_ _ _ Sp _]. unfold ConnectorsManaged. by rewrite Sp. Qed.

Lemma started_spec p cfg v : Spec (started p cfg v) = Spec p.
Proof. unfold started, TransitionToInitialSync. by repeat case_match. Qed.

(** Recording a verdict keeps the version, the table and the specification. *)
Lemma recorded_keeps p vd :
  let q := State.act (Refinement.recorded vd) p in
  PipelineVersion (Status q) = PipelineVersion (Status p) /\
  TableName_ (Status q) = TableName_ (Status p) /\ Spec q = Spec p.
Proof.
  cbn zeta. unfold Refinement.recorded, act. destruct (Validate.isValid vd);
    rewrite SetValid_version, SetValid_spec; (split; [done|split; [|done]]); apply SetValid_names.
Qed.

(** ** The iterations *)

Lemma favourable_body i cfg conn t r :
  favourable i cfg conn t -> runs (Pipeline.reconcile_body i None) t r ->
  exists j d, r = Some (j, (d, None)) /\ forward i cfg conn t.
Proof.
  intros [Rd Sr Cr Gd H] Rn.
  destruct (hwp_sound good _ _ _ _ (h_body good i cfg conn Rd Sr Cr Gd) Rn H) as ([j [d e]] & -> & E & F).
  simpl in E. subst e. eauto.
Qed.

(** The version [v] is being synchronised into its table. *)
Record syncing (v : string) (p : CyndiPipeline) : Prop := {
  sy_state : GetState p = STATE_INITIAL_SYNC;
  sy_version : PipelineVersion (Status p) = v;
  sy_table : TableName_ (Status p) = TableName v;
  sy_managed : ConnectorsManaged p = true
}.

Lemma favourable_validation i cfg conn check inv c t r v :
  favourable i cfg conn t -> InventoryDb i = Some inv -> connection inv = Some c ->
  syncing v (Instance i) -> runs (Validation.reconcile_body check i) t r ->
  exists d, r = Some (d, None) /\ validated i cfg check inv t.
Proof.
  intros [Rd Sr Cr Gd H] D C [Ss Sv _ _] Rn.
  assert (Lv : live (Instance i)).
  { unfold live. destruct (DeletionTimestamp (Meta (Instance i))) eqn:E; [|done].
    assert (GetState (Instance i) = STATE_REMOVED) by (apply GetState_removed; by rewrite E).
    congruence. }
  assert (V : PipelineVersion (Status (Instance i)) <> EmptyString).
  { intros E. assert (GetState (Instance i) = STATE_NEW) by (by apply GetState_new). congruence. }
  destruct (hwp_sound good _ _ _ _
    (h_validation_body good i cfg conn Rd check inv c Cr Gd D C Lv V) Rn H) as ([d e] & -> & E & F).
  simpl in E. subst e. eauto.
Qed.

Lemma start_stores i cfg t p :
  sync_started i cfg t -> ConnectorsManaged (Instance i) = true -> stores t p ->
  exists now, Obs NowUnixNano now ∈ t /\ syncing ("1_" +s+ Strconv.FormatInt now) p.
Proof.
  intros (p0 & now & cur & q & pre & W & Sa & Nw & _ & Sp & _ & _ & S & V & M) Mg St.
  apply (stores_sent _ _ _ _ _ W) in St as ->. exists now. split; [done|].
  destruct (M Mg) as [T _]. split.
  - by rewrite (stored_state _ _ Sa).
  - by rewrite (sa_status _ _ Sa).
  - by rewrite (sa_status _ _ Sa).
  - rewrite (stored_managed _ _ Sa). rewrite <- Mg. unfold ConnectorsManaged.
    change (Spec (with_active cur ?x)) with (Spec x). by rewrite started_spec, Sp.
Qed.

(** What a validation of [p] leaves behind when it finds no deviation *)
Lemma verdict_stores i cfg inv t v p :
  verdict_recorded i cfg inv t -> syncing v (Instance i) -> stores t p ->
  exists verdict threshold, Validate.percentage_threshold i = Some threshold /\
    ValidationLemmas.judged i inv (InventoryDbSchema cfg) threshold t verdict /\
    PipelineVersion (Status p) = v /\ TableName_ (Status p) = TableName v /\
    ConnectorsManaged p = true /\
    (Validate.isValid verdict = true -> GetState p = STATE_VALID).
Proof.
  intros (vd & th & cur & Th & J & _ & Ok & St) [Ss Sv Stb Sm] Sp. exists vd, th.
  split; [done|]. split; [done|].
  destruct St as [[_ W]|(q & W & Sa)]; [by apply stores_nothing in Sp|].
  apply (stores_sent _ [] _ _ _ W) in Sp as ->.
  rewrite (stored_managed _ _ Sa), (stored_state _ _ Sa), (sa_status _ _ Sa).
  destruct (recorded_keeps (Instance i) vd) as (K1 & K2 & K3).
  cbn zeta in K1, K2, K3. set (u := State.act (Refinement.recorded vd) (Instance i)) in *.
  split_and!; [|..|exact Ok].
  - rewrite <- Sv, <- K1. done.
  - rewrite <- Stb, <- K2. done.
  - rewrite <- Sm. unfold ConnectorsManaged. change (Spec (with_active cur u)) with (Spec u).
    by rewrite K3.
Qed.

End Lifecycle.
End Lifecycle.

(** ** Properties *)

Module LifecycleProps.
Import Progress ProgressProps Lifecycle.

Section Props.
Context {L : Libs} {LOK : LibsOk L} (good : gvalue -> Prop).

(** C8: A new pipeline goes live. In a healthy environment, let the pipeline
    controller run on a new pipeline with a managed connector, the validation
    controller on what that run stored, and the pipeline controller on what the
    validation stored. All three runs succeed. The first one starts a version
    named after the time. Unless the second one finds a deviation of the
    cluster from it, it judges the data; and if the verdict is positive, the
    third one finds the pipeline valid with this version and, unless it finds a
    deviation, leaves the inventory.hosts view on the table of this version. *)
Theorem new_pipeline_goes_live (i1 i2 i3 : ReconcileIteration) (cfg1 cfg2 cfg3 : CyndiConfiguration)
    (conn1 conn2 conn3 c : nat) (check : bool) (inv : BaseDatabase) (t1 t2 t3 : list obs)
    (r1 r3 : option (ReconcileIteration * Result)) (r2 : option Result) :
  favourable good i1 cfg1 conn1 t1 -> favourable good i2 cfg2 conn2 t2 -> favourable good i3 cfg3 conn3 t3 ->
  GetState (Instance i1) = STATE_NEW -> ConnectorsManaged (Instance i1) = true ->
  InventoryDb i2 = Some inv -> connection inv = Some c ->
  runs (Pipeline.reconcile_body i1 None) t1 r1 -> stores t1 (Instance i2) ->
  runs (Validation.reconcile_body check i2) t2 r2 -> stores t2 (Instance i3) ->
  runs (Pipeline.reconcile_body i3 None) t3 r3 ->
  (exists j1 d1 d2 j3 d3, r1 = Some (j1, (d1, None)) /\ r2 = Some (d2, None) /\
     r3 = Some (j3, (d3, None))) /\
  exists now, Obs NowUnixNano now ∈ t1 /\
    let v := "1_" +s+ Strconv.FormatInt now in
    syncing v (Instance i2) /\
    (check = true /\ deviated i2 t2 \/
     exists verdict threshold, Validate.percentage_threshold i2 = Some threshold /\
       ValidationLemmas.judged i2 inv (InventoryDbSchema cfg2) threshold t2 verdict /\
       (Validate.isValid verdict = true ->
          GetState (Instance i3) = STATE_VALID /\ PipelineVersion (Status (Instance i3)) = v /\
          TableName_ (Status (Instance i3)) = TableName v /\
          (deviated i3 t3 \/ conforms i3 t3 /\ served i3 conn3 t3))).
Proof.
  intros F1 F2 F3 N M Di Ci R1 S1 R2 S2 R3.
  destruct (favourable_body _ _ _ _ _ _ F1 R1) as (j1 & d1 & -> & P1).
  unfold forward in P1. rewrite N in P1.
  destruct (start_stores _ _ _ _ P1 M S1) as (now & Nw & Sy).
  destruct (favourable_validation _ _ _ _ _ _ _ _ _ _ F2 Di Ci Sy R2) as (d2 & -> & P2).
  destruct (favourable_body _ _ _ _ _ _ F3 R3) as (j3 & d3 & -> & P3).
  split; [eauto 10|]. exists now. split; [done|]. cbn zeta. split; [done|].
  destruct P2 as [P2|[_ P2]]; [by left|right].
  destruct (verdict_stores _ _ _ _ _ _ P2 Sy S2) as (vd & th & Th & J & V & T & Mg & Ok).
  exists vd, th. split; [done|]. split; [done|]. intros Iv. specialize (Ok Iv).
  split_and!; [done..|]. unfold forward in P3. rewrite Ok in P3.
  destruct P3 as [P3|[C P3]]; [by left|right; auto].
Qed.

End Props.

(** *** A concrete life *)

Existing Instances Sim.libs Sim.libs_ok.

(** A fresh resource; its table once the connector has filled it; and the
    pipeline once the data has been validated *)
Definition i1 : ReconcileIteration := Sim.iteration_of Sim.world0.
Definition i2 : ReconcileIteration := ValidationProps.vi.
Definition i3 : ReconcileIteration := Sim.iteration_of ReconcileProps.validated.
Definition settings (i : ReconcileIteration) : CyndiConfiguration :=
  match config i with Some cfg => cfg | None => ConfigProps.config0 end.
Definition inventory : BaseDatabase :=
  match InventoryDb i2 with Some db => db | None => AppDb i2 end.

Definition t1 : list obs := ReconcileProps.body_trace Sim.world0.
Definition t2 : list obs :=
  trace_of Sim.world_handler ValidationProps.vbody ValidationProps.synced.
Definition t3 : list obs := ReconcileProps.body_trace ReconcileProps.validated.

Ltac small_iteration :=
  split; [vm_compute; reflexivity|vm_compute; reflexivity|..];
    apply Rendering.plain_of_ascii; vm_compute; reflexivity.

Ltac favourable :=
  split;
    [split; vm_compute; reflexivity
    |eexists; split; [vm_compute; reflexivity|intros n; eexists; vm_compute; reflexivity]
    |match goal with |- connector_renders _ ?i =>
       apply (small_renders _ i (settings i)); small_iteration end
    |match goal with |- good_connectors _ ?i =>
       apply (small_connectors _ i (settings i)); [small_iteration|exact vgood_entries] end
    |healthy_trace].

Lemma first_favourable : favourable vgood i1 (settings i1) 1 t1.
Proof. favourable. Qed.

Lemma second_favourable : favourable vgood i2 (settings i2) 1 t2.
Proof. favourable. Qed.

Lemma third_favourable : favourable vgood i3 (settings i3) 1 t3.
Proof. favourable. Qed.

Lemma first_stores : stores t1 (Instance i2).
Proof. eexists _, []. vm_compute. reflexivity. Qed.

Lemma second_stores : stores t2 (Instance i3).
Proof. eexists _, []. vm_compute. reflexivity. Qed.

(** The version is 1_1, the validated pipeline has its table, and the last run
    switched the view to it. *)
Lemma new_pipeline_goes_live_witness :
  (exists now, Obs NowUnixNano now ∈ t1 /\
     syncing ("1_" +s+ Strconv.FormatInt now) (Instance i2)) /\
  GetState (Instance i3) = STATE_VALID /\ TableName_ (Status (Instance i3)) = "hosts_v1_1" /\
  (execs t3).*1 = [viewTemplate "hosts_v1_1"; grant_query].
Proof.
  split; [|vm_compute; split_and!; reflexivity].
  destruct (new_pipeline_goes_live vgood i1 i2 i3 (settings i1) (settings i2) (settings i3) 1 1 1 2
    true inventory t1 t2 t3
    (result_of Sim.world_handler (ReconcileProps.body Sim.world0) Sim.world0)
    (result_of Sim.world_handler (ReconcileProps.body ReconcileProps.validated) ReconcileProps.validated)
    (result_of Sim.world_handler ValidationProps.vbody ValidationProps.synced)
    first_favourable second_favourable third_favourable)
    as (_ & now & Nw & Sy & _).
  - vm_compute. reflexivity.
  - vm_compute. reflexivity.
  - vm_compute. reflexivity.
  - vm_compute. reflexivity.
  - exact (ReconcileProps.body_runs Sim.world0).
  - exact first_stores.
  - exact ValidationProps.vbody_runs.
  - exact second_stores.
  - exact (ReconcileProps.body_runs ReconcileProps.validated).
  - exists now. split; [exact Nw|exact Sy].
Defined.

End LifecycleProps.
